(* ===== verification/_CoqProject ===== *)
-Q . S2P
Prelude.v
GoStd.v
RegExp.v
Config.v
GoEth.v
Reference.v
Bundle.v
Vectors.v
Selection.v
Execution.v
Encoding.v
NetStd.v
Ciphertext.v
HttpMux.v
WireTypes.v
Canonical.v
Decrypt.v
Verifier.v
RefWorld.v
Escrow.v
Verdict.v
Typing.v
Extension.v
Server.v
Simulation.v
Report.v
Checks.v
CheckSpecs.v
Safety.v
Revert.v
TeeCalls.v
Registration.v
ExtensionSetup.v
RegistrationSpecs.v
Instructions.v
Commands.v
CommandSpecs.v
VerifyDeploy.v
LocalNode.v
LocalNodeSpecs.v
Process.v
Standalone.v
FccVerdict.v
Signing.v
Contract.v
ContractSpecs.v
InstructionSender.v
ContractSimulation.v
Settlement.v
ChainAudit.v
ChainAuditSpecs.v
Phase5.v
Phase5Specs.v
Gateway.v
