(* ===== verification/Prelude.v ===== *)
(** * WorkProof: a verification development

    WorkProof is an escrow for contract work on Flare.  A client and a
    contractor agree on a job; an extension of a TEE node then verifies the
    delivered contract against a hidden bundle of test vectors and returns a
    verdict, which the escrow contract settles.  This library models the code
    that decides: the extension with its verifier, the escrow contract and its
    simulation in Go, the runner that drives a job through the escrow, and the
    tools that check a deployment and register its machines.

    ** The program and its parts

    A VERIFY instruction reaches the extension over HTTP
    (go/internal/extension), which decodes it and calls the verifier
    (go/internal/verifier).  The verifier compares the instruction with the
    job that the escrow contract holds, reads the artifact's code and the
    locked random number from the chain, fetches the encrypted bundle from a
    gateway, has the local node decrypt it, validates it, draws the vectors
    that the random number selects, runs each of them against the artifact at
    the committed block, and builds the verdict that the extension encodes.

    The instruction comes from the escrow contract
    (contracts/WorkProofEscrow.sol), which holds the tokens of every job.  Its
    functions move a job from its creation over acceptance, submission, the
    random number and the dispatch to the settlement, which pays by a verdict
    that the node of the job signed (contracts/lib/FccVerdict.sol), or back to
    the client.

    ** The files

    - Prelude.v: errors with their unwrap chain ([error]), results (a value,
      an error or a run-time panic: [result]), effectful code ([M W], a
      computation on the state [W] of everything outside the program), Go's
      fixed-width integers, big-endian bytes, and the automation ([go_inv],
      [run_in], [to_prop], the databases [go] and [safe]).
    - GoStd.v, Encoding.v, NetStd.v: what the code uses of Go's library:
      strings and hex; base64 and json.Marshal; net.IP, host-port addresses
      and the redirect loop of http.Client.
    - RegExp.v: regular expressions with a derivative matcher, and its
      correctness.
    - Config.v: go/internal/config/config.go ([vars], [init]).
    - GoEth.v: the operations of go-ethereum and the JSON-RPC client, as
      classes ([GoEthereum], [EthClient]) with law classes ([HexutilLaws]);
      Reference.v: a concrete instance, on which the witnesses run.
    - Bundle.v: bundle.go and validate.go ([WorkProofBundle], [Validate]).
    - Vectors.v: vectors.go, hash.go ([SelectVectors], [TestSeed],
      [ExecuteVector] and the five executors); Selection.v and Execution.v
      hold their theorems.
    - Ciphertext.v: ciphertext.go ([validateURL], [dialPinned],
      [CheckRedirect], [Fetch]); the map of pinned addresses is the first
      component of the state.
    - HttpMux.v: path.Clean, filepath.Clean and what http.ServeMux makes of a
      path that is not clean: its patterns, escapes and redirects.
    - WireTypes.v: go/pkg/types/workproof.go; Canonical.v: the JSON forms and
      their hashes; Decrypt.v: decrypt.go.
    - Verifier.v: verifier.go ([Verify], [crossCheckInstruction],
      [fetchAndDecryptBundle], [run_vectors], [run_bundle]); Escrow.v: the
      acceptance check of the escrow contract ([checkBinding]), as its
      specification; Verdict.v and Safety.v: its theorems; RefWorld.v: a concrete world.
    - Extension.v: go/internal/extension and go/pkg/types/types.go ([New],
      [actionHandler], [stateHandler], [processAction] and the handlers, on
      the state [ExtState]); Server.v: its contract and its theorems.
    - Simulation.v: go/internal/workproof/simulation.go, with the step
      relation of its operations.
    - Report.v, Checks.v: tools/pkg/validate (report.go; checks.go and
      validate.go), over a host and a chain ([Host]); CheckSpecs.v: their
      theorems. VerifyDeploy.v: the command verify-deploy, which connects
      with [DefaultSupport] of Instructions.v, and the text of its report.
    - Typing.v: the ABI types of the wire schemas as a typing relation.
    - Revert.v, TeeCalls.v: revert.go, diag.go, tee_calls.go, common.go,
      encoding.go and policy_consistency.go of tools/pkg/fccutils, and the
      wait for a transaction of tools/pkg/support/support.go: reverts and
      their custom errors, node requests with their polling, the gate on the
      signing policy.
    - Registration.v: registration.go ([RegisterNode] and its steps, with the
      state file on a disk that may refuse); ExtensionSetup.v: extension.go,
      governance.go and the parsers of the command set-governance;
      RegistrationSpecs.v: their theorems.
    - Instructions.v: tools/pkg/support, tools/pkg/utils and the key and
      address files of tools/pkg/configs ([DefaultSupport], the two
      deployments, the instructions of the sample extension); Commands.v: the
      main functions of tools/cmd over the values of their flags;
      CommandSpecs.v: their theorems.
    - LocalNode.v: what the entry points of a node compute before they wait
      (go/cmd/docker, go/cmd/start-tee, go/pkg/server, tools/cmd/start-proxy):
      paths, environment, ports, extension; LocalNodeSpecs.v: the owner that
      they announce. Process.v: their process as a step relation over the main
      function, the goroutine of the server and the signals. Standalone.v:
      go/cmd/main.go, the extension alone with its shutdown, whose requests
      run the handlers of Extension.v.
    - FccVerdict.v: contracts/lib/FccVerdict.sol ([recoverVerdictSigner]).
      Signing.v: go/internal/workproof/action_result_digest.go and
      go/cmd/fcc-spike ([ActionResultSigningDigest], [buildVector], the
      indented JSON of the document), with its theorem.
    - Contract.v: contracts/WorkProofEscrow.sol: its storage ([EscrowState]),
      its constructor ([deploy]), one definition per function and the
      transactions ([run_call], [execute]); the token and Flare's contracts
      are operations on the rest of the chain ([Flare]).  ContractSpecs.v: the
      life of a job as an abstract machine ([job_step]), which the functions
      implement, the invariants of every run ([chain_step]) and the theorems.
      ContractSimulation.v: the simulation diagram between the contract and
      Simulation.v.  Settlement.v: the contract, the extension, the verifier
      and the signature together.  InstructionSender.v:
      contracts/InstructionSender.sol.
    - ChainAudit.v: tools/cmd/audit-deploy and tools/cmd/query-tee, with the
      lines they print as the first component of the state;
      ChainAuditSpecs.v: the decoding of a replayed revert.
    - Gateway.v: go/cmd/workproof-gateway, and the file that the runner
      writes for it.
    - Phase5.v: go/cmd/workproof-phase5/main.go ([parseFlags], [buildBundle],
      [main] with its two modes, the waits on a clock); Phase5Specs.v: its
      theorems, with the log of transactions and the protocol they follow.

    ** What the theorems show

    - Verdicts (Verdict.v): every verdict meets the escrow's acceptance check
      against the job that was read; a pass is backed by chain evidence for
      every selected vector of the committed bundle; so is a failure, by
      answers of the chain to all of them of which one is not the expected.
    - Totality (Safety.v): nothing that the outside answers makes the
      verifier panic, each of its errors is a [HandlerFailure], and past the
      binding checks it always forms a verdict.
    - Vectors (Execution.v, Selection.v): what each outcome means, and which
      validated values are malformed; every ordered selection comes from
      exactly one sequence of reduced draws, and a smaller selection is a
      prefix of a larger one.
    - Fetching (Ciphertext.v): connections go to public addresses of
      allowlisted hosts only, under every interleaving of validations; the
      result does not depend on private hosts; sizes and redirects are
      bounded.
    - Codings (Decrypt.v, Selection.v, Bundle.v): base64 and counters read
      back; validation decides a declarative well-formedness.
    - Server (Server.v): the HTTP contract with every status and text, the soundness of VERIFY replies,
      the counters as an abstract machine, and what [New] builds.
    - Escrow contract (ContractSpecs.v): it holds at least what its open jobs
      are owed, in every run; it pays only what was earned; a refund cannot be
      blocked, and a settled job is frozen.
    - Settlement (Settlement.v): the extension decodes the instruction that
      the contract dispatched, the contract decodes the verdict that the
      extension encoded, and the signed verdict settles the job and pays.
    - Simulation (Simulation.v, ContractSimulation.v): conservation of money,
      final settlement with payment only on a timely pass of the expected
      TEE, refunds that cannot be blocked; what it fails to require; and that
      every job of the contract follows one of its jobs, transaction by
      transaction and with the same payments, up to a cancellation after the
      submission deadline, which it refuses.
    - Processes (Process.v, Standalone.v): in every interleaving of main
      function, goroutines and signals, when a node serves, fails, crashes or
      returns, for each of its two entry points; a signal ends the standalone server, and what its shutdown does
      to the requests in flight.
    - Deployment checks (CheckSpecs.v, VerifyDeploy.v): the results of each of
      the six steps, the exit status with the text of the report that is
      printed, and the two parsers of extension.env.
    - Types (Typing.v): a verdict has the type of its schema.
    - Registration (RegistrationSpecs.v): on a disk without faults the state
      file tracks the progress on every exit, a resumed run repeats nothing, the policy gate fails on a
      confirmed mismatch only, polling takes the first good answer.
    - Reverts (ChainAuditSpecs.v): the three decoders of the tools name the same
      custom error.
    - Signatures (Signing.v): the vectors verify, in Go and in the contract,
      and are bound to their chains.
    - Owners (LocalNodeSpecs.v): when the owner that a local node announces is
      the default signer of the governance command.
    - Gateway (Gateway.v): the ciphertext that the runner stores is served at
      the path of the verifier's request, and which requests are proxied.
    - Commands (CommandSpecs.v): the escrow is deployed only behind its
      guards, with what they checked; the governance command registers the
      signers its environment names; the test command and the sample
      extension agree on what is a good answer.
    - Runner (Phase5Specs.v): the transactions follow the escrow's protocol
      however the run ends; the waits end; an accepted configuration is
      complete, with increasing delays that become ordered deadlines when they
      are whole seconds; and the verifier accepts the runner's bundle, so that the
      size of the artifact's code decides the verdict.

    ** Conventions, bounds and fuel

    A call to the outside takes and returns the state [W], so two calls with
    the same arguments may answer differently, and every theorem holds for
    every answer.  Code that no file of the repository holds (go-ethereum,
    the JCS transform, the generated contract bindings) is a class field; a
    theorem that needs its documented behaviour names a law class, and the
    laws are proved of the concrete instance on which its witness runs.  The
    laws of the token ([TokenLaws]) say that it takes no fee, refuses the zero
    address and pays whoever holds enough; an example shows that the escrow
    relies on the refusal.  A revert of the contract is an error that undoes
    its transaction, and the search of the extension id has the number of ids
    as its fuel.
    [*big.Int] is [option Z], with [None] the nil pointer whose use panics;
    byte strings are lists of bytes, and machine integers are written with
    their wrap-around ([uint64], [int64]).
    The loops of the code that have a bound of their own recurse on it (the
    15 attempts of [poll]).  Two more have fuel.  The redirect loop: [Fetch] gets 3
    units, and [Fetch_sound] shows that more change nothing, since
    [CheckRedirect] refuses the third redirect.  The waits of the runner
    ([wait_loop]), which end by the clock: [phase5_waits_terminate] shows that
    38 units for the random number and [timeout / 5s + 2] for the result suffice, under
    laws of the clock.
    Contexts are the list of their timeouts; an
    expired context is an error of the call it bounds.

    ** What is not modelled

    The generated contract bindings, third-party libraries (among them the
    node and its proxy, which the entry points start), log lines and other
    text that no caller reads, CONNECT requests to the gateway, and the
    TypeScript parts.  Of the contracts, events, gas and
    the balance in the native currency are left out, and so is the reentrancy
    guard, since the contracts they call do not call back.  Concurrency is
    modelled where requests share state: the pins of the fetcher as any
    interleaving of validations, and the counters of the extension, which
    each handler updates once, under its lock.  In Standalone.v a handler
    runs as one step, at the end of its request, and a signal that arrives
    before [signal.Notify] is left out. *)

From Stdlib Require Export ZArith Lia.
From Stdlib Require Export Strings.Byte Strings.Ascii.
From stdpp Require Export base tactics list strings gmap pretty option numbers.
Export list_basics.list list_relations.list list_misc.list list_monad.list.

Open Scope Z_scope.

(** ** Data shared by every component *)

(** Go's [[]byte], [[20]byte] and [[32]byte]: lists of bytes. *)
Abbreviation bytes := (list Byte.byte).

(** Go's [*big.Int]: [None] is the nil pointer. *)
Abbreviation bigint := (option Z).

#[export] Instance byte_eq_dec : EqDecision Byte.byte := Byte.byte_eq_dec.

(** ** Go errors

    [Plain] is [errors.New] or [fmt.Errorf] without %w (the formatted text);
    [Sentinel] a package-level error variable, compared by identity;
    [External] an error value made by code the repository only calls, with
    what that value implements: the [ErrorCode] method of [rpc.Error] and the
    [ErrorData] method; [Wrap] is [fmt.Errorf] with one %w;
    [HandlerFailure] the verifier's wrapper type. *)
Inductive errdata :=
| DataNil
| DataString (s : string)
| DataBytes (b : bytes)
| DataOther.

Inductive error :=
| Plain (msg : string)
| Sentinel (msg : string)
| External (msg : string) (has_code : bool) (data : option errdata)
| Wrap (pre : string) (inner : error) (post : string)
| HandlerFailure (inner : error).

(** [err.Error()]. *)
Fixpoint Error (e : error) : string :=
  match e with
  | Plain m | Sentinel m | External m _ _ => m
  | Wrap pre e post => pre +:+ Error e +:+ post
  | HandlerFailure e => Error e
  end.

(** The unwrap chain of an error, outermost first, which [errors.As] and
    [errors.Is] walk. *)
Fixpoint unwrap_chain (e : error) : list error :=
  e :: match e with
       | Wrap _ e _ | HandlerFailure e => unwrap_chain e
       | _ => []
       end.

(** [errors.As(err, &rpc.Error)]. *)
Definition implements_rpc_error (e : error) : bool :=
  match e with External _ true _ => true | _ => false end.
Definition errors_As_rpc (e : error) : bool :=
  existsb implements_rpc_error (unwrap_chain e).

(** [errors.As(err, &dataError)] followed by [ErrorData()]: the data of the
    first error of the chain that has the method. *)
Definition error_data (e : error) : option errdata :=
  match e with External _ _ d => d | _ => None end.
Definition errors_As_data (e : error) : option errdata :=
  head (omap error_data (unwrap_chain e)).

(** [errors.Is(err, target)] for a sentinel target. *)
Definition errors_Is (e : error) (target : string) : bool :=
  existsb (fun x => match x with Sentinel m => String.eqb m target | _ => false end)
          (unwrap_chain e).

(** ** Results: a value, an error, or a run-time panic *)

Inductive result (A : Type) :=
| Ok (a : A)
| Err (e : error)
| Panic (why : string).
Arguments Ok {A} a.
Arguments Err {A} e.
Arguments Panic {A} why.

#[export] Instance result_ret : MRet result := fun A a => Ok a.
#[export] Instance result_bind : MBind result := fun A B f m =>
  match m with Ok a => f a | Err e => Err e | Panic p => Panic p end.

(** [if c { return err }]. *)
Definition fail_if (c : bool) (e : error) : result unit :=
  if c then Err e else Ok tt.

(** [if err != nil { return ..., fmt.Errorf(pre + "%w", err) }]. *)
Definition wrap_err {A} (pre : string) (m : result A) : result A :=
  match m with Err e => Err (Wrap pre e "") | _ => m end.

Definition is_Ok {A} (m : result A) : bool :=
  match m with Ok _ => true | _ => false end.
Definition is_Err {A} (m : result A) : bool :=
  match m with Err _ => true | _ => false end.

(** ** Effectful code

    [W] is the abstract state of everything outside the program (chain, node,
    network, clock): each external call reads and moves it, so two calls with
    the same arguments may answer differently. *)
Definition M (W A : Type) := W -> result A * W.

Section monad.
Context {W : Type}.
#[export] Instance M_ret : MRet (M W) := fun A a w => (Ok a, w).
#[export] Instance M_bind : MBind (M W) := fun A B f m w =>
  match m w with
  | (Ok a, w') => f a w'
  | (Err e, w') => (Err e, w')
  | (Panic p, w') => (Panic p, w')
  end.

(** A pure fallible computation inside effectful code. *)
Definition lift {A} (r : result A) : M W A := fun w => (r, w).

(** [x, err := m; if err != nil { h err } else { k x }]: the error branch of
    the Go code, whatever it does; a panic is not caught. *)
Definition on_error {A B} (m : M W A) (h : error -> M W B) (k : A -> M W B) : M W B :=
  fun w => match m w with
           | (Ok a, w') => k a w'
           | (Err e, w') => h e w'
           | (Panic p, w') => (Panic p, w')
           end.
End monad.

(** An operation that has no error to return. *)
Definition total {W A} (m : W -> A * W) : M W A := fun w => let '(a, w') := m w in (Ok a, w').

Declare Scope go_scope.
Delimit Scope go_scope with go.
Notation "x '<?-' m 'onerr' e '=>' h ';' k" :=
  (on_error m (fun e => h) (fun x => k))
  (at level 100, m at level 95, e name, h at level 95, k at level 200, right associativity) : go_scope.
Open Scope go_scope.

(** ** Lemmas and automation for results *)

Section result_lemmas.
Context {A B : Type}.

Lemma bind_Ok (m : result A) (f : A -> result B) b :
  m ≫= f = Ok b <-> exists a, m = Ok a /\ f a = Ok b.
Proof. destruct m; simpl; naive_solver. Qed.

Lemma bind_Err (m : result A) (f : A -> result B) e :
  m ≫= f = Err e <-> m = Err e \/ exists a, m = Ok a /\ f a = Err e.
Proof. destruct m; simpl; naive_solver. Qed.

Lemma bind_Panic (m : result A) (f : A -> result B) p :
  m ≫= f = Panic p <-> m = Panic p \/ exists a, m = Ok a /\ f a = Panic p.
Proof. destruct m; simpl; naive_solver. Qed.

Lemma fail_if_Ok c e u : fail_if c e = Ok u <-> c = false.
Proof. unfold fail_if; destruct c, u; naive_solver. Qed.

Lemma fail_if_Err c e e' : fail_if c e = Err e' <-> c = true /\ e = e'.
Proof. unfold fail_if; destruct c; naive_solver. Qed.

Lemma fail_if_Panic c e p : fail_if c e = Panic p <-> False.
Proof. unfold fail_if; destruct c; naive_solver. Qed.

Lemma wrap_err_Ok pre (m : result A) a : wrap_err pre m = Ok a <-> m = Ok a.
Proof. destruct m; simpl; naive_solver. Qed.

Lemma wrap_err_Panic pre (m : result A) p : wrap_err pre m = Panic p <-> m = Panic p.
Proof. destruct m; simpl; naive_solver. Qed.

Lemma is_Ok_iff (m : result A) : is_Ok m = true <-> exists a, m = Ok a.
Proof. destruct m; simpl; naive_solver. Qed.
End result_lemmas.

Section monad_lemmas.
Context {W A B : Type}.
Implicit Types (w : W).

Lemma M_bind_Ok (m : M W A) (f : A -> M W B) w b w' :
  (m ≫= f) w = (Ok b, w') <-> exists a w1, m w = (Ok a, w1) /\ f a w1 = (Ok b, w').
Proof. unfold mbind, M_bind. destruct (m w) as [[] ?]; naive_solver. Qed.

Lemma M_bind_Panic (m : M W A) (f : A -> M W B) w p w' :
  (m ≫= f) w = (Panic p, w') <->
  m w = (Panic p, w') \/ exists a w1, m w = (Ok a, w1) /\ f a w1 = (Panic p, w').
Proof. unfold mbind, M_bind. destruct (m w) as [[] ?]; naive_solver. Qed.

Lemma M_bind_Err (m : M W A) (f : A -> M W B) w e w' :
  (m ≫= f) w = (Err e, w') <->
  m w = (Err e, w') \/ exists a w1, m w = (Ok a, w1) /\ f a w1 = (Err e, w').
Proof. unfold mbind, M_bind. destruct (m w) as [[] ?]; naive_solver. Qed.

Lemma M_bind_eq (m : M W A) (f : A -> M W B) w r w' :
  (m ≫= f) w = (r, w') <->
  (exists a w1, m w = (Ok a, w1) /\ f a w1 = (r, w')) \/
  (exists e, m w = (Err e, w') /\ r = Err e) \/ (exists p, m w = (Panic p, w') /\ r = Panic p).
Proof. unfold mbind, M_bind. destruct (m w) as [[] ?]; naive_solver. Qed.

Lemma M_bind_cong (m m' : M W A) (f f' : A -> M W B) w :
  m w = m' w -> (forall a w', m w = (Ok a, w') -> f a w' = f' a w') -> (m ≫= f) w = (m' ≫= f') w.
Proof. unfold mbind, M_bind. intros <- H. destruct (m w) as [[] ?]; auto. Qed.

Lemma on_error_eq (m : M W A) h (k : A -> M W B) w r w' :
  on_error m h k w = (r, w') <->
  (exists a w1, m w = (Ok a, w1) /\ k a w1 = (r, w')) \/
  (exists e w1, m w = (Err e, w1) /\ h e w1 = (r, w')) \/
  (exists p, m w = (Panic p, w') /\ r = Panic p).
Proof. unfold on_error. destruct (m w) as [[] ?]; naive_solver. Qed.

Lemma lift_eq (x : result A) w r w' : lift x w = (r, w') <-> x = r /\ w = w'.
Proof. unfold lift. naive_solver. Qed.

Lemma mret_eq (a : A) w r w' : (mret a : M W A) w = (r, w') <-> r = Ok a /\ w' = w.
Proof. unfold mret, M_ret. naive_solver. Qed.
End monad_lemmas.

Create Rewrite HintDb go.
#[export] Hint Rewrite @bind_Ok @fail_if_Ok @wrap_err_Ok @M_bind_Ok @lift_eq @mret_eq : go.
#[export] Hint Rewrite @bind_Panic @fail_if_Panic @wrap_err_Panic @M_bind_Panic : go.

(** Split every hypothesis about a computation into what each of its calls
    returned. *)
Ltac go_inv :=
  repeat (progress (autorewrite with go in * |-)
          || match goal with
             | H : exists _, _ |- _ => destruct H
             | H : _ /\ _ |- _ => destruct H
             | H : _ \/ False |- _ => destruct H as [H|[]]
             | H : False \/ _ |- _ => destruct H as [[]|H]
             | u : unit |- _ => destruct u
             end; simplify_eq/=).

(** Follow one run of effectful code, call by call. *)
Ltac run_in H :=
  repeat (first
    [ apply on_error_eq in H as [(?&?&?&H)|[(?&?&?&H)|(?&?&?)]]
    | match type of H with (if ?b then _ else _) _ = _ => destruct b eqn:? end ];
    cbn beta zeta in *; go_inv; simplify_eq).

(** Case analysis on the scrutinee of a [match] or [if] in a hypothesis. *)
Ltac case_in H :=
  match type of H with context [match ?x with _ => _ end] => destruct x eqn:? end.
Ltac case_goal :=
  match goal with |- context [match ?x with _ => _ end] => destruct x eqn:? end.

(** Boolean tests as propositions. *)
Ltac to_prop :=
  repeat match goal with
  | H : (_ && _)%bool = true |- _ => apply andb_true_iff in H as [? ?]
  | H : (_ && _)%bool = false |- _ => apply andb_false_iff in H
  | H : (_ || _)%bool = false |- _ => apply orb_false_iff in H as [? ?]
  | H : (_ || _)%bool = true |- _ => apply orb_true_iff in H
  | H : negb _ = true |- _ => apply negb_true_iff in H
  | H : negb _ = false |- _ => apply negb_false_iff in H
  | H : bool_decide _ = true |- _ => apply bool_decide_eq_true in H
  | H : bool_decide _ = false |- _ => apply bool_decide_eq_false in H
  | H : (_ <? _) = true |- _ => apply Z.ltb_lt in H
  | H : (_ <? _) = false |- _ => apply Z.ltb_ge in H
  | H : (_ <=? _) = true |- _ => apply Z.leb_le in H
  | H : (_ <=? _) = false |- _ => apply Z.leb_gt in H
  | H : (_ =? _) = true |- _ => apply Z.eqb_eq in H
  | H : (_ =? _) = false |- _ => apply Z.eqb_neq in H
  | H : String.eqb _ _ = true |- _ => apply String.eqb_eq in H
  | H : String.eqb _ _ = false |- _ => apply String.eqb_neq in H
  end.

(** ** Computations that do not panic, and that do not fail *)

Definition no_panic {W A} (m : M W A) : Prop := forall w p w', m w <> (Panic p, w').
Definition no_error {W A} (m : M W A) : Prop := forall w e w', m w <> (Err e, w').

Section safe.
  Context {W A B : Type}.
  Implicit Types (w : W).

Lemma no_panic_bind (m : M W A) (k : A -> M W B) :
  no_panic m -> (forall a, no_panic (k a)) -> no_panic (m ≫= k).
Proof. intros Hm Hk w p w' [H|(a & w1 & _ & H)]%M_bind_Panic; [by apply Hm in H|by apply Hk in H]. Qed.

(** A continuation may use what the first part establishes of its value. *)
Lemma no_panic_bind_post (m : M W A) (k : A -> M W B) (P : A -> Prop) :
  no_panic m -> (forall w a w', m w = (Ok a, w') -> P a) -> (forall a, P a -> no_panic (k a)) -> no_panic (m ≫= k).
Proof.
  intros Hm HP Hk w p w' [H|(a & w1 & H1 & H)]%M_bind_Panic; [by apply Hm in H|].
  by apply (Hk a (HP _ _ _ H1)) in H.
Qed.

Lemma no_panic_on_error (m : M W A) (h : error -> M W B) (k : A -> M W B) :
  no_panic m -> (forall e, no_panic (h e)) -> (forall a, no_panic (k a)) -> no_panic (on_error m h k).
Proof.
  intros Hm Hh Hk w p w' H. apply on_error_eq in H as [(a & w1 & _ & H)|[(e & w1 & _ & H)|(q & H & _)]];
    [by apply Hk in H|by apply Hh in H|by apply Hm in H].
Qed.

Lemma no_panic_on_error_post (m : M W A) (h : error -> M W B) (k : A -> M W B) (P : A -> Prop) :
  no_panic m -> (forall w a w', m w = (Ok a, w') -> P a) ->
  (forall e, no_panic (h e)) -> (forall a, P a -> no_panic (k a)) -> no_panic (on_error m h k).
Proof.
  intros Hm HP Hh Hk w p w' H. apply on_error_eq in H as [(a & w1 & H1 & H)|[(e & w1 & _ & H)|(q & H & _)]];
    [by apply (Hk a (HP _ _ _ H1)) in H|by apply Hh in H|by apply Hm in H].
Qed.

Lemma no_panic_lift (x : result A) : (forall p, x <> Panic p) -> no_panic (W := W) (lift x).
Proof. intros Hx w p w' [-> _]%lift_eq. by apply (Hx p). Qed.
Lemma no_panic_ret (a : A) : no_panic (W := W) (mret a).
Proof. by intros w p w' [H _]%mret_eq. Qed.
Lemma no_panic_total (m : W -> A * W) : no_panic (total m).
Proof. intros w p w'. unfold total. by destruct (m w). Qed.

Lemma no_error_bind (m : M W A) (k : A -> M W B) :
  no_error m -> (forall a, no_error (k a)) -> no_error (m ≫= k).
Proof. intros Hm Hk w p w' [H|(a & w1 & _ & H)]%M_bind_Err; [by apply Hm in H|by apply Hk in H]. Qed.
Lemma no_error_on_error (m : M W A) (h : error -> M W B) (k : A -> M W B) :
  (forall e, no_error (h e)) -> (forall a, no_error (k a)) -> no_error (on_error m h k).
Proof.
  intros Hh Hk w p w' H. apply on_error_eq in H as [(a & w1 & _ & H)|[(e & w1 & _ & H)|(q & _ & H)]];
    [by apply Hk in H|by apply Hh in H|done].
Qed.
Lemma no_error_lift (x : result A) : (forall e, x <> Err e) -> no_error (W := W) (lift x).
Proof. intros Hx w p w' [-> _]%lift_eq. by apply (Hx p). Qed.
Lemma no_error_ret (a : A) : no_error (W := W) (mret a).
Proof. by intros w p w' [H _]%mret_eq. Qed.
Lemma no_error_total (m : W -> A * W) : no_error (total m).
Proof. intros w p w'. unfold total. by destruct (m w). Qed.

Lemma returns_safe (m : M W A) w : no_panic m -> no_error m -> exists a w', m w = (Ok a, w').
Proof. intros Hp He. destruct (m w) as [[a|e|p] w'] eqn:E; [eauto|by apply He in E|by apply Hp in E]. Qed.
End safe.

Create HintDb safe.
#[export] Hint Resolve no_panic_ret no_panic_total no_error_ret no_error_total : safe.

(** ** Fixed-width unsigned integers *)

Definition uint (w x : Z) : Z := x mod 2 ^ w.
Abbreviation uint8 := (uint 8).
Abbreviation uint32 := (uint 32).
Abbreviation uint64 := (uint 64).

Definition is_uint (w x : Z) : Prop := 0 <= x < 2 ^ w.

(** A Go [int] after wrap-around: 64 bits, two's complement. *)
Definition int64 (x : Z) : Z := (x + 2 ^ 63) mod 2 ^ 64 - 2 ^ 63.

Lemma int64_id x : - 2 ^ 63 <= x < 2 ^ 63 -> int64 x = x.
Proof. intros. unfold int64. rewrite Z.mod_small; lia. Qed.

Lemma int64_add x y : int64 (int64 x + y) = int64 (x + y).
Proof.
  unfold int64. f_equal.
  replace ((x + 2 ^ 63) mod 2 ^ 64 - 2 ^ 63 + y + 2 ^ 63) with ((x + 2 ^ 63) mod 2 ^ 64 + y) by lia.
  rewrite Zplus_mod_idemp_l. f_equal. lia.
Qed.

Lemma uint_id w x : is_uint w x -> uint w x = x.
Proof. intros. by apply Z.mod_small. Qed.

Lemma uint_is_uint w x : 0 <= w -> is_uint w (uint w x).
Proof. intros. apply Z.mod_pos_bound. lia. Qed.

(** ** Bytes as integers *)

Definition byte_val (b : Byte.byte) : Z := Z.of_N (Byte.to_N b).

(** The Go conversion [byte(x)]: the low eight bits. *)
Definition byte_of_Z (x : Z) : Byte.byte :=
  match Byte.of_N (Z.to_N (x mod 256)) with Some b => b | None => Byte.x00 end.

Lemma byte_val_range b : 0 <= byte_val b < 256.
Proof. pose proof (Byte.to_N_bounded b). unfold byte_val. lia. Qed.

Lemma byte_of_Z_val b : byte_of_Z (byte_val b) = b.
Proof.
  unfold byte_of_Z. rewrite Z.mod_small by apply byte_val_range.
  unfold byte_val. by rewrite N2Z.id, Byte.of_to_N.
Qed.

Lemma byte_val_of_Z x : byte_val (byte_of_Z x) = x mod 256.
Proof.
  unfold byte_of_Z. pose proof (Z.mod_pos_bound x 256 ltac:(lia)).
  destruct (Byte.of_N _) as [b|] eqn:E.
  - apply Byte.to_of_N in E. unfold byte_val. lia.
  - apply Byte.of_N_None_iff in E. lia.
Qed.

#[export] Instance byte_val_inj : Inj (=) (=) byte_val.
Proof. intros a b H. by rewrite <- (byte_of_Z_val a), <- (byte_of_Z_val b), H. Qed.

(** Big-endian value of a byte string ([big.Int.SetBytes]). *)
Definition be_value (l : bytes) : Z :=
  fold_left (fun acc b => acc * 256 + byte_val b) l 0.

(** The [n] low bytes of [x], most significant first. *)
Fixpoint be_bytes (n : nat) (x : Z) : bytes :=
  match n with
  | O => []
  | S n => be_bytes n (x / 256) ++ [byte_of_Z x]
  end.

Lemma be_value_snoc l b : be_value (l ++ [b]) = be_value l * 256 + byte_val b.
Proof. unfold be_value. by rewrite fold_left_app. Qed.

Lemma be_value_nonneg l : 0 <= be_value l.
Proof.
  induction l as [|b l IH] using rev_ind; [done|].
  rewrite be_value_snoc. pose proof (byte_val_range b). lia.
Qed.

Lemma be_value_bound l : be_value l < 256 ^ Z.of_nat (length l).
Proof.
  induction l as [|b l IH] using rev_ind; [done|].
  rewrite be_value_snoc, length_app. simpl. pose proof (byte_val_range b).
  rewrite Nat2Z.inj_add, Z.pow_add_r by lia. change (256 ^ Z.of_nat 1) with 256. lia.
Qed.

Lemma length_be_bytes n x : length (be_bytes n x) = n.
Proof. revert x; induction n; intros; simpl; [done|]. rewrite length_app, IHn. simpl. lia. Qed.

Lemma be_value_bytes n x : be_value (be_bytes n x) = x mod 256 ^ Z.of_nat n.
Proof.
  revert x; induction n as [|n IH]; intros; [by rewrite Z.mod_1_r|].
  cbn [be_bytes]. rewrite be_value_snoc, IH, byte_val_of_Z.
  rewrite Nat2Z.inj_succ, Z.pow_succ_r by lia.
  rewrite (Z.mul_comm _ 256) at 1. rewrite Z.add_comm.
  rewrite <- (Z.rem_mul_r x 256 (256 ^ Z.of_nat n)) by lia. done.
Qed.

Lemma be_bytes_value l : be_bytes (length l) (be_value l) = l.
Proof.
  induction l as [|b l IH] using rev_ind; [done|]. rewrite length_app, Nat.add_comm, be_value_snoc. cbn [length Nat.add be_bytes].
  pose proof (byte_val_range b). rewrite Z.div_add_l, Z.div_small, Z.add_0_r, IH by lia. do 2 f_equal.
  apply (inj byte_val). rewrite byte_val_of_Z, Z.add_comm, Z_mod_plus_full. by apply Z.mod_small.
Qed.

Lemma be_word l : length l = 32%nat -> be_bytes 32 (be_value l) = l.
Proof. intros Hl. rewrite <- Hl at 1. apply be_bytes_value. Qed.
