(* ===== verification/GoStd.v ===== *)
(** * The Go standard library the modelled code uses

    [strings], [encoding/hex], [encoding/base64], [strconv.Atoi] and [regexp]
    on byte strings, executable, with the lemmas the components share. Case
    mapping, white space and quoting are those of ASCII text, the only text
    these functions meet in the program (hosts, hex digits, env files). *)

From S2P Require Import Prelude.

Create Rewrite HintDb gostr.

Open Scope string_scope.
Open Scope list_scope.
Open Scope Z_scope.

Abbreviation bytes_of_string := String.list_byte_of_string.
Abbreviation string_of_bytes := String.string_of_list_byte.

(** ** Characters *)

Definition ascii_val (a : ascii) : Z := Z.of_N (Ascii.N_of_ascii a).
Definition in_range (lo hi : Z) (a : ascii) : bool :=
  (lo <=? ascii_val a) && (ascii_val a <=? hi).
Definition is_digit : ascii -> bool := in_range 48 57.
Definition is_hex (a : ascii) : bool :=
  is_digit a || in_range 97 102 a || in_range 65 70 a.
Definition is_space (a : ascii) : bool := in_range 9 13 a || (ascii_val a =? 32).

Definition lower (a : ascii) : ascii :=
  if in_range 65 90 a then Ascii.ascii_of_N (Ascii.N_of_ascii a + 32) else a.

(** ** Package strings *)

Fixpoint ToLower (s : string) : string :=
  match s with EmptyString => EmptyString | String a s => String (lower a) (ToLower s) end.

Definition HasPrefix (s p : string) : bool := String.prefix p s.
Arguments HasPrefix : simpl never.

Fixpoint drop_string (n : nat) (s : string) : string :=
  match n, s with S n, String _ s => drop_string n s | _, _ => s end.

Definition TrimPrefix (s p : string) : string :=
  if HasPrefix s p then drop_string (String.length p) s else s.

Fixpoint Contains (s sub : string) : bool :=
  HasPrefix s sub || match s with EmptyString => false | String _ s => Contains s sub end.

Fixpoint trim_left (s : string) : string :=
  match s with
  | String a s' => if is_space a then trim_left s' else s
  | EmptyString => EmptyString
  end.

Fixpoint trim_right (s : string) : string :=
  match s with
  | EmptyString => EmptyString
  | String a s =>
    match trim_right s with
    | EmptyString => if is_space a then EmptyString else String a EmptyString
    | r => String a r
    end
  end.

Definition TrimSpace (s : string) : string := trim_right (trim_left s).

(** [strings.Split(s, c)] for a one-byte separator. *)
Fixpoint Split (s : string) (c : ascii) : list string :=
  match s with
  | EmptyString => [EmptyString]
  | String a s =>
    if Ascii.eqb a c then EmptyString :: Split s c
    else match Split s c with
         | [] => [String a EmptyString]
         | x :: r => String a x :: r
         end
  end.

(** [strings.SplitN(s, c, 2)]: one part, or the text before and after the
    first separator. *)
Fixpoint SplitN2 (s : string) (c : ascii) : string * option string :=
  match s with
  | EmptyString => (EmptyString, None)
  | String a s =>
    if Ascii.eqb a c then (EmptyString, Some s)
    else let '(x, r) := SplitN2 s c in (String a x, r)
  end.

Fixpoint Join (l : list string) (sep : string) : string :=
  match l with
  | [] => EmptyString
  | [x] => x
  | x :: r => x +:+ sep +:+ Join r sep
  end.

(** ** Package strconv *)

Fixpoint digits_val (s : string) (acc : Z) : option Z :=
  match s with
  | EmptyString => Some acc
  | String a s => if is_digit a then digits_val s (acc * 10 + (ascii_val a - 48)) else None
  end.

(** [strconv.Atoi] on a 64-bit platform: an optional sign, at least one
    decimal digit, and a value of type int. *)
Definition Atoi (s : string) : option Z :=
  let '(neg, d) := match s with
                   | String "-" d => (true, d)
                   | String "+" d => (false, d)
                   | d => (false, d)
                   end in
  match d with
  | EmptyString => None
  | _ => v ← digits_val d 0;
         let v := if (neg : bool) then - v else v in
         if ((- 2 ^ 63 <=? v) && (v <? 2 ^ 63))%bool then Some v else None
  end.

(** [%q] on ASCII text. *)
Definition hex_digit (n : Z) : ascii :=
  Ascii.ascii_of_N (Z.to_N (if n <? 10 then n + 48 else n + 87)).

Definition quote_char (a : ascii) : string :=
  let v := ascii_val a in
  if v =? 34 then String "\" (String a EmptyString)
  else if v =? 92 then "\\"
  else if v =? 10 then "\n" else if v =? 13 then "\r" else if v =? 9 then "\t"
  else if v =? 7 then "\a" else if v =? 8 then "\b" else if v =? 12 then "\f"
  else if v =? 11 then "\v"
  else if (32 <=? v) && (v <? 127) then String a EmptyString
  else "\x" +:+ String (hex_digit (v / 16)) (String (hex_digit (v mod 16)) EmptyString).

Fixpoint quote_go (s : string) : string :=
  match s with EmptyString => EmptyString | String a s => quote_char a +:+ quote_go s end.

Definition quote (s : string) : string :=
  let dq := String (Ascii.ascii_of_N 34) EmptyString in dq +:+ quote_go s +:+ dq.

(** ** Package encoding/hex *)

Definition hex_val (a : ascii) : option Z :=
  let v := ascii_val a in
  if is_digit a then Some (v - 48)
  else if in_range 97 102 a then Some (v - 87)
  else if in_range 65 70 a then Some (v - 55)
  else None.

Fixpoint hex_encode (l : bytes) : string :=
  match l with
  | [] => EmptyString
  | b :: l => String (hex_digit (byte_val b / 16))
               (String (hex_digit (byte_val b mod 16)) (hex_encode l))
  end.

(** [hex.DecodeString]: [None] on an odd length or a character that is no
    hexadecimal digit. *)
Fixpoint hex_decode (s : string) : option bytes :=
  match s with
  | EmptyString => Some []
  | String a (String b s) =>
    x ← hex_val a; y ← hex_val b; r ← hex_decode s;
    Some (byte_of_Z (x * 16 + y) :: r)
  | _ => None
  end.

(** ** Lemmas: hexadecimal *)

Lemma hex_digit_val n : 0 <= n < 16 -> hex_val (hex_digit n) = Some n.
Proof.
  intros. assert (forallb (fun n => bool_decide (hex_val (hex_digit n) = Some n))
                          (seqZ 0 16) = true) as H' by (vm_compute; reflexivity).
  rewrite forallb_forall in H'. apply (bool_decide_eq_true_1 _), H'.
  apply list_elem_of_In, elem_of_seqZ. lia.
Qed.

Lemma hex_decode_encode l : hex_decode (hex_encode l) = Some l.
Proof.
  induction l as [|b l IH]; [done|]. cbn [hex_encode hex_decode].
  pose proof (byte_val_range b).
  rewrite !hex_digit_val by (try apply Z.mod_pos_bound; try split;
    try apply Z.div_pos; try apply Z.div_lt_upper_bound; lia).
  rewrite IH. simpl. do 2 f_equal.
  rewrite (Z.mul_comm _ 16), <- Z.div_mod by lia. apply byte_of_Z_val.
Qed.

#[export] Instance hex_encode_inj : Inj (=) (=) hex_encode.
Proof.
  intros a b H. apply (f_equal hex_decode) in H.
  rewrite !hex_decode_encode in H. by simplify_eq.
Qed.

Lemma length_hex_encode l : String.length (hex_encode l) = (2 * length l)%nat.
Proof. induction l; simpl; lia. Qed.

Lemma is_hex_val a : is_hex a = true <-> is_Some (hex_val a).
Proof.
  unfold is_hex, hex_val. destruct (is_digit a), (in_range 97 102 a), (in_range 65 70 a); simpl;
    split; intros; try done; destruct_and?; try (by eexists); by destruct H.
Qed.

Fixpoint all_chars (p : ascii -> bool) (s : string) : bool :=
  match s with EmptyString => true | String a s => p a && all_chars p s end.

(** A string of [2 * n] hexadecimal digits decodes to [n] bytes. *)
Lemma hex_encode_all_hex l : all_chars is_hex (hex_encode l) = true.
Proof.
  induction l as [|b l IH]; [done|]. cbn [hex_encode all_chars]. pose proof (byte_val_range b).
  rewrite IH, andb_true_r. apply andb_true_iff.
  split; apply is_hex_val; eexists; apply hex_digit_val; [split; [by apply Z.div_pos; lia|apply Z.div_lt_upper_bound; lia]|by apply Z.mod_pos_bound].
Qed.

Lemma hex_decode_complete n s :
  String.length s = (2 * n)%nat -> all_chars is_hex s = true ->
  exists l, hex_decode s = Some l /\ length l = n.
Proof.
  revert s. induction n as [|n IH]; intros s Hl Ha.
  - destruct s; [by exists []|done].
  - destruct s as [|a [|b s]]; simpl in *; try lia.
    apply andb_true_iff in Ha as [H Ha]. apply andb_true_iff in Ha as [H1 Ha].
    destruct (IH s) as (l & Hd & Hn); [lia|done|].
    apply is_hex_val in H as [x Hx], H1 as [y Hy]. rewrite Hx, Hy, Hd. simpl.
    eexists; split; [done|]. simpl. lia.
Qed.

Lemma hex_decode_length s l : hex_decode s = Some l -> String.length s = (2 * length l)%nat.
Proof.
  revert s; induction l as [|b l IH]; intros [|c [|d s]]; simpl; intros H; try done;
    repeat (case_match || simplify_option_eq); simpl; try done.
  specialize (IH s). rewrite IH by done. lia.
Qed.

(** ** Lemmas: strings *)

Lemma append_cons a s t : String a s +:+ t = String a (s +:+ t).
Proof. reflexivity. Qed.
Lemma append_nil_l s : EmptyString +:+ s = s.
Proof. reflexivity. Qed.
#[export] Hint Rewrite append_cons append_nil_l : gostr.
#[export] Instance append_assoc : Assoc (=) String.append.
Proof. intros a b c. induction a as [|x a IH]; rewrite ?append_nil_l, ?append_cons; congruence. Qed.

Lemma length_drop_string n s : String.length (drop_string n s) = (String.length s - n)%nat.
Proof. revert s; induction n; intros [|a s]; simpl; auto. Qed.

Lemma HasPrefix_app p s : HasPrefix (p +:+ s) p = true.
Proof.
  unfold HasPrefix. induction p as [|a p IH]; [by destruct s|]. rewrite append_cons. simpl.
  by destruct (Ascii.ascii_dec a a).
Qed.

Lemma HasPrefix_inv p s : HasPrefix s p = true -> s = p +:+ drop_string (String.length p) s.
Proof.
  unfold HasPrefix. revert s. induction p as [|a p IH]; intros [|b s]; simpl; try done.
  destruct (Ascii.ascii_dec a b) as [->|]; [|done]. intros H. rewrite append_cons. f_equal. by apply IH.
Qed.

Lemma TrimPrefix_app p s : TrimPrefix (p +:+ s) p = s.
Proof.
  unfold TrimPrefix. rewrite HasPrefix_app. induction p; [done|]. rewrite append_cons. done.
Qed.

(** [Contains] says what it means: the text occurs somewhere. *)
Lemma Contains_spec s sub : Contains s sub = true <-> exists a b, s = a +:+ sub +:+ b.
Proof.
  split.
  - induction s as [|c s IH]; simpl; intros H.
    + rewrite orb_false_r in H. apply HasPrefix_inv in H. by exists "", (drop_string (String.length sub) "").
    + apply orb_true_iff in H as [H|H].
      * apply HasPrefix_inv in H. rewrite H. by eexists "", _.
      * destruct (IH H) as (a & b & ->). by exists (String c a), b.
  - intros (a & b & ->). induction a as [|c a IH]; autorewrite with gostr; simpl.
    + destruct (sub +:+ b) eqn:E; simpl; rewrite <- E, HasPrefix_app; done.
    + rewrite IH. apply orb_true_r.
Qed.

Lemma lower_lower a : lower (lower a) = lower a.
Proof. by destruct a as [[] [] [] [] [] [] [] []]. Qed.

Lemma ToLower_idemp s : ToLower (ToLower s) = ToLower s.
Proof. induction s; simpl; [done|]. by rewrite lower_lower, IHs. Qed.

Lemma Split_nonempty s c : Split s c <> [].
Proof. induction s; simpl; [done|]. case_match; [done|]. by destruct (Split s c). Qed.

(** Joining the parts of a split gives the text back. *)
Lemma Join_Split s c : Join (Split s c) (String c EmptyString) = s.
Proof.
  induction s as [|a s IH]; [done|]. cbn [Split].
  destruct (Ascii.eqb_spec a c) as [->|]; destruct (Split s c) as [|x r] eqn:E;
    try by apply Split_nonempty in E.
  - rewrite <- IH. done.
  - destruct r; rewrite <- IH; done.
Qed.
