(* ===== verification/RegExp.v ===== *)
(** * Package regexp: anchored patterns

    Every pattern of the program is anchored ([^...$]) and built from byte
    classes, so a pattern is a regular expression over bytes and
    [MatchString] is full matching, by Brzozowski derivatives. [matches] is
    the denotation; [MatchString_spec] relates the two. *)

From S2P Require Import Prelude GoStd.

Inductive re :=
| Void
| Eps
| Chr (p : ascii -> bool)
| Cat (a b : re)
| Alt (a b : re)
| Star (a : re).

Fixpoint nullable (r : re) : bool :=
  match r with
  | Void | Chr _ => false
  | Eps | Star _ => true
  | Cat a b => nullable a && nullable b
  | Alt a b => nullable a || nullable b
  end.

Definition cat (a b : re) : re :=
  match a, b with
  | Void, _ => Void
  | Eps, b => b
  | a, b => Cat a b
  end.
Definition alt (a b : re) : re :=
  match a, b with
  | Void, b => b
  | a, Void => a
  | a, b => Alt a b
  end.

Fixpoint deriv (c : ascii) (r : re) : re :=
  match r with
  | Void | Eps => Void
  | Chr p => if p c then Eps else Void
  | Cat a b => alt (cat (deriv c a) b) (if nullable a then deriv c b else Void)
  | Alt a b => alt (deriv c a) (deriv c b)
  | Star a => cat (deriv c a) (Star a)
  end.

Fixpoint match_list (r : re) (l : list ascii) : bool :=
  match l with
  | [] => nullable r
  | c :: l => match_list (deriv c r) l
  end.

Abbreviation chars := String.list_ascii_of_string.

Definition MatchString (r : re) (s : string) : bool := match_list r (chars s).

(** Repetition operators of the pattern syntax. *)
Fixpoint Lit (l : list ascii) : re :=
  match l with [] => Eps | c :: l => Cat (Chr (Ascii.eqb c)) (Lit l) end.
Fixpoint Rep (n : nat) (r : re) : re :=
  match n with O => Eps | S n => Cat r (Rep n r) end.
Fixpoint UpTo (n : nat) (r : re) : re :=
  match n with O => Eps | S n => Alt Eps (Cat r (UpTo n r)) end.
Definition Plus (r : re) : re := Cat r (Star r).

(** ** Denotation *)

Inductive matches : re -> list ascii -> Prop :=
| m_eps : matches Eps []
| m_chr p c : p c = true -> matches (Chr p) [c]
| m_cat a b l1 l2 : matches a l1 -> matches b l2 -> matches (Cat a b) (l1 ++ l2)
| m_alt_l a b l : matches a l -> matches (Alt a b) l
| m_alt_r a b l : matches b l -> matches (Alt a b) l
| m_star_nil a : matches (Star a) []
| m_star_app a l1 l2 : matches a l1 -> matches (Star a) l2 -> matches (Star a) (l1 ++ l2).

#[export] Hint Constructors matches : regexp.

Lemma matches_cat_inv a b l :
  matches (Cat a b) l <-> exists l1 l2, l = l1 ++ l2 /\ matches a l1 /\ matches b l2.
Proof. split; [inversion 1; eauto 10|]. intros (?&?&->&?&?). by constructor. Qed.

Lemma matches_alt_inv a b l : matches (Alt a b) l <-> matches a l \/ matches b l.
Proof. split; [inversion 1; eauto|]. intros [?|?]; eauto with regexp. Qed.

Lemma matches_void l : ~ matches Void l.
Proof. by inversion 1. Qed.

Lemma matches_eps l : matches Eps l <-> l = [].
Proof. split; [by inversion 1|]. intros ->. constructor. Qed.

Lemma matches_chr p l : matches (Chr p) l <-> exists c, l = [c] /\ p c = true.
Proof. split; [inversion 1; eauto|]. intros (?&->&?). by constructor. Qed.

Lemma cat_matches a b l : matches (cat a b) l <-> matches (Cat a b) l.
Proof.
  destruct a; simpl; try done; rewrite matches_cat_inv; split.
  - intros []%matches_void.
  - intros (?&?&_&[]%matches_void&_).
  - intros. exists [], l. eauto with regexp.
  - by intros (?&?&->&->%matches_eps&?).
Qed.

Lemma alt_matches a b l : matches (alt a b) l <-> matches (Alt a b) l.
Proof.
  rewrite matches_alt_inv. pose proof (matches_void l).
  destruct a; simpl; try tauto; destruct b; simpl; rewrite ?matches_alt_inv; tauto.
Qed.

Lemma nullable_spec r : nullable r = true <-> matches r [].
Proof.
  induction r; simpl.
  - split; [done|intros []%matches_void].
  - by rewrite matches_eps.
  - rewrite matches_chr. naive_solver.
  - rewrite andb_true_iff, matches_cat_inv, IHr1, IHr2. split.
    + intros [??]. by exists [], [].
    + intros (l1&l2&E&?&?). symmetry in E. apply app_eq_nil in E as [-> ->]. done.
  - rewrite orb_true_iff, matches_alt_inv. naive_solver.
  - split; auto with regexp.
Qed.

Lemma matches_star_cons a c l :
  matches (Star a) (c :: l) ->
  exists l1 l2, l = l1 ++ l2 /\ matches a (c :: l1) /\ matches (Star a) l2.
Proof.
  intros H. remember (Star a) as r eqn:Er. remember (c :: l) as m eqn:Em.
  revert c l Em. induction H as [| | | | | |a' l1 l2 H1 _ H2 IH2]; intros c' l' Em; simplify_eq.
  destruct l1 as [|d l1]; simpl in *; simplify_eq; eauto 10.
Qed.

Lemma deriv_spec c r l : matches (deriv c r) l <-> matches r (c :: l).
Proof.
  revert l. induction r; intros l; cbn [deriv].
  - split; by intros []%matches_void.
  - rewrite matches_eps. split; [by intros []%matches_void|done].
  - rewrite matches_chr. destruct (p c) eqn:E; rewrite ?matches_eps.
    + split; [intros ->; eauto|]. intros (?&?&?). by simplify_eq.
    + split; [intros []%matches_void|]. intros (?&?&?). congruence.
  - rewrite alt_matches, matches_alt_inv, cat_matches, !matches_cat_inv. split.
    + intros [(l1&l2&->&H1&H2)|H].
      * rewrite IHr1 in H1. by exists (c :: l1), l2.
      * destruct (nullable r1) eqn:E; [|by apply matches_void in H].
        apply nullable_spec in E. rewrite IHr2 in H. by exists [], (c :: l).
    + intros ([|d l1]&l2&E&H1&H2); simpl in *; simplify_eq.
      * right. apply nullable_spec in H1. rewrite H1, IHr2. done.
      * left. exists l1, l2. by rewrite IHr1.
  - rewrite alt_matches, !matches_alt_inv, IHr1, IHr2. done.
  - rewrite cat_matches, matches_cat_inv. split.
    + intros (l1&l2&->&H1&H2). rewrite IHr in H1.
      change (c :: l1 ++ l2) with ((c :: l1) ++ l2). by constructor.
    + intros (l1&l2&->&H1&H2)%matches_star_cons. exists l1, l2. by rewrite IHr.
Qed.

Lemma match_list_spec r l : match_list r l = true <-> matches r l.
Proof.
  revert r. induction l; intros r; simpl; [apply nullable_spec|].
  by rewrite IHl, deriv_spec.
Qed.

Lemma MatchString_spec r s : MatchString r s = true <-> matches r (chars s).
Proof. apply match_list_spec. Qed.

(** ** What the program's pattern forms match *)

Lemma matches_Lit k l : matches (Lit k) l <-> l = k.
Proof.
  revert l. induction k as [|c k IH]; intros l; simpl; [apply matches_eps|].
  rewrite matches_cat_inv. split.
  - intros (l1&l2&->&(d&->&->%Ascii.eqb_eq)%matches_chr&->%IH). done.
  - intros ->. exists [c], k. rewrite IH, matches_chr.
    repeat split. exists c. by rewrite Ascii.eqb_refl.
Qed.

Lemma matches_Rep_Chr p n l :
  matches (Rep n (Chr p)) l <-> length l = n /\ forallb p l = true.
Proof.
  revert l. induction n as [|n IH]; intros l; simpl.
  - rewrite matches_eps. destruct l; naive_solver.
  - rewrite matches_cat_inv. split.
    + intros (l1&l2&->&(c&->&Hc)%matches_chr&[<- ?]%IH). simpl. by rewrite Hc.
    + destruct l as [|c l]; simpl; [naive_solver|]. intros [? [??]%andb_true_iff].
      exists [c], l. rewrite IH, matches_chr. naive_solver lia.
Qed.

Lemma matches_UpTo_Chr p n l :
  matches (UpTo n (Chr p)) l <-> (length l <= n)%nat /\ forallb p l = true.
Proof.
  revert l. induction n as [|n IH]; intros l; simpl.
  - rewrite matches_eps. destruct l; simpl; [naive_solver|]. split; [done|]. lia.
  - rewrite matches_alt_inv, matches_eps, matches_cat_inv. split.
    + intros [->|(l1&l2&->&(c&->&Hc)%matches_chr&[??]%IH)]; simpl; [naive_solver lia|].
      rewrite Hc. split; [lia|done].
    + destruct l as [|c l]; simpl; [by left|]. intros [? [??]%andb_true_iff]. right.
      exists [c], l. rewrite IH, matches_chr. naive_solver lia.
Qed.

Lemma matches_Star_Rep p n l :
  matches (Star (Rep n (Chr p))) l ->
  (exists k, length l = (k * n)%nat) /\ forallb p l = true.
Proof.
  intros H. remember (Star _) as r eqn:Er. induction H; simplify_eq.
  - split; [by exists 0%nat|done].
  - clear IHmatches1. apply matches_Rep_Chr in H as [Hn Hp].
    destruct IHmatches2 as [(k&Hk) ?]; [done|]. rewrite length_app, forallb_app, Hn, Hp, Hk.
    split; [by exists (S k)|done].
Qed.

Lemma matches_Star_Rep_intro p n k l :
  length l = (k * n)%nat -> forallb p l = true -> matches (Star (Rep n (Chr p))) l.
Proof.
  revert l. induction k as [|k IH]; intros l Hl Hp; simpl in *.
  - destruct l; [constructor|done].
  - assert (forallb p (take n l) && forallb p (drop n l) = true)%bool
      by (by rewrite <- forallb_app, take_drop).
    to_prop. rewrite <- (take_drop n l). apply m_star_app.
    + apply matches_Rep_Chr. rewrite length_take. split; [lia|done].
    + apply IH; [rewrite length_drop; lia|done].
Qed.
