(* ===== verification/Config.v ===== *)
(** * Configuration (go/internal/config/config.go)

    The constants of the extension and the environment overrides of [init]. *)

From S2P Require Import Prelude GoStd.

Module Config.

Definition Version : string := "0.1.0".
Definition OPTypeGreeting : string := "GREETING".
Definition OPCommandSayHello : string := "SAY_HELLO".
Definition OPCommandSayGoodbye : string := "SAY_GOODBYE".
Definition OPTypeWorkProof : string := "WORKPROOF".
Definition OPCommandVerify : string := "VERIFY".
Definition WorkProofEngineVersion : string := "workproof-verifier-v1".

(** Durations are in milliseconds. *)
Definition second : Z := 1000.
Definition TimeoutShutdown : Z := 5 * second.
Definition ServerReadHeaderTimeout : Z := 5 * second.
Definition ServerReadTimeout : Z := 30 * second.
Definition ServerWriteTimeout : Z := 30 * second.
Definition ServerIdleTimeout : Z := 60 * second.

Definition MaxBundleBytes : Z := 64 * 1024.
Definition MaxCiphertextBytes : Z := 128 * 1024.
Definition MaxVectorCount : Z := 128.
Definition MaxSelectionCount : Z := 32.
Definition RPCCallTimeout : Z := 5 * second.
Definition AttemptTotalTimeout : Z := 30 * second.
Definition CallGasCap : Z := 2000000.
Definition MaxResponseBytes : Z := 8 * 1024.
Definition MaxActionBodyBytes : Z := Z.shiftl 1 20.

(** The package variables. *)
Record vars := mkVars {
  ExtensionPort : Z;
  SignPort : Z;
  WorkProofRPCURL : string;
  WorkProofEscrowAddress : string;
  WorkProofRandomNumberV2Addr : string;
  WorkProofCiphertextHosts : list string;
}.

Definition defaults : vars := mkVars 8080 9090 "" "" "" [].

(** A port variable: overridden when the text is a valid integer. *)
Definition port_override (raw : string) (default : Z) : Z :=
  if String.eqb raw "" then default
  else match Atoi raw with Some v => v | None => default end.

Definition init (Getenv : string -> string) : vars :=
  let ep := Getenv "EXTENSION_PORT" in
  let sp := Getenv "SIGN_PORT" in
  let hosts := Getenv "WORKPROOF_CIPHERTEXT_HOSTS" in
  mkVars
    (port_override ep (ExtensionPort defaults))
    (port_override sp (SignPort defaults))
    (Getenv "WORKPROOF_RPC_URL")
    (Getenv "WORKPROOF_ESCROW_ADDRESS")
    (Getenv "WORKPROOF_RANDOM_NUMBER_V2_ADDRESS")
    (if String.eqb hosts "" then WorkProofCiphertextHosts defaults
     else Split hosts ",").

(** The hosts list is the variable's text cut at its commas, and is empty
    exactly when the variable is unset or empty. *)
Lemma init_hosts Getenv :
  Join (WorkProofCiphertextHosts (init Getenv)) "," = Getenv "WORKPROOF_CIPHERTEXT_HOSTS" /\
  (WorkProofCiphertextHosts (init Getenv) = [] <-> Getenv "WORKPROOF_CIPHERTEXT_HOSTS" = "").
Proof.
  unfold init; cbn [WorkProofCiphertextHosts defaults].
  destruct (String.eqb_spec (Getenv "WORKPROOF_CIPHERTEXT_HOSTS") "") as [->|Hne].
  - done.
  - split; [apply Join_Split|]. split; [by intros ?%Split_nonempty|done].
Qed.

End Config.
