(* ===== verification/GoEth.v ===== *)
(** * Interfaces to code outside the repository

    go-ethereum's pure helpers, go-flare-common's tuple codec, the JSON-RPC client and the JCS transform are
    operations the program calls. They are type-class fields here, so every
    theorem holds for whatever they do; what the code relies on of their
    documented behaviour is stated in separate law classes. *)

From S2P Require Import Prelude GoStd.

(** ABI values passed to [abi.Arguments.Pack] and returned by [Unpack]. *)
Inductive abi_value :=
| AbiBigInt (n : bigint)
| AbiUint64 (n : Z)
| AbiAddress (a : bytes)
| AbiBytes32 (h : bytes)
| AbiBool (b : bool)
| AbiString (s : string)
| AbiBytes (b : bytes)
| AbiTuple (l : list abi_value)
| AbiOther.

(** [abi.ArgumentMarshaling]: a named component of a tuple type. *)
Inductive abi_component :=
| Component (name type : string)
| TupleComponent (name : string) (components : list abi_component).

Class GoEthereum := {
  crypto_Keccak256 : bytes -> bytes;
  hexutil_Decode : string -> result bytes;
  hexutil_DecodeBig : string -> result Z;
  HexToAddress : string -> bytes;
  IsHexAddress : string -> bool;
  Address_Hex : bytes -> string;
  BytesToHash : bytes -> bytes;
  RightPadBytes : bytes -> Z -> bytes;
  abi_Pack : list (string * abi_value) -> result bytes;
  abi_Unpack : list string -> bytes -> result (list abi_value);
  structs_Encode : abi_component -> abi_value -> result bytes;
  structs_DecodeTo : abi_component -> bytes -> result abi_value;
}.

(** [big.Int.Cmp]: the same pointer compares equal without a dereference. *)
Definition big_Cmp (x y : bigint) : result comparison :=
  match x, y with
  | None, None => Ok Eq
  | Some a, Some b => Ok (a ?= b)
  | _, _ => Panic "nil pointer dereference"
  end.

Definition big_ne (x y : bigint) : result bool :=
  c ← big_Cmp x y; Ok (match c with Eq => false | _ => true end).

(** [%v] of a big integer. *)
Definition big_text (x : bigint) : string := match x with Some n => pretty n | None => "<nil>" end.

(** A Go context: the timeouts that bound it, innermost first, in
    milliseconds. [context.Background()] is [[]]. *)
Abbreviation ctx := (list Z).
Definition WithTimeout (c : ctx) (ms : Z) : ctx := ms :: c.

(** [ethereum.CallMsg], the fields the program sets. *)
Record CallMsg := mkCallMsg {
  msg_From : bytes;
  msg_To : option bytes;
  msg_Gas : Z;
  msg_GasPrice : bigint;
  msg_Value : bigint;
  msg_Data : bytes;
}.

(** [ethclient.Client]: a block number [None] is the latest block. *)
Class EthClient (W : Type) := {
  CodeAt : ctx -> bytes -> bigint -> M W bytes;
  StorageAt : ctx -> bytes -> bytes -> bigint -> M W bytes;
  CallContract : ctx -> CallMsg -> bigint -> M W bytes;
}.

(** Run an operation on one part of the state. *)
Definition zoom_snd {S W A} (m : M W A) : M (S * W) A :=
  fun '(s, w) => let '(r, w') := m w in (r, (s, w')).

Lemma zoom_snd_eq {S W A} (m : M W A) (s : S) w r x :
  zoom_snd m (s, w) = (r, x) <-> exists w', m w = (r, w') /\ x = (s, w').
Proof. unfold zoom_snd. destruct (m w) as [r' w']. naive_solver. Qed.

Lemma no_panic_zoom {S W A} (m : M W A) : no_panic m -> no_panic (zoom_snd (S := S) m).
Proof. intros Hm [s w] p x (w' & H & _)%zoom_snd_eq. by apply Hm in H. Qed.
Lemma no_error_zoom {S W A} (m : M W A) : no_error m -> no_error (zoom_snd (S := S) m).
Proof. intros Hm [s w] p x (w' & H & _)%zoom_snd_eq. by apply Hm in H. Qed.
#[export] Hint Resolve no_panic_zoom no_error_zoom : safe.

#[export] Instance EthClient_snd {S W} {EC : EthClient W} : EthClient (S * W) := {
  CodeAt c a b := zoom_snd (CodeAt c a b);
  StorageAt c a k b := zoom_snd (StorageAt c a k b);
  CallContract c m b := zoom_snd (CallContract c m b);
}.

(** The zero values of Go arrays. *)
Definition zero_bytes (n : nat) : bytes := replicate n Byte.x00.
Abbreviation zero_address := (zero_bytes 20).
Abbreviation zero_hash := (zero_bytes 32).

(** [copy(dst[:], src)] into a zeroed array of [n] bytes. *)
Definition copy_to (n : nat) (src : bytes) : bytes :=
  take n src ++ zero_bytes (n - length src).

Lemma length_copy_to n src : length (copy_to n src) = n.
Proof. unfold copy_to, zero_bytes. rewrite length_app, length_take, length_replicate. lia. Qed.
Lemma copy_to_id n src : length src = n -> copy_to n src = src.
Proof.
  intros <-. unfold copy_to, zero_bytes. rewrite take_ge, Nat.sub_diag by done. apply app_nil_r.
Qed.

(** ** hash.go *)
Section hash.
Context {GE : GoEthereum}.

Definition keccak256 (data : bytes) : bytes := copy_to 32 (crypto_Keccak256 data).

Lemma length_keccak256 data : length (keccak256 data) = 32%nat.
Proof. apply length_copy_to. Qed.
End hash.

(** ** Documented behaviour of hexutil *)
Class HexutilLaws {GE : GoEthereum} := {
  hexutil_Decode_hex h l : hex_decode h = Some l -> hexutil_Decode ("0x" +:+ h) = Ok l;
  hexutil_Decode_no_panic s p : hexutil_Decode s <> Panic p;
  hexutil_DecodeBig_leading_zero a h : is_Err (hexutil_DecodeBig ("0x0" +:+ String a h)) = true;
  hexutil_DecodeBig_digits a h :
    all_chars is_hex (String a h) = true -> (String.length h < 64)%nat -> (a = "0"%char -> h = "") ->
    exists n, hexutil_DecodeBig ("0x" +:+ String a h) = Ok n;
  hexutil_DecodeBig_no_panic s p : hexutil_DecodeBig s <> Panic p;
}.
