(* ===== verification/Reference.v ===== *)
(** * A concrete instance of the outside interfaces

    Small executable functions with the documented behaviour that the law
    classes state: the witnesses of the development run on it. The hash is a
    32-byte polynomial digest, not Keccak: no theorem depends on which
    function it is. *)

From S2P Require Import Prelude GoStd GoEth.

Definition ref_hash (data : bytes) : bytes :=
  be_bytes 32 (fold_left (fun acc b => (acc * 1000003 + byte_val b + 7) mod 2 ^ 256) data 5381).

Definition ref_Decode (s : string) : result bytes :=
  if String.eqb s "" then Err (Plain "empty hex string")
  else if negb (HasPrefix s "0x") then Err (Plain "hex string without 0x prefix")
  else match hex_decode (TrimPrefix s "0x") with
       | Some l => Ok l
       | None => Err (Plain "invalid hex string")
       end.

Fixpoint hex_number (s : string) (acc : Z) : option Z :=
  match s with
  | EmptyString => Some acc
  | String a s => d ← hex_val a; hex_number s (acc * 16 + d)
  end.

Definition ref_DecodeBig (s : string) : result Z :=
  if negb (HasPrefix s "0x") then Err (Plain "hex string without 0x prefix")
  else match TrimPrefix s "0x" with
       | EmptyString => Err (Plain "empty hex number")
       | String "0" (String _ _) => Err (Plain "hex number with leading zero digits")
       | d => if (64 <? Z.of_nat (String.length d)) then Err (Plain "hex number > 256 bits")
              else match hex_number d 0 with
                   | Some v => Ok v
                   | None => Err (Plain "invalid hex string")
                   end
       end.

Definition ref_HexToAddress (s : string) : bytes :=
  match hex_decode (TrimPrefix s "0x") with
  | Some l => be_bytes 20 (be_value l)
  | None => zero_address
  end.

Definition ref_IsHexAddress (s : string) : bool :=
  match hex_decode (TrimPrefix s "0x") with Some l => Nat.eqb (length l) 20 | None => false end.

Definition ref_word (v : abi_value) : result bytes :=
  match v with
  | AbiBigInt (Some n) | AbiUint64 n => Ok (be_bytes 32 n)
  | AbiBigInt None => Panic "nil big.Int"
  | AbiAddress a => Ok (zero_bytes 12 ++ a)
  | AbiBytes32 h => Ok h
  | AbiBool b => Ok (be_bytes 32 (if b then 1 else 0))
  | AbiString _ | AbiBytes _ | AbiTuple _ | AbiOther => Err (Plain "unsupported")
  end.

Fixpoint ref_Pack (l : list (string * abi_value)) : result bytes :=
  match l with
  | [] => Ok []
  | (_, v) :: l => w ← ref_word v; r ← ref_Pack l; Ok (w ++ r)
  end.

Definition ref_unword (ty : string) (w : bytes) : result abi_value :=
  if String.eqb ty "bool" then
    if bool_decide (be_value w = 0) then Ok (AbiBool false)
    else if bool_decide (be_value w = 1) then Ok (AbiBool true)
    else Err (Plain "abi: improperly encoded boolean value")
  else Ok (AbiBigInt (Some (be_value w))).

Fixpoint ref_Unpack (tys : list string) (data : bytes) : result (list abi_value) :=
  match tys with
  | [] => Ok []
  | ty :: tys =>
    if (length data <? 32)%nat then Err (Plain "abi: improperly formatted output") else
    v ← ref_unword ty (take 32 data);
    r ← ref_Unpack tys (drop 32 data);
    Ok (v :: r)
  end.

(** The tuple codec on static components: one word per component. *)
Fixpoint ref_Encode (v : abi_value) : result bytes :=
  match v with
  | AbiTuple l => fold_right (fun v r => w ← ref_Encode v; rest ← r; Ok (w ++ rest)) (Ok []) l
  | _ => ref_word v
  end.

Definition ref_component (ty : string) (w : bytes) : abi_value :=
  if String.eqb ty "uint256" then AbiBigInt (Some (be_value w))
  else if HasPrefix ty "uint" then AbiUint64 (be_value w)
  else if String.eqb ty "address" then AbiAddress (drop 12 w)
  else if String.eqb ty "bytes32" then AbiBytes32 w
  else AbiOther.

Fixpoint ref_components (l : list abi_component) (data : bytes) : result (list abi_value) :=
  match l with
  | [] => Ok []
  | Component _ ty :: l =>
    if (length data <? 32)%nat then Err (Plain "abi: length insufficient") else
    r ← ref_components l (drop 32 data); Ok (ref_component ty (take 32 data) :: r)
  | TupleComponent _ _ :: _ => Err (Plain "unsupported")
  end.

(** A tuple of strings is read as its texts, each ended by a zero byte. *)
Fixpoint ref_texts (data acc : bytes) : list abi_value :=
  match data with
  | [] => []
  | Byte.x00 :: data => AbiString (string_of_bytes acc) :: ref_texts data []
  | b :: data => ref_texts data (acc ++ [b])
  end.

Definition ref_DecodeTo (c : abi_component) (data : bytes) : result abi_value :=
  match c with
  | TupleComponent _ (Component _ "string" :: _) => Ok (AbiTuple (ref_texts data []))
  | TupleComponent _ l => r ← ref_components l data; Ok (AbiTuple r)
  | Component _ _ => Err (Plain "unsupported")
  end.

#[export] Instance ref_geth : GoEthereum := {|
  crypto_Keccak256 := ref_hash;
  hexutil_Decode := ref_Decode;
  hexutil_DecodeBig := ref_DecodeBig;
  HexToAddress := ref_HexToAddress;
  IsHexAddress := ref_IsHexAddress;
  Address_Hex a := "0x" +:+ hex_encode a;
  BytesToHash l := be_bytes 32 (be_value l);
  RightPadBytes l n := l ++ zero_bytes (Z.to_nat n - length l);
  abi_Pack := ref_Pack;
  abi_Unpack := ref_Unpack;
  structs_Encode _ := ref_Encode;
  structs_DecodeTo := ref_DecodeTo;
|}.

Lemma hex_number_total s acc : all_chars is_hex s = true -> is_Some (hex_number s acc).
Proof.
  revert acc. induction s as [|a s IH]; intros acc H; [by eexists|]. simpl in H. apply andb_true_iff in H as [Ha Hs].
  apply is_hex_val in Ha as [d Hd]. simpl. rewrite Hd. by apply IH.
Qed.

(** The laws hold of the instance. *)
#[export] Instance ref_laws : HexutilLaws.
Proof.
  constructor; cbn [hexutil_Decode hexutil_DecodeBig ref_geth].
  - intros h l H. unfold ref_Decode. rewrite HasPrefix_app, TrimPrefix_app, H. done.
  - intros s p. unfold ref_Decode. repeat case_match; done.
  - intros a h. change ("0x0" +:+ String a h) with ("0x" +:+ String "0" (String a h)).
    unfold ref_DecodeBig. by rewrite HasPrefix_app, TrimPrefix_app.
  - intros a h Hx Hl H0. unfold ref_DecodeBig. rewrite HasPrefix_app, TrimPrefix_app. cbn [negb].
    destruct (hex_number_total (String a h) 0 Hx) as [n Hn]. exists n.
    transitivity (if 64 <? Z.of_nat (String.length (String a h)) then Err (Plain "hex number > 256 bits")
      else match hex_number (String a h) 0 with Some v => Ok v | None => Err (Plain "invalid hex string") end).
    + destruct (decide (a = "0"%char)) as [->|Ha]; [by rewrite H0|].
      destruct a as [[] [] [] [] [] [] [] []]; try done; destruct h; done.
    + cbn [String.length]. rewrite (proj2 (Z.ltb_ge _ _)) by lia. by rewrite Hn.
  - intros s p. unfold ref_DecodeBig. repeat case_match; done.
Qed.

(** ** A concrete chain: one contract, that answers a call from its data *)
Record ref_chain := mkRefChain {
  rc_code : bytes;
  rc_word : bytes;
  rc_call : bytes -> result bytes;
}.

#[export] Instance ref_client : EthClient ref_chain := {|
  CodeAt _ _ _ := fun w => (Ok (rc_code w), w);
  StorageAt _ _ _ _ := fun w => (Ok (rc_word w), w);
  CallContract _ m _ := fun w => (rc_call w (msg_Data m), w);
|}.

(** A chain whose contract has two bytes of code, an empty first slot, and
    reverts every call with the selector 0x08c379a0. *)
Definition ref_reverting : ref_chain :=
  mkRefChain (be_bytes 2 0x6000) (zero_bytes 32)
    (fun _ => Err (External "execution reverted: 0x08c379a0" true None)).

(** A chain whose contract answers every call with the word 1. *)
Definition ref_answering : ref_chain :=
  mkRefChain (be_bytes 2 0x6000) (zero_bytes 32) (fun _ => Ok (be_bytes 32 1)).
