(* ===== verification/Bundle.v ===== *)
(** * The private test bundle (go/internal/verifier/bundle.go, validate.go)

    The bundle and vector records, the validation patterns and [Validate],
    with its exact specification: a bundle validates if and only if it is
    well formed. *)

From S2P Require Import Prelude GoStd RegExp Config GoEth.

Definition VectorEthCallEquals : string := "ETH_CALL_EQUALS".
Definition VectorEthCallReverts : string := "ETH_CALL_REVERTS".
Definition VectorErc165SupportsInterface : string := "ERC165_SUPPORTS_INTERFACE".
Definition VectorCodeSizeRange : string := "CODE_SIZE_RANGE".
Definition VectorStorageAtEquals : string := "STORAGE_AT_EQUALS".

Record Vector := mkVector {
  ID : string;
  Type_ : string;
  Calldata : string;
  Caller : string;
  Value : string;
  ExpectedReturn : string;
  ExpectedRevertSelector : string;
  ExpectedRevertPattern : string;
  InterfaceID : string;
  Expected : option bool;
  MinBytes : Z;
  MaxBytes : Z;
  Slot : string;
  ExpectedValue : string;
}.

Record WorkProofBundle := mkBundle {
  FormatVersion : Z;
  TemplateID : string;
  TemplateVersion : string;
  TargetChainID : Z;
  PublicSpecHash : string;
  VectorCount : Z;
  SelectionCount : Z;
  GasLimitPerCall : Z;
  TimeoutMsPerCall : Z;
  MaxResponseBytes : Z;
  Vectors : list Vector;
}.

(** [len(s)] and [len(l)] as Go ints. *)
Definition slen (s : string) : Z := Z.of_nat (String.length s).
Definition llen {A} (l : list A) : Z := Z.of_nat (length l).

(** ** The patterns of validate.go *)
Definition hexclass : re := Chr is_hex.
Definition digits : re := Plus (Chr is_digit).
Definition templateVersionPattern : re :=
  Cat (Lit ["v"%char]) (Cat digits (Cat (Lit ["."%char])
    (Cat digits (Cat (Lit ["."%char]) digits)))).
Definition bytes32Pattern : re := Cat (Lit (chars "0x")) (Rep 64 hexclass).
Definition bytes4Pattern : re := Cat (Lit (chars "0x")) (Rep 8 hexclass).
Definition addressPattern : re := Cat (Lit (chars "0x")) (Rep 40 hexclass).
Definition bytesPattern : re := Cat (Lit (chars "0x")) (Star (Rep 2 hexclass)).
Definition uint256HexPattern : re := Cat (Lit (chars "0x")) (Cat hexclass (UpTo 63 hexclass)).

Definition nonempty (s : string) : bool := negb (String.eqb s "").
Definition is_set {A} (o : option A) : bool := match o with Some _ => true | None => false end.

(** ** [(v *Vector) validate()] *)
Definition validate (v : Vector) : result unit :=
  fail_if ((slen (ID v) <? 1) || (96 <? slen (ID v)))
          (Plain "id length out of bounds") ;;
  if String.eqb (Type_ v) VectorEthCallEquals then
    fail_if (negb (MatchString bytesPattern (Calldata v)) || negb (MatchString addressPattern (Caller v))
             || negb (MatchString uint256HexPattern (Value v)) || negb (MatchString bytesPattern (ExpectedReturn v)))
            (Plain "malformed ETH_CALL_EQUALS fields") ;;
    fail_if (nonempty (ExpectedRevertSelector v) || nonempty (ExpectedRevertPattern v)
             || nonempty (InterfaceID v) || is_set (Expected v) || negb (MinBytes v =? 0)
             || negb (MaxBytes v =? 0) || nonempty (Slot v) || nonempty (ExpectedValue v))
            (Plain "unexpected fields for ETH_CALL_EQUALS")
  else if String.eqb (Type_ v) VectorEthCallReverts then
    fail_if (negb (MatchString bytesPattern (Calldata v)) || negb (MatchString addressPattern (Caller v))
             || negb (MatchString uint256HexPattern (Value v)))
            (Plain "malformed ETH_CALL_REVERTS fields") ;;
    fail_if (nonempty (ExpectedRevertSelector v) && negb (MatchString bytes4Pattern (ExpectedRevertSelector v)))
            (Plain "malformed expectedRevertSelector") ;;
    fail_if (128 <? slen (ExpectedRevertPattern v))
            (Plain "expectedRevertPattern too long") ;;
    fail_if (nonempty (ExpectedReturn v) || nonempty (InterfaceID v) || is_set (Expected v)
             || negb (MinBytes v =? 0) || negb (MaxBytes v =? 0) || nonempty (Slot v)
             || nonempty (ExpectedValue v))
            (Plain "unexpected fields for ETH_CALL_REVERTS")
  else if String.eqb (Type_ v) VectorErc165SupportsInterface then
    fail_if (negb (MatchString bytes4Pattern (InterfaceID v)) || negb (is_set (Expected v)))
            (Plain "malformed ERC165_SUPPORTS_INTERFACE fields") ;;
    fail_if (nonempty (Calldata v) || nonempty (Caller v) || nonempty (Value v)
             || nonempty (ExpectedReturn v) || nonempty (ExpectedRevertSelector v)
             || nonempty (ExpectedRevertPattern v) || negb (MinBytes v =? 0)
             || negb (MaxBytes v =? 0) || nonempty (Slot v) || nonempty (ExpectedValue v))
            (Plain "unexpected fields for ERC165_SUPPORTS_INTERFACE")
  else if String.eqb (Type_ v) VectorCodeSizeRange then
    fail_if ((MinBytes v <? 1) || (MaxBytes v <? 1) || (MaxBytes v <? MinBytes v))
            (Plain "malformed CODE_SIZE_RANGE bounds") ;;
    fail_if (nonempty (Calldata v) || nonempty (Caller v) || nonempty (Value v)
             || nonempty (ExpectedReturn v) || nonempty (ExpectedRevertSelector v)
             || nonempty (ExpectedRevertPattern v) || nonempty (InterfaceID v)
             || is_set (Expected v) || nonempty (Slot v) || nonempty (ExpectedValue v))
            (Plain "unexpected fields for CODE_SIZE_RANGE")
  else if String.eqb (Type_ v) VectorStorageAtEquals then
    fail_if (negb (MatchString bytes32Pattern (Slot v)) || negb (MatchString bytes32Pattern (ExpectedValue v)))
            (Plain "malformed STORAGE_AT_EQUALS fields") ;;
    fail_if (nonempty (Calldata v) || nonempty (Caller v) || nonempty (Value v)
             || nonempty (ExpectedReturn v) || nonempty (ExpectedRevertSelector v)
             || nonempty (ExpectedRevertPattern v) || nonempty (InterfaceID v)
             || is_set (Expected v) || negb (MinBytes v =? 0) || negb (MaxBytes v =? 0))
            (Plain "unexpected fields for STORAGE_AT_EQUALS")
  else Err (Plain ("unknown vector type " +:+ quote (Type_ v))).

(** ** [(b *WorkProofBundle) Validate()] *)

(** The loop over the vectors: [i] is the index, [seen] the ids so far. *)
Fixpoint validate_vectors (i : Z) (seen : gset string) (vs : list Vector) : result unit :=
  match vs with
  | [] => Ok tt
  | v :: vs =>
    wrap_err ("vector[" +:+ pretty i +:+ "] (" +:+ ID v +:+ "): ") (validate v) ;;
    fail_if (bool_decide (ID v ∈ seen)) (Plain ("duplicate vector id " +:+ quote (ID v))) ;;
    validate_vectors (i + 1) ({[ID v]} ∪ seen) vs
  end.

Definition Validate (b : WorkProofBundle) : result unit :=
  fail_if (negb (FormatVersion b =? 1))
          (Plain ("formatVersion must be 1, got " +:+ pretty (FormatVersion b))) ;;
  fail_if ((slen (TemplateID b) <? 1) || (64 <? slen (TemplateID b)))
          (Plain "templateId length out of bounds") ;;
  fail_if (negb (MatchString templateVersionPattern (TemplateVersion b)))
          (Plain "templateVersion does not match vX.Y.Z") ;;
  fail_if (negb (TargetChainID b =? 114))
          (Plain ("targetChainId must be 114 (Coston2), got " +:+ pretty (TargetChainID b))) ;;
  fail_if (negb (MatchString bytes32Pattern (PublicSpecHash b)))
          (Plain "publicSpecHash malformed") ;;
  fail_if ((VectorCount b <? 1) || (Config.MaxVectorCount <? VectorCount b))
          (Plain ("vectorCount out of bounds: " +:+ pretty (VectorCount b))) ;;
  fail_if ((SelectionCount b <? 1) || (Config.MaxSelectionCount <? SelectionCount b))
          (Plain ("selectionCount out of bounds: " +:+ pretty (SelectionCount b))) ;;
  fail_if (VectorCount b <? SelectionCount b)
          (Plain ("selectionCount " +:+ pretty (SelectionCount b) +:+
                  " exceeds vectorCount " +:+ pretty (VectorCount b))) ;;
  fail_if ((GasLimitPerCall b <? 21000) || (5000000 <? GasLimitPerCall b))
          (Plain ("gasLimitPerCall out of schema bounds: " +:+ pretty (GasLimitPerCall b))) ;;
  fail_if (Config.CallGasCap <? GasLimitPerCall b)
          (Plain ("gasLimitPerCall " +:+ pretty (GasLimitPerCall b) +:+
                  " exceeds engine cap " +:+ pretty Config.CallGasCap)) ;;
  fail_if ((TimeoutMsPerCall b <? 100) || (30000 <? TimeoutMsPerCall b))
          (Plain ("timeoutMsPerCall out of bounds: " +:+ pretty (TimeoutMsPerCall b))) ;;
  fail_if ((MaxResponseBytes b <? 1) || (65536 <? MaxResponseBytes b))
          (Plain ("maxResponseBytes out of schema bounds: " +:+ pretty (MaxResponseBytes b))) ;;
  fail_if (Config.MaxResponseBytes <? MaxResponseBytes b)
          (Plain ("maxResponseBytes " +:+ pretty (MaxResponseBytes b) +:+
                  " exceeds engine cap " +:+ pretty Config.MaxResponseBytes)) ;;
  fail_if (negb (llen (Vectors b) =? VectorCount b))
          (Plain ("vectors length " +:+ pretty (llen (Vectors b)) +:+
                  " does not match declared vectorCount " +:+ pretty (VectorCount b))) ;;
  fail_if ((llen (Vectors b) <? 1) || (Config.MaxVectorCount <? llen (Vectors b)))
          (Plain ("vectors length out of bounds: " +:+ pretty (llen (Vectors b)))) ;;
  validate_vectors 0 ∅ (Vectors b).

(** ** Specification *)

(** ["0x"] followed by hexadecimal digits. *)
Definition hex_fixed (n : nat) (s : string) : Prop :=
  exists h, s = "0x" +:+ h /\ String.length h = n /\ all_chars is_hex h = true.
Definition hex_data (s : string) : Prop :=
  exists h k, s = "0x" +:+ h /\ String.length h = (k * 2)%nat /\ all_chars is_hex h = true.
Definition hex_uint256 (s : string) : Prop :=
  exists h, s = "0x" +:+ h /\ (1 <= String.length h <= 64)%nat /\ all_chars is_hex h = true.

(** The five variants of the schema's union: exactly the fields of its type
    are set. *)
Inductive vector_wf : Vector -> Prop :=
| wf_equals id cd caller value ret :
    1 <= slen id <= 96 -> hex_data cd -> hex_fixed 40 caller -> hex_uint256 value -> hex_data ret ->
    vector_wf (mkVector id VectorEthCallEquals cd caller value ret "" "" "" None 0 0 "" "")
| wf_reverts id cd caller value sel pat :
    1 <= slen id <= 96 -> hex_data cd -> hex_fixed 40 caller -> hex_uint256 value ->
    sel = "" \/ hex_fixed 8 sel -> slen pat <= 128 ->
    vector_wf (mkVector id VectorEthCallReverts cd caller value "" sel pat "" None 0 0 "" "")
| wf_erc165 id iface e :
    1 <= slen id <= 96 -> hex_fixed 8 iface ->
    vector_wf (mkVector id VectorErc165SupportsInterface "" "" "" "" "" "" iface (Some e) 0 0 "" "")
| wf_code_size id lo hi :
    1 <= slen id <= 96 -> 1 <= lo <= hi ->
    vector_wf (mkVector id VectorCodeSizeRange "" "" "" "" "" "" "" None lo hi "" "")
| wf_storage id slot value :
    1 <= slen id <= 96 -> hex_fixed 64 slot -> hex_fixed 64 value ->
    vector_wf (mkVector id VectorStorageAtEquals "" "" "" "" "" "" "" None 0 0 slot value).

Record bundle_wf (b : WorkProofBundle) : Prop := {
  wf_format : FormatVersion b = 1;
  wf_template : 1 <= slen (TemplateID b) <= 64;
  wf_version : MatchString templateVersionPattern (TemplateVersion b) = true;
  wf_chain : TargetChainID b = 114;
  wf_spec_hash : hex_fixed 64 (PublicSpecHash b);
  wf_count : llen (Vectors b) = VectorCount b;
  wf_selection : 1 <= SelectionCount b <= 32;
  wf_sel_count : SelectionCount b <= VectorCount b <= 128;
  wf_gas : 21000 <= GasLimitPerCall b <= 2000000;
  wf_timeout : 100 <= TimeoutMsPerCall b <= 30000;
  wf_response : 1 <= MaxResponseBytes b <= 8192;
  wf_vectors : Forall vector_wf (Vectors b);
  wf_ids : NoDup (ID <$> Vectors b);
}.

(** ** The patterns *)

Lemma chars_app a b : chars (a +:+ b) = chars a ++ chars b.
Proof. induction a; [done|]. rewrite append_cons. simpl. by rewrite IHa. Qed.

Lemma chars_inj a b : chars a = chars b -> a = b.
Proof.
  intros H. rewrite <- (String.string_of_list_ascii_of_string a), H.
  apply String.string_of_list_ascii_of_string.
Qed.

Lemma length_chars s : length (chars s) = String.length s.
Proof. induction s; simpl; auto. Qed.

Lemma forallb_chars p s : forallb p (chars s) = all_chars p s.
Proof. induction s; simpl; congruence. Qed.

(** A pattern [^0x...$] matches the texts with that prefix whose rest matches. *)
Lemma match_0x r s :
  MatchString (Cat (Lit (chars "0x")) r) s = true <->
  exists h, s = "0x" +:+ h /\ matches r (chars h).
Proof.
  rewrite MatchString_spec, matches_cat_inv. split.
  - intros (l1 & l2 & E & ->%matches_Lit & H).
    exists (String.string_of_list_ascii l2).
    rewrite String.list_ascii_of_string_of_list_ascii. split; [|done].
    apply chars_inj. by rewrite chars_app, String.list_ascii_of_string_of_list_ascii.
  - intros (h & -> & H). exists (chars "0x"), (chars h). by rewrite chars_app, matches_Lit.
Qed.

Lemma hex_fixed_spec n s :
  MatchString (Cat (Lit (chars "0x")) (Rep n hexclass)) s = true <-> hex_fixed n s.
Proof.
  rewrite match_0x. unfold hex_fixed, hexclass. setoid_rewrite matches_Rep_Chr.
  setoid_rewrite forallb_chars. setoid_rewrite length_chars. done.
Qed.

Lemma bytesPattern_spec s : MatchString bytesPattern s = true <-> hex_data s.
Proof.
  unfold bytesPattern, hexclass. rewrite match_0x. split.
  - intros (h & -> & [(k & Hk) Ha]%matches_Star_Rep).
    exists h, k. by rewrite <- length_chars, <- forallb_chars.
  - intros (h & k & -> & Hk & Ha). exists h. split; [done|].
    apply (matches_Star_Rep_intro _ _ k); by rewrite ?length_chars, ?forallb_chars.
Qed.

Lemma uint256HexPattern_spec s : MatchString uint256HexPattern s = true <-> hex_uint256 s.
Proof.
  unfold uint256HexPattern, hexclass. rewrite match_0x. unfold hex_uint256.
  setoid_rewrite <- length_chars. setoid_rewrite <- forallb_chars.
  split; intros (h & -> & H); exists h; (split; [done|]).
  - apply matches_cat_inv in H as (l1 & l2 & -> & (c & -> & Hc)%matches_chr & [Hl Hp]%matches_UpTo_Chr).
    simpl. rewrite Hc, Hp. split; [lia|done].
  - destruct H as [Hl Ha]. destruct (chars h) as [|c l]; cbn [length forallb] in *; [lia|]. to_prop.
    apply matches_cat_inv. exists [c], l. rewrite matches_chr, matches_UpTo_Chr.
    naive_solver lia.
Qed.

Lemma nonempty_false s : nonempty s = false <-> s = "".
Proof. unfold nonempty. rewrite negb_false_iff. apply String.eqb_eq. Qed.
Lemma nonempty_true s : nonempty s = true <-> s <> "".
Proof. unfold nonempty. rewrite negb_true_iff. apply String.eqb_neq. Qed.
Lemma is_set_false {A} (o : option A) : is_set o = false <-> o = None.
Proof. by destruct o. Qed.
Lemma is_set_true {A} (o : option A) : is_set o = true <-> exists a, o = Some a.
Proof. destruct o; naive_solver. Qed.

Create Rewrite HintDb checks.
#[export] Hint Rewrite fail_if_Ok orb_false_iff andb_false_iff negb_false_iff nonempty_false @is_set_false
  @is_set_true Z.ltb_ge Z.eqb_eq bytesPattern_spec uint256HexPattern_spec : checks.

Ltac checks_in H :=
  repeat (autorewrite with checks in H
          || match type of H with
             | _ ≫= _ = Ok _ => apply bind_Ok in H as (? & ?H & H)
             end).

(** ** Correctness of the validators *)

Lemma hex_fixed_bytes32 s : MatchString bytes32Pattern s = true <-> hex_fixed 64 s.
Proof. apply hex_fixed_spec. Qed.
Lemma hex_fixed_bytes4 s : MatchString bytes4Pattern s = true <-> hex_fixed 8 s.
Proof. apply hex_fixed_spec. Qed.
Lemma hex_fixed_address s : MatchString addressPattern s = true <-> hex_fixed 40 s.
Proof. apply hex_fixed_spec. Qed.
#[export] Hint Rewrite hex_fixed_bytes32 hex_fixed_bytes4 hex_fixed_address : checks.

Ltac split_checks := repeat match goal with
  | H : _ /\ _ |- _ => destruct H
  | H : exists _, _ |- _ => destruct H
  end; subst.

Lemma validate_sound v : validate v = Ok tt -> vector_wf v.
Proof.
  intros H. unfold validate in H. destruct v; simpl in *.
  apply bind_Ok in H as ([] & Hid & H). checks_in Hid.
  repeat case_match; try done; to_prop; subst;
    repeat match type of H with _ ≫= _ = _ => apply bind_Ok in H as ([] & ? & H) end;
    autorewrite with checks in *; split_checks; constructor; naive_solver lia.
Qed.

Lemma validate_complete v : vector_wf v -> validate v = Ok tt.
Proof.
  destruct 1; unfold validate; cbn -[MatchString fail_if slen mbind];
    repeat (apply bind_Ok; exists tt; split);
    autorewrite with checks; rewrite ?nonempty_true; eauto 10 with lia.
Qed.

Lemma validate_iff v : validate v = Ok tt <-> vector_wf v.
Proof. split; [apply validate_sound|apply validate_complete]. Qed.

Lemma validate_no_panic v p : validate v <> Panic p.
Proof.
  unfold validate. intros H.
  repeat (case_match || (apply bind_Panic in H as [H|(? & ? & H)])
          || (by apply fail_if_Panic in H)); try done.
Qed.

Lemma validate_vectors_iff i seen vs :
  validate_vectors i seen vs = Ok tt <->
  Forall vector_wf vs /\ NoDup (ID <$> vs) /\ (forall v, v ∈ vs -> ID v ∉ seen).
Proof.
  revert i seen. induction vs as [|v vs IH]; intros i seen; simpl.
  - split; [|done]. intros _. split_and!; [done|constructor|by intros ? []%not_elem_of_nil].
  - rewrite bind_Ok. setoid_rewrite wrap_err_Ok. split.
    + intros ([] & Hv & H). apply bind_Ok in H as ([] & Hs & H).
      apply fail_if_Ok, bool_decide_eq_false in Hs. apply IH in H as (Hf & Hn & Hseen).
      split_and!.
      * constructor; [by apply validate_iff|done].
      * constructor; [|done]. intros (w & Hw & Hin)%list_elem_of_fmap.
        specialize (Hseen w Hin). set_solver.
      * intros w [->|Hin]%elem_of_cons; [done|]. specialize (Hseen w Hin). set_solver.
    + intros (Hf & Hn & Hseen). exists tt.
      apply Forall_cons_1 in Hf as [Hv Hf].
      pose proof (NoDup_cons_1_1 _ _ Hn) as Hni; apply NoDup_cons_1_2 in Hn.
      split; [by apply validate_iff|]. apply bind_Ok. exists tt. split.
      * apply fail_if_Ok, bool_decide_eq_false. apply (Hseen v). by left.
      * apply IH. split_and!; [done|done|]. intros w Hin.
        assert (ID w <> ID v) by (intros E; apply Hni; rewrite <- E; apply list_elem_of_fmap; eauto).
        assert (ID w ∉ seen) by (apply (Hseen w); by right). set_solver.
Qed.

(** A bundle validates exactly when it is well formed. *)
Lemma Validate_iff_wf b : Validate b = Ok tt <-> bundle_wf b.
Proof.
  unfold Validate. split.
  - intros H.
    repeat match type of H with
           | fail_if _ _ ≫= _ = _ => apply bind_Ok in H as ([] & ? & H)
           end.
    apply validate_vectors_iff in H as (? & ? & _). autorewrite with checks in *.
    unfold Config.MaxVectorCount, Config.MaxSelectionCount, Config.CallGasCap,
      Config.MaxResponseBytes in *.
    constructor; try done; lia.
  - intros [].
    repeat match goal with
           | |- fail_if _ _ ≫= _ = _ => apply bind_Ok; exists tt; split
           end; autorewrite with checks;
    unfold Config.MaxVectorCount, Config.MaxSelectionCount, Config.CallGasCap,
      Config.MaxResponseBytes; try done; try lia.
    apply validate_vectors_iff. split_and!; [done|done|set_solver].
Qed.

Lemma validate_vectors_no_panic i seen vs p : validate_vectors i seen vs <> Panic p.
Proof.
  revert i seen. induction vs as [|v vs IH]; intros i seen; [done|]. simpl. intros H.
  apply bind_Panic in H as [H|(? & ? & H)]; [by apply wrap_err_Panic, validate_no_panic in H|].
  apply bind_Panic in H as [H|(? & ? & H)]; [by apply fail_if_Panic in H|]. by apply IH in H.
Qed.

(** C21. Validation decides well-formedness: [Validate] never panics and
    accepts exactly the bundles of the schema (the format, template and chain
    constants, the count, gas, time and size bounds with the engine's tighter
    caps, distinct vector IDs, and each vector one of the five variants with
    exactly its own fields, their hexadecimal texts well formed). *)
Theorem Validate_decides_wf b :
  (Validate b = Ok tt <-> bundle_wf b) /\ (forall p, Validate b <> Panic p).
Proof.
  split; [apply Validate_iff_wf|]. intros p H. unfold Validate in H.
  repeat (apply bind_Panic in H as [H|(? & ? & H)]; [by apply fail_if_Panic in H|]).
  by apply validate_vectors_no_panic in H.
Qed.
