(* ===== verification/Vectors.v ===== *)
(** * Vector selection and execution (go/internal/verifier/vectors.go)

    The deterministic Fisher-Yates selection of hidden vectors and the five
    vector executors, over an arbitrary chain client. *)

From S2P Require Import Prelude GoStd RegExp Config GoEth Bundle.

(** [VectorOutcome]. *)
Record VectorOutcome := mkOutcome {
  out_ID : string;
  Passed : bool;
  Skipped : bool;
  Detail : string;
}.

Definition skip (v : Vector) (detail : string) : VectorOutcome := mkOutcome (ID v) false true detail.

Definition ethereumCallMsg (to data : bytes) : CallMsg :=
  mkCallMsg zero_address (Some to) 0 None None data.

Definition ethereumCallMsgFrom (from to data : bytes) (gasCap : Z) (value : bigint) : CallMsg :=
  mkCallMsg from (Some to) (if 0 <? gasCap then uint64 gasCap else 0) None value data.

Definition isEVMRevert (err : error) : bool := errors_As_rpc err.

(** [b[7-k] = byte(i >> (8*k))] for [k] from 0 to 7. *)
Definition encodeCounter (i : Z) : bytes :=
  foldl (fun b k => <[Z.to_nat (7 - k) := byte_of_Z (Z.shiftr i (8 * k))]> b)
        (zero_bytes 8) (seqZ 0 8).

Section Vectors.
Context {GE : GoEthereum}.

(** ** Selection *)

(** [l[i], l[j] = l[j], l[i]], a panic when an index is out of range. *)
Definition swap {A} (l : list A) (i j : Z) : result (list A) :=
  match l !! Z.to_nat i, l !! Z.to_nat j with
  | Some x, Some y => Ok (<[Z.to_nat j := x]> (<[Z.to_nat i := y]> l))
  | _, _ => Panic "index out of range"
  end.

(** The [i]-th draw: [keccak256(seed ++ counter)]. *)
Definition draw (seed : bytes) (i : Z) : Z :=
  be_value (keccak256 (seed ++ encodeCounter (uint64 i))).

(** The loop [for i := ...; i < limit; i++], [k] iterations from [i]. *)
Fixpoint select_loop (k : nat) (i : Z) (seed : bytes) (vectorCount : Z) (indices : list Z)
  : result (list Z) :=
  match k with
  | O => Ok indices
  | S k =>
    let remaining := vectorCount - i in
    let j := i + draw seed i mod remaining in
    indices ← swap indices i j;
    select_loop k (i + 1) seed vectorCount indices
  end.

Definition SelectVectors (seed : bytes) (vectorCount selectionCount : Z) : result (list Z) :=
  if vectorCount <? 0 then Panic "makeslice: len out of range" else
  let indices := seqZ 0 vectorCount in
  let limit := if selectionCount <? vectorCount then selectionCount else vectorCount in
  indices ← select_loop (Z.to_nat limit) 0 seed vectorCount indices;
  if limit <? 0 then Panic "slice bounds out of range" else
  Ok (take (Z.to_nat limit) indices).

(** [TestSeed]: the ABI encoding of the binding values, hashed. *)
Definition TestSeed (randomNumber : bigint) (escrowAddress : bytes) (jobID : bigint)
    (attempt : Z) (specHash artifactCodeHash : bytes) : result bytes :=
  packed ← wrap_err "packing test seed inputs: "
    (abi_Pack [("uint256", AbiBigInt randomNumber); ("address", AbiAddress escrowAddress);
               ("uint256", AbiBigInt jobID); ("uint64", AbiUint64 attempt);
               ("bytes32", AbiBytes32 specHash); ("bytes32", AbiBytes32 artifactCodeHash)]);
  Ok (keccak256 packed).

(** An empty text is the nil value, not zero. *)
Definition parseCallValue (hexValue : string) : result bigint :=
  if String.eqb hexValue "" then Ok None
  else v ← hexutil_DecodeBig hexValue; Ok (Some v).

(** The construction of the ABI type, which cannot fail on the constant
    "bool", is part of [abi_Unpack]. *)
Definition decodeCanonicalBool (result : bytes) : Prelude.result bool :=
  fail_if (negb (llen result =? 32))
          (Plain ("expected exactly 32 bytes, got " +:+ pretty (llen result))) ;;
  values ← abi_Unpack ["bool"] result;
  match values with
  | [] => Panic "index out of range"
  | AbiBool b :: _ => Ok b
  | _ => Err (Plain "unexpected decoded type")
  end.

Section Execution.
Context {W : Type} {EC : EthClient W}.

Definition FetchRandomNumber (c : ctx) (randomNumberV2 : bytes) (round : bigint)
  : M W (bigint * bool) :=
  let selector := take 4 (crypto_Keccak256 (bytes_of_string "getRandomNumberHistorical(uint256)")) in
  packedArgs ← lift (wrap_err "packing getRandomNumberHistorical args: "
                      (abi_Pack [("uint256", AbiBigInt round)]));
  let calldata := selector ++ packedArgs in
  result <?- CallContract c (ethereumCallMsg randomNumberV2 calldata) None
    onerr err => lift (Err (Wrap "calling getRandomNumberHistorical: " err ""));
  values ← lift (wrap_err "unpacking getRandomNumberHistorical result: "
                  (abi_Unpack ["uint256"; "bool"; "uint256"] result));
  match values with
  | [] => lift (Panic "index out of range")
  | AbiBigInt n :: rest =>
    match rest with
    | [] => lift (Panic "index out of range")
    | AbiBool s :: _ => mret (n, s)
    | _ => lift (Err (Plain "unexpected type for isSecure"))
    end
  | _ => lift (Err (Plain "unexpected type for randomNumber"))
  end.

(** ** The five executors *)

Definition executeEthCallEquals (c : ctx) (target : bytes) (block : bigint)
    (gasCap maxResponseBytes : Z) (v : Vector) : M W VectorOutcome :=
  calldata <?- lift (hexutil_Decode (Calldata v))
    onerr _e => mret (skip v "malformed calldata");
  expected <?- lift (hexutil_Decode (ExpectedReturn v))
    onerr _e => mret (skip v "malformed expectedReturn");
  value <?- lift (parseCallValue (Value v))
    onerr _e => mret (skip v "malformed value");
  let caller := HexToAddress (Caller v) in
  result <?- CallContract c (ethereumCallMsgFrom caller target calldata gasCap value) block
    onerr _e => mret (skip v "call error");
  if maxResponseBytes <? llen result then mret (skip v "response exceeds cap") else
  mret (mkOutcome (ID v) (String.eqb (hex_encode result) (hex_encode expected)) false "").

(** What [executeEthCallReverts] concludes from a confirmed revert. *)
Definition revert_outcome (v : Vector) (err : error) : VectorOutcome :=
  if String.eqb (ExpectedRevertSelector v) "" && String.eqb (ExpectedRevertPattern v) ""
  then mkOutcome (ID v) true false ""
  else
    let msg := Error err in
    if nonempty (ExpectedRevertSelector v) then
      let sel := TrimPrefix (ExpectedRevertSelector v) "0x" in
      if Contains (ToLower msg) (ToLower sel) then mkOutcome (ID v) true false ""
      else mkOutcome (ID v) false false "revert selector mismatch"
    else if Contains msg (ExpectedRevertPattern v) then mkOutcome (ID v) true false ""
    else mkOutcome (ID v) false false "revert pattern mismatch".

Definition executeEthCallReverts (c : ctx) (target : bytes) (block : bigint)
    (gasCap : Z) (v : Vector) : M W VectorOutcome :=
  calldata <?- lift (hexutil_Decode (Calldata v))
    onerr _e => mret (skip v "malformed calldata");
  value <?- lift (parseCallValue (Value v))
    onerr _e => mret (skip v "malformed value");
  let caller := HexToAddress (Caller v) in
  _r <?- CallContract c (ethereumCallMsgFrom caller target calldata gasCap value) block
    onerr err =>
      (if negb (isEVMRevert err)
       then mret (skip v "call error (not a confirmed EVM revert)")
       else mret (revert_outcome v err));
  mret (mkOutcome (ID v) false false "call did not revert").

Definition executeErc165 (c : ctx) (target : bytes) (block : bigint)
    (gasCap : Z) (v : Vector) : M W VectorOutcome :=
  ifaceID <?- lift (hexutil_Decode (InterfaceID v))
    onerr _e => mret (skip v "malformed interfaceId");
  if negb (llen ifaceID =? 4) then mret (skip v "malformed interfaceId") else
  let selector := take 4 (crypto_Keccak256 (bytes_of_string "supportsInterface(bytes4)")) in
  let calldata := selector ++ RightPadBytes ifaceID 32 in
  result <?- CallContract c (ethereumCallMsgFrom zero_address target calldata gasCap None) block
    onerr _e => mret (skip v "call error (contract may not implement ERC165)");
  supports <?- lift (decodeCanonicalBool result)
    onerr err => mret (skip v ("non-canonical supportsInterface response: " +:+ Error err));
  let expected := match Expected v with Some e => e | None => false end in
  mret (mkOutcome (ID v) (Bool.eqb supports expected) false "").

Definition executeCodeSizeRange (c : ctx) (target : bytes) (block : bigint)
    (v : Vector) : M W VectorOutcome :=
  code <?- CodeAt c target block
    onerr _e => mret (skip v "eth_getCode error");
  let size := llen code in
  mret (mkOutcome (ID v) ((MinBytes v <=? size) && (size <=? MaxBytes v)) false "").

Definition executeStorageAtEquals (c : ctx) (target : bytes) (block : bigint)
    (v : Vector) : M W VectorOutcome :=
  slotBytes <?- lift (hexutil_Decode (Slot v))
    onerr _e => mret (skip v "malformed slot");
  if negb (llen slotBytes =? 32) then mret (skip v "malformed slot") else
  expected <?- lift (hexutil_Decode (ExpectedValue v))
    onerr _e => mret (skip v "malformed expectedValue");
  value <?- StorageAt c target (BytesToHash slotBytes) block
    onerr _e => mret (skip v "eth_getStorageAt error");
  mret (mkOutcome (ID v) (String.eqb (hex_encode value) (hex_encode expected)) false "").

Definition ExecuteVector (c : ctx) (artifactAddress : bytes) (blockNumber : bigint)
    (gasCap maxResponseBytes : Z) (v : Vector) : M W VectorOutcome :=
  if String.eqb (Type_ v) VectorEthCallEquals then
    executeEthCallEquals c artifactAddress blockNumber gasCap maxResponseBytes v
  else if String.eqb (Type_ v) VectorEthCallReverts then
    executeEthCallReverts c artifactAddress blockNumber gasCap v
  else if String.eqb (Type_ v) VectorErc165SupportsInterface then
    executeErc165 c artifactAddress blockNumber gasCap v
  else if String.eqb (Type_ v) VectorCodeSizeRange then
    executeCodeSizeRange c artifactAddress blockNumber v
  else if String.eqb (Type_ v) VectorStorageAtEquals then
    executeStorageAtEquals c artifactAddress blockNumber v
  else mret (skip v "unknown vector type").
End Execution.
End Vectors.
