(* ===== verification/Selection.v ===== *)
(** * Correctness of the vector selection

    [SelectVectors] is total, returns distinct indices in range, is a prefix
    of every larger selection with the same seed, and is the Fisher-Yates
    shuffle: each ordered selection comes from exactly one sequence of
    draws. [encodeCounter] is the big-endian encoding of its counter. *)

From S2P Require Import Prelude GoStd RegExp Config GoEth Reference Bundle Vectors.

Lemma take_eq_lookup {A} n k (l l' : list A) :
  take n l = take n l' -> (k < n)%nat -> l !! k = l' !! k.
Proof.
  intros H Hk. apply (f_equal (fun l => l !! k)) in H. by rewrite !lookup_take_lt in H.
Qed.

(** ** Swapping two positions *)

Section swap.
Context {A : Type}.
Implicit Types (l : list A).

Lemma swap_total l i j :
  0 <= i < llen l -> 0 <= j < llen l -> exists l', swap l i j = Ok l'.
Proof.
  unfold llen. intros. unfold swap.
  destruct (lookup_lt_is_Some_2 l (Z.to_nat i)) as [x ->]; [lia|].
  destruct (lookup_lt_is_Some_2 l (Z.to_nat j)) as [y ->]; [lia|]. eauto.
Qed.

Lemma swap_inv l i j l' :
  swap l i j = Ok l' -> exists x y, l !! Z.to_nat i = Some x /\ l !! Z.to_nat j = Some y /\
    l' = <[Z.to_nat j := x]> (<[Z.to_nat i := y]> l).
Proof. unfold swap. intros. repeat case_match; simplify_eq; eauto 10. Qed.

Lemma swap_length l i j l' : swap l i j = Ok l' -> length l' = length l.
Proof. intros (x & y & _ & _ & ->)%swap_inv. by rewrite !length_insert. Qed.

(** The element at [j] is moved to [i]; positions other than the two stay. *)
Lemma swap_lookup_l l i j l' :
  0 <= i -> 0 <= j -> swap l i j = Ok l' -> l' !! Z.to_nat i = l !! Z.to_nat j.
Proof.
  intros Hi Hj (x & y & Hx & Hy & ->)%swap_inv.
  apply lookup_lt_Some in Hx as ?, Hy as ?. destruct (decide (i = j)) as [->|].
  - rewrite list_lookup_insert_eq by (rewrite length_insert; lia). congruence.
  - rewrite list_lookup_insert_ne by lia. rewrite list_lookup_insert_eq by lia. done.
Qed.

Lemma swap_lookup_ne l i j l' k :
  k <> Z.to_nat i -> k <> Z.to_nat j -> swap l i j = Ok l' -> l' !! k = l !! k.
Proof. intros ?? (x & y & Hx & Hy & ->)%swap_inv. by rewrite !list_lookup_insert_ne. Qed.

Lemma swap_take l i j l' n :
  (n <= Z.to_nat i)%nat -> (n <= Z.to_nat j)%nat -> swap l i j = Ok l' -> take n l' = take n l.
Proof.
  intros ?? H. apply list_eq. intros k. destruct (decide (k < n)%nat).
  - rewrite !lookup_take_lt by done. eapply swap_lookup_ne; [| |done]; lia.
  - by rewrite !lookup_take_ge by lia.
Qed.

Lemma swap_perm l i j l' : swap l i j = Ok l' -> l' ≡ₚ l.
Proof.
  intros (x & y & Hx & Hy & ->)%swap_inv. apply Permutation_inj. split; [by rewrite !length_insert|].
  set (a := Z.to_nat i) in *. set (b := Z.to_nat j) in *.
  exists (fun k => if decide (k = a) then b else if decide (k = b) then a else k).
  split; [intros ???; repeat case_decide; congruence|].
  apply lookup_lt_Some in Hx as ?, Hy as ?. intros k.
  destruct (decide (k = b)) as [->|Hb].
  - rewrite list_lookup_insert_eq by (rewrite length_insert; lia). repeat case_decide; congruence.
  - rewrite list_lookup_insert_ne by done. case_decide as Ha; [|by rewrite list_lookup_insert_ne].
    subst k. rewrite list_lookup_insert_eq by lia. congruence.
Qed.
End swap.

(** ** Fisher-Yates on an explicit sequence of draws

    [ds !! k] is the offset drawn at step [k]: the abstract algorithm the
    loop of [SelectVectors] refines. *)
Fixpoint fisher_yates {A} (ds : list Z) (i : Z) (l : list A) : result (list A) :=
  match ds with
  | [] => Ok l
  | d :: ds => l ← swap l i (i + d); fisher_yates ds (i + 1) l
  end.

(** Step [k] draws below the number of elements left. *)
Fixpoint draws_ok (n i : Z) (ds : list Z) : Prop :=
  match ds with
  | [] => True
  | d :: ds => 0 <= d < n - i /\ draws_ok n (i + 1) ds
  end.

Section fisher_yates.
Context {A : Type}.
Implicit Types (l : list A).

Lemma fisher_yates_spec ds i l :
  0 <= i -> draws_ok (llen l) i ds ->
  exists l', fisher_yates ds i l = Ok l' /\ l' ≡ₚ l /\ take (Z.to_nat i) l' = take (Z.to_nat i) l.
Proof.
  unfold llen. revert i l. induction ds as [|d ds IH]; intros i l Hi Hd; simpl; [by eauto|].
  destruct Hd as [Hd Hds].
  destruct (swap_total l i (i + d)) as [l1 H1]; [unfold llen; lia..|].
  pose proof (swap_length _ _ _ _ H1) as Hlen. rewrite H1. simpl.
  destruct (IH (i + 1) l1) as (l' & -> & Hp & Ht); [lia|by rewrite Hlen|].
  exists l'. split_and!; [done|by rewrite Hp; eapply swap_perm|].
  apply (f_equal (take (Z.to_nat i))) in Ht. rewrite !take_take, !Nat.min_l in Ht by lia.
  rewrite Ht. eapply swap_take; [| |done]; lia.
Qed.

(** The element put at position [i] by the first step stays there. *)
Lemma fisher_yates_head d ds i l l' :
  0 <= i -> draws_ok (llen l) i (d :: ds) -> fisher_yates (d :: ds) i l = Ok l' ->
  l' !! Z.to_nat i = l !! Z.to_nat (i + d).
Proof.
  intros Hi [Hd Hds] H. simpl in H. apply bind_Ok in H as (l1 & H1 & H).
  destruct (fisher_yates_spec ds (i + 1) l1) as (l2 & H2 & _ & Ht); [lia| |].
  { unfold llen. by rewrite (swap_length _ _ _ _ H1). }
  rewrite H in H2. simplify_eq. rewrite (take_eq_lookup _ _ _ _ Ht) by lia. eapply swap_lookup_l; [| |done]; lia.
Qed.

Lemma draws_ok_length n i ds : 0 <= i <= n -> draws_ok n i ds -> i + llen ds <= n.
Proof.
  unfold llen. revert i. induction ds; simpl; intros i Hi H; [lia|]. destruct H as [? H].
  apply IHds in H; lia.
Qed.

(** Different draws select differently. *)
Lemma fisher_yates_inj ds1 ds2 i l l1 l2 :
  0 <= i <= llen l -> NoDup l -> length ds1 = length ds2 ->
  draws_ok (llen l) i ds1 -> draws_ok (llen l) i ds2 ->
  fisher_yates ds1 i l = Ok l1 -> fisher_yates ds2 i l = Ok l2 ->
  take (Z.to_nat i + length ds1) l1 = take (Z.to_nat i + length ds1) l2 -> ds1 = ds2.
Proof.
  revert ds2 i l. induction ds1 as [|d1 ds1 IH]; intros [|d2 ds2] i l Hi Hnd Hlen H1 H2 E1 E2 Ht;
    try done.
  assert (d1 = d2) as <-.
  { pose proof (fisher_yates_head _ _ i _ _ ltac:(lia) H1 E1) as L1.
    pose proof (fisher_yates_head _ _ i _ _ ltac:(lia) H2 E2) as L2.
    apply (take_eq_lookup _ (Z.to_nat i)) in Ht; [|simpl; lia]. rewrite L1, L2 in Ht.
    unfold llen in *. destruct H1 as [? _], H2 as [? _].
    destruct (lookup_lt_is_Some_2 l (Z.to_nat (i + d1))) as [x Hx]; [lia|].
    rewrite Hx in Ht. symmetry in Ht.
    pose proof (NoDup_lookup _ _ _ _ Hnd Hx Ht). lia. }
  f_equal. destruct H1 as [? H1], H2 as [_ H2]. simpl in E1, E2.
  apply bind_Ok in E1 as (m & Em & E1). rewrite Em in E2. simpl in E2.
  assert (llen m = llen l) as Hm by (unfold llen; by rewrite (swap_length _ _ _ _ Em)).
  eapply (IH ds2 (i + 1) m); rewrite ?Hm; try done; try lia.
  - rewrite (swap_perm _ _ _ _ Em). done.
  - simpl in Hlen. lia.
  - replace (Z.to_nat (i + 1) + length ds1)%nat with (Z.to_nat i + length (d1 :: ds1))%nat
      by (simpl; lia). done.
Qed.

(** Every ordered selection is drawn. *)
Lemma fisher_yates_surj p i l :
  0 <= i -> NoDup p -> (forall x, x ∈ p -> x ∈ drop (Z.to_nat i) l) -> NoDup l ->
  exists ds l', length ds = length p /\ draws_ok (llen l) i ds /\ fisher_yates ds i l = Ok l' /\
    take (length p) (drop (Z.to_nat i) l') = p.
Proof.
  revert i l. induction p as [|x p IH]; intros i l Hi Hp Hin Hnd.
  { exists [], l. by rewrite take_0. }
  assert (x ∈ drop (Z.to_nat i) l) as Hx by (apply Hin; by left).
  apply list_elem_of_lookup in Hx as [k Hk]. rewrite lookup_drop in Hk.
  apply lookup_lt_Some in Hk as Hkl.
  destruct (swap_total l i (i + Z.of_nat k)) as [l1 H1]; [unfold llen; lia..|].
  assert (l1 !! Z.to_nat i = Some x) as Hix.
  { rewrite (swap_lookup_l _ i (i + Z.of_nat k) _ ltac:(lia) ltac:(lia) H1), <- Hk. f_equal. lia. }
  pose proof (swap_length _ _ _ _ H1) as Hlen. pose proof (swap_perm _ _ _ _ H1) as Hperm.
  pose proof (NoDup_cons_1_1 _ _ Hp). pose proof (NoDup_cons_1_2 _ _ Hp).
  destruct (IH (i + 1) l1) as (ds & l' & Hl & Hd & Hf & Ht); [lia|done| |by rewrite Hperm|].
  { intros y Hy. assert (y ∈ drop (Z.to_nat i) l) as Hyl by (apply Hin; by right).
    assert (drop (Z.to_nat i) l1 ≡ₚ drop (Z.to_nat i) l) as Hdp.
    { apply (Permutation_app_inv_l (take (Z.to_nat i) l)). rewrite take_drop.
      rewrite <- (swap_take _ i (i + Z.of_nat k) _ (Z.to_nat i) ltac:(lia) ltac:(lia) H1).
      by rewrite take_drop. }
    rewrite <- Hdp, (drop_S _ _ _ Hix) in Hyl.
    apply elem_of_cons in Hyl as [->|Hyl]; [done|].
    by replace (Z.to_nat (i + 1)) with (S (Z.to_nat i)) by lia. }
  exists (Z.of_nat k :: ds), l'. unfold llen in *. rewrite <- Hlen in *. simpl.
  assert (0 <= Z.of_nat k < Z.of_nat (length l1) - i) by lia.
  split_and!; [lia|lia|lia|done|rewrite H1; done|].
  assert (l' !! Z.to_nat i = Some x) as Hix'.
  { destruct (fisher_yates_spec ds (i + 1) l1) as (l2 & Hf2 & _ & Ht2); [lia|done|].
    rewrite Hf in Hf2. simplify_eq. by rewrite (take_eq_lookup _ _ _ _ Ht2) by lia. }
  rewrite (drop_S _ _ _ Hix'). simpl. f_equal.
  by replace (S (Z.to_nat i)) with (Z.to_nat (i + 1)) by lia.
Qed.
End fisher_yates.

(** ** [SelectVectors] *)

Section SelectVectors.
Context {GE : GoEthereum}.
Implicit Types (seed : bytes) (n k i : Z).

(** The offsets the loop draws from the seed, from step [i]. *)
Fixpoint seed_draws (m : nat) (i : Z) (seed : bytes) (n : Z) : list Z :=
  match m with
  | O => []
  | S m => draw seed i mod (n - i) :: seed_draws m (i + 1) seed n
  end.

Lemma length_seed_draws m i seed n : length (seed_draws m i seed n) = m.
Proof. revert i; induction m; intros; simpl; auto. Qed.

Lemma seed_draws_ok m i seed n : 0 <= i -> i + Z.of_nat m <= n -> draws_ok n i (seed_draws m i seed n).
Proof.
  revert i. induction m as [|m IH]; intros i Hi Hm; simpl; [done|].
  split; [apply Z.mod_pos_bound; lia|]. apply IH; lia.
Qed.

Lemma seed_draws_prefix m m' i seed n :
  seed_draws (m + m') i seed n = seed_draws m i seed n ++ seed_draws m' (i + Z.of_nat m) seed n.
Proof.
  revert i. induction m as [|m IH]; intros i; [by rewrite Z.add_0_r|]. simpl.
  rewrite IH. do 3 f_equal. lia.
Qed.

Lemma lookup_seed_draws m i seed n (k : nat) :
  (k < m)%nat -> seed_draws m i seed n !! k = Some (draw seed (i + Z.of_nat k) mod (n - (i + Z.of_nat k))).
Proof.
  revert i k. induction m as [|m IH]; intros i [|k] Hk; simpl; [lia..| |].
  - by rewrite Z.add_0_r.
  - rewrite IH by lia. by replace (i + Z.of_nat (S k)) with (i + 1 + Z.of_nat k) by lia.
Qed.

(** The loop draws [ds]. *)
Definition draws seed n (ds : list Z) : Prop :=
  forall (i : nat) d, ds !! i = Some d -> draw seed (Z.of_nat i) mod (n - Z.of_nat i) = d.

Lemma draws_seed_draws seed n ds : draws seed n ds <-> ds = seed_draws (length ds) 0 seed n.
Proof.
  split.
  - intros H. apply list_eq. intros k. destruct (ds !! k) as [d|] eqn:E.
    + rewrite lookup_seed_draws by (by eapply lookup_lt_Some). by rewrite Z.add_0_l, (H _ _ E).
    + symmetry. apply lookup_ge_None_2. rewrite length_seed_draws. by apply lookup_ge_None_1.
  - intros E i d Hi. pose proof (lookup_lt_Some _ _ _ Hi). rewrite E, lookup_seed_draws in Hi by done. by simplify_eq.
Qed.

(** The loop refines the abstract shuffle. *)
Lemma select_loop_fisher_yates m i seed n l :
  select_loop m i seed n l = fisher_yates (seed_draws m i seed n) i l.
Proof.
  revert i l. induction m as [|m IH]; intros i l; [done|]. simpl.
  destruct (swap _ _ _); simpl; auto.
Qed.

Lemma llen_seqZ n : 0 <= n -> llen (seqZ 0 n) = n.
Proof. intros. unfold llen. rewrite length_seqZ. lia. Qed.

Lemma SelectVectors_shuffle seed n k :
  0 <= n -> 0 <= k ->
  exists l, fisher_yates (seed_draws (Z.to_nat (Z.min k n)) 0 seed n) 0 (seqZ 0 n) = Ok l /\
    l ≡ₚ seqZ 0 n /\ SelectVectors seed n k = Ok (take (Z.to_nat (Z.min k n)) l).
Proof.
  intros Hn Hk. unfold SelectVectors. destruct (Z.ltb_spec n 0); [lia|].
  assert ((if k <? n then k else n) = Z.min k n) as -> by (destruct (Z.ltb_spec k n); lia).
  destruct (fisher_yates_spec (seed_draws (Z.to_nat (Z.min k n)) 0 seed n) 0 (seqZ 0 n))
    as (l & Hl & Hp & _); [lia| |].
  { rewrite llen_seqZ by lia. apply seed_draws_ok; lia. }
  exists l. split_and!; [done|done|]. rewrite select_loop_fisher_yates, Hl. simpl.
  destruct (Z.ltb_spec (Z.min k n) 0); [lia|done].
Qed.

Lemma SelectVectors_ok seed n k :
  0 <= n -> 0 <= k ->
  exists l, SelectVectors seed n k = Ok l /\ llen l = Z.min k n /\ NoDup l /\
    Forall (fun i => 0 <= i < n) l.
Proof.
  intros Hn Hk. destruct (SelectVectors_shuffle seed n k Hn Hk) as (l & _ & Hp & ->).
  eexists; split_and!; [done| | |].
  - unfold llen. rewrite length_take, Hp, length_seqZ. lia.
  - assert (NoDup l) as Hnd by (rewrite Hp; apply NoDup_seqZ).
    by eapply sublist_NoDup, sublist_take.
  - apply Forall_take. rewrite Hp. apply Forall_forall. intros i ?%elem_of_seqZ. lia.
Qed.

(** A choice of the right length is selected by its own draws. *)
Lemma SelectVectors_iff seed n k ds p l :
  0 <= n -> 0 <= k -> length ds = Z.to_nat (Z.min k n) -> draws_ok n 0 ds -> fisher_yates ds 0 (seqZ 0 n) = Ok l ->
  take (length ds) l = p -> SelectVectors seed n k = Ok p <-> draws seed n ds.
Proof.
  intros Hn Hk Hlen Hok Hf Hp. rewrite draws_seed_draws.
  destruct (SelectVectors_shuffle seed n k Hn Hk) as (l' & Hf' & _ & ->). rewrite <- Hlen in *. split.
  - intros [= E]. eapply (fisher_yates_inj ds _ 0 (seqZ 0 n) l l'); rewrite ?llen_seqZ, ?length_seed_draws;
      try done; [apply NoDup_seqZ|apply seed_draws_ok; lia|]. simpl. congruence.
  - intros E. rewrite <- E, Hf in Hf'. by simplify_eq.
Qed.

Lemma fisher_yates_app {A} ds1 ds2 i (l : list A) :
  fisher_yates (ds1 ++ ds2) i l = l1 ← fisher_yates ds1 i l; fisher_yates ds2 (i + llen ds1) l1.
Proof.
  revert i l. induction ds1 as [|d ds1 IH]; intros i l; simpl; [by rewrite Z.add_0_r|].
  destruct (swap _ _ _) as [l1| |]; simpl; [|done..]. rewrite IH.
  replace (i + 1 + llen ds1) with (i + llen (d :: ds1)) by (unfold llen; simpl; lia). done.
Qed.

Lemma SelectVectors_take seed n k k' :
  0 <= n -> 0 <= k <= k' ->
  exists l l', SelectVectors seed n k = Ok l /\ SelectVectors seed n k' = Ok l' /\ l `prefix_of` l'.
Proof.
  intros Hn Hk. destruct (SelectVectors_shuffle seed n k) as (l & Hl & Hp & ->); [lia..|].
  destruct (SelectVectors_shuffle seed n k') as (l' & Hl' & Hp' & ->); [lia..|].
  eexists _, _; split_and!; [done..|].
  set (m := Z.to_nat (Z.min k n)) in *.
  replace (Z.to_nat (Z.min k' n)) with (m + (Z.to_nat (Z.min k' n) - m))%nat in * by lia.
  set (m' := (Z.to_nat (Z.min k' n) - m)%nat) in *.
  rewrite seed_draws_prefix, fisher_yates_app, Hl in Hl'. cbn [mbind result_bind] in Hl'.
  unfold llen in Hl'. rewrite length_seed_draws, !Z.add_0_l in Hl'.
  destruct (fisher_yates_spec (seed_draws m' (Z.of_nat m) seed n) (Z.of_nat m) l)
    as (l2 & H2 & _ & Ht); [lia| |].
  { unfold llen. rewrite Hp, length_seqZ, Z2Nat.id by lia. apply seed_draws_ok; lia. }
  rewrite H2 in Hl'. simplify_eq.
  rewrite Nat2Z.id in Ht. rewrite <- Ht.
  replace (take m l') with (take m (take (m + m') l')) by (rewrite take_take; f_equal; lia).
  eexists. symmetry. apply take_drop.
Qed.
End SelectVectors.

Lemma draws_ok_lookup n i ds k d : draws_ok n i ds -> ds !! k = Some d -> 0 <= d < n - (i + Z.of_nat k).
Proof.
  revert i k. induction ds as [|d' ds IH]; intros i [|k] H Hk; [done..| |]; simpl in *; destruct H as [Hd H].
  - simplify_eq. lia.
  - specialize (IH _ _ H Hk). lia.
Qed.

Lemma encodeCounter_be i : length (encodeCounter i) = 8%nat /\ be_value (encodeCounter i) = uint64 i.
Proof.
  assert (encodeCounter i = be_bytes 8 i) as ->; [|by rewrite length_be_bytes, be_value_bytes].
  unfold encodeCounter. change (seqZ 0 8) with [0; 1; 2; 3; 4; 5; 6; 7]. cbn [foldl].
  rewrite !Z.shiftr_div_pow2 by lia.
  change (Z.to_nat (7 - 0)) with 7%nat. change (Z.to_nat (7 - 1)) with 6%nat.
  change (Z.to_nat (7 - 2)) with 5%nat. change (Z.to_nat (7 - 3)) with 4%nat.
  change (Z.to_nat (7 - 4)) with 3%nat. change (Z.to_nat (7 - 5)) with 2%nat.
  change (Z.to_nat (7 - 6)) with 1%nat. change (Z.to_nat (7 - 7)) with 0%nat.
  unfold zero_bytes. cbn -[Z.div Z.pow byte_of_Z]. rewrite !Z.div_div by lia.
  change (2 ^ (8 * 0)) with 1. rewrite Z.div_1_r. done.
Qed.

Lemma draws_ok_intro_from n i ds :
  (forall k d, ds !! k = Some d -> 0 <= d < n - (i + Z.of_nat k)) -> draws_ok n i ds.
Proof.
  revert i. induction ds as [|d ds IH]; intros i H; simpl; [done|]. split; [specialize (H 0%nat d eq_refl); lia|].
  apply IH. intros k d' Hk. specialize (H (S k) d' Hk). lia.
Qed.
Lemma draws_ok_intro n ds : (forall k d, ds !! k = Some d -> 0 <= d < n - Z.of_nat k) -> draws_ok n 0 ds.
Proof. intros H. by apply draws_ok_intro_from. Qed.

(** Any in-range draws are those of some hash function. *)
Definition drawing (GE : GoEthereum) (ds : list Z) : GoEthereum := {|
  crypto_Keccak256 data := be_bytes 32 (default 0 (ds !! Z.to_nat (be_value (drop 32 data))));
  hexutil_Decode := hexutil_Decode; hexutil_DecodeBig := hexutil_DecodeBig; HexToAddress := HexToAddress;
  IsHexAddress := IsHexAddress; Address_Hex := Address_Hex; BytesToHash := BytesToHash; RightPadBytes := RightPadBytes;
  abi_Pack := abi_Pack; abi_Unpack := abi_Unpack; structs_Encode := structs_Encode; structs_DecodeTo := structs_DecodeTo;
|}.

Lemma drawing_draws GE n ds : n < 2 ^ 63 -> draws_ok n 0 ds -> draws (GE := drawing GE ds) zero_hash n ds.
Proof.
  intros Hn Hok i d Hi. pose proof (draws_ok_lookup _ _ _ _ _ Hok Hi) as Hd. unfold draw, keccak256. cbn [drawing crypto_Keccak256].
  rewrite (drop_app_length' zero_hash) by done.
  destruct (encodeCounter_be (uint64 (Z.of_nat i))) as [_ ->].
  assert (is_uint 64 (Z.of_nat i)) as Hu by (unfold is_uint; lia). rewrite !(uint_id 64 (Z.of_nat i) Hu).
  rewrite Nat2Z.id, Hi.
  change (default 0 (Some d)) with d. rewrite copy_to_id by apply length_be_bytes. rewrite be_value_bytes.
  assert (d < 256 ^ Z.of_nat 32) as Hb by (apply Z.lt_trans with (2 ^ 63); [lia|reflexivity]).
  rewrite (Z.mod_small d (256 ^ Z.of_nat 32)) by (exact (conj (proj1 Hd) Hb)). exact (Z.mod_small _ _ Hd).
Qed.

(** ** Properties *)

(** C9. For every seed and non-negative counts, [SelectVectors] returns: the
    selection has [min selectionCount vectorCount] entries, all distinct and
    in range, and it is a reordering of all indices when the selection count
    reaches the vector count. A negative count, which [Validate] rules out, is
    a panic. *)
Theorem SelectVectors_sound {GE : GoEthereum} seed vectorCount selectionCount :
  (0 <= vectorCount -> 0 <= selectionCount ->
   exists l, SelectVectors seed vectorCount selectionCount = Ok l /\
     llen l = Z.min selectionCount vectorCount /\ NoDup l /\
     Forall (fun i => 0 <= i < vectorCount) l /\
     (vectorCount <= selectionCount -> l ≡ₚ seqZ 0 vectorCount)) /\
  (vectorCount < 0 \/ selectionCount < 0 -> exists p, SelectVectors seed vectorCount selectionCount = Panic p).
Proof.
  split.
  - intros Hn Hk. destruct (SelectVectors_ok seed vectorCount selectionCount) as (l & E & Hl & Hd & Hr);
      [done..|]. exists l. split_and!; [done..|]. intros Hle.
    destruct (SelectVectors_shuffle seed vectorCount selectionCount) as (p & _ & Hp & E'); [done..|].
    rewrite E in E'. injection E' as ->. rewrite Z.min_r by done.
    rewrite take_ge; [done|]. rewrite Hp, length_seqZ. done.
  - intros Hneg. unfold SelectVectors. destruct (Z.ltb_spec vectorCount 0); [by eexists|].
    destruct (Z.ltb_spec selectionCount vectorCount); [|lia]. rewrite Z2Nat.nonpos by lia. simpl.
    destruct (Z.ltb_spec selectionCount 0); [by eexists|lia].
Qed.

Theorem SelectVectors_sound_witness :
  (exists l, SelectVectors (GE := ref_geth) (be_bytes 32 7) 5 3 = Ok l /\ llen l = Z.min 3 5 /\
    NoDup l /\ Forall (fun i => 0 <= i < 5) l /\ (5 <= 3 -> l ≡ₚ seqZ 0 5)) /\
  (exists p, SelectVectors (GE := ref_geth) (be_bytes 32 7) 5 (-1) = Panic p).
Proof.
  split; [apply (SelectVectors_sound (GE := ref_geth) (be_bytes 32 7) 5 3); lia|].
  apply (SelectVectors_sound (GE := ref_geth) (be_bytes 32 7) 5 (-1)). lia.
Defined.

(** A smaller selection with the same seed and vector count is a prefix
    of a larger one: the selection count cannot be used to change which
    vectors come first. *)
Theorem SelectVectors_prefix {GE : GoEthereum} seed vectorCount k k' :
  0 <= vectorCount -> 0 <= k <= k' ->
  exists l l', SelectVectors seed vectorCount k = Ok l /\ SelectVectors seed vectorCount k' = Ok l' /\
    l `prefix_of` l'.
Proof. apply SelectVectors_take. Qed.

Theorem SelectVectors_prefix_witness :
  exists l l', SelectVectors (GE := ref_geth) (be_bytes 32 9) 6 2 = Ok l /\
    SelectVectors (GE := ref_geth) (be_bytes 32 9) 6 4 = Ok l' /\ l `prefix_of` l'.
Proof. apply (SelectVectors_prefix (GE := ref_geth) (be_bytes 32 9) 6 2 4); lia. Defined.

(** C10. [SelectVectors] is an unbiased shuffle. Whatever ordered choice [p] of
    [min selectionCount vectorCount] distinct vectors, exactly one sequence of
    in-range offsets selects it: for every hash function and seed,
    [SelectVectors] returns [p] exactly when its successive draws, each reduced
    modulo the number of vectors left, are these offsets. So equally likely
    offsets make every ordered selection equally likely. *)
Theorem SelectVectors_unbiased {GE0 : GoEthereum} vectorCount selectionCount p :
  0 <= vectorCount < 2 ^ 63 -> 0 <= selectionCount ->
  NoDup p -> Forall (fun i => 0 <= i < vectorCount) p -> llen p = Z.min selectionCount vectorCount ->
  exists! ds, (length ds = length p /\ forall i d, ds !! i = Some d -> 0 <= d < vectorCount - Z.of_nat i) /\
    forall (GE : GoEthereum) seed,
      SelectVectors seed vectorCount selectionCount = Ok p <->
      (forall i d, ds !! i = Some d -> draw seed (Z.of_nat i) mod (vectorCount - Z.of_nat i) = d).
Proof.
  intros Hn Hk Hp Hin Hlen. rewrite Forall_forall in Hin.
  destruct (fisher_yates_surj p 0 (seqZ 0 vectorCount)) as (ds & l & Hl & Hok & Hf & Ht);
    [done|done| |apply NoDup_seqZ|].
  { intros x Hx. simpl. rewrite drop_0. apply elem_of_seqZ. specialize (Hin _ Hx). lia. }
  simpl in Ht. rewrite drop_0 in Ht. rewrite llen_seqZ in Hok by lia.
  assert (length ds = Z.to_nat (Z.min selectionCount vectorCount)) as Hm by (unfold llen in Hlen; lia).
  assert (forall GE seed, SelectVectors (GE := GE) seed vectorCount selectionCount = Ok p <-> draws seed vectorCount ds) as Hiff.
  { intros GE seed. eapply SelectVectors_iff; [lia..|done|done|done|]. by rewrite Hl. }
  exists ds. split; [split; [split; [done|]|exact Hiff]|].
  { intros i d Hi. apply (draws_ok_lookup _ _ _ _ _ Hok Hi). }
  intros ds2 [[Hl2 Hr2] Hiff2]. apply draws_ok_intro in Hr2.
  pose proof (drawing_draws GE0 _ _ (proj2 Hn) Hr2) as Hd2. pose proof (proj1 (Hiff _ _) (proj2 (Hiff2 _ _) Hd2)) as Hd.
  apply draws_seed_draws in Hd, Hd2. rewrite Hl in Hd. rewrite Hl2 in Hd2. congruence.
Qed.

Theorem SelectVectors_unbiased_witness :
  exists! ds, (length ds = 2%nat /\ forall i d, ds !! i = Some d -> 0 <= d < 3 - Z.of_nat i) /\
    forall (GE : GoEthereum) seed,
      SelectVectors seed 3 2 = Ok [2; 0] <-> (forall i d, ds !! i = Some d -> draw seed (Z.of_nat i) mod (3 - Z.of_nat i) = d).
Proof.
  apply (SelectVectors_unbiased (GE0 := ref_geth) 3 2 [2; 0]); [lia|lia| | |done].
  - apply (bool_decide_unpack _). vm_compute. exact I.
  - repeat constructor; lia.
Defined.

(** [encodeCounter] writes the counter as eight big-endian bytes: the
    bytes read back as the counter modulo 2^64, so distinct 64-bit counters
    have distinct encodings. *)
Theorem encodeCounter_roundtrip i :
  length (encodeCounter i) = 8%nat /\ be_value (encodeCounter i) = uint64 i.
Proof. apply encodeCounter_be. Qed.
