(* ===== verification/Execution.v ===== *)
(** * Correctness of vector execution

    What each executor's outcome means: an outcome is never both passed and
    skipped, a pass is backed by an answer of the chain, and a vector that
    passed [Validate] is skipped only for what the chain answers, with one
    exception that [validated_malformed_iff] exhibits. *)

From S2P Require Import Prelude GoStd RegExp Config GoEth Reference Bundle Vectors.

Section Execution.
Context {GE : GoEthereum} {W : Type} {EC : EthClient W}.
Implicit Types (v : Vector) (w : W) (o : VectorOutcome).

(** What the chain answered when a vector passes. *)
Inductive pass_evidence (c : ctx) (target : bytes) (block : bigint) (gasCap cap : Z) (v : Vector) (w : W)
  : Prop :=
| ev_equals calldata value expected w' :
    Type_ v = VectorEthCallEquals ->
    hexutil_Decode (Calldata v) = Ok calldata ->
    hexutil_Decode (ExpectedReturn v) = Ok expected ->
    parseCallValue (Value v) = Ok value ->
    CallContract c (ethereumCallMsgFrom (HexToAddress (Caller v)) target calldata gasCap value) block w
      = (Ok expected, w') ->
    llen expected <= cap ->
    pass_evidence c target block gasCap cap v w
| ev_reverts calldata value err w' :
    Type_ v = VectorEthCallReverts ->
    hexutil_Decode (Calldata v) = Ok calldata ->
    parseCallValue (Value v) = Ok value ->
    CallContract c (ethereumCallMsgFrom (HexToAddress (Caller v)) target calldata gasCap value) block w
      = (Err err, w') ->
    errors_As_rpc err = true ->
    (ExpectedRevertSelector v <> "" ->
     exists a b, ToLower (Error err) = a +:+ ToLower (TrimPrefix (ExpectedRevertSelector v) "0x") +:+ b) ->
    (ExpectedRevertSelector v = "" -> exists a b, Error err = a +:+ ExpectedRevertPattern v +:+ b) ->
    pass_evidence c target block gasCap cap v w
| ev_erc165 iface answer e w' :
    Type_ v = VectorErc165SupportsInterface ->
    hexutil_Decode (InterfaceID v) = Ok iface -> length iface = 4%nat ->
    CallContract c (ethereumCallMsgFrom zero_address target
        (take 4 (crypto_Keccak256 (bytes_of_string "supportsInterface(bytes4)")) ++ RightPadBytes iface 32)
        gasCap None) block w = (Ok answer, w') ->
    length answer = 32%nat ->
    decodeCanonicalBool answer = Ok e ->
    e = match Expected v with Some b => b | None => false end ->
    pass_evidence c target block gasCap cap v w
| ev_code_size code w' :
    Type_ v = VectorCodeSizeRange ->
    CodeAt c target block w = (Ok code, w') ->
    MinBytes v <= llen code <= MaxBytes v ->
    pass_evidence c target block gasCap cap v w
| ev_storage slot expected w' :
    Type_ v = VectorStorageAtEquals ->
    hexutil_Decode (Slot v) = Ok slot -> length slot = 32%nat ->
    hexutil_Decode (ExpectedValue v) = Ok expected ->
    StorageAt c target (BytesToHash slot) block w = (Ok expected, w') ->
    pass_evidence c target block gasCap cap v w.

(** What the chain answered when a vector fails: an answer of the vector's own
    kind, other than the expected one. *)
Inductive fail_evidence (c : ctx) (target : bytes) (block : bigint) (gasCap cap : Z) (v : Vector) (w : W)
  : Prop :=
| fev_equals calldata value expected answer w' :
    Type_ v = VectorEthCallEquals ->
    hexutil_Decode (Calldata v) = Ok calldata ->
    hexutil_Decode (ExpectedReturn v) = Ok expected ->
    parseCallValue (Value v) = Ok value ->
    CallContract c (ethereumCallMsgFrom (HexToAddress (Caller v)) target calldata gasCap value) block w
      = (Ok answer, w') ->
    llen answer <= cap -> answer <> expected ->
    fail_evidence c target block gasCap cap v w
| fev_no_revert calldata value answer w' :
    Type_ v = VectorEthCallReverts ->
    hexutil_Decode (Calldata v) = Ok calldata ->
    parseCallValue (Value v) = Ok value ->
    CallContract c (ethereumCallMsgFrom (HexToAddress (Caller v)) target calldata gasCap value) block w
      = (Ok answer, w') ->
    fail_evidence c target block gasCap cap v w
| fev_other_revert calldata value err w' :
    Type_ v = VectorEthCallReverts ->
    hexutil_Decode (Calldata v) = Ok calldata ->
    parseCallValue (Value v) = Ok value ->
    CallContract c (ethereumCallMsgFrom (HexToAddress (Caller v)) target calldata gasCap value) block w
      = (Err err, w') ->
    errors_As_rpc err = true ->
    (ExpectedRevertSelector v <> "" /\
     (forall a b, ToLower (Error err) <> a +:+ ToLower (TrimPrefix (ExpectedRevertSelector v) "0x") +:+ b) \/
     ExpectedRevertSelector v = "" /\ ExpectedRevertPattern v <> "" /\
     (forall a b, Error err <> a +:+ ExpectedRevertPattern v +:+ b)) ->
    fail_evidence c target block gasCap cap v w
| fev_erc165 iface answer e w' :
    Type_ v = VectorErc165SupportsInterface ->
    hexutil_Decode (InterfaceID v) = Ok iface -> length iface = 4%nat ->
    CallContract c (ethereumCallMsgFrom zero_address target
        (take 4 (crypto_Keccak256 (bytes_of_string "supportsInterface(bytes4)")) ++ RightPadBytes iface 32)
        gasCap None) block w = (Ok answer, w') ->
    length answer = 32%nat ->
    decodeCanonicalBool answer = Ok e ->
    e <> match Expected v with Some b => b | None => false end ->
    fail_evidence c target block gasCap cap v w
| fev_code_size code w' :
    Type_ v = VectorCodeSizeRange ->
    CodeAt c target block w = (Ok code, w') ->
    llen code < MinBytes v \/ MaxBytes v < llen code ->
    fail_evidence c target block gasCap cap v w
| fev_storage slot expected word w' :
    Type_ v = VectorStorageAtEquals ->
    hexutil_Decode (Slot v) = Ok slot -> length slot = 32%nat ->
    hexutil_Decode (ExpectedValue v) = Ok expected ->
    StorageAt c target (BytesToHash slot) block w = (Ok word, w') ->
    word <> expected ->
    fail_evidence c target block gasCap cap v w.

(** [o] is a well-formed outcome of [v]. *)
Definition outcome_of v o : Prop := out_ID o = ID v /\ (Passed o && Skipped o)%bool = false.

Lemma skip_outcome v d : outcome_of v (skip v d).
Proof. done. Qed.
Lemma ran_outcome v b d : outcome_of v (mkOutcome (ID v) b false d).
Proof. split; [done|]. by destruct b. Qed.
Lemma revert_outcome_ok v err : outcome_of v (revert_outcome v err).
Proof. unfold revert_outcome. repeat case_match; apply ran_outcome. Qed.

Lemma Contains_false s sub : Contains s sub = false -> forall a b, s <> a +:+ sub +:+ b.
Proof. intros H a b E. assert (Contains s sub = true) by (apply Contains_spec; eauto). congruence. Qed.

Lemma revert_outcome_pass v err : Passed (revert_outcome v err) = true ->
  (ExpectedRevertSelector v <> "" -> exists a b, ToLower (Error err) = a +:+ ToLower (TrimPrefix (ExpectedRevertSelector v) "0x") +:+ b) /\
  (ExpectedRevertSelector v = "" -> exists a b, Error err = a +:+ ExpectedRevertPattern v +:+ b).
Proof.
  unfold revert_outcome. intros Hp. split.
  - intros Hne. apply Contains_spec. apply nonempty_true in Hne as Hne'.
    rewrite Hne' in Hp. apply String.eqb_neq in Hne. rewrite Hne in Hp. simpl in Hp. by case_match.
  - intros He. rewrite He in Hp. simpl in Hp. apply Contains_spec.
    destruct (String.eqb_spec (ExpectedRevertPattern v) "") as [->|]; simpl in Hp; [|by case_match].
    apply Contains_spec. by eexists EmptyString, _.
Qed.

Lemma revert_outcome_fail v err : Passed (revert_outcome v err) = false ->
  ExpectedRevertSelector v <> "" /\
  (forall a b, ToLower (Error err) <> a +:+ ToLower (TrimPrefix (ExpectedRevertSelector v) "0x") +:+ b) \/
  ExpectedRevertSelector v = "" /\ ExpectedRevertPattern v <> "" /\ (forall a b, Error err <> a +:+ ExpectedRevertPattern v +:+ b).
Proof.
  unfold revert_outcome. destruct (String.eqb_spec (ExpectedRevertSelector v) "") as [He|Hne].
  - rewrite He. simpl. destruct (String.eqb_spec (ExpectedRevertPattern v) "") as [|Hp]; [done|]. simpl.
    destruct (Contains _ _) eqn:Ec; [done|]. intros _. right. split_and!; [done|done|by apply Contains_false].
  - simpl. apply nonempty_true in Hne as Hne'. rewrite Hne'. destruct (Contains _ _) eqn:Ec; [done|].
    intros _. left. split; [done|by apply Contains_false].
Qed.

Lemma hex_neq (a b : bytes) : String.eqb (hex_encode a) (hex_encode b) = false -> a <> b.
Proof. intros H%String.eqb_neq ->. done. Qed.

Lemma hex_eq (a b : bytes) : String.eqb (hex_encode a) (hex_encode b) = true -> a = b.
Proof. intros H%String.eqb_eq. by apply (inj hex_encode). Qed.

(** An outcome that is not skipped has its evidence. *)
Definition evidenced c t b g m v w o : Prop :=
  (Passed o = true -> pass_evidence c t b g m v w) /\
  (Passed o = false -> Skipped o = false -> fail_evidence c t b g m v w).

Lemma executeEthCallEquals_ok c t b g m v w o w' :
  Type_ v = VectorEthCallEquals -> executeEthCallEquals c t b g m v w = (Ok o, w') -> outcome_of v o /\ evidenced c t b g m v w o.
Proof.
  unfold executeEthCallEquals. intros Ht H. run_in H; (split; [apply skip_outcome || apply ran_outcome|]);
    (split; [|try done]); try done; simpl; intros Hp.
  - apply hex_eq in Hp. subst. to_prop. eapply ev_equals; eauto.
  - intros _. apply hex_neq in Hp. to_prop. eapply fev_equals; eauto.
Qed.

Lemma executeEthCallReverts_ok c t b g m v w o w' :
  Type_ v = VectorEthCallReverts -> executeEthCallReverts c t b g v w = (Ok o, w') -> outcome_of v o /\ evidenced c t b g m v w o.
Proof.
  unfold executeEthCallReverts. intros Ht H. run_in H;
    (split; [apply skip_outcome || apply ran_outcome || apply revert_outcome_ok|]); (split; [|try done]); try done;
    unfold isEVMRevert in *; to_prop; intros Hp.
  - intros _. eapply fev_no_revert; eauto.
  - destruct (revert_outcome_pass _ _ Hp). eapply ev_reverts; eauto.
  - intros _. eapply fev_other_revert; eauto using revert_outcome_fail.
Qed.

Lemma decodeCanonicalBool_length l e : decodeCanonicalBool l = Ok e -> length l = 32%nat.
Proof. intros ([] & H%fail_if_Ok & _)%bind_Ok. unfold llen in *. to_prop. lia. Qed.

Lemma executeErc165_ok c t b g m v w o w' :
  Type_ v = VectorErc165SupportsInterface -> executeErc165 c t b g v w = (Ok o, w') -> outcome_of v o /\ evidenced c t b g m v w o.
Proof.
  unfold executeErc165. intros Ht H. run_in H; (split; [apply skip_outcome || apply ran_outcome|]);
    (split; [|try done]); try done; simpl; intros Hp; unfold llen in *; to_prop.
  - apply Bool.eqb_prop in Hp. eapply ev_erc165; eauto using decodeCanonicalBool_length. lia.
  - intros _. apply Bool.eqb_false_iff in Hp. eapply fev_erc165; eauto using decodeCanonicalBool_length. lia.
Qed.

Lemma executeCodeSizeRange_ok c t b g m v w o w' :
  Type_ v = VectorCodeSizeRange -> executeCodeSizeRange c t b v w = (Ok o, w') -> outcome_of v o /\ evidenced c t b g m v w o.
Proof.
  unfold executeCodeSizeRange. intros Ht H. run_in H; (split; [apply skip_outcome || apply ran_outcome|]);
    (split; [|try done]); try done; simpl; intros Hp.
  - to_prop. eapply ev_code_size; eauto.
  - intros _. eapply fev_code_size; eauto. apply andb_false_iff in Hp as [Hp|Hp]; to_prop; lia.
Qed.

Lemma executeStorageAtEquals_ok c t b g m v w o w' :
  Type_ v = VectorStorageAtEquals -> executeStorageAtEquals c t b v w = (Ok o, w') -> outcome_of v o /\ evidenced c t b g m v w o.
Proof.
  unfold executeStorageAtEquals. intros Ht H. run_in H; (split; [apply skip_outcome || apply ran_outcome|]);
    (split; [|try done]); try done; simpl; intros Hp; unfold llen in *.
  - apply hex_eq in Hp. subst. to_prop. eapply ev_storage; eauto. lia.
  - intros _. apply hex_neq in Hp. to_prop. eapply fev_storage; eauto. lia.
Qed.

Lemma ExecuteVector_ok c t b g m v w o w' :
  ExecuteVector c t b g m v w = (Ok o, w') -> outcome_of v o /\ evidenced c t b g m v w o.
Proof.
  unfold ExecuteVector. intros H.
  repeat match type of H with context [String.eqb ?x ?y] => destruct (String.eqb_spec x y) end.
  - by eapply executeEthCallEquals_ok.
  - by eapply executeEthCallReverts_ok.
  - by eapply executeErc165_ok.
  - by eapply executeCodeSizeRange_ok.
  - by eapply executeStorageAtEquals_ok.
  - go_inv. split; [apply skip_outcome|]. by split.
Qed.
End Execution.

(** ** Validated vectors *)

Section validated.
Context {GE : GoEthereum} {HL : HexutilLaws} {W : Type} {EC : EthClient W}.
Implicit Types (v : Vector) (w : W) (o : VectorOutcome).

Lemma hex_data_decodes s : hex_data s -> exists l, hexutil_Decode s = Ok l.
Proof.
  intros (h & k & -> & Hk & Ha). destruct (hex_decode_complete k h) as (l & Hl & _); [lia|done|].
  eauto using hexutil_Decode_hex.
Qed.

Lemma hex_fixed_decodes n s : hex_fixed (2 * n) s -> exists l, hexutil_Decode s = Ok l /\ length l = n.
Proof.
  intros (h & -> & Hk & Ha). destruct (hex_decode_complete n h) as (l & Hl & Hn); [lia|done|].
  eauto using hexutil_Decode_hex.
Qed.

(** The details of outcomes that blame the vector itself. *)
Definition malformed_details : list string :=
  ["malformed calldata"; "malformed expectedReturn"; "malformed interfaceId"; "malformed slot";
   "malformed expectedValue"; "unknown vector type"].

Ltac decode_all :=
  repeat match goal with
  | H : hex_data ?s |- _ => destruct (hex_data_decodes s H) as (? & ?); clear H
  | H : hex_fixed 8 ?s |- _ => destruct (hex_fixed_decodes 4 s H) as (? & ? & ?); clear H
  | H : hex_fixed 64 ?s |- _ => destruct (hex_fixed_decodes 32 s H) as (? & ? & ?); clear H
  end.

Lemma revert_outcome_detail v err : Detail (revert_outcome v err) ∉ malformed_details.
Proof. unfold revert_outcome. repeat case_match; by apply (bool_decide_unpack _). Qed.

(** Two answers of the same pure call are the same. *)
Ltac same_ok :=
  repeat match goal with
  | H1 : ?t = Ok ?a, H2 : ?t = Ok ?b |- _ => rewrite H1 in H2; simplify_eq
  | H1 : ?t = Ok ?a, H2 : ?t = Err ?b |- _ => rewrite H1 in H2; simplify_eq
  end.

Lemma validated_detail c t b g m v w o w' :
  vector_wf v -> ExecuteVector c t b g m v w = (Ok o, w') -> Detail o ∉ malformed_details.
Proof.
  destruct 1; decode_all; unfold ExecuteVector; cbn -[executeEthCallEquals executeEthCallReverts
    executeErc165 executeCodeSizeRange executeStorageAtEquals]; intros Hrun.
  - unfold executeEthCallEquals in Hrun. (run_in Hrun; same_ok); try congruence; by apply (bool_decide_unpack _).
  - unfold executeEthCallReverts in Hrun. (run_in Hrun; same_ok); try congruence;
      try (by apply (bool_decide_unpack _)). apply revert_outcome_detail.
  - unfold executeErc165 in Hrun. (run_in Hrun; same_ok); try congruence; try (by apply (bool_decide_unpack _)).
    unfold llen in *. to_prop. cbn in *. lia.
  - unfold executeCodeSizeRange in Hrun. (run_in Hrun; same_ok); by apply (bool_decide_unpack _).
  - unfold executeStorageAtEquals in Hrun. (run_in Hrun; same_ok); try congruence; try (by apply (bool_decide_unpack _)).
    unfold llen in *. to_prop. cbn in *. lia.
Qed.

(** The two kinds of vector that carry a call value. *)
Definition is_call v : Prop := Type_ v = VectorEthCallEquals \/ Type_ v = VectorEthCallReverts.

Lemma revert_outcome_value v err : Detail (revert_outcome v err) <> "malformed value".
Proof. unfold revert_outcome. by repeat case_match. Qed.

Lemma value_detail c t b g m v w o w' :
  ExecuteVector c t b g m v w = (Ok o, w') -> Detail o = "malformed value" ->
  is_call v /\ is_Err (parseCallValue (Value v)) = true.
Proof.
  unfold ExecuteVector, is_call. intros H Hd.
  repeat match type of H with context [String.eqb ?x ?y] => destruct (String.eqb_spec x y) end.
  - split; [by left|]. unfold executeEthCallEquals in H. run_in H; try done.
    by match goal with E : parseCallValue _ = Err _ |- _ => rewrite E end.
  - split; [by right|]. unfold executeEthCallReverts in H. run_in H; try done; [exfalso; by eapply revert_outcome_value|].
    by match goal with E : parseCallValue _ = Err _ |- _ => rewrite E end.
  - unfold executeErc165 in H. run_in H; done.
  - unfold executeCodeSizeRange in H. run_in H; done.
  - unfold executeStorageAtEquals in H. run_in H; done.
  - by go_inv.
Qed.

Lemma bad_value_skipped c t b g m v w e :
  vector_wf v -> is_call v -> parseCallValue (Value v) = Err e ->
  ExecuteVector c t b g m v w = (Ok (skip v "malformed value"), w).
Proof.
  intros Hv Ht Hp. destruct Hv; destruct Ht as [Ht|Ht]; try done; decode_all; simpl in Hp;
    unfold ExecuteVector, executeEthCallEquals, executeEthCallReverts, on_error, lift;
    cbn -[hexutil_Decode parseCallValue];
    repeat match goal with E : hexutil_Decode _ = Ok _ |- _ => rewrite E; clear E end; by rewrite Hp.
Qed.

Lemma leading_zero_value a h : is_Err (parseCallValue ("0x0" +:+ String a h)) = true.
Proof.
  pose proof (hexutil_DecodeBig_leading_zero a h) as Hd. unfold parseCallValue. case_match; [done|].
  by destruct (hexutil_DecodeBig _).
Qed.

(** A value that passed validation and does not parse has a leading zero. *)
Lemma value_error s : hex_uint256 s -> is_Err (parseCallValue s) = true -> exists a h, s = "0x0" +:+ String a h.
Proof.
  intros ([|a h] & -> & Hl & Hx) He; simpl in Hl; [lia|].
  destruct (decide (a = "0"%char)) as [->|Ha]; [destruct h as [|a' h]|].
  3: { destruct (hexutil_DecodeBig_digits a h) as [n Hn]; [done|lia|done|]. unfold parseCallValue in He. simpl in He.
       simpl in Hn. by rewrite Hn in He. }
  - destruct (hexutil_DecodeBig_digits "0" "") as [n Hn]; [done|simpl; lia|done|]. unfold parseCallValue in He.
    simpl in He, Hn. by rewrite Hn in He.
  - by exists a', h.
Qed.

Lemma call_value_wf v : vector_wf v -> is_call v -> hex_uint256 (Value v).
Proof. intros [] [Ht|Ht]; done. Qed.
End validated.

(** A vector whose value has a leading zero: the validation pattern accepts
    it and [hexutil.DecodeBig] does not. *)
Definition leading_zero_vector (cd caller ret : string) : Vector :=
  mkVector "v1" VectorEthCallEquals cd caller "0x01" ret "" "" "" None 0 0 "" "".

(** ** Properties *)

(** C8. Whatever the chain answers, the outcome [ExecuteVector] returns
    carries the vector's ID and is never both passed and skipped, and a pass
    is backed by evidence of the vector's own kind: the call returned exactly
    the expected bytes within the response cap; the call failed with a
    confirmed revert (an [rpc.Error]) that contains the expected selector or
    pattern; the ERC165 query returned a 32-byte boolean equal to the expected
    one; the code size is within the range; the storage word is the expected
    one. *)
Theorem ExecuteVector_evidence {GE : GoEthereum} {W} {EC : EthClient W}
    (c : ctx) target block gasCap cap v (w w' : W) o :
  ExecuteVector c target block gasCap cap v w = (Ok o, w') ->
  out_ID o = ID v /\ (Passed o && Skipped o)%bool = false /\
  (Passed o = true -> pass_evidence c target block gasCap cap v w).
Proof. intros H. destruct (ExecuteVector_ok _ _ _ _ _ _ _ _ _ H) as [[] []]. done. Qed.

Definition reverts_vector : Vector :=
  mkVector "v2" VectorEthCallReverts "0x1234" "0x00" "0x0" "" "0x08c379a0" "" "" None 0 0 "" "".

Theorem ExecuteVector_evidence_witness :
  out_ID (mkOutcome "v2" true false "") = ID reverts_vector /\
  (Passed (mkOutcome "v2" true false "") && Skipped (mkOutcome "v2" true false ""))%bool = false /\
  (Passed (mkOutcome "v2" true false "") = true ->
   pass_evidence (GE := ref_geth) [] [] (Some 5) 100000 64 reverts_vector ref_reverting).
Proof.
  apply (ExecuteVector_evidence (GE := ref_geth) [] [] (Some 5) 100000 64 reverts_vector
           ref_reverting ref_reverting). vm_compute. reflexivity.
Defined.

(** C14. Validation and execution agree on what is malformed, with one
    exception: of a vector that passed validation, execution never rejects the
    calldata, the expected return, the interface ID, the slot, the expected
    value or the type; it rejects the value exactly when the vector is a call
    whose value is written with a leading zero digit before another digit,
    which the validation pattern accepts and [hexutil.DecodeBig] does not. Such
    a vector is skipped before the chain is asked anything, whatever the chain
    would answer. *)
Theorem validated_malformed_iff {GE : GoEthereum} {HL : HexutilLaws} {W} {EC : EthClient W}
    (c : ctx) target block gasCap cap v (w w' : W) o :
  validate v = Ok tt ->
  ExecuteVector c target block gasCap cap v w = (Ok o, w') ->
  Detail o ∉ malformed_details /\
  (Detail o = "malformed value" <-> is_call v /\ exists a h, Value v = "0x0" +:+ String a h) /\
  (Detail o = "malformed value" -> o = skip v "malformed value" /\ w' = w).
Proof.
  intros Hv%validate_iff H.
  assert (is_call v -> (exists a h, Value v = "0x0" +:+ String a h) -> o = skip v "malformed value" /\ w' = w) as Hbad.
  { intros Hc (a & h & Hz). pose proof (leading_zero_value a h) as He. rewrite <- Hz in He.
    destruct (parseCallValue (Value v)) as [|e|] eqn:E; try done.
    rewrite (bad_value_skipped _ _ _ _ _ _ _ _ Hv Hc E) in H. by simplify_eq. }
  assert (Detail o = "malformed value" -> is_call v /\ exists a h, Value v = "0x0" +:+ String a h) as Hval.
  { intros Hd. destruct (value_detail _ _ _ _ _ _ _ _ _ H Hd) as [Hc He]. split; [done|].
    by apply value_error; [apply call_value_wf|]. }
  split; [by eapply validated_detail|]. split; [split; [done|]|].
  - intros [Hc Hz]. by destruct (Hbad Hc Hz) as [-> _].
  - intros Hd. destruct (Hval Hd) as [Hc Hz]. by apply Hbad.
Qed.

Theorem validated_malformed_iff_witness :
  let v := leading_zero_vector "0x1234" ("0x" +:+ hex_encode zero_address) "0x" in
  let o := skip v "malformed value" in
  Detail o ∉ malformed_details /\
  (Detail o = "malformed value" <-> is_call v /\ exists a h, Value v = "0x0" +:+ String a h) /\
  (Detail o = "malformed value" -> o = skip v "malformed value" /\ ref_answering = ref_answering).
Proof.
  apply (validated_malformed_iff (GE := ref_geth) [] [] (Some 5) 100000 64
    (leading_zero_vector "0x1234" ("0x" +:+ hex_encode zero_address) "0x") ref_answering); vm_compute; reflexivity.
Defined.

(** A storage vector that is run. *)
Definition storage_vector : Vector :=
  mkVector "v3" VectorStorageAtEquals "" "" "" "" "" "" "" None 0 0
    ("0x" +:+ hex_encode zero_hash) ("0x" +:+ hex_encode zero_hash).

Example storage_vector_passes :
  ExecuteVector (GE := ref_geth) [] [] (Some 5) 100000 64 storage_vector ref_reverting = (Ok (mkOutcome "v3" true false ""), ref_reverting).
Proof. vm_compute. reflexivity. Qed.
