(* ===== verification/Encoding.v ===== *)
(** * Encodings of the Go standard library: base64 and the JSON encoder

    [encoding/base64] StdEncoding with its decoder, error offsets included,
    and the part of [encoding/json]'s Marshal that the program uses: strings,
    integers, booleans, arrays and structs. *)

From S2P Require Import Prelude GoStd.

(** ** base64.StdEncoding *)
Module Base64.

Definition alphabet : list ascii :=
  String.list_ascii_of_string "ABCDEFGHIJKLMNOPQRSTUVWXYZabcdefghijklmnopqrstuvwxyz0123456789+/".

Definition sextet_char (n : Z) : ascii := nth (Z.to_nat n) alphabet "A"%char.

(** [decodeMap]. *)
Definition sextet_val (a : ascii) : option Z :=
  if in_range 65 90 a then Some (ascii_val a - 65)
  else if in_range 97 122 a then Some (ascii_val a - 71)
  else if is_digit a then Some (ascii_val a + 4)
  else if Ascii.eqb a "+" then Some 62
  else if Ascii.eqb a "/" then Some 63
  else None.

Definition sextets (l : list Z) : string :=
  fold_right (fun n s => String (sextet_char n) s) EmptyString l.

Fixpoint EncodeToString (l : bytes) : string :=
  match l with
  | [] => ""
  | [a] =>
    let a := byte_val a in sextets [a / 4; a mod 4 * 16] +:+ "=="
  | [a; b] =>
    let a := byte_val a in let b := byte_val b in
    sextets [a / 4; a mod 4 * 16 + b / 16; b mod 16 * 4] +:+ "="
  | a :: b :: c :: l =>
    let a := byte_val a in let b := byte_val b in let c := byte_val c in
    sextets [a / 4; a mod 4 * 16 + b / 16; b mod 16 * 4 + c / 64; c mod 64] +:+ EncodeToString l
  end.

Definition is_newline (a : ascii) : bool := Ascii.eqb a "010" || Ascii.eqb a "013".

(** [CorruptInputError(offset)]. *)
Definition corrupt (offset : Z) : error := Plain ("illegal base64 data at input byte " +:+ pretty offset).

(** What follows the padding: line ends only. *)
Fixpoint decode_end (s : string) (si : Z) (out : bytes) : result bytes :=
  match s with
  | EmptyString => Ok out
  | String a s => if is_newline a then decode_end s (si + 1) out else Err (corrupt si)
  end.

(** The second padding character, of a quantum of two characters. *)
Fixpoint decode_pad2 (s : string) (si : Z) (out : bytes) : result bytes :=
  match s with
  | EmptyString => Err (corrupt si)
  | String a s =>
    if is_newline a then decode_pad2 s (si + 1) out
    else if Ascii.eqb a "=" then decode_end s (si + 1) out
    else Err (corrupt (si - 1))
  end.

Definition octets (q : list Z) : bytes :=
  match q with
  | [a; b] => [byte_of_Z (a * 4 + b / 16)]
  | [a; b; c] => [byte_of_Z (a * 4 + b / 16); byte_of_Z (b mod 16 * 16 + c / 4)]
  | [a; b; c; d] =>
    [byte_of_Z (a * 4 + b / 16); byte_of_Z (b mod 16 * 16 + c / 4); byte_of_Z (c mod 4 * 64 + d)]
  | _ => []
  end.

(** [decodeQuantum], repeated: [q] holds the sextets of the current quantum,
    [si] is the input offset. *)
Fixpoint decode (s : string) (si : Z) (q : list Z) (out : bytes) : result bytes :=
  match s with
  | EmptyString =>
    match q with [] => Ok out | _ => Err (corrupt (si - Z.of_nat (length q))) end
  | String a s =>
    match sextet_val a with
    | Some n =>
      let q := q ++ [n] in
      if Nat.eqb (length q) 4 then decode s (si + 1) [] (out ++ octets q)
      else decode s (si + 1) q out
    | None =>
      if is_newline a then decode s (si + 1) q out
      else if negb (Ascii.eqb a "=") then Err (corrupt si)
      else match length q with
           | 2%nat => decode_pad2 s (si + 1) (out ++ octets q)
           | 3%nat => decode_end s (si + 1) (out ++ octets q)
           | _ => Err (corrupt si)
           end
    end
  end.

Definition DecodeString (s : string) : result bytes := decode s 0 [] [].

(** *** Round trip *)

Lemma sextet_val_char n : 0 <= n < 64 -> sextet_val (sextet_char n) = Some n.
Proof.
  intros H.
  assert (Hall : forallb (fun n => bool_decide (sextet_val (sextet_char n) = Some n)) (seqZ 0 64) = true)
    by (vm_compute; reflexivity).
  rewrite forallb_forall in Hall. specialize (Hall n).
  apply bool_decide_eq_true in Hall; [done|]. apply list_elem_of_In, elem_of_seqZ. lia.
Qed.

Ltac sextet_bounds := repeat match goal with
  | |- context [byte_val ?b] =>
      lazymatch goal with H : 0 <= byte_val b < 256 |- _ => fail | _ => pose proof (byte_val_range b) end
  end; Z.div_mod_to_equations; lia.

Lemma decode_sextet n s si q out :
  0 <= n < 64 ->
  decode (String (sextet_char n) s) si q out =
    if Nat.eqb (length (q ++ [n])) 4 then decode s (si + 1) [] (out ++ octets (q ++ [n]))
    else decode s (si + 1) (q ++ [n]) out.
Proof. intros H. cbn [decode]. by rewrite sextet_val_char. Qed.

Lemma byte_of_Z_eq x b : x = byte_val b -> byte_of_Z x = b.
Proof. intros ->. apply byte_of_Z_val. Qed.

Lemma three_induction {A} (P : list A -> Prop) :
  P [] -> (forall a, P [a]) -> (forall a b, P [a; b]) -> (forall a b c l, P l -> P (a :: b :: c :: l)) ->
  forall l, P l.
Proof.
  intros H0 H1 H2 H3. fix IH 1.
  intros [|a [|b [|c l]]]; [exact H0|apply H1|apply H2|apply H3, IH].
Qed.

Lemma decode_encode l si out : decode (EncodeToString l) si [] out = Ok (out ++ l).
Proof.
  revert si out. induction l as [|a|a b|a b c l IH] using three_induction; intros si out;
    cbn -[byte_val Z.div Z.modulo decode sextet_char]; rewrite ?append_cons, ?append_nil_l.
  - simpl. by rewrite app_nil_r.
  - rewrite !decode_sextet by sextet_bounds. cbn -[byte_val Z.div Z.modulo byte_of_Z].
    repeat f_equal. apply byte_of_Z_eq. sextet_bounds.
  - rewrite !decode_sextet by sextet_bounds. cbn -[byte_val Z.div Z.modulo byte_of_Z].
    repeat f_equal; apply byte_of_Z_eq; sextet_bounds.
  - rewrite !decode_sextet by sextet_bounds. cbn -[byte_val Z.div Z.modulo byte_of_Z decode sextet_char].
    rewrite IH, <- app_assoc. cbn. repeat f_equal; apply byte_of_Z_eq; sextet_bounds.
Qed.

Lemma DecodeString_EncodeToString l : DecodeString (EncodeToString l) = Ok l.
Proof. apply decode_encode. Qed.

End Base64.

(** ** json.Marshal *)
Module Json.

(** Length of the UTF-8 sequence that starts at byte [b0], with the range of
    its second byte; [0] when no valid sequence starts with [b0]. *)
Definition utf8_first (b0 : Z) : nat * (Z * Z) :=
  if (194 <=? b0) && (b0 <=? 223) then (2%nat, (128, 191))
  else if b0 =? 224 then (3%nat, (160, 191))
  else if b0 =? 237 then (3%nat, (128, 159))
  else if (225 <=? b0) && (b0 <=? 239) then (3%nat, (128, 191))
  else if b0 =? 240 then (4%nat, (144, 191))
  else if (241 <=? b0) && (b0 <=? 243) then (4%nat, (128, 191))
  else if b0 =? 244 then (4%nat, (128, 143))
  else (0%nat, (0, 0)).

Definition is_cont (a : ascii) : bool := in_range 128 191 a.

(** The size of the rune at the head of [s], a byte above 0x7f; 1 when the
    bytes are not valid UTF-8 ([utf8.DecodeRuneInString]). *)
Definition rune_size (s : string) : nat :=
  match s with
  | String a rest =>
    let '(n, (lo, hi)) := utf8_first (ascii_val a) in
    match n, rest with
    | 2%nat, String b _ => if in_range lo hi b then 2 else 1
    | 3%nat, String b (String c _) => if in_range lo hi b && is_cont c then 3 else 1
    | 4%nat, String b (String c (String d _)) =>
        if in_range lo hi b && is_cont c && is_cont d then 4 else 1
    | _, _ => 1
    end
  | EmptyString => 1
  end%nat.

Fixpoint take_string (n : nat) (s : string) : string :=
  match n, s with S n, String a s => String a (take_string n s) | _, _ => EmptyString end.

Definition hex4 (a : ascii) : string :=
  String (hex_digit (ascii_val a / 16)) (String (hex_digit (ascii_val a mod 16)) EmptyString).

(** An ASCII character of a JSON string. *)
Definition escape_ascii (a : ascii) : string :=
  let v := ascii_val a in
  if (v =? 34) || (v =? 92) then String "\" (String a EmptyString)
  else if v =? 8 then "\b" else if v =? 12 then "\f" else if v =? 10 then "\n"
  else if v =? 13 then "\r" else if v =? 9 then "\t"
  else if (v <? 32) || (v =? 38) || (v =? 60) || (v =? 62) then "\u00" +:+ hex4 a
  else String a EmptyString.

(** [appendString], with HTML escaping: [skip] bytes of a rune are copied. *)
Fixpoint escape_string (skip : nat) (s : string) : string :=
  match s with
  | EmptyString => EmptyString
  | String a rest =>
    match skip with
    | S skip => String a (escape_string skip rest)
    | O =>
      if ascii_val a <? 128 then escape_ascii a +:+ escape_string 0 rest
      else match rune_size s with
           | 1%nat => "\ufffd" +:+ escape_string 0 rest
           | n =>
             (* U+2028 and U+2029 *)
             match rest with
             | String "128" (String "168" rest2) =>
                 if ascii_val a =? 226 then "\u2028" +:+ escape_string 0 rest2
                 else String a (escape_string (n - 1) rest)
             | String "128" (String "169" rest2) =>
                 if ascii_val a =? 226 then "\u2029" +:+ escape_string 0 rest2
                 else String a (escape_string (n - 1) rest)
             | _ => String a (escape_string (n - 1) rest)
             end
           end
    end
  end.

(** Texts of characters that need no escape are copied. *)
Definition unescaped (a : ascii) : bool := (ascii_val a <? 128) && String.eqb (escape_ascii a) (String a EmptyString).

Lemma escape_string_unescaped s : all_chars unescaped s = true -> escape_string 0 s = s.
Proof.
  induction s as [|a s IH]; [done|]. simpl. intros [Ha Hs]%andb_true_iff.
  unfold unescaped in Ha. apply andb_true_iff in Ha as [-> He%String.eqb_eq]. rewrite He, IH by done. done.
Qed.

Definition dquote : string := String "034" EmptyString.

Definition json_string (s : string) : string := dquote +:+ escape_string 0 s +:+ dquote.
Definition json_int (n : Z) : string := pretty n.
Definition json_bool (b : bool) : string := if b then "true" else "false".

(** An object, from its members in order; an array. *)
Definition json_object (l : list (string * string)) : string :=
  "{" +:+ Join ((fun '(k, v) => json_string k +:+ ":" +:+ v) <$> l) "," +:+ "}".
Definition json_array (l : list string) : string := "[" +:+ Join l "," +:+ "]".

(** The [omitempty] option: no member for an empty value. *)
Definition omitempty (empty : bool) (k v : string) : list (string * string) :=
  if empty then [] else [(k, v)].

Example json_object_text :
  json_object [("a", json_string "x<y"); ("b", json_array [json_int 3; json_bool true])]
  = "{" +:+ dquote +:+ "a" +:+ dquote +:+ ":" +:+ dquote +:+ "x\u003cy" +:+ dquote +:+ "," +:+
    dquote +:+ "b" +:+ dquote +:+ ":[3,true]}".
Proof. reflexivity. Qed.

(** The base64 text needs no escape. *)
Lemma all_chars_app p a b : all_chars p (a +:+ b) = (all_chars p a && all_chars p b)%bool.
Proof. induction a as [|x a IH]; rewrite ?append_nil_l, ?append_cons; simpl; [done|]. by rewrite IH, andb_assoc. Qed.

Lemma sextet_unescaped n : 0 <= n < 64 -> unescaped (Base64.sextet_char n) = true.
Proof.
  intros H.
  assert (Hall : forallb (fun n => unescaped (Base64.sextet_char n)) (seqZ 0 64) = true) by (vm_compute; reflexivity).
  rewrite forallb_forall in Hall. apply Hall. apply list_elem_of_In, elem_of_seqZ. lia.
Qed.

Lemma sextets_unescaped l : Forall (fun n => 0 <= n < 64) l -> all_chars unescaped (Base64.sextets l) = true.
Proof. induction 1 as [|n l Hn _ IH]; [done|]. simpl. by rewrite sextet_unescaped. Qed.

Lemma base64_unescaped l : all_chars unescaped (Base64.EncodeToString l) = true.
Proof.
  induction l as [|a|a b|a b c l IH] using Base64.three_induction; [done|..];
    cbn [Base64.EncodeToString]; rewrite all_chars_app, ?IH, ?andb_true_r, sextets_unescaped; try done;
    repeat (apply Forall_cons; split); try apply Forall_nil; try done; Base64.sextet_bounds.
Qed.

Lemma json_string_base64 l : json_string (Base64.EncodeToString l) = dquote +:+ Base64.EncodeToString l +:+ dquote.
Proof. unfold json_string. by rewrite escape_string_unescaped by apply base64_unescaped. Qed.

End Json.
