(* ===== verification/NetStd.v ===== *)
(** * Networking of the Go standard library

    [net.IP] with the predicates the program tests, its text form, host-port
    addresses, and [http.Client.Do] with its redirect loop over an arbitrary
    network. Name resolution, URL parsing and one HTTP exchange on a dialed
    connection are operations of a type class. *)

From S2P Require Import Prelude GoStd Bundle GoEth.

(** ** net.IP: four or sixteen bytes; the empty list is the nil IP *)

Definition at_ (ip : bytes) (i : nat) : Z := match ip !! i with Some b => byte_val b | None => 0 end.

Definition v4InV6Prefix : bytes := zero_bytes 10 ++ [Byte.xff; Byte.xff].
Definition IPv4zero : bytes := v4InV6Prefix ++ zero_bytes 4.
Definition IPv6unspecified : bytes := zero_bytes 16.
Definition IPv6loopback : bytes := zero_bytes 15 ++ [Byte.x01].

Definition To4 (ip : bytes) : option bytes :=
  if Nat.eqb (length ip) 4 then Some ip
  else if Nat.eqb (length ip) 16 && bool_decide (take 12 ip = v4InV6Prefix) then Some (drop 12 ip)
  else None.

Definition IP_Equal (ip x : bytes) : bool :=
  if Nat.eqb (length ip) (length x) then bool_decide (ip = x)
  else if Nat.eqb (length ip) 4 && Nat.eqb (length x) 16
  then bool_decide (take 12 x = v4InV6Prefix) && bool_decide (ip = drop 12 x)
  else if Nat.eqb (length ip) 16 && Nat.eqb (length x) 4
  then bool_decide (take 12 ip = v4InV6Prefix) && bool_decide (drop 12 ip = x)
  else false.

Definition IsUnspecified (ip : bytes) : bool := IP_Equal ip IPv4zero || IP_Equal ip IPv6unspecified.

Definition IsLoopback (ip : bytes) : bool :=
  match To4 ip with Some ip4 => at_ ip4 0 =? 127 | None => IP_Equal ip IPv6loopback end.

Definition IsPrivate (ip : bytes) : bool :=
  match To4 ip with
  | Some ip4 => (at_ ip4 0 =? 10) || ((at_ ip4 0 =? 172) && (Z.land (at_ ip4 1) 0xf0 =? 16))
                || ((at_ ip4 0 =? 192) && (at_ ip4 1 =? 168))
  | None => Nat.eqb (length ip) 16 && (Z.land (at_ ip 0) 0xfe =? 0xfc)
  end.

Definition IsMulticast (ip : bytes) : bool :=
  match To4 ip with
  | Some ip4 => Z.land (at_ ip4 0) 0xf0 =? 0xe0
  | None => Nat.eqb (length ip) 16 && (at_ ip 0 =? 0xff)
  end.

Definition IsLinkLocalMulticast (ip : bytes) : bool :=
  match To4 ip with
  | Some ip4 => (at_ ip4 0 =? 224) && (at_ ip4 1 =? 0) && (at_ ip4 2 =? 0)
  | None => Nat.eqb (length ip) 16 && (at_ ip 0 =? 0xff) && (Z.land (at_ ip 1) 0x0f =? 2)
  end.

Definition IsLinkLocalUnicast (ip : bytes) : bool :=
  match To4 ip with
  | Some ip4 => (at_ ip4 0 =? 169) && (at_ ip4 1 =? 254)
  | None => Nat.eqb (length ip) 16 && (at_ ip 0 =? 0xfe) && (Z.land (at_ ip 1) 0xc0 =? 0x80)
  end.

(** ** The text of an IP *)

Definition v6u16 (ip : bytes) (i : Z) : Z :=
  at_ ip (Z.to_nat (2 * i)) * 256 + at_ ip (Z.to_nat (2 * i + 1)).

(** The end of the run of zero groups that starts at group [i]. *)
Fixpoint zero_run (k : nat) (ip : bytes) (j : Z) : Z :=
  match k with
  | O => j
  | S k => if (j <? 8) && (v6u16 ip j =? 0) then zero_run k ip (j + 1) else j
  end.

(** The first longest run of at least two zero groups. *)
Definition longest_run (ip : bytes) : option (Z * Z) :=
  foldl (fun best i =>
    let j := zero_run 8 ip i in
    let l := j - i in
    if (2 <=? l) && (match best with Some (s, e) => e - s | None => 0 end <? l)
    then Some (i, j) else best) None (seqZ 0 8).

(** [appendHex]: no leading zeros. *)
Definition hex_group (x : Z) : string :=
  let d n := String (hex_digit (x / n mod 16)) EmptyString in
  (if 0x1000 <=? x then d 0x1000 else "") +:+ (if 0x100 <=? x then d 0x100 else "") +:+
  (if 0x10 <=? x then d 0x10 else "") +:+ d 1.

Fixpoint v6_groups (k : nat) (ip : bytes) (run : option (Z * Z)) (i : Z) : string :=
  match k with
  | O => ""
  | S k =>
    if 8 <=? i then "" else
    match run with
    | Some (s, e) =>
      if i =? s then "::" +:+ (if 8 <=? e then "" else hex_group (v6u16 ip e) +:+ v6_groups k ip run (e + 1))
      else (if 0 <? i then ":" else "") +:+ hex_group (v6u16 ip i) +:+ v6_groups k ip run (i + 1)
    | None => (if 0 <? i then ":" else "") +:+ hex_group (v6u16 ip i) +:+ v6_groups k ip run (i + 1)
    end
  end.

Definition IP_String (ip : bytes) : string :=
  if Nat.eqb (length ip) 0 then "<nil>"
  else if negb (Nat.eqb (length ip) 4) && negb (Nat.eqb (length ip) 16) then "?" +:+ hex_encode ip
  else match To4 ip with
       | Some p4 => Join ((fun b => pretty (byte_val b)) <$> p4) "."
       | None => v6_groups 8 ip (longest_run ip) 0
       end.

Example IP_String_v6 :
  IP_String ([Byte.x20; Byte.x01; Byte.x0d; Byte.xb8] ++ zero_bytes 10 ++ [Byte.x12; Byte.x34]) = "2001:db8::1234".
Proof. reflexivity. Qed.
Example IP_String_v4 : IP_String (v4InV6Prefix ++ [Byte.x5d; Byte.xb8; Byte.xd8; Byte.x22]) = "93.184.216.34".
Proof. reflexivity. Qed.
Example IP_String_loopback : IP_String IPv6loopback = "::1".
Proof. reflexivity. Qed.

(** ** Host and port *)

Fixpoint IndexByte (s : string) (c : ascii) : option nat :=
  match s with
  | EmptyString => None
  | String a s => if Ascii.eqb a c then Some 0%nat else S <$> IndexByte s c
  end.
Fixpoint LastIndexByte (s : string) (c : ascii) : option nat :=
  match s with
  | EmptyString => None
  | String a s =>
    match LastIndexByte s c with
    | Some i => Some (S i)
    | None => if Ascii.eqb a c then Some 0%nat else None
    end
  end.

Definition addrErr (addr why : string) : error := Plain ("address " +:+ addr +:+ ": " +:+ why).

Definition SplitHostPort (hostport : string) : result (string * string) :=
  match LastIndexByte hostport ":" with
  | None => Err (addrErr hostport "missing port in address")
  | Some i =>
    '(host, (j, k)) ←
      (if HasPrefix hostport "[" then
        match IndexByte hostport "]" with
        | None => Err (addrErr hostport "missing ']' in address")
        | Some e =>
          if Nat.eqb (S e) (String.length hostport) then Err (addrErr hostport "missing port in address")
          else if Nat.eqb (S e) i then Ok (String.substring 1 (e - 1) hostport, (1%nat, S e))
          else if HasPrefix (drop_string (S e) hostport) ":"
          then Err (addrErr hostport "too many colons in address")
          else Err (addrErr hostport "missing port in address")
        end
      else
        let host := String.substring 0 i hostport in
        match IndexByte host ":" with
        | Some _ => Err (addrErr hostport "too many colons in address")
        | None => Ok (host, (0%nat, 0%nat))
        end);
    match IndexByte (drop_string j hostport) "[" with
    | Some _ => Err (addrErr hostport "unexpected '[' in address")
    | None =>
      match IndexByte (drop_string k hostport) "]" with
      | Some _ => Err (addrErr hostport "unexpected ']' in address")
      | None => Ok (host, drop_string (S i) hostport)
      end
    end
  end.

Definition JoinHostPort (host port : string) : string :=
  match IndexByte host ":" with
  | Some _ => "[" +:+ host +:+ "]:" +:+ port
  | None => host +:+ ":" +:+ port
  end.

Example SplitHostPort_v6 : SplitHostPort "[::1]:443" = Ok ("::1", "443").
Proof. reflexivity. Qed.

(** ** URLs, responses and the network *)

(** [url.URL], the parts the program reads: [url_Hostname] and [url_Addr] are
    the results of [Hostname()] and of the transport's [canonicalAddr], and
    [url_String] that of [String()]. *)
Record URL := mkURL {
  Scheme : string;
  url_Hostname : string;
  url_Addr : string;
  url_String : string;
}.

(** [http.Response]: the body is what a reader of it receives, and the error
    that ends it, if it is not the end of the stream. *)
Record Response := mkResponse {
  StatusCode : Z;
  Location : string;
  Body : bytes;
  Body_err : option error;
}.

(** The operations of the network. [RoundTrip c conn u] is one GET exchange
    for [u] over a connection to the address [conn]; [Post] is the call of an
    [http.Client] that the code receives from outside. *)
Class Network (W : Type) := {
  LookupIP : string -> M W (list bytes);
  url_Parse : string -> result URL;
  url_ParseRef : URL -> string -> result URL;
  RoundTrip : ctx -> string -> URL -> M W Response;
  Post : ctx -> string -> bytes -> M W Response;
}.

#[export] Instance Network_snd {S W} {NW : Network W} : Network (S * W) := {
  LookupIP h := zoom_snd (LookupIP h);
  url_Parse := url_Parse (W := W);
  url_ParseRef := url_ParseRef (W := W);
  RoundTrip c a u := zoom_snd (RoundTrip c a u);
  Post c u b := zoom_snd (Post c u b);
}.

(** [io.ReadAll(io.LimitReader(body, n))]. *)
Definition ReadAll_limited (r : Response) (n : Z) : result bytes :=
  if n <=? llen (Body r) then Ok (take (Z.to_nat n) (Body r))
  else match Body_err r with Some e => Err e | None => Ok (Body r) end.

Definition StatusOK : Z := 200.

(** The redirect statuses that a GET request follows. *)
Definition is_redirect (r : Response) : bool :=
  bool_decide (StatusCode r ∈ [301; 302; 303; 307; 308]).

(** [http.Client.Do] for a GET request: [dial] is the transport's
    [DialContext], given as the address it connects to, [check] the client's
    [CheckRedirect], [timeout] its [Timeout]. [via] are the requests already
    made, oldest first. An error is wrapped in a [url.Error] that names the
    URL. The loop is bounded by [fuel]; running out of it is the panic
    [out_of_fuel], which [Do_fuel] excludes for a client that limits its
    redirects. *)
Section client.
Context {W : Type} {NW : Network W}.
Context (timeout : Z) (dial : string -> M W string) (check : URL -> list URL -> M W unit).

Definition out_of_fuel : string := "out of fuel".

Definition url_error (u : string) (e : error) : error := Wrap ("Get " +:+ quote u +:+ ": ") e "".

Definition send (c : ctx) (u : URL) : M W Response :=
  conn ← dial (url_Addr u);
  RoundTrip c conn u.

Fixpoint do_loop (fuel : nat) (c : ctx) (via : list URL) (u : URL) : M W Response :=
  match fuel with
  | O => lift (Panic out_of_fuel)
  | S fuel =>
    resp <?- send c u onerr err => lift (Err (url_error (url_String u) err));
    if negb (is_redirect resp) then mret resp else
    let loc := Location resp in
    if String.eqb loc "" then mret resp else
    u' <?- lift (url_ParseRef u loc)
      onerr err => lift (Err (url_error (url_String u)
        (Plain ("failed to parse Location header " +:+ quote loc +:+ ": " +:+ Error err))));
    let via := via ++ [u] in
    _r <?- check u' via onerr err => lift (Err (url_error loc err));
    do_loop fuel c via u'
  end.

Definition Do (fuel : nat) (c : ctx) (u : URL) : M W Response :=
  do_loop fuel (WithTimeout c timeout) [] u.

(** With a check that refuses a request after [n] earlier ones, [n] units of
    fuel are enough: more make no difference. *)
Lemma do_loop_fuel n :
  (forall u via w, (n <= length via)%nat -> exists e w', check u via w = (Err e, w')) ->
  forall k c via u w, (n <= S k + length via)%nat ->
    do_loop (S (S k)) c via u w = do_loop (S k) c via u w.
Proof.
  intros Hcheck. induction k as [|k IH]; intros c via u w Hk.
  all: match goal with |- do_loop (S ?m) _ _ _ _ = _ =>
    let k' := fresh "k'" in set (k' := m) in |- * at 1; cbn [do_loop]; subst k' end.
  all: unfold on_error, lift; destruct (send c u w) as [[resp|e|p] w1]; [|done..].
  all: destruct (negb (is_redirect resp)); [done|]; destruct (String.eqb (Location resp) ""); [done|].
  all: destruct (url_ParseRef u (Location resp)) as [u'|e|p]; [|done..].
  - destruct (Hcheck u' (via ++ [u]) w1) as (e & w2 & ->); [rewrite length_app; simpl; lia|done].
  - destruct (check u' (via ++ [u]) w1) as [[]w2]; [|done..]. apply IH.
    rewrite length_app. simpl. lia.
Qed.

Lemma do_loop_enough n k c via u w :
  (forall u via w, (n <= length via)%nat -> exists e w', check u via w = (Err e, w')) ->
  (0 < n <= k)%nat -> do_loop k c via u w = do_loop n c via u w.
Proof.
  intros Hcheck Hk. replace k with (k - n + n)%nat by lia. generalize (k - n)%nat as d.
  induction d as [|d IH]; [done|]. rewrite <- IH. simpl "+"%nat.
  destruct (d + n)%nat as [|m] eqn:E; [lia|]. apply (do_loop_fuel n); [done|lia].
Qed.

Lemma do_loop_panic n k c via u w p w' :
  (forall u via w, (n <= length via)%nat -> exists e w', check u via w = (Err e, w')) ->
  (n <= k + length via)%nat -> (0 < k)%nat ->
  (forall a w p, fst (dial a w) <> Panic p) -> (forall c a u w p, fst (RoundTrip c a u w) <> Panic p) ->
  (forall u l p, url_ParseRef (W := W) u l <> Panic p) -> (forall u via w p, fst (check u via w) <> Panic p) ->
  do_loop k c via u w <> (Panic p, w').
Proof.
  intros Hcheck Hk Hpos Hd Hr Hp Hc. revert via u w Hk Hpos.
  induction k as [|k IH]; intros via u w Hk Hpos; [lia|].
  cbn [do_loop]. intros [(r & w1 & Hs & H)|[(e & w1 & Hs & H)|(q & Hs & H)]]%on_error_eq.
  - destruct (negb (is_redirect r)); [done|]. destruct (String.eqb (Location r) ""); [done|].
    apply on_error_eq in H as [(u' & w2 & Hu & H)|[(e & w2 & Hu & H)|(q & Hu & H)]].
    + apply on_error_eq in H as [([] & w3 & Hv & H)|[(e & w3 & Hv & H)|(q & Hv & H)]].
      * destruct k as [|k].
        -- destruct (Hcheck u' (via ++ [u]) w2) as (? & ? & E); [rewrite length_app; simpl; lia|].
           by rewrite E in Hv.
        -- eapply IH in H; [done|rewrite length_app; simpl; lia|lia].
      * done.
      * eapply Hc. by rewrite Hv.
    + done.
    + apply lift_eq in Hu as [Hu _]. by apply Hp in Hu.
  - done.
  - unfold send in Hs. apply M_bind_Panic in Hs as [Hs|(a & w1 & Hs & Hrt)].
    + eapply Hd. by rewrite Hs.
    + eapply Hr. by rewrite Hrt.
Qed.
End client.

(** ** A concrete network, for witnesses: every name resolves to the same
    addresses, a connection to an address is answered from a table, and URLs
    are "https://host/path" texts. *)
Record ref_net := mkRefNet {
  rn_ips : list bytes;
  rn_answer : string -> string -> Response;
  rn_post : bytes -> result Response;
}.

Definition ref_url (s : string) : result URL :=
  let '(scheme, rest) := SplitN2 s ":" in
  match rest with
  | Some r => let host := fst (SplitN2 (TrimPrefix r "//") "/") in
              Ok (mkURL scheme host (host +:+ ":443") s)
  | None => Err (Plain "missing scheme")
  end.

#[export] Instance ref_network : Network ref_net := {|
  LookupIP _ := fun w => (Ok (rn_ips w), w);
  url_Parse := ref_url;
  url_ParseRef _ := ref_url;
  RoundTrip _ conn u := fun w => (Ok (rn_answer w conn (url_String u)), w);
  Post _ _ b := fun w => (rn_post w b, w);
|}.

Definition ref_ip : bytes := [Byte.x5d; Byte.xb8; Byte.xd8; Byte.x22].
Definition ref_net0 : ref_net :=
  mkRefNet [ref_ip] (fun _ _ => mkResponse 200 "" (bytes_of_string "data") None)
    (fun _ => Err (Plain "connection refused")).
