(* ===== verification/Ciphertext.v ===== *)
(** * Fetching the ciphertext (go/internal/verifier/ciphertext.go)

    The fetcher with its host allowlist, its pinned addresses and its redirect
    check, over an arbitrary network. The pins are explicit state; the
    allowlist does not change after construction. *)

From S2P Require Import Prelude GoStd Config Bundle GoEth NetStd.

(** [CiphertextFetcher]: the immutable part. *)
Record CiphertextFetcher := mkFetcher {
  allowedHosts : gset string;
}.

(** [pinnedIPs]. *)
Abbreviation pins := (gmap string string).

(** [NewCiphertextFetcher]: the pins start empty. *)
Definition NewCiphertextFetcher (hosts : list string) : CiphertextFetcher :=
  mkFetcher (foldl (fun m h => {[ToLower h]} ∪ m) ∅ hosts).

Definition isPrivateOrReserved (ip : bytes) : bool :=
  IsPrivate ip || IsLoopback ip || IsLinkLocalUnicast ip || IsLinkLocalMulticast ip
  || IsUnspecified ip || IsMulticast ip.

(** The loop of [validateURL] over the resolved addresses: the first one is
    pinned, unless one of them is private. *)
Fixpoint choose_pin (host : string) (pinned : bytes) (ips : list bytes) : result bytes :=
  match ips with
  | [] => Ok pinned
  | ip :: ips =>
    fail_if (isPrivateOrReserved ip)
      (Plain ("host " +:+ quote host +:+ " resolves to a private/reserved address " +:+ IP_String ip)) ;;
    choose_pin host (match pinned with [] => ip | _ => pinned end) ips
  end.

Section Ciphertext.
Context {W : Type} {NW : Network W}.
Context (f : CiphertextFetcher).

(** [f.pinnedIPs[host] = addr]. *)
Definition set_pin (host addr : string) : M (pins * W) unit :=
  fun '(p, w) => (Ok tt, (<[host := addr]> p, w)).
Definition get_pins : M (pins * W) pins := fun '(p, w) => (Ok p, (p, w)).

Definition validateURL (u : URL) : M (pins * W) unit :=
  if negb (String.eqb (Scheme u) "https")
  then lift (Err (Plain ("ciphertext locator must use https, got " +:+ quote (Scheme u)))) else
  let host := ToLower (url_Hostname u) in
  if negb (bool_decide (host ∈ allowedHosts f))
  then lift (Err (Plain ("host " +:+ quote host +:+ " is not in the ciphertext allowlist"))) else
  ips <?- LookupIP host onerr err => lift (Err (Wrap ("resolving " +:+ quote host +:+ ": ") err ""));
  pinned ← lift (choose_pin host [] ips);
  match pinned with
  | [] => lift (Err (Plain ("host " +:+ quote host +:+ " did not resolve to any address")))
  | _ => set_pin host (IP_String pinned)
  end.

(** [dialPinned], up to the address that the dialer is given. *)
Definition dialPinned (addr : string) : M (pins * W) string :=
  hp <?- lift (SplitHostPort addr)
    onerr err => lift (Err (Wrap ("parsing dial address " +:+ quote addr +:+ ": ") err ""));
  let '(host, port) := hp in
  p ← get_pins;
  match p !! ToLower host with
  | None => lift (Err (Plain ("no validated IP pinned for host " +:+ quote host +:+
                              " -- refusing to dial without validation")))
  | Some pinned => mret (JoinHostPort pinned port)
  end.

(** The [CheckRedirect] closure. *)
Definition CheckRedirect (u : URL) (via : list URL) : M (pins * W) unit :=
  if 3 <=? llen via then lift (Err (Plain "too many redirects")) else validateURL u.

Definition Fetch (fuel : nat) (c : ctx) (locator : string) : M (pins * W) bytes :=
  u <?- lift (url_Parse (W := W) locator) onerr err => lift (Err (Wrap "parsing ciphertext locator: " err ""));
  _v <?- validateURL u onerr err => lift (Err err);
  let c := WithTimeout c Config.RPCCallTimeout in
  req <?- lift (url_Parse (W := W) (url_String u))
    onerr err => lift (Err (Wrap "building ciphertext request: " err ""));
  resp <?- Do Config.RPCCallTimeout dialPinned CheckRedirect fuel c req
    onerr err => lift (Err (Wrap "fetching ciphertext: " err ""));
  if negb (StatusCode resp =? StatusOK)
  then lift (Err (Plain ("ciphertext gateway returned status " +:+ pretty (StatusCode resp)))) else
  data <?- lift (ReadAll_limited resp (Config.MaxCiphertextBytes + 1))
    onerr err => lift (Err (Wrap "reading ciphertext body: " err ""));
  if Config.MaxCiphertextBytes <? llen data
  then lift (Err (Plain ("ciphertext exceeds max size of " +:+ pretty Config.MaxCiphertextBytes +:+ " bytes")))
  else mret data.

(** ** The invariant of the pins *)

(** An address that [validateURL] may pin. *)
Definition public_addr (addr : string) : Prop :=
  exists ip, addr = IP_String ip /\ isPrivateOrReserved ip = false /\ ip <> [].

Definition pins_ok (p : pins) : Prop :=
  map_Forall (fun host addr => host ∈ allowedHosts f /\ public_addr addr) p.

Lemma choose_pin_public host pinned ips ip :
  choose_pin host pinned ips = Ok ip ->
  Forall (fun ip => isPrivateOrReserved ip = false) ips /\
  (isPrivateOrReserved pinned = false -> isPrivateOrReserved ip = false).
Proof.
  revert pinned. induction ips as [|x ips IH]; intros pinned H; simpl in H.
  - injection H as <-. by split; [constructor|].
  - apply bind_Ok in H as ([] & Hx & H). apply fail_if_Ok in Hx. apply IH in H as [Hf Hi].
    split; [by constructor|]. intros Hp. apply Hi. by destruct pinned.
Qed.

(** What [validateURL] does to the pins: nothing when it fails; a success
    inserts one public address for the URL's host, an allowed one, and the
    rest of the pins plays no role. *)
Lemma validateURL_pins u p w r p' w' :
  validateURL u (p, w) = (r, (p', w')) ->
  (p' = p /\ is_Ok r = false) \/
  (exists addr, r = Ok tt /\ p' = <[ToLower (url_Hostname u) := addr]> p /\
    Scheme u = "https" /\ ToLower (url_Hostname u) ∈ allowedHosts f /\ public_addr addr).
Proof.
  unfold validateURL. intros H.
  destruct (String.eqb_spec (Scheme u) "https") as [Es|]; [|apply lift_eq in H; naive_solver]. simpl in H.
  case_bool_decide as Ha; [|apply lift_eq in H; naive_solver]. simpl in H.
  apply on_error_eq in H as [(ips & s1 & Hl & H)|[(e & s1 & Hl & H)|(q & Hl & ->)]];
    cbn [LookupIP Network_snd] in Hl; apply zoom_snd_eq in Hl as (w1 & _ & Hl); simplify_eq;
    [|apply lift_eq in H; naive_solver|naive_solver].
  unfold mbind, M_bind, lift in H.
  destruct (choose_pin _ [] ips) as [[|b ip]|e|q] eqn:Hc; simplify_eq; [naive_solver| |naive_solver..].
  right. exists (IP_String (b :: ip)). unfold set_pin in H. simplify_eq. split_and!; try done.
  exists (b :: ip). split_and!; try done. by apply choose_pin_public in Hc as [_ Hc]; apply Hc.
Qed.

Lemma validateURL_ok u p w r p' w' :
  pins_ok p -> validateURL u (p, w) = (r, (p', w')) -> pins_ok p'.
Proof.
  intros Hp [[-> _]|(addr & _ & -> & _ & Ha & Hpub)]%validateURL_pins; [done|].
  by apply map_Forall_insert_2.
Qed.

Lemma CheckRedirect_ok u via p w r p' w' :
  pins_ok p -> CheckRedirect u via (p, w) = (r, (p', w')) -> pins_ok p'.
Proof.
  intros Hp. unfold CheckRedirect. case_match; [by intros [_ [= <- <-]]%lift_eq|by apply validateURL_ok].
Qed.

Lemma dialPinned_eq addr p w r s :
  dialPinned addr (p, w) = (r, s) ->
  s = (p, w) /\
  (forall a, r = Ok a -> exists host port pinned, SplitHostPort addr = Ok (host, port) /\
     p !! ToLower host = Some pinned /\ a = JoinHostPort pinned port).
Proof.
  unfold dialPinned. intros H.
  apply on_error_eq in H as [([h q] & s1 & Hs & H)|[(e & s1 & Hs & H)|(q & Hs & ->)]];
    apply lift_eq in Hs as [Hs <-]; [|apply lift_eq in H; naive_solver|naive_solver].
  unfold mbind, M_bind, get_pins, mret, M_ret in H. destruct (p !! ToLower h) eqn:E; simplify_eq; [|apply lift_eq in H; naive_solver].
  split; [done|]. intros a [= <-]. eauto 10.
Qed.

(** Whatever is dialed is a public address, of an allowed host. *)
Lemma dialPinned_public addr p w a s :
  pins_ok p -> dialPinned addr (p, w) = (Ok a, s) ->
  exists (host port : string) (ip : bytes),
    SplitHostPort addr = Ok (host, port) /\ ToLower host ∈ allowedHosts f /\
    a = JoinHostPort (IP_String ip) port /\ isPrivateOrReserved ip = false /\ ip <> [].
Proof.
  intros Hp [_ H]%dialPinned_eq. destruct (H a eq_refl) as (host & port & pinned & Hs & Hl & ->).
  apply Hp in Hl as (Hh & ip & -> & Hip & Hne). eauto 10.
Qed.
End Ciphertext.

(** ** Reachable pins

    Requests run concurrently and share the pins; a validation writes them
    once, at its end, under the lock. So the pins an interleaving can reach
    are those that a sequence of validations of any URLs, against any answers
    of the network, can reach. *)
Inductive pins_reachable {W} {NW : Network W} (f : CiphertextFetcher) : pins -> Prop :=
| reach_init : pins_reachable f ∅
| reach_validate p u w r p' w' :
    pins_reachable f p -> validateURL f u (p, w) = (r, (p', w')) -> pins_reachable f p'.

Lemma pins_reachable_ok {W} {NW : Network W} f p : pins_reachable f p -> pins_ok f p.
Proof. induction 1; [apply map_Forall_empty|by eapply validateURL_ok]. Qed.

(** The validation part of an interleaving commutes with the pins: it makes
    the same insertion whatever they are. *)
Lemma validateURL_pins_irrelevant {W} {NW : Network W} f u p q (w : W) :
  let '(r, (p', w1)) := validateURL f u (p, w) in
  let '(r', (q', w2)) := validateURL f u (q, w) in
  r = r' /\ w1 = w2 /\ ((p' = p /\ q' = q) \/
    exists addr, p' = <[ToLower (url_Hostname u) := addr]> p /\ q' = <[ToLower (url_Hostname u) := addr]> q).
Proof.
  unfold validateURL, on_error, mbind, M_bind, lift, set_pin. cbn [LookupIP Network_snd]. unfold zoom_snd.
  repeat (case_match; simplify_eq/=); naive_solver.
Qed.

(** ** Fetch never connects to a private address

    Two networks that resolve and parse alike, and answer alike on
    connections to public addresses. *)
Record same_public_network {W} (N1 N2 : Network W) : Prop := {
  same_lookup : forall h, LookupIP (Network := N1) h = LookupIP (Network := N2) h;
  same_parse : forall s, url_Parse (Network := N1) s = url_Parse (Network := N2) s;
  same_parse_ref : forall u s, url_ParseRef (Network := N1) u s = url_ParseRef (Network := N2) u s;
  same_public : forall ip port, isPrivateOrReserved ip = false -> ip <> [] ->
    forall c u w, RoundTrip (Network := N1) c (JoinHostPort (IP_String ip) port) u w
                = RoundTrip (Network := N2) c (JoinHostPort (IP_String ip) port) u w;
}.

Section same.
Context {W : Type} (N1 N2 : Network W) (f : CiphertextFetcher) (HN : same_public_network N1 N2).

Lemma validateURL_same u s : validateURL (NW := N1) f u s = validateURL (NW := N2) f u s.
Proof.
  destruct s as [p w]. unfold validateURL, on_error. cbn [LookupIP Network_snd].
  by rewrite (same_lookup _ _ HN).
Qed.

Lemma CheckRedirect_same u via s :
  CheckRedirect (NW := N1) f u via s = CheckRedirect (NW := N2) f u via s.
Proof. unfold CheckRedirect. case_match; [done|apply validateURL_same]. Qed.

Lemma send_same c u p w :
  pins_ok f p ->
  send (NW := Network_snd (NW := N1)) dialPinned c u (p, w)
  = send (NW := Network_snd (NW := N2)) dialPinned c u (p, w) /\
  (snd (send (NW := Network_snd (NW := N1)) dialPinned c u (p, w))).1 = p.
Proof.
  intros Hp. unfold send, mbind, M_bind.
  destruct (dialPinned (url_Addr u) (p, w)) as [r s] eqn:Hd.
  pose proof Hd as [-> _]%dialPinned_eq. destruct r as [a|e|q]; [|done..].
  apply (dialPinned_public f) in Hd as (h & port & ip & _ & _ & -> & Hip & Hne); [|done].
  cbn [RoundTrip Network_snd]. unfold zoom_snd. rewrite (same_public _ _ HN _ port Hip Hne).
  split; [done|]. by destruct (NetStd.RoundTrip _ _ _ w).
Qed.

Lemma do_loop_same fuel c via u p w :
  pins_ok f p ->
  do_loop (NW := Network_snd (NW := N1)) dialPinned (CheckRedirect (NW := N1) f) fuel c via u (p, w)
  = do_loop (NW := Network_snd (NW := N2)) dialPinned (CheckRedirect (NW := N2) f) fuel c via u (p, w).
Proof.
  revert via u p w. induction fuel as [|fuel IH]; intros via u p w Hp; [done|].
  cbn [do_loop]. unfold on_error at 1. unfold on_error at 3.
  destruct (send_same c u p w Hp) as [<- Hsnd].
  destruct (send _ _ _ _) as [[resp|e|q] [p1 w1]]; [|done..]. simpl in Hsnd. subst p1.
  destruct (negb (is_redirect resp)); [done|]. destruct (String.eqb (Location resp) ""); [done|].
  cbn [url_ParseRef Network_snd]. unfold on_error, lift. rewrite (same_parse_ref _ _ HN).
  destruct (NetStd.url_ParseRef _ _) as [u'|e|q]; [|done..].
  rewrite CheckRedirect_same.
  destruct (CheckRedirect _ u' _ _) as [[?|e|q] [p2 w2]] eqn:Hc; [|done..].
  apply IH. by eapply CheckRedirect_ok.
Qed.

Lemma Fetch_same fuel c locator p w :
  pins_ok f p ->
  Fetch (NW := N1) f fuel c locator (p, w) = Fetch (NW := N2) f fuel c locator (p, w).
Proof.
  intros Hp. unfold Fetch, on_error, lift.
  rewrite (same_parse _ _ HN). destruct (url_Parse locator) as [u|e|q]; [|done..].
  rewrite validateURL_same.
  destruct (validateURL f u (p, w)) as [[?|e|q] [p1 w1]] eqn:Hv; [|done..].
  rewrite (same_parse _ _ HN). destruct (url_Parse (url_String u)) as [req|e|q]; [|done..].
  unfold Do. rewrite do_loop_same; [done|]. by eapply validateURL_ok.
Qed.
End same.

(** ** Bounds *)
Section bounds.
Context {W : Type} {NW : Network W} (f : CiphertextFetcher).

Lemma CheckRedirect_limit u via s :
  (3 <= length via)%nat -> exists e s', CheckRedirect f u via s = (Err e, s').
Proof.
  intros H. unfold CheckRedirect. destruct (Z.leb_spec 3 (llen via)) as [|Hlt]; [unfold lift; eauto|].
  unfold llen in Hlt. lia.
Qed.

(** At most three exchanges: more fuel changes nothing. *)
Lemma Fetch_fuel k c locator s : (3 <= k)%nat -> Fetch f k c locator s = Fetch f 3 c locator s.
Proof.
  intros Hk. unfold Fetch, on_error.
  destruct (lift (url_Parse locator) s) as [[u|e|q] s1]; [|done..].
  destruct (validateURL f u s1) as [[v|e|q] s2]; [|done..].
  destruct (lift (url_Parse _) s2) as [[req|e|q] s3]; [|done..].
  unfold Do. rewrite (do_loop_enough _ _ 3 k); [done| |lia]. intros. by apply CheckRedirect_limit.
Qed.

(** A fetched ciphertext is the whole body of the response that answered the
    last request, of status 200, and within the cap. *)
Lemma Fetch_body fuel c locator s data s' :
  Fetch f fuel c locator s = (Ok data, s') ->
  llen data <= Config.MaxCiphertextBytes /\
  exists u s1 resp,
    Do Config.RPCCallTimeout dialPinned (CheckRedirect f) fuel (WithTimeout c Config.RPCCallTimeout) u s1
      = (Ok resp, s') /\
    StatusCode resp = 200 /\ Body_err resp = None /\ data = Body resp.
Proof.
  unfold Fetch. intros H. run_in H. unfold StatusOK in *. to_prop.
  match goal with H : ReadAll_limited ?r _ = Ok _ |- _ => rename r into resp, H into Hr end.
  split; [done|]. do 3 eexists. split; [done|]. split; [done|]. unfold ReadAll_limited in Hr.
  destruct (Z.leb_spec (Config.MaxCiphertextBytes + 1) (llen (Body resp))) as [Hl|Hl].
  - injection Hr as <-. unfold llen in *. rewrite length_take in *. lia.
  - destruct (Body_err resp); [done|]. by injection Hr as <-.
Qed.
End bounds.

(** ** Properties *)

(** C11. However concurrent requests interleave their validations, and
    whatever the resolver answers, a dial that succeeds goes to the text of an
    address that is not private, loopback, link-local, multicast or
    unspecified, and the dialed name is an allowlisted host: no second
    resolution is involved. *)
Theorem dial_only_public {W} {NW : Network W} f p addr a (w : W) s :
  pins_reachable f p ->
  dialPinned addr (p, w) = (Ok a, s) ->
  exists (host port : string) (ip : bytes),
    SplitHostPort addr = Ok (host, port) /\ ToLower host ∈ allowedHosts f /\
    a = JoinHostPort (IP_String ip) port /\ isPrivateOrReserved ip = false /\ ip <> [].
Proof. intros H%pins_reachable_ok. by apply dialPinned_public. Qed.

Definition ref_fetcher : CiphertextFetcher := NewCiphertextFetcher ["Gateway.example"].
Definition ref_pins : pins := {["gateway.example" := "93.184.216.34"]}.

Theorem dial_only_public_witness :
  exists (host port : string) (ip : bytes),
    SplitHostPort "gateway.example:443" = Ok (host, port) /\ ToLower host ∈ allowedHosts ref_fetcher /\
    "93.184.216.34:443" = JoinHostPort (IP_String ip) port /\ isPrivateOrReserved ip = false /\ ip <> [].
Proof.
  apply (dial_only_public (NW := ref_network) ref_fetcher ref_pins "gateway.example:443" "93.184.216.34:443"
           ref_net0 (ref_pins, ref_net0)).
  - apply (reach_validate (NW := ref_network) ref_fetcher ∅
             (mkURL "https" "gateway.example" "gateway.example:443" "https://gateway.example/")
             ref_net0 (Ok tt) ref_pins ref_net0); [constructor|vm_compute; reflexivity].
  - vm_compute. reflexivity.
Defined.

(** C12. Fetching is independent of everything the network offers at private
    or reserved addresses: two networks that resolve names and parse URLs
    alike, and answer alike at public addresses, give the same result and the
    same pins, redirects included. *)
Theorem Fetch_ignores_private {W} (N1 N2 : Network W) f fuel c locator p (w : W) :
  same_public_network N1 N2 -> pins_reachable (NW := N1) f p ->
  Fetch (NW := N1) f fuel c locator (p, w) = Fetch (NW := N2) f fuel c locator (p, w).
Proof. intros HN H%pins_reachable_ok. by apply Fetch_same. Qed.

(** A network that differs from [ref_network] on connections to addresses
    without a port. *)
Definition ref_network' : Network ref_net := {|
  LookupIP _ := fun w => (Ok (rn_ips w), w);
  url_Parse := ref_url;
  url_ParseRef _ := ref_url;
  RoundTrip _ conn u := fun w =>
    (if bool_decide (IndexByte conn ":" = None) then Ok (mkResponse 200 "" (bytes_of_string "secret") None)
     else Ok (rn_answer w conn (url_String u)), w);
  Post _ _ b := fun w => (rn_post w b, w);
|}.

Lemma IndexByte_app_cons h c t : IndexByte (h +:+ String c t) c <> None.
Proof.
  induction h as [|a h IH]; rewrite ?append_nil_l, ?append_cons; simpl.
  - by rewrite Ascii.eqb_refl.
  - case_match; [done|]. by destruct (IndexByte _ c).
Qed.

Lemma IndexByte_JoinHostPort h p : IndexByte (JoinHostPort h p) ":" <> None.
Proof.
  unfold JoinHostPort. case_match.
  - rewrite append_cons, append_nil_l. simpl. change ("]:" +:+ p) with (String "]" EmptyString +:+ String ":" p).
    pose proof (IndexByte_app_cons (h +:+ "]") ":" p) as H'.
    rewrite (assoc String.append). by intros E%fmap_None.
  - apply IndexByte_app_cons.
Qed.

Theorem Fetch_ignores_private_witness :
  Fetch (NW := ref_network) ref_fetcher 3 [] "https://gateway.example/00" (∅, ref_net0)
  = Fetch (NW := ref_network') ref_fetcher 3 [] "https://gateway.example/00" (∅, ref_net0).
Proof.
  apply (Fetch_ignores_private ref_network ref_network' ref_fetcher 3 []
           "https://gateway.example/00" ∅ ref_net0); [|constructor].
  split; try reflexivity. intros ip port _ _ c u w. cbn [RoundTrip ref_network ref_network'].
  rewrite bool_decide_eq_false_2; [done|]. apply IndexByte_JoinHostPort.
Defined.

(** C13. A fetched ciphertext is the whole body of a status-200 response to the
    last request of the chain, never a truncation, and is at most
    [MaxCiphertextBytes] long; and the redirect check bounds the chain at
    three requests, so the fetch with fuel for three is the fetch. *)
Theorem Fetch_sound {W} {NW : Network W} f fuel c locator s data s' :
  (3 <= fuel)%nat ->
  Fetch f fuel c locator s = (Ok data, s') ->
  Fetch f 3 c locator s = (Ok data, s') /\
  llen data <= Config.MaxCiphertextBytes /\
  exists u s1 resp,
    Do Config.RPCCallTimeout dialPinned (CheckRedirect f) fuel (WithTimeout c Config.RPCCallTimeout) u s1
      = (Ok resp, s') /\
    StatusCode resp = 200 /\ Body_err resp = None /\ data = Body resp.
Proof. intros Hf H. split; [by rewrite <- (Fetch_fuel f fuel)|by apply Fetch_body in H]. Qed.

Theorem Fetch_sound_witness :
  let data := bytes_of_string "data" in
  let s := ((∅ : pins), ref_net0) in
  Fetch ref_fetcher 3 [] "https://gateway.example/00" s = (Ok data, (ref_pins, ref_net0)) /\
  llen data <= Config.MaxCiphertextBytes /\
  exists u s1 resp,
    Do Config.RPCCallTimeout dialPinned (CheckRedirect ref_fetcher) 5 [Config.RPCCallTimeout] u s1
      = (Ok resp, (ref_pins, ref_net0)) /\
    StatusCode resp = 200 /\ Body_err resp = None /\ data = Body resp.
Proof.
  apply (Fetch_sound ref_fetcher 5 [] "https://gateway.example/00" (∅, ref_net0) (bytes_of_string "data")
           (ref_pins, ref_net0)); [lia|vm_compute; reflexivity].
Defined.
