(* ===== verification/HttpMux.v ===== *)
(** * The request router of net/http

    [http.ServeMux] on the paths of this program: cleaning with [path.Clean],
    the redirect of a path that is not clean, and the match of a one-segment
    pattern. The texts are those of Go 1.25. *)

From S2P Require Import Prelude GoStd GoEth Bundle NetStd Encoding.

(** ** path.Clean (and filepath.Clean, on slash-separated paths) *)

(** [stack] holds the components kept so far, the last one first. *)
Fixpoint clean_parts (rooted : bool) (parts stack : list string) : list string :=
  match parts with
  | [] => rev stack
  | p :: parts =>
    if String.eqb p "" || String.eqb p "." then clean_parts rooted parts stack
    else if String.eqb p ".." then
      match stack with
      | top :: stack' => clean_parts rooted parts (if String.eqb top ".." then p :: stack else stack')
      | [] => clean_parts rooted parts (if rooted then [] else [p])
      end
    else clean_parts rooted parts (p :: stack)
  end.

Definition filepath_Clean (path : string) : string :=
  let rooted := HasPrefix path "/" in
  let body := Join (clean_parts rooted (Split path "/") []) "/" in
  if rooted then "/" +:+ body else if String.eqb body "" then "." else body.

Example clean_relative : filepath_Clean "a//b/./../../../c/" = "../c".
Proof. reflexivity. Qed.

(** ** The path of a request *)

Definition HasSuffixSlash (s : string) : bool :=
  match LastIndexByte s "/" with Some i => Nat.eqb (S i) (String.length s) | None => false end.

(** [cleanPath] of net/http: rooted, clean, with its trailing slash. *)
Definition cleanPath (p : string) : string :=
  if String.eqb p "" then "/" else
  let p := if HasPrefix p "/" then p else "/" +:+ p in
  let np := filepath_Clean p in
  if HasSuffixSlash p && negb (String.eqb np "/") then np +:+ "/" else np.

(** [url.PathUnescape]; an invalid escape leaves the text. *)
Fixpoint unescape (s : string) : option string :=
  match s with
  | EmptyString => Some EmptyString
  | String "%" s =>
    match s with
    | String a (String b s) => x ← hex_val a; y ← hex_val b; s ← unescape s;
        Some (String (ascii_of_nat (Z.to_nat (x * 16 + y))) s)
    | _ => None
    end
  | String a s => String a <$> unescape s
  end.
Definition pathUnescape (s : string) : string := match unescape s with Some t => t | None => s end.

(** A path of one segment matches the pattern of the same segment, unescaped. *)
Definition pattern_matches (pattern path : string) : bool :=
  match pattern, path with
  | String _ seg, String _ rest =>
      match IndexByte rest "/" with Some _ => false | None => String.eqb seg (pathUnescape rest) end
  | _, _ => false
  end.

Lemma IndexByte_None s c : all_chars (fun a => negb (Ascii.eqb a c)) s = true -> IndexByte s c = None.
Proof.
  induction s as [|a s IH]; [done|]. simpl. intros [Ha Hs]%andb_true_iff. apply negb_true_iff in Ha. by rewrite Ha, IH.
Qed.

Lemma unescape_id s : all_chars (fun a => negb (Ascii.eqb a "%")) s = true -> unescape s = Some s.
Proof.
  induction s as [|a s IH]; [done|]. cbn [all_chars]. intros [Ha%negb_true_iff Hs]%andb_true_iff. specialize (IH Hs).
  apply Ascii.eqb_neq in Ha. destruct a as [[] [] [] [] [] [] [] []]; try (by cbn [unescape]; rewrite IH). done.
Qed.

Lemma pathUnescape_id s : all_chars (fun a => negb (Ascii.eqb a "%")) s = true -> pathUnescape s = s.
Proof. intros H. unfold pathUnescape. by rewrite unescape_id. Qed.

Example pattern_escaped : pattern_matches "/state" "/%73tate" = true /\ pattern_matches "/state" "/state/" = false.
Proof. vm_compute. auto. Qed.

(** ** The redirect of a path that is not clean *)

(** [shouldEscape] of net/url for a path. *)
Definition path_char (a : ascii) : bool :=
  is_digit a || in_range 65 90 a || in_range 97 122 a || Contains "-_.~$&+,/:;=@" (String a EmptyString).
Definition upper_hex (n : Z) : ascii := ascii_of_nat (Z.to_nat (if n <? 10 then 48 + n else 55 + n)).

Fixpoint escape_path (s : string) : string :=
  match s with
  | EmptyString => EmptyString
  | String a s =>
    if path_char a then String a (escape_path s)
    else String "%" (String (upper_hex (ascii_val a / 16)) (String (upper_hex (ascii_val a mod 16)) (escape_path s)))
  end.

(** [htmlEscape] of net/http. *)
Fixpoint htmlEscape (s : string) : string :=
  match s with
  | EmptyString => EmptyString
  | String a s =>
    (if Ascii.eqb a "&" then "&amp;" else if Ascii.eqb a "<" then "&lt;" else if Ascii.eqb a ">" then "&gt;"
     else if Ascii.eqb a "034" then "&#34;" else if Ascii.eqb a "'" then "&#39;" else String a EmptyString)
    +:+ htmlEscape s
  end.

(** The target of the redirect: the clean path, in the form that
    [url.URL.String] gives it, and the query. *)
Definition redirect_target (path query : string) : string :=
  escape_path path +:+ (if nonempty query then "?" +:+ query else "").

Definition newline : string := String "010" EmptyString.

(** The body of [http.Redirect], which only a GET has. *)
Definition redirect_body (target : string) : string :=
  "<a href=" +:+ Json.dquote +:+ htmlEscape target +:+ Json.dquote +:+ ">Moved Permanently</a>." +:+ newline +:+ newline.

Example unclean_target : redirect_target (cleanPath "//action/../state") "a=1&b" = "/state?a=1&b".
Proof. vm_compute. reflexivity. Qed.
