(* ===== verification/WireTypes.v ===== *)
(** * Wire types (go/pkg/types/workproof.go)

    The instruction the extension receives and the verdict it signs, with the
    ABI components of their schemas. *)

From S2P Require Import Prelude GoStd GoEth.

(** [Outcome]: Pass, Fail and Inconclusive, a uint8. *)
Definition OutcomePass : Z := 0.
Definition OutcomeFail : Z := 1.
Definition OutcomeInconclusive : Z := 2.

Record WorkProofInstruction := mkInstruction {
  i_ChainId : bigint;
  i_EscrowAddress : bytes;
  i_JobId : bigint;
  i_Attempt : Z;
  i_SpecHash : bytes;
  i_PrivateBundleHash : bytes;
  i_CiphertextHash : bytes;
  i_ArtifactAddress : bytes;
  i_ArtifactBlock : bigint;
  i_ArtifactCodeHash : bytes;
  i_RandomRound : bigint;
  i_RandomValueHash : bytes;
  i_EngineVersionHash : bytes;
  i_ExpiresAt : Z;
}.

Record VerdictIdentity := mkIdentity {
  id_SchemaVersion : Z;
  id_EscrowAddress : bytes;
  id_ChainId : bigint;
  id_JobId : bigint;
  id_Attempt : Z;
  id_InstructionId : bytes;
  id_SpecHash : bytes;
  id_PrivateBundleHash : bytes;
  id_ArtifactAddress : bytes;
  id_ArtifactBlock : bigint;
}.

Record VerdictOutcome := mkVerdictOutcome {
  o_ArtifactCodeHash : bytes;
  o_RandomRound : bigint;
  o_RandomValueHash : bytes;
  o_EngineVersionHash : bytes;
  o_Outcome : Z;
  o_PassedCount : Z;
  o_ExecutedCount : Z;
  o_ReportHash : bytes;
  o_IssuedAt : Z;
  o_ExpiresAt : Z;
}.

Record VerdictV1 := mkVerdict {
  v_Id : VerdictIdentity;
  v_Result : VerdictOutcome;
}.

(** ** The ABI schemas of [init] *)

Definition instructionTy : abi_component :=
  TupleComponent EmptyString
    [Component "chainId" "uint256"; Component "escrowAddress" "address"; Component "jobId" "uint256";
     Component "attempt" "uint64"; Component "specHash" "bytes32"; Component "privateBundleHash" "bytes32";
     Component "ciphertextHash" "bytes32"; Component "artifactAddress" "address";
     Component "artifactBlock" "uint256"; Component "artifactCodeHash" "bytes32";
     Component "randomRound" "uint256"; Component "randomValueHash" "bytes32";
     Component "engineVersionHash" "bytes32"; Component "expiresAt" "uint64"].

Definition identityComponents : list abi_component :=
  [Component "schemaVersion" "uint8"; Component "escrowAddress" "address"; Component "chainId" "uint256";
   Component "jobId" "uint256"; Component "attempt" "uint64"; Component "instructionId" "bytes32";
   Component "specHash" "bytes32"; Component "privateBundleHash" "bytes32";
   Component "artifactAddress" "address"; Component "artifactBlock" "uint256"].

Definition outcomeComponents : list abi_component :=
  [Component "artifactCodeHash" "bytes32"; Component "randomRound" "uint256";
   Component "randomValueHash" "bytes32"; Component "engineVersionHash" "bytes32"; Component "outcome" "uint8";
   Component "passedCount" "uint32"; Component "executedCount" "uint32"; Component "reportHash" "bytes32";
   Component "issuedAt" "uint64"; Component "expiresAt" "uint64"].

Definition verdictTy : abi_component :=
  TupleComponent EmptyString [TupleComponent "id" identityComponents; TupleComponent "result" outcomeComponents].

(** The values of a struct, in the order of its fields: the form in which the
    tuple codec reads and fills it. *)
Definition identity_value (d : VerdictIdentity) : abi_value := AbiTuple
  [AbiUint64 (id_SchemaVersion d); AbiAddress (id_EscrowAddress d); AbiBigInt (id_ChainId d);
   AbiBigInt (id_JobId d); AbiUint64 (id_Attempt d); AbiBytes32 (id_InstructionId d);
   AbiBytes32 (id_SpecHash d); AbiBytes32 (id_PrivateBundleHash d); AbiAddress (id_ArtifactAddress d);
   AbiBigInt (id_ArtifactBlock d)].

Definition outcome_value (o : VerdictOutcome) : abi_value := AbiTuple
  [AbiBytes32 (o_ArtifactCodeHash o); AbiBigInt (o_RandomRound o); AbiBytes32 (o_RandomValueHash o);
   AbiBytes32 (o_EngineVersionHash o); AbiUint64 (o_Outcome o); AbiUint64 (o_PassedCount o);
   AbiUint64 (o_ExecutedCount o); AbiBytes32 (o_ReportHash o); AbiUint64 (o_IssuedAt o);
   AbiUint64 (o_ExpiresAt o)].

Definition verdict_value (v : VerdictV1) : abi_value :=
  AbiTuple [identity_value (v_Id v); outcome_value (v_Result v)].

Definition instruction_of (v : abi_value) : option WorkProofInstruction :=
  match v with
  | AbiTuple [AbiBigInt chain; AbiAddress escrow; AbiBigInt job; AbiUint64 attempt; AbiBytes32 spec;
      AbiBytes32 bundle; AbiBytes32 cipher; AbiAddress artifact; AbiBigInt block; AbiBytes32 code;
      AbiBigInt round; AbiBytes32 random; AbiBytes32 engine; AbiUint64 expires] =>
    Some (mkInstruction chain escrow job attempt spec bundle cipher artifact block code round random engine expires)
  | _ => None
  end.

Section encode.
  Context {GE : GoEthereum}.

(** [structs.Encode(types.VerdictV1Arg, verdict)]. *)
Definition encode_verdict (v : VerdictV1) : result bytes := structs_Encode verdictTy (verdict_value v).

(** [structs.DecodeTo(types.WorkProofInstructionArg, data, &instr)]: a value
    that does not fill the struct is an error. *)
Definition decode_instruction (data : bytes) : result WorkProofInstruction :=
  value ← structs_DecodeTo instructionTy data;
  match instruction_of value with
  | Some i => Ok i
  | None => Err (Plain "unexpected tuple")
  end.
End encode.
