(* ===== verification/Canonical.v ===== *)
(** * JSON forms of the bundle and the report (bundle.go, verifier.go)

    [CanonicalizeAndHash] and [reportHashFor], over the JSON decoder and the
    JCS transform. *)

From S2P Require Import Prelude GoStd GoEth Bundle Vectors Encoding.

(** [json.Unmarshal] into the two structs the verifier reads, and the JCS
    transform of github.com/gowebpki/jcs. *)
Class JsonCodec := {
  Unmarshal_decryptResponse : bytes -> result string;
  Unmarshal_bundle : bytes -> result WorkProofBundle;
  jcs_Transform : bytes -> result bytes;
}.

Definition marshal_vector (v : Vector) : string :=
  Json.json_object
    ([("id", Json.json_string (ID v)); ("type", Json.json_string (Type_ v))]
     ++ Json.omitempty (negb (nonempty (Calldata v))) "calldata" (Json.json_string (Calldata v))
     ++ Json.omitempty (negb (nonempty (Caller v))) "caller" (Json.json_string (Caller v))
     ++ Json.omitempty (negb (nonempty (Value v))) "value" (Json.json_string (Value v))
     ++ Json.omitempty (negb (nonempty (ExpectedReturn v))) "expectedReturn" (Json.json_string (ExpectedReturn v))
     ++ Json.omitempty (negb (nonempty (ExpectedRevertSelector v))) "expectedRevertSelector"
          (Json.json_string (ExpectedRevertSelector v))
     ++ Json.omitempty (negb (nonempty (ExpectedRevertPattern v))) "expectedRevertPattern"
          (Json.json_string (ExpectedRevertPattern v))
     ++ Json.omitempty (negb (nonempty (InterfaceID v))) "interfaceId" (Json.json_string (InterfaceID v))
     ++ match Expected v with Some b => [("expected", Json.json_bool b)] | None => [] end
     ++ Json.omitempty (MinBytes v =? 0) "minBytes" (Json.json_int (MinBytes v))
     ++ Json.omitempty (MaxBytes v =? 0) "maxBytes" (Json.json_int (MaxBytes v))
     ++ Json.omitempty (negb (nonempty (Slot v))) "slot" (Json.json_string (Slot v))
     ++ Json.omitempty (negb (nonempty (ExpectedValue v))) "expectedValue" (Json.json_string (ExpectedValue v))).

(** The empty list of vectors is the nil slice. *)
Definition marshal_bundle (b : WorkProofBundle) : string :=
  Json.json_object
    [("formatVersion", Json.json_int (FormatVersion b)); ("templateId", Json.json_string (TemplateID b));
     ("templateVersion", Json.json_string (TemplateVersion b));
     ("targetChainId", Json.json_int (TargetChainID b));
     ("publicSpecHash", Json.json_string (PublicSpecHash b)); ("vectorCount", Json.json_int (VectorCount b));
     ("selectionCount", Json.json_int (SelectionCount b)); ("gasLimitPerCall", Json.json_int (GasLimitPerCall b));
     ("timeoutMsPerCall", Json.json_int (TimeoutMsPerCall b));
     ("maxResponseBytes", Json.json_int (MaxResponseBytes b));
     ("vectors", match Vectors b with [] => "null" | vs => Json.json_array (marshal_vector <$> vs) end)].

(** [PublicVectorResult] and [PublicReport]: what a report keeps of an
    outcome. *)
Record PublicVectorResult := mkPublic {
  pub_ID : string;
  pub_Passed : bool;
  pub_Skipped : bool;
}.

Definition public (o : VectorOutcome) : PublicVectorResult := mkPublic (out_ID o) (Passed o) (Skipped o).

Definition marshal_result (r : PublicVectorResult) : string :=
  Json.json_object [("id", Json.json_string (pub_ID r)); ("passed", Json.json_bool (pub_Passed r));
                    ("skipped", Json.json_bool (pub_Skipped r))].

Definition marshal_report (rs : list PublicVectorResult) : string :=
  Json.json_object [("vectors", Json.json_array (marshal_result <$> rs))].

Section Canonical.
Context {GE : GoEthereum} {JC : JsonCodec}.

Definition CanonicalizeAndHash (b : WorkProofBundle) : result (bytes * bytes) :=
  canonical ← wrap_err "JCS canonicalization: " (jcs_Transform (bytes_of_string (marshal_bundle b)));
  let hash := keccak256 canonical in
  Ok (canonical, hash).

Definition reportHashFor (outcomes : list VectorOutcome) : result bytes :=
  let raw := bytes_of_string (marshal_report (public <$> outcomes)) in
  canonical ← jcs_Transform raw;
  Ok (keccak256 canonical).
End Canonical.

(** A codec whose transform is the identity, for witnesses: it decodes the
    one bundle it is given. *)
Definition ref_codec (b : WorkProofBundle) : JsonCodec := {|
  Unmarshal_decryptResponse l := Ok (string_of_bytes l);
  Unmarshal_bundle _ := Ok b;
  jcs_Transform l := Ok l;
|}.
