(* ===== verification/Decrypt.v ===== *)
(** * Decryption by the local node (go/internal/verifier/decrypt.go) *)

From S2P Require Import Prelude GoStd Bundle GoEth Reference NetStd Encoding Canonical.

Record NodeDecrypter := mkDecrypter { baseURL : string }.

Definition NewNodeDecrypter (signPort : Z) : NodeDecrypter :=
  mkDecrypter ("http://localhost:" +:+ pretty signPort).

(** [json.Marshal(decryptRequest{...})]. *)
Definition marshal_decryptRequest (encryptedMessage : string) : string :=
  Json.json_object [("encryptedMessage", Json.json_string encryptedMessage)].

Section Decrypt.
Context {W : Type} {NW : Network W} {JC : JsonCodec}.

Definition Decrypt (d : NodeDecrypter) (c : ctx) (ciphertext : bytes) : M W bytes :=
  let reqBody := marshal_decryptRequest (Base64.EncodeToString ciphertext) in
  let url := baseURL d +:+ "/decrypt" in
  req <?- lift (url_Parse (W := W) url) onerr err => lift (Err (Wrap "building decrypt request: " err ""));
  resp <?- Post c (url_String req) (bytes_of_string reqBody)
    onerr err => lift (Err (Wrap "calling local node /decrypt: " err ""));
  body <?- lift (ReadAll_limited resp (Z.shiftl 1 20))
    onerr err => lift (Err (Wrap "reading decrypt response: " err ""));
  if negb (StatusCode resp =? StatusOK)
  then lift (Err (Plain ("local node /decrypt returned status " +:+ pretty (StatusCode resp)))) else
  decoded <?- lift (Unmarshal_decryptResponse body)
    onerr err => lift (Err (Wrap "decoding decrypt response: " err ""));
  plaintext <?- lift (Base64.DecodeString decoded)
    onerr err => lift (Err (Wrap "base64-decoding decrypted message: " err ""));
  mret plaintext.
End Decrypt.

(** ** Properties *)

(** The request's text. *)
Definition request_text (b64 : string) : string :=
  "{" +:+ Json.dquote +:+ "encryptedMessage" +:+ Json.dquote +:+ ":" +:+ Json.dquote +:+ b64 +:+ Json.dquote +:+ "}".

Lemma marshal_decryptRequest_text l :
  marshal_decryptRequest (Base64.EncodeToString l) = request_text (Base64.EncodeToString l).
Proof.
  unfold marshal_decryptRequest, Json.json_object, request_text. cbn [fmap list_fmap Join].
  rewrite Json.json_string_base64. unfold Json.json_string.
  change (Json.escape_string 0 "encryptedMessage") with "encryptedMessage".
  by rewrite <- !(assoc String.append).
Qed.

(** A node at [url] that computes [D]: it is sent the base64 text of a
    ciphertext and answers the base64 text of its decryption. *)
Definition node_computes {W} {NW : Network W} {JC : JsonCodec} (url : string) (D : bytes -> bytes) : Prop :=
  forall c ct (w : W), exists resp w',
    Post c url (bytes_of_string (request_text (Base64.EncodeToString ct))) w
      = (Ok (mkResponse 200 "" resp None), w') /\
    llen resp < 2 ^ 20 /\ Unmarshal_decryptResponse resp = Ok (Base64.EncodeToString (D ct)).

(** C22. The wire coding with the local node loses nothing: with a node that
    computes [D] on base64 texts, [Decrypt] computes [D] on byte strings,
    every ciphertext included (the base64 text needs no JSON escape and its
    decoder is the inverse of its encoder, whatever the length). *)
Theorem Decrypt_roundtrip {W} {NW : Network W} {JC : JsonCodec} d u D c ct (w : W) :
  url_Parse (W := W) (baseURL d +:+ "/decrypt") = Ok u ->
  node_computes (W := W) (url_String u) D ->
  exists w', Decrypt d c ct w = (Ok (D ct), w').
Proof.
  intros Hu Hn. destruct (Hn c ct w) as (resp & w' & Hpost & Hlen & Hresp). exists w'.
  unfold Decrypt, on_error, lift. rewrite Hu, marshal_decryptRequest_text, Hpost.
  unfold ReadAll_limited. cbn [Body Body_err]. change (Z.shiftl 1 20) with (2 ^ 20).
  destruct (Z.leb_spec (2 ^ 20) (llen resp)); [lia|]. simpl. rewrite Hresp.
  by rewrite Base64.DecodeString_EncodeToString.
Qed.

(** A node that answers every request with the same plaintext. *)
Definition w_node (plaintext : bytes) : ref_net :=
  mkRefNet [] (fun _ _ => mkResponse 404 "" [] None)
    (fun _ => Ok (mkResponse 200 "" (bytes_of_string (Base64.EncodeToString plaintext)) None)).

Definition w_plaintext : bytes := bytes_of_string "{}".
Definition w_bundle0 : WorkProofBundle := mkBundle 0 "" "" 0 "" 0 0 0 0 0 [].

(** The network of that node, whatever its state. *)
Definition w_node_network : Network unit := {|
  LookupIP _ := fun w => (Ok [], w);
  url_Parse := ref_url;
  url_ParseRef _ := ref_url;
  RoundTrip _ _ _ := fun w => (Err (Plain "unreachable"), w);
  Post c u b := fun w => (fst (Post c u b (w_node w_plaintext)), w);
|}.

Theorem Decrypt_roundtrip_witness :
  exists w', Decrypt (NW := w_node_network) (JC := ref_codec w_bundle0) (NewNodeDecrypter 9090) []
               (bytes_of_string "ciphertext") tt = (Ok w_plaintext, w').
Proof.
  apply (Decrypt_roundtrip (NW := w_node_network) (JC := ref_codec w_bundle0) (NewNodeDecrypter 9090)
           (mkURL "http" "localhost:9090" "localhost:9090:443" "http://localhost:9090/decrypt")
           (fun _ => w_plaintext) [] (bytes_of_string "ciphertext") tt).
  - vm_compute. reflexivity.
  - intros c ct []. exists (bytes_of_string (Base64.EncodeToString w_plaintext)), tt.
    split; [reflexivity|]. split; [vm_compute; reflexivity|]. vm_compute. reflexivity.
Defined.
