(* ===== verification/Verifier.v ===== *)
(** * The verification flow (go/internal/verifier/verifier.go)

    [Verify] with its cross-checks, bundle retrieval, vector loop and verdict,
    over an arbitrary chain, escrow binding, network, clock and node. *)

From S2P Require Import Prelude GoStd Config GoEth Bundle Vectors NetStd Ciphertext Encoding Canonical Decrypt WireTypes.

(** ** The escrow's job, as its generated binding returns it *)

Record JobTerms := mkTerms {
  t_Client : bytes;
  t_Contractor : bytes;
  t_ExpectedTee : bytes;
  t_Principal : bigint;
  t_Fee : bigint;
  t_CreatedAt : Z;
  t_AcceptBy : Z;
  t_SubmitBy : Z;
  t_GraceEnds : Z;
  t_VerificationTimeout : Z;
  t_SpecHash : bytes;
  t_PrivateBundleHash : bytes;
  t_EngineVersionHash : bytes;
  t_CiphertextHash : bytes;
}.

Record AttemptState := mkAttempt {
  a_Attempt : Z;
  a_ArtifactAddress : bytes;
  a_ArtifactBlock : bigint;
  a_ArtifactCodeHash : bytes;
  a_TargetRound : bigint;
  a_RandomRound : bigint;
  a_RandomValueHash : bytes;
  a_RandomLocked : bool;
  a_InstructionId : bytes;
  a_DispatchedAt : Z;
  a_TimeoutAt : Z;
}.

Record Job := mkJob {
  Terms : JobTerms;
  Current : AttemptState;
  State : Z;
  Settled : bool;
}.

(** The generated escrow binding, the RPC dialer and the clock. *)
Class Escrow (W : Type) := {
  ethclient_Dial : string -> M W unit;
  NewWorkProofEscrowCaller : bytes -> M W unit;
  GetJob : bigint -> M W Job;
  Now_Unix : W -> Z * W;
}.

Definition workProofStateVerifying : Z := 4.

Record Cfg := mkCfg {
  cfg_ChainID : Z;
  cfg_RPCURL : string;
  cfg_EscrowAddress : bytes;
  cfg_RandomNumberV2Addr : bytes;
  cfg_SignPort : Z;
  cfg_CiphertextHosts : list string;
}.

Record Verifier := mkVerifier {
  cfg : Cfg;
  decrypter : NodeDecrypter;
  fetcher : CiphertextFetcher;
}.

(** [fail(format, args...)], without and with a wrapped error. *)
Definition fail {A} (msg : string) : result A := Err (HandlerFailure (Plain msg)).
Definition fail_wrap {A} (pre : string) (e : error) : result A := Err (HandlerFailure (Wrap pre e "")).

Definition chainIDMatches (actual : bigint) (expected : Z) : bool :=
  match actual with None => false | Some n => (0 <=? n) && (n =? expected) end.

Definition verdictIdentityFrom (instr : WorkProofInstruction) (instructionId : bytes) : VerdictIdentity := {|
  id_SchemaVersion := 1;
  id_EscrowAddress := i_EscrowAddress instr;
  id_ChainId := i_ChainId instr;
  id_JobId := i_JobId instr;
  id_Attempt := i_Attempt instr;
  id_InstructionId := instructionId;
  id_SpecHash := i_SpecHash instr;
  id_PrivateBundleHash := i_PrivateBundleHash instr;
  id_ArtifactAddress := i_ArtifactAddress instr;
  id_ArtifactBlock := i_ArtifactBlock instr;
|}.

Definition bne (a b : bytes) : bool := bool_decide (a <> b).

Definition crossCheckInstruction (instr : WorkProofInstruction) (job : Job) : result unit :=
  fail_if (Settled job) (Plain "job already settled") ;;
  fail_if (negb (State job =? workProofStateVerifying))
          (Plain ("job state " +:+ pretty (State job) +:+ " is not Verifying")) ;;
  fail_if (bne (t_SpecHash (Terms job)) (i_SpecHash instr)) (Plain "specHash mismatch") ;;
  fail_if (bne (t_PrivateBundleHash (Terms job)) (i_PrivateBundleHash instr))
          (Plain "privateBundleHash mismatch") ;;
  fail_if (bne (t_CiphertextHash (Terms job)) (i_CiphertextHash instr)) (Plain "ciphertextHash mismatch") ;;
  fail_if (bne (t_EngineVersionHash (Terms job)) (i_EngineVersionHash instr))
          (Plain "engineVersionHash mismatch") ;;
  fail_if (negb (t_GraceEnds (Terms job) =? i_ExpiresAt instr)) (Plain "expiresAt mismatch") ;;
  fail_if (negb (a_Attempt (Current job) =? i_Attempt instr))
          (Plain ("attempt mismatch: on-chain " +:+ pretty (a_Attempt (Current job)) +:+
                  ", instruction " +:+ pretty (i_Attempt instr))) ;;
  fail_if (bne (a_ArtifactAddress (Current job)) (i_ArtifactAddress instr)) (Plain "artifactAddress mismatch") ;;
  ne ← big_ne (a_ArtifactBlock (Current job)) (i_ArtifactBlock instr);
  fail_if ne (Plain "artifactBlock mismatch") ;;
  fail_if (bne (a_ArtifactCodeHash (Current job)) (i_ArtifactCodeHash instr)) (Plain "artifactCodeHash mismatch") ;;
  ne ← big_ne (a_RandomRound (Current job)) (i_RandomRound instr);
  fail_if ne (Plain "randomRound mismatch") ;;
  fail_if (bne (a_RandomValueHash (Current job)) (i_RandomValueHash instr)) (Plain "randomValueHash mismatch").

Definition checkBundleSize (plaintext : bytes) : result unit :=
  fail_if (Config.MaxBundleBytes <? llen plaintext)
          (Plain ("decrypted bundle exceeds max size of " +:+ pretty Config.MaxBundleBytes +:+ " bytes")).

(** [n++] on a uint32. *)
Definition countPassed (outcomes : list VectorOutcome) : Z :=
  foldl (fun n o => if Passed o then uint32 (n + 1) else n) 0 outcomes.

(** The state of the vector loop. *)
Record loop_state := mkLoop {
  l_outcomes : list VectorOutcome;
  l_allPassed : bool;
  l_anySkipped : bool;
}.

Section Verifier.
Context {GE : GoEthereum} {JC : JsonCodec} {W : Type} {EC : EthClient W} {ES : Escrow W} {NW : Network W}.

Definition realEngineVersionHash : bytes := keccak256 (bytes_of_string Config.WorkProofEngineVersion).

Definition New (c : Cfg) : M W Verifier :=
  _c <?- ethclient_Dial (cfg_RPCURL c) onerr err => lift (Err (Wrap "dialing chain RPC: " err ""));
  _e <?- NewWorkProofEscrowCaller (cfg_EscrowAddress c)
    onerr err => lift (Err (Wrap "binding escrow contract: " err ""));
  mret (mkVerifier c (NewNodeDecrypter (cfg_SignPort c)) (NewCiphertextFetcher (cfg_CiphertextHosts c))).

Definition checkPublicSpecHash (bundlePublicSpecHash : string) (instrSpecHash : bytes) : result unit :=
  match hexutil_Decode bundlePublicSpecHash with
  | Panic p => Panic p
  | Err _ => Err (Plain "bundle publicSpecHash malformed")
  | Ok decoded =>
    if negb (llen decoded =? 32) then Err (Plain "bundle publicSpecHash malformed") else
    fail_if (bne decoded instrSpecHash)
            (Plain "bundle publicSpecHash does not match the job's committed specHash")
  end.

(** [n.FillBytes(padded)] panics for a nil [n] and for one that does not
    fit; the sign is dropped. *)
Definition keccak256AbiEncodedUint (n : bigint) : result bytes :=
  match n with
  | None => Panic "nil pointer dereference"
  | Some n => if Z.abs n <? 2 ^ 256 then Ok (keccak256 (be_bytes 32 (Z.abs n)))
              else Panic "math/big: buffer too small to fit value"
  end.

Definition recomputeArtifactCodeHash (c : ctx) (artifact : bytes) (block : bigint) : M (pins * W) bytes :=
  code ← CodeAt c artifact block;
  mret (keccak256 code).

Definition fetchAndDecryptBundle (v : Verifier) (c : ctx) (instr : WorkProofInstruction)
  : M (pins * W) WorkProofBundle :=
  match cfg_CiphertextHosts (cfg v) with
  | [] => lift (Err (Plain "no ciphertext gateway configured"))
  | host :: _ =>
    let locator := "https://" +:+ host +:+ "/" +:+ hex_encode (i_CiphertextHash instr) in
    ciphertext <?- Fetch (fetcher v) 3 c locator
      onerr err => lift (Err (Wrap "fetching ciphertext: " err ""));
    if bne (keccak256 ciphertext) (i_CiphertextHash instr)
    then lift (Err (Plain "fetched ciphertext does not match committed ciphertextHash")) else
    plaintext <?- Decrypt (decrypter v) c ciphertext
      onerr err => lift (Err (Wrap "decrypting bundle: " err ""));
    _s <?- lift (checkBundleSize plaintext) onerr err => lift (Err err);
    bundle <?- lift (Unmarshal_bundle plaintext)
      onerr _e => lift (Err (Plain "bundle is not valid JSON"));
    _v <?- lift (Validate bundle)
      onerr err => lift (Err (Wrap "bundle failed schema validation: " err ""));
    _p <?- lift (checkPublicSpecHash (PublicSpecHash bundle) (i_SpecHash instr))
      onerr err => lift (Err err);
    ch <?- lift (CanonicalizeAndHash bundle) onerr err => lift (Err (Wrap "canonicalizing bundle: " err ""));
    let '(_, hash) := ch in
    if bne hash (i_PrivateBundleHash instr)
    then lift (Err (Plain "canonicalized bundle does not match committed privateBundleHash")) else
    mret bundle
  end.

(** [uint64(time.Now().Unix())]. *)
Definition unix_now : M (pins * W) Z :=
  t ← zoom_snd (total Now_Unix); mret (uint64 t).

Definition inconclusiveVerdict (instr : WorkProofInstruction) (identity : VerdictIdentity) (detail : string)
  : M (pins * W) VerdictV1 :=
  reportHash <?- lift (reportHashFor [mkOutcome "infrastructure" false true detail])
    onerr err => lift (fail_wrap "building inconclusive report: " err);
  issuedAt ← unix_now;
  mret (mkVerdict identity {|
    o_ArtifactCodeHash := i_ArtifactCodeHash instr;
    o_RandomRound := i_RandomRound instr;
    o_RandomValueHash := i_RandomValueHash instr;
    o_EngineVersionHash := realEngineVersionHash;
    o_Outcome := OutcomeInconclusive;
    o_PassedCount := 0;
    o_ExecutedCount := 1;
    o_ReportHash := reportHash;
    o_IssuedAt := issuedAt;
    o_ExpiresAt := i_ExpiresAt instr;
  |}).

(** The loop over the selected vectors. *)
Fixpoint run_vectors (c : ctx) (instr : WorkProofInstruction) (bundle : WorkProofBundle)
    (selected : list Z) (st : loop_state) : M (pins * W) loop_state :=
  match selected with
  | [] => mret st
  | idx :: selected =>
    match Vectors bundle !! Z.to_nat idx with
    | None => lift (Panic "index out of range")
    | Some vec =>
      let callCtx := WithTimeout c (TimeoutMsPerCall bundle) in
      o ← ExecuteVector callCtx (i_ArtifactAddress instr) (i_ArtifactBlock instr)
            (GasLimitPerCall bundle) (MaxResponseBytes bundle) vec;
      run_vectors c instr bundle selected (mkLoop (l_outcomes st ++ [o])
        (if Skipped o then l_allPassed st else if negb (Passed o) then false else l_allPassed st)
        (if Skipped o then true else l_anySkipped st))
    end
  end.

(** What follows the binding checks: [now] is the first clock reading. *)
Definition run_bundle (v : Verifier) (c : ctx) (instr : WorkProofInstruction) (identity : VerdictIdentity)
    (randomNumber : bigint) (now : Z) : M (pins * W) VerdictV1 :=
  bundle <?- fetchAndDecryptBundle v c instr
    onerr err => inconclusiveVerdict instr identity ("bundle: " +:+ Error err);
  seed <?- lift (TestSeed randomNumber (i_EscrowAddress instr) (i_JobId instr) (i_Attempt instr)
                   (i_SpecHash instr) (i_ArtifactCodeHash instr))
    onerr err => inconclusiveVerdict instr identity ("deriving test seed: " +:+ Error err);
  selected ← lift (SelectVectors seed (llen (Vectors bundle)) (SelectionCount bundle));
  st ← run_vectors c instr bundle selected (mkLoop [] true false);
  let outcome := if l_anySkipped st then OutcomeInconclusive
                 else if negb (l_allPassed st) then OutcomeFail else OutcomePass in
  reportHash <?- lift (reportHashFor (l_outcomes st))
    onerr err => inconclusiveVerdict instr identity ("building report: " +:+ Error err);
  mret (mkVerdict identity {|
    o_ArtifactCodeHash := i_ArtifactCodeHash instr;
    o_RandomRound := i_RandomRound instr;
    o_RandomValueHash := i_RandomValueHash instr;
    o_EngineVersionHash := realEngineVersionHash;
    o_Outcome := outcome;
    o_PassedCount := countPassed (l_outcomes st);
    o_ExecutedCount := uint32 (llen (l_outcomes st));
    o_ReportHash := reportHash;
    o_IssuedAt := now;
    o_ExpiresAt := i_ExpiresAt instr;
  |}).

Definition Verify (v : Verifier) (c : ctx) (instructionId : bytes) (instr : WorkProofInstruction)
  : M (pins * W) VerdictV1 :=
  let c := WithTimeout c Config.AttemptTotalTimeout in
  if negb (chainIDMatches (i_ChainId instr) (cfg_ChainID (cfg v)))
  then lift (fail ("instruction chainId " +:+ big_text (i_ChainId instr) +:+
                   " does not match configured chain " +:+ pretty (cfg_ChainID (cfg v)))) else
  if bne (i_EscrowAddress instr) (cfg_EscrowAddress (cfg v))
  then lift (fail ("instruction escrowAddress " +:+ Address_Hex (i_EscrowAddress instr) +:+
                   " does not match configured escrow " +:+ Address_Hex (cfg_EscrowAddress (cfg v)))) else
  if bool_decide (i_JobId instr = None) then lift (fail "instruction missing jobId") else
  if bne (i_EngineVersionHash instr) realEngineVersionHash
  then lift (fail ("instruction engineVersionHash " +:+ hex_encode (i_EngineVersionHash instr) +:+
                   " does not match this verifier's real running version " +:+
                   hex_encode realEngineVersionHash)) else
  job <?- zoom_snd (GetJob (i_JobId instr))
    onerr err => lift (fail_wrap "reading on-chain job state: " err);
  _x <?- lift (crossCheckInstruction instr job)
    onerr err => lift (fail_wrap "instruction does not match on-chain job state: " err);
  now ← unix_now;
  if (a_TimeoutAt (Current job) <? now) || (t_GraceEnds (Terms job) <? now)
  then lift (fail "instruction deadline has already passed") else
  if bne instructionId (a_InstructionId (Current job))
  then lift (fail ("actionResult id " +:+ hex_encode instructionId +:+
                   " does not match on-chain dispatched instructionId " +:+
                   hex_encode (a_InstructionId (Current job)))) else
  recomputedCodeHash <?- recomputeArtifactCodeHash c (i_ArtifactAddress instr) (i_ArtifactBlock instr)
    onerr err => lift (fail_wrap "reading artifact code: " err);
  if bne recomputedCodeHash (i_ArtifactCodeHash instr)
  then lift (fail "recomputed artifact code hash does not match instruction-committed value") else
  rs <?- FetchRandomNumber c (cfg_RandomNumberV2Addr (cfg v)) (i_RandomRound instr)
    onerr err => lift (fail_wrap "reading historical random number: " err);
  let '(randomNumber, isSecure) := rs in
  if negb isSecure
  then lift (fail ("random round " +:+ big_text (i_RandomRound instr) +:+
                   " is not secure -- lockRandomness should never have locked this round")) else
  h ← lift (keccak256AbiEncodedUint randomNumber);
  if bne h (i_RandomValueHash instr)
  then lift (fail "recomputed randomValueHash does not match instruction-committed value") else
  let identity := verdictIdentityFrom instr instructionId in
  run_bundle v c instr identity randomNumber now.
End Verifier.
