(* ===== verification/RefWorld.v ===== *)
(** * A concrete world for the verification flow

    A chain, an escrow with one job, a gateway, a node and a clock: the
    witnesses of Verdict.v and Extension.v run on it. *)

From S2P Require Import Prelude GoStd Config GoEth Reference Bundle Vectors NetStd Ciphertext Encoding Canonical Decrypt WireTypes Verifier.

Record ref_world := mkWorld {
  rw_chain : ref_chain;
  rw_net : ref_net;
  rw_job : Job;
  rw_time : Z;
}.

Definition on_chain {A} (m : M ref_chain A) : M ref_world A := fun w => let '(r, _) := m (rw_chain w) in (r, w).
Definition on_net {A} (m : M ref_net A) : M ref_world A := fun w => let '(r, _) := m (rw_net w) in (r, w).

#[export] Instance world_client : EthClient ref_world := {|
  CodeAt c a b := on_chain (CodeAt c a b);
  StorageAt c a k b := on_chain (StorageAt c a k b);
  CallContract c m b := on_chain (CallContract c m b);
|}.

#[export] Instance world_network : Network ref_world := {|
  LookupIP h := on_net (LookupIP h);
  url_Parse := ref_url;
  url_ParseRef _ := ref_url;
  RoundTrip c a u := on_net (RoundTrip c a u);
  Post c u b := on_net (Post c u b);
|}.

#[export] Instance world_escrow : Escrow ref_world := {|
  ethclient_Dial _ := fun w => (Ok tt, w);
  NewWorkProofEscrowCaller _ := fun w => (Ok tt, w);
  GetJob _ := fun w => (Ok (rw_job w), w);
  Now_Unix := fun w => (rw_time w, w);
|}.

(** ** The agreement of the job *)

Definition w_escrow : bytes := be_bytes 20 0xe5c0.
Definition w_artifact : bytes := be_bytes 20 0xa47.
Definition w_spec : bytes := be_bytes 32 0x59ec.
Definition w_code : bytes := be_bytes 2 0x6000.
Definition w_random : Z := 77.
Definition w_ciphertext : bytes := bytes_of_string "ciphertext".
Definition w_instruction_id : bytes := be_bytes 32 0x1d.

Definition w_vectors (word : bytes) : list Vector :=
  [mkVector "code" VectorCodeSizeRange "" "" "" "" "" "" "" None 1 100 "" "";
   mkVector "slot" VectorStorageAtEquals "" "" "" "" "" "" "" None 0 0
     ("0x" +:+ hex_encode zero_hash) ("0x" +:+ hex_encode word)].

Definition w_bundle : WorkProofBundle :=
  mkBundle 1 "template" "v1.0.0" 114 ("0x" +:+ hex_encode w_spec) 2 2 100000 1000 64 (w_vectors zero_hash).

#[export] Instance world_codec : JsonCodec := ref_codec w_bundle.

Definition w_bundle_hash : bytes :=
  Eval vm_compute in match CanonicalizeAndHash (GE := ref_geth) w_bundle with Ok (_, h) => h | _ => [] end.
Definition w_ciphertext_hash : bytes := Eval vm_compute in keccak256 (GE := ref_geth) w_ciphertext.
Definition w_code_hash : bytes := Eval vm_compute in keccak256 (GE := ref_geth) w_code.
Definition w_random_hash : bytes := Eval vm_compute in keccak256 (GE := ref_geth) (be_bytes 32 w_random).
Definition w_engine : bytes := Eval vm_compute in realEngineVersionHash (GE := ref_geth).

Definition w_instr : WorkProofInstruction :=
  mkInstruction (Some 114) w_escrow (Some 9) 1 w_spec w_bundle_hash w_ciphertext_hash w_artifact (Some 50)
    w_code_hash (Some 12) w_random_hash w_engine 2000.

Definition w_job : Job :=
  mkJob (mkTerms (be_bytes 20 1) (be_bytes 20 2) (be_bytes 20 3) (Some 100) (Some 1) 0 10 20 2000 600
           w_spec w_bundle_hash w_engine w_ciphertext_hash)
        (mkAttempt 1 w_artifact (Some 50) w_code_hash (Some 12) (Some 12) w_random_hash true w_instruction_id 900 1800)
        workProofStateVerifying false.

Definition w_answer (data : bytes) : result bytes :=
  Ok (be_bytes 32 w_random ++ be_bytes 32 1 ++ be_bytes 32 5).

Definition w_response (b : bytes) : Response := mkResponse 200 "" b None.

(** The world in which the slot of the artifact holds [word]. *)
Definition w_world (word : bytes) : ref_world :=
  mkWorld (mkRefChain w_code word w_answer)
    (mkRefNet [ref_ip] (fun _ _ => w_response w_ciphertext)
       (fun _ => Ok (w_response (bytes_of_string (Base64.EncodeToString (bytes_of_string "bundle"))))))
    w_job 1000.

Definition w_verifier : Verifier :=
  mkVerifier (mkCfg 114 "http://rpc" w_escrow (be_bytes 20 4) 9090 ["gateway.example"])
    (NewNodeDecrypter 9090) (NewCiphertextFetcher ["gateway.example"]).

Definition w_run (word : bytes) : result VerdictV1 * (pins * ref_world) :=
  Verify (GE := ref_geth) w_verifier [] w_instruction_id w_instr (∅, w_world word).

Definition w_pins : pins := {["gateway.example" := "93.184.216.34"]}.

Definition w_verdict (word : bytes) : VerdictV1 :=
  match w_run word with
  | (Ok v, _) => v
  | _ => mkVerdict (verdictIdentityFrom w_instr [])
           (mkVerdictOutcome [] None [] [] 0 0 0 [] 0 0)
  end.

(** The run with the expected word passes, with another one fails. *)
Example w_run_pass :
  let v := w_verdict zero_hash in
  (o_Outcome (v_Result v), o_PassedCount (v_Result v), o_ExecutedCount (v_Result v)) = (OutcomePass, 2, 2).
Proof. vm_compute. reflexivity. Qed.

Example w_run_fail :
  let v := w_verdict w_spec in
  (o_Outcome (v_Result v), o_PassedCount (v_Result v), o_ExecutedCount (v_Result v)) = (OutcomeFail, 1, 2).
Proof. vm_compute. reflexivity. Qed.
