(* ===== verification/Escrow.v ===== *)
(** * The escrow contract's acceptance check (contracts/WorkProofEscrow.sol)

    [_checkIdentity], [_checkOutcomeBinding] and [_checkBinding], the contract
    that every verdict of the verifier has to meet: the specification that
    Verdict.v shows the verifier to implement. A job is the binding's [Job],
    whose big integers are never nil. *)

From S2P Require Import Prelude GoStd Bundle GoEth WireTypes Verifier.

(** What a transaction sees of its block. *)
Record BlockEnv := mkBlock {
  blk_timestamp : Z;
  blk_chainid : Z;
  blk_this : bytes;
  blk_codehash : bytes -> bytes;
}.

Definition beq (a b : bytes) : bool := bool_decide (a = b).
Definition big_eq (a b : bigint) : bool := bool_decide (a = b).

(** [_checkIdentity]: false is a revert with InvalidVerdict. *)
Definition checkIdentity (j : Job) (vi : VerdictIdentity) (id : Z) (b : BlockEnv) : bool :=
  (id_SchemaVersion vi =? 1) && beq (id_EscrowAddress vi) (blk_this b)
  && big_eq (id_ChainId vi) (Some (blk_chainid b)) && big_eq (id_JobId vi) (Some id)
  && (id_Attempt vi =? a_Attempt (Current j)) && beq (id_InstructionId vi) (a_InstructionId (Current j))
  && beq (id_SpecHash vi) (t_SpecHash (Terms j)) && beq (id_PrivateBundleHash vi) (t_PrivateBundleHash (Terms j))
  && beq (id_ArtifactAddress vi) (a_ArtifactAddress (Current j))
  && big_eq (id_ArtifactBlock vi) (a_ArtifactBlock (Current j)).

(** The checks of [_checkOutcomeBinding] on the counts. *)
Definition counts_accepted (vo : VerdictOutcome) : bool :=
  negb ((o_ExecutedCount vo =? 0) || (o_ExecutedCount vo <? o_PassedCount vo))
  && negb ((o_Outcome vo =? OutcomePass) && negb (o_PassedCount vo =? o_ExecutedCount vo))
  && negb (negb (o_Outcome vo =? OutcomePass) && (o_PassedCount vo =? o_ExecutedCount vo)).

Definition checkOutcomeBinding (j : Job) (vo : VerdictOutcome) (b : BlockEnv) : bool :=
  beq (blk_codehash b (a_ArtifactAddress (Current j))) (a_ArtifactCodeHash (Current j))
  && beq (o_ArtifactCodeHash vo) (a_ArtifactCodeHash (Current j))
  && big_eq (o_RandomRound vo) (a_RandomRound (Current j))
  && beq (o_RandomValueHash vo) (a_RandomValueHash (Current j))
  && beq (o_EngineVersionHash vo) (t_EngineVersionHash (Terms j))
  && negb (beq (o_ReportHash vo) zero_hash)
  && counts_accepted vo
  && (o_ExpiresAt vo =? t_GraceEnds (Terms j))
  && negb ((blk_timestamp b <? o_IssuedAt vo) || (o_IssuedAt vo <? a_DispatchedAt (Current j))).

Definition checkBinding (j : Job) (v : VerdictV1) (id : Z) (b : BlockEnv) : bool :=
  checkIdentity j (v_Id v) id b && checkOutcomeBinding j (v_Result v) b.
