(* ===== verification/Verdict.v ===== *)
(** * Correctness of the verification flow

    What a verdict of [Verify] means: it meets the escrow's checks, a pass is
    backed by evidence for every selected vector of the committed bundle, and
    no input makes the flow panic. *)

From S2P Require Import Prelude GoStd Config GoEth Bundle Vectors Selection Execution NetStd Ciphertext Encoding Canonical Decrypt WireTypes Verifier Escrow Reference RefWorld.

(** ** Counting *)

Definition passed (os : list VectorOutcome) : Z := llen (filter (fun o => Passed o = true) os).

Lemma passed_le os : 0 <= passed os <= llen os.
Proof.
  unfold passed, llen. pose proof (length_filter (fun o => Passed o = true) os). lia.
Qed.

Lemma passed_snoc os o : passed (os ++ [o]) = passed os + (if Passed o then 1 else 0).
Proof.
  unfold passed, llen. rewrite filter_app, length_app, filter_cons, filter_nil.
  case_decide as E; [rewrite E|apply not_true_is_false in E; rewrite E]; simpl; lia.
Qed.

Lemma countPassed_uint32 os : countPassed os = uint32 (passed os).
Proof.
  induction os as [|o os IH] using rev_ind; [done|]. unfold countPassed in *.
  rewrite foldl_app, IH, passed_snoc. simpl. destruct (Passed o); [|by rewrite Z.add_0_r].
  unfold uint. by rewrite Zplus_mod_idemp_l.
Qed.

Lemma countPassed_eq os : llen os < 2 ^ 32 -> countPassed os = passed os.
Proof. intros H. rewrite countPassed_uint32. apply uint_id. pose proof (passed_le os). unfold is_uint. lia. Qed.

Lemma passed_all os : forallb Passed os = true <-> passed os = llen os.
Proof.
  induction os as [|o os IH] using rev_ind; [done|]. pose proof (passed_le os).
  rewrite forallb_app, passed_snoc. unfold llen in *. rewrite length_app. simpl.
  destruct (Passed o); simpl; rewrite ?andb_true_r, ?andb_false_r; [rewrite IH; lia|]. split; [done|lia].
Qed.

Lemma fail_if_no_panic c e : forall p, fail_if c e <> Panic p.
Proof. by destruct c. Qed.

(** ** The vector loop *)
Section loop.
Context {GE : GoEthereum} {JC : JsonCodec} {W : Type} {EC : EthClient W} {ES : Escrow W} {NW : Network W}.
Implicit Types (s : pins * W).

(** One iteration: the outcome of the vector at an index, in some state. *)
Definition ran (c : ctx) (instr : WorkProofInstruction) (bundle : WorkProofBundle) (idx : Z)
    (o : VectorOutcome) : Prop :=
  exists vec s, Vectors bundle !! Z.to_nat idx = Some vec /\ outcome_of vec o /\
    evidenced (WithTimeout c (TimeoutMsPerCall bundle)) (i_ArtifactAddress instr) (i_ArtifactBlock instr)
      (GasLimitPerCall bundle) (MaxResponseBytes bundle) vec (s : pins * W) o.

Lemma run_vectors_ok c instr bundle selected st s st' s' :
  run_vectors c instr bundle selected st s = (Ok st', s') ->
  exists os, l_outcomes st' = l_outcomes st ++ os /\ Forall2 (ran c instr bundle) selected os /\
    l_anySkipped st' = (l_anySkipped st || existsb Skipped os)%bool /\
    l_allPassed st' = (l_allPassed st && forallb (fun o => Skipped o || Passed o)%bool os)%bool.
Proof.
  revert st s. induction selected as [|idx selected IH]; intros st s H; cbn [run_vectors] in H.
  - go_inv. exists []. simpl. rewrite app_nil_r, orb_false_r, andb_true_r. auto.
  - destruct (Vectors bundle !! Z.to_nat idx) as [vec|] eqn:Hv; [|go_inv].
    apply M_bind_Ok in H as (o & s1 & Ho & H).
    apply IH in H as (os & Hos & Hf & Hs & Hp). exists (o :: os). cbn [l_outcomes] in Hos.
    split_and!.
    + by rewrite Hos, <- app_assoc.
    + constructor; [|done]. apply ExecuteVector_ok in Ho as [Ho He]. exists vec, s. auto.
    + rewrite Hs. simpl. destruct (Skipped o); simpl; by rewrite ?orb_true_r.
    + rewrite Hp. simpl. destruct (Skipped o), (Passed o); simpl; by rewrite ?andb_true_r, ?andb_false_r.
Qed.

(** The verdict's outcome and counts, from the outcomes of the vectors. *)
Definition outcome_code (os : list VectorOutcome) : Z :=
  if existsb Skipped os then OutcomeInconclusive
  else if forallb (fun o => Skipped o || Passed o)%bool os then OutcomePass else OutcomeFail.

Lemma outcome_code_pass os :
  Forall (fun o => (Passed o && Skipped o)%bool = false) os ->
  outcome_code os = OutcomePass <-> forallb Passed os = true.
Proof.
  unfold outcome_code. induction 1 as [|o os Ho _ IH]; simpl; [done|].
  destruct (Skipped o), (Passed o); simpl in *; try done.
  repeat case_match; done.
Qed.
End loop.

(** ** Where a verdict comes from *)
Section verdicts.
Context {GE : GoEthereum} {JC : JsonCodec} {W : Type} {EC : EthClient W} {ES : Escrow W} {NW : Network W}.
Implicit Types (s : pins * W).

(** The bundle of the verdict is the one the job committed to. *)
Record committed_bundle (v : Verifier) (c : ctx) (instr : WorkProofInstruction) s (bundle : WorkProofBundle)
  : Prop := {
  cb_ciphertext : exists locator ciphertext plaintext s1 s2,
    Fetch (fetcher v) 3 c locator s = (Ok ciphertext, s1) /\ keccak256 ciphertext = i_CiphertextHash instr /\
    Decrypt (decrypter v) c ciphertext s1 = (Ok plaintext, s2) /\ llen plaintext <= Config.MaxBundleBytes /\
    Unmarshal_bundle plaintext = Ok bundle;
  cb_valid : Validate bundle = Ok tt;
  cb_spec : hexutil_Decode (PublicSpecHash bundle) = Ok (i_SpecHash instr);
  cb_hash : exists canonical, CanonicalizeAndHash bundle = Ok (canonical, i_PrivateBundleHash instr);
}.

Lemma checkPublicSpecHash_ok text h : checkPublicSpecHash text h = Ok tt -> hexutil_Decode text = Ok h.
Proof.
  unfold checkPublicSpecHash. destruct (hexutil_Decode text) as [l| |]; [|done..].
  case_match; [done|]. intros Hf%fail_if_Ok. unfold bne in Hf. to_prop. f_equal. by apply dec_stable.
Qed.

Lemma fetchAndDecryptBundle_ok v c instr s bundle s' :
  fetchAndDecryptBundle v c instr s = (Ok bundle, s') -> committed_bundle v c instr s bundle.
Proof.
  unfold fetchAndDecryptBundle. destruct (cfg_CiphertextHosts (cfg v)) as [|host hosts]; intros H; [go_inv|].
  run_in H. match goal with q : bytes * bytes |- _ => destruct q as [canonical hash] end. run_in H.
  unfold bne, checkBundleSize in *. to_prop.
  repeat match goal with H : ~ (_ <> _) |- _ => apply dec_stable in H end. subst.
  match goal with H : fail_if _ _ = Ok _ |- _ => apply fail_if_Ok in H end. to_prop.
  split; [|done|by apply checkPublicSpecHash_ok|by eexists]. do 5 eexists. eauto 10.
Qed.

Definition verdict_of (instr : WorkProofInstruction) (identity : VerdictIdentity)
    (outcome passed executed : Z) (reportHash : bytes) (issuedAt : Z) : VerdictV1 :=
  mkVerdict identity (mkVerdictOutcome (i_ArtifactCodeHash instr) (i_RandomRound instr) (i_RandomValueHash instr)
    realEngineVersionHash outcome passed executed reportHash issuedAt (i_ExpiresAt instr)).

(** The two ways [run_bundle] ends with a verdict. *)
Inductive verdict_cause (v : Verifier) (c : ctx) (instr : WorkProofInstruction) (identity : VerdictIdentity)
    (randomNumber : bigint) (now : Z) s : VerdictV1 -> Prop :=
| cause_ran bundle seed selected os reportHash :
    committed_bundle v c instr s bundle ->
    TestSeed randomNumber (i_EscrowAddress instr) (i_JobId instr) (i_Attempt instr)
      (i_SpecHash instr) (i_ArtifactCodeHash instr) = Ok seed ->
    SelectVectors seed (llen (Vectors bundle)) (SelectionCount bundle) = Ok selected ->
    Forall2 (ran (W := W) c instr bundle) selected os ->
    reportHashFor os = Ok reportHash ->
    verdict_cause v c instr identity randomNumber now s
      (verdict_of instr identity (outcome_code os) (countPassed os) (uint32 (llen os)) reportHash now)
| cause_inconclusive detail reportHash t (s1 s2 : pins * W) :
    reportHashFor [mkOutcome "infrastructure" false true detail] = Ok reportHash ->
    zoom_snd (S := pins) (total Now_Unix) s1 = (Ok t, s2) ->
    verdict_cause v c instr identity randomNumber now s
      (verdict_of instr identity OutcomeInconclusive 0 1 reportHash (uint64 t)).

Lemma inconclusive_cause v c instr identity rn now s detail s1 verdict s' :
  inconclusiveVerdict instr identity detail s1 = (Ok verdict, s') ->
  verdict_cause v c instr identity rn now s verdict.
Proof.
  unfold inconclusiveVerdict. intros H. run_in H. by eapply cause_inconclusive.
Qed.

Lemma run_bundle_cause v c instr identity rn now s verdict s' :
  run_bundle v c instr identity rn now s = (Ok verdict, s') ->
  verdict_cause v c instr identity rn now s verdict.
Proof.
  unfold run_bundle. intros H.
  apply on_error_eq in H as [(bundle & s1 & Hb & H)|[(e & s1 & Hb & H)|(p & Hb & H)]];
    [|by eapply inconclusive_cause|done].
  apply on_error_eq in H as [(seed & s2 & Hs & H)|[(e & s2 & Hs & H)|(p & Hs & H)]];
    [|by eapply inconclusive_cause|done].
  apply M_bind_Ok in H as (selected & s3 & Hsel & H). apply M_bind_Ok in H as (st & s4 & Hst & H).
  apply on_error_eq in H as [(h & s5 & Hr & H)|[(e & s5 & Hr & H)|(p & Hr & H)]];
    [|by eapply inconclusive_cause|done].
  apply lift_eq in Hs as [Hs _]. apply lift_eq in Hsel as [Hsel _]. apply lift_eq in Hr as [Hr _].
  apply run_vectors_ok in Hst as (os & Hos & Hf & Hsk & Hp). simpl in Hos, Hsk, Hp.
  rewrite Hsk, Hp, Hos in H. rewrite Hos in Hr. apply mret_eq in H as [[= ->] _].
  pose proof (cause_ran v c instr identity rn now s bundle seed selected os h) as Hcause.
  replace (outcome_code os) with (if existsb Skipped os then OutcomeInconclusive else
    if negb (forallb (fun o => Skipped o || Passed o)%bool os) then OutcomeFail else OutcomePass) in Hcause.
  - apply Hcause; try done. by eapply fetchAndDecryptBundle_ok.
  - unfold outcome_code. by repeat case_match.
Qed.

(** The counts of every verdict meet the escrow's checks. *)
Lemma verdict_counts v c instr identity rn now s verdict :
  verdict_cause v c instr identity rn now s verdict -> counts_accepted (v_Result verdict) = true.
Proof.
  destruct 1 as [bundle seed selected os h [_ Hv _ _] _ Hsel Hran _|]; [|done].
  apply Validate_iff_wf in Hv as [].
  destruct (SelectVectors_ok seed (llen (Vectors bundle)) (SelectionCount bundle))
    as (l & Hl & Hlen & _); [lia..|].
  assert (l = selected) as -> by congruence. clear Hl Hsel.
  apply Forall2_length in Hran as Hlos. assert (Hn : llen os = llen selected) by (unfold llen; lia).
  assert (Hok : Forall (fun o => (Passed o && Skipped o)%bool = false) os).
  { eapply Forall2_Forall_r; [exact Hran|]. apply Forall_true. by intros x y (vec & ? & _ & [_ ?] & _). }
  apply outcome_code_pass in Hok. rewrite passed_all in Hok. pose proof (passed_le os).
  unfold verdict_of, counts_accepted. cbn [v_Result o_ExecutedCount o_PassedCount o_Outcome].
  rewrite countPassed_eq by lia. rewrite uint_id by (unfold is_uint; lia).
  repeat match goal with |- context [?a =? ?b] => destruct (Z.eqb_spec a b) end;
  repeat match goal with |- context [?a <? ?b] => destruct (Z.ltb_spec a b) end; simpl; try done;
    first [lia | exfalso; intuition lia].
Qed.
End verdicts.

(** ** The binding of an instruction to the job *)

Lemma big_ne_false x y : big_ne x y = Ok false <-> x = y.
Proof.
  unfold big_ne. destruct x as [a|], y as [b|]; simpl; [|naive_solver..].
  destruct (Z.compare_spec a b); naive_solver lia.
Qed.

Lemma bne_false a b : bne a b = false <-> a = b.
Proof. unfold bne. rewrite bool_decide_eq_false. split; [apply dec_stable|naive_solver]. Qed.

(** The instruction's fields are the job's. *)
Record job_matches (instr : WorkProofInstruction) (job : Job) : Prop := {
  jm_open : Settled job = false;
  jm_verifying : State job = workProofStateVerifying;
  jm_spec : t_SpecHash (Terms job) = i_SpecHash instr;
  jm_bundle : t_PrivateBundleHash (Terms job) = i_PrivateBundleHash instr;
  jm_ciphertext : t_CiphertextHash (Terms job) = i_CiphertextHash instr;
  jm_engine : t_EngineVersionHash (Terms job) = i_EngineVersionHash instr;
  jm_expires : t_GraceEnds (Terms job) = i_ExpiresAt instr;
  jm_attempt : a_Attempt (Current job) = i_Attempt instr;
  jm_artifact : a_ArtifactAddress (Current job) = i_ArtifactAddress instr;
  jm_block : a_ArtifactBlock (Current job) = i_ArtifactBlock instr;
  jm_code : a_ArtifactCodeHash (Current job) = i_ArtifactCodeHash instr;
  jm_round : a_RandomRound (Current job) = i_RandomRound instr;
  jm_random : a_RandomValueHash (Current job) = i_RandomValueHash instr;
}.

Lemma crossCheckInstruction_iff instr job :
  crossCheckInstruction instr job = Ok tt <-> job_matches instr job.
Proof.
  unfold crossCheckInstruction. split.
  - intros H. repeat match type of H with
      | fail_if _ _ ≫= _ = _ => apply bind_Ok in H as ([] & ?H & H)
      | _ ≫= _ = _ => apply bind_Ok in H as ([] & ?H & H)
      end; repeat match goal with H : fail_if _ _ = Ok _ |- _ => apply fail_if_Ok in H end;
      rewrite ?bne_false, ?big_ne_false, ?negb_false_iff, ?Z.eqb_eq in *; try done; by constructor.
  - intros []. repeat match goal with
      | |- fail_if _ _ ≫= _ = _ => apply bind_Ok; exists tt; split; [apply fail_if_Ok|]
      | |- big_ne _ _ ≫= _ = _ => apply bind_Ok; exists false; split
      | |- fail_if _ _ = _ => apply fail_if_Ok
      end; rewrite ?bne_false, ?big_ne_false, ?negb_false_iff, ?Z.eqb_eq; done.
Qed.

(** The cross-check panics only on a nil big integer. *)
Lemma crossCheckInstruction_no_panic instr job p :
  is_Some (i_ArtifactBlock instr) -> is_Some (i_RandomRound instr) ->
  is_Some (a_ArtifactBlock (Current job)) -> is_Some (a_RandomRound (Current job)) ->
  crossCheckInstruction instr job <> Panic p.
Proof.
  intros [a Ha] [b Hb] [a' Ha'] [b' Hb'] H. unfold crossCheckInstruction in H. rewrite Ha, Hb, Ha', Hb' in H.
  repeat first [ apply bind_Panic in H as [H|(? & ? & H)] | by apply fail_if_Panic in H ];
    by simpl in H.
Qed.

Section binding.
Context {GE : GoEthereum} {JC : JsonCodec} {W : Type} {EC : EthClient W} {ES : Escrow W} {NW : Network W}.

(** What [Verify] established before it ran the bundle. *)
Record verdict_context (v : Verifier) (c : ctx) (instructionId : bytes) (instr : WorkProofInstruction)
    (w : W) (job : Job) (rn : bigint) (now : Z) : Prop := {
  vc_chain : i_ChainId instr = Some (cfg_ChainID (cfg v)) /\ 0 <= cfg_ChainID (cfg v);
  vc_escrow : i_EscrowAddress instr = cfg_EscrowAddress (cfg v);
  vc_job : exists w', GetJob (i_JobId instr) w = (Ok job, w');
  vc_engine : i_EngineVersionHash instr = realEngineVersionHash;
  vc_matches : job_matches instr job;
  vc_deadline : now <= a_TimeoutAt (Current job) /\ now <= t_GraceEnds (Terms job);
  vc_id : instructionId = a_InstructionId (Current job);
  vc_codehash : exists code (s1 s2 : pins * W),
    CodeAt (Config.AttemptTotalTimeout :: c) (i_ArtifactAddress instr) (i_ArtifactBlock instr) s1 = (Ok code, s2) /\
    keccak256 code = i_ArtifactCodeHash instr;
  vc_random : exists s1 s2 : pins * W,
    FetchRandomNumber (Config.AttemptTotalTimeout :: c) (cfg_RandomNumberV2Addr (cfg v)) (i_RandomRound instr) s1
      = (Ok (rn, true), s2) /\
    keccak256AbiEncodedUint rn = Ok (i_RandomValueHash instr);
  vc_now : is_uint 64 now;
}.

Lemma Verify_ok v c instructionId instr p w verdict s' :
  Verify v c instructionId instr (p, w) = (Ok verdict, s') ->
  exists job rn now s, verdict_context v c instructionId instr w job rn now /\
    verdict_cause v (Config.AttemptTotalTimeout :: c) instr (verdictIdentityFrom instr instructionId)
      rn now s verdict.
Proof.
  unfold Verify, recomputeArtifactCodeHash, unix_now, WithTimeout. intros H. cbn zeta in H.
  destruct (chainIDMatches _ _) eqn:Hchain; simpl in H; [|go_inv].
  destruct (bne (i_EscrowAddress instr) _) eqn:Hesc; [go_inv|].
  destruct (bool_decide (i_JobId instr = None)); [go_inv|].
  destruct (bne (i_EngineVersionHash instr) _) eqn:Heng; [go_inv|].
  apply on_error_eq in H as [(job & s1 & Hjob & H)|[(e & s1 & Hjob & H)|(q & Hjob & H)]];
    [|unfold fail_wrap in H; go_inv|done].
  apply on_error_eq in H as [([] & s2 & Hx & H)|[(e & s2 & Hx & H)|(q & Hx & H)]];
    [|unfold fail_wrap in H; go_inv|done].
  apply M_bind_Ok in H as (now & s3 & Hnow & H).
  destruct (_ || _)%bool eqn:Hdead; [unfold fail in H; go_inv|].
  destruct (bne instructionId _) eqn:Hid; [unfold fail in H; go_inv|].
  apply on_error_eq in H as [(h & s4 & Hcode & H)|[(e & s4 & Hcode & H)|(q & Hcode & H)]];
    [|unfold fail_wrap in H; go_inv|done].
  apply M_bind_Ok in Hcode as (code & s5 & Hcode & Hh). apply mret_eq in Hh as [[= ->] ->].
  destruct (bne (keccak256 code) _) eqn:Hhash; [unfold fail in H; go_inv|].
  apply on_error_eq in H as [([rn secure] & s6 & Hrn & H)|[(e & s6 & Hrn & H)|(q & Hrn & H)]];
    [|unfold fail_wrap in H; go_inv|done].
  destruct secure; simpl in H; [|unfold fail in H; go_inv].
  apply M_bind_Ok in H as (rh & s7 & Hrh & H).
  destruct (bne rh _) eqn:Hr; [unfold fail in H; go_inv|].
  exists job, rn, now, s7. split; [|by eapply run_bundle_cause].
  apply bne_false in Hesc, Heng, Hid, Hhash, Hr. subst rh.
  apply lift_eq in Hx as [Hx _], Hrh as [Hrh _]. apply zoom_snd_eq in Hjob as (w' & Hjob & _).
  split; eauto 10.
  - unfold chainIDMatches in Hchain. destruct (i_ChainId instr); [|done]. to_prop. subst. auto.
  - by apply crossCheckInstruction_iff.
  - to_prop. lia.
  - do 3 eexists. split; [exact Hcode|done].
  - apply M_bind_Ok in Hnow as (t & s8 & _ & [[= ->] _]%mret_eq). by apply uint_is_uint.
Qed.

(** The acceptance check of such a verdict. *)
Lemma verdict_binding v c instructionId instr (w : W) job rn now s verdict id b :
  verdict_context v c instructionId instr w job rn now ->
  verdict_cause v (Config.AttemptTotalTimeout :: c) instr (verdictIdentityFrom instr instructionId) rn now s verdict ->
  i_JobId instr = Some id -> blk_chainid b = cfg_ChainID (cfg v) -> blk_this b = cfg_EscrowAddress (cfg v) ->
  checkBinding job verdict id b =
    (beq (blk_codehash b (a_ArtifactAddress (Current job))) (a_ArtifactCodeHash (Current job))
     && negb (beq (o_ReportHash (v_Result verdict)) zero_hash)
     && (a_DispatchedAt (Current job) <=? o_IssuedAt (v_Result verdict))
     && (o_IssuedAt (v_Result verdict) <=? blk_timestamp b))%bool.
Proof.
  intros [[Hc _] He _ Hen [] _ Hid _ _ _] Hcause Hjid Hbc Hbt.
  apply verdict_counts in Hcause as Hcounts.
  assert (Hr : exists oc pc ec h t, verdict = verdict_of instr (verdictIdentityFrom instr instructionId) oc pc ec h t)
    by (destruct Hcause; eauto 10).
  destruct Hr as (oc & pc & ec & h & t & ->).
  unfold checkBinding, checkIdentity, checkOutcomeBinding. rewrite Hcounts.
  unfold verdict_of, verdictIdentityFrom, beq, big_eq. cbn.
  rewrite Hc, Hbc, Hbt, <- He, Hjid, Hid, jm_spec0, jm_bundle0, jm_engine0, jm_expires0, jm_attempt0,
    jm_artifact0, jm_block0, jm_code0, jm_round0, jm_random0, Hen, !Z.eqb_refl.
  rewrite !(bool_decide_eq_true_2 (_ = _)) by done.
  repeat case_bool_decide; try done; simpl.
  destruct (Z.ltb_spec (blk_timestamp b) t), (Z.ltb_spec t (a_DispatchedAt (Current job))),
    (Z.leb_spec (a_DispatchedAt (Current job)) t), (Z.leb_spec t (blk_timestamp b)); simpl; done || lia.
Qed.
End binding.

(** ** Selected vectors of a verdict *)
Section outcomes.
Context {GE : GoEthereum} {JC : JsonCodec} {W : Type} {EC : EthClient W} {ES : Escrow W} {NW : Network W}.

(** The vectors of a bundle that a verdict executed. *)
Definition executed (c : ctx) (instr : WorkProofInstruction) (rn : bigint) (bundle : WorkProofBundle)
    (os : list VectorOutcome) : Prop :=
  exists seed selected,
    TestSeed rn (i_EscrowAddress instr) (i_JobId instr) (i_Attempt instr)
      (i_SpecHash instr) (i_ArtifactCodeHash instr) = Ok seed /\
    SelectVectors seed (llen (Vectors bundle)) (SelectionCount bundle) = Ok selected /\
    NoDup selected /\ llen selected = SelectionCount bundle /\
    Forall2 (ran (W := W) c instr bundle) selected os.

Lemma selected_nodup seed bundle selected :
  Validate bundle = Ok tt ->
  SelectVectors seed (llen (Vectors bundle)) (SelectionCount bundle) = Ok selected ->
  NoDup selected /\ llen selected = SelectionCount bundle /\ 1 <= llen selected <= 32.
Proof.
  intros Hv%Validate_iff_wf Hs. destruct Hv.
  destruct (SelectVectors_ok seed (llen (Vectors bundle)) (SelectionCount bundle))
    as (l & Hl & Hlen & Hnd & _); [lia..|].
  assert (l = selected) as -> by congruence. split_and!; [done|lia..].
Qed.

Lemma outcome_code_fail os :
  outcome_code os = OutcomeFail ->
  Forall (fun o => Skipped o = false) os /\ Exists (fun o => Passed o = false) os.
Proof.
  unfold outcome_code. destruct (existsb Skipped os) eqn:Es; [done|].
  destruct (forallb _ os) eqn:Ep; [done|]. intros _. split.
  - apply Forall_forall. intros o Ho. destruct (Skipped o) eqn:E; [|done].
    rewrite <- not_true_iff_false in Es. destruct Es. apply existsb_exists.
    exists o. split; [by apply list_elem_of_In|done].
  - clear Es. induction os as [|o os IH]; [done|]. simpl in Ep. apply andb_false_iff in Ep as [Ep|Ep].
    + left. by apply orb_false_iff in Ep as [_ ?].
    + right. by apply IH.
Qed.

Lemma verdict_of_inv instr identity oc pc ec rh t verdict :
  verdict_of instr identity oc pc ec rh t = verdict ->
  o_Outcome (v_Result verdict) = oc /\ o_PassedCount (v_Result verdict) = pc /\
  o_ExecutedCount (v_Result verdict) = ec.
Proof. by intros <-. Qed.

(** A verdict that is not inconclusive executed the committed bundle. *)
Lemma conclusive_executed v c instr identity rn now s verdict :
  verdict_cause v c instr identity rn now s verdict ->
  o_Outcome (v_Result verdict) <> OutcomeInconclusive ->
  exists bundle os, committed_bundle v c instr s bundle /\ executed c instr rn bundle os /\
    o_Outcome (v_Result verdict) = outcome_code os /\
    o_PassedCount (v_Result verdict) = passed os /\
    o_ExecutedCount (v_Result verdict) = SelectionCount bundle /\ llen os = SelectionCount bundle.
Proof.
  destruct 1 as [bundle seed selected os h Hb Hs Hsel Hran Hh|]; [|done]. intros _.
  destruct (selected_nodup seed bundle selected (cb_valid _ _ _ _ _ Hb) Hsel) as (Hnd & Hlen & Hb32).
  apply Forall2_length in Hran as Hlos.
  assert (Hn : llen os = SelectionCount bundle) by (unfold llen in *; lia).
  exists bundle, os. split_and!; try done.
  - exists seed, selected. auto.
  - apply countPassed_eq. lia.
  - cbn. rewrite uint_id by (unfold is_uint; lia). done.
Qed.
End outcomes.

(** ** Properties *)
Section properties.
  Context {GE : GoEthereum} {JC : JsonCodec} {W : Type} {EC : EthClient W} {ES : Escrow W} {NW : Network W}.

(** C1. Every verdict of [Verify], passed, failed or inconclusive, meets the
    escrow's acceptance check against the job [Verify] read: in a block of the
    configured chain and escrow, [_checkBinding] accepts exactly when the
    artifact's code hash is still the committed one, the report hash is not
    zero and the issue time lies between the dispatch and the block. *)
Theorem Verify_accepted_by_escrow v c instructionId instr p (w : W) verdict s' :
  Verify v c instructionId instr (p, w) = (Ok verdict, s') ->
  exists job w', GetJob (i_JobId instr) w = (Ok job, w') /\
    forall id b, i_JobId instr = Some id ->
      blk_chainid b = cfg_ChainID (cfg v) -> blk_this b = cfg_EscrowAddress (cfg v) ->
      checkBinding job verdict id b =
        (beq (blk_codehash b (a_ArtifactAddress (Current job))) (a_ArtifactCodeHash (Current job))
         && negb (beq (o_ReportHash (v_Result verdict)) zero_hash)
         && (a_DispatchedAt (Current job) <=? o_IssuedAt (v_Result verdict))
         && (o_IssuedAt (v_Result verdict) <=? blk_timestamp b))%bool.
Proof.
  intros (job & rn & now & s & Hctx & Hcause)%Verify_ok. destruct (vc_job _ _ _ _ _ _ _ _ Hctx) as [w' Hj].
  exists job, w'. split; [done|]. intros. by eapply verdict_binding.
Qed.

(** C6. A passed verdict is backed by evidence: the artifact's code at the
    committed block has the committed hash; the bundle was fetched,
    decrypted, is valid and hashes to the committed bundle and public spec;
    the selected vectors are [SelectionCount] distinct ones, drawn from the
    secure random number of the committed round; and for each of them the
    chain gave its passing answer. *)
Theorem Verify_pass_sound v c instructionId instr p (w : W) verdict s' :
  Verify v c instructionId instr (p, w) = (Ok verdict, s') ->
  o_Outcome (v_Result verdict) = OutcomePass ->
  exists job rn now s bundle seed selected,
    verdict_context v c instructionId instr w job rn now /\
    committed_bundle v (Config.AttemptTotalTimeout :: c) instr s bundle /\
    TestSeed rn (i_EscrowAddress instr) (i_JobId instr) (i_Attempt instr)
      (i_SpecHash instr) (i_ArtifactCodeHash instr) = Ok seed /\
    SelectVectors seed (llen (Vectors bundle)) (SelectionCount bundle) = Ok selected /\
    NoDup selected /\ llen selected = SelectionCount bundle /\
    o_PassedCount (v_Result verdict) = SelectionCount bundle /\
    o_ExecutedCount (v_Result verdict) = SelectionCount bundle /\
    Forall (fun idx => exists vec (s1 : pins * W), Vectors bundle !! Z.to_nat idx = Some vec /\
      pass_evidence (TimeoutMsPerCall bundle :: Config.AttemptTotalTimeout :: c) (i_ArtifactAddress instr)
        (i_ArtifactBlock instr) (GasLimitPerCall bundle) (MaxResponseBytes bundle) vec s1) selected.
Proof.
  intros (job & rn & now & s & Hctx & Hcause)%Verify_ok Hpass.
  destruct (conclusive_executed _ _ _ _ _ _ _ _ Hcause) as (bundle & os & Hb & Hex & Ho & Hp & He & Hlen);
    [by rewrite Hpass|].
  destruct Hex as (seed & selected & Hseed & Hsel & Hnd & Hslen & Hran).
  exists job, rn, now, s, bundle, seed, selected. rewrite Hpass in Ho. symmetry in Ho.
  assert (Hok : Forall (fun o => (Passed o && Skipped o)%bool = false) os).
  { eapply Forall2_Forall_r; [exact Hran|]. apply Forall_true. by intros x y (vec & ? & _ & [_ ?] & _). }
  apply outcome_code_pass in Ho as Hall; [|done]. apply passed_all in Hall as Hcount.
  split_and!; try done; [lia|].
  rewrite forallb_forall in Hall. eapply Forall2_Forall_l; [exact Hran|].
  apply Forall_forall. intros o Ho' idx (vec & s1 & Hv & _ & Hev). exists vec, s1. split; [done|].
  apply Hev, Hall. by apply list_elem_of_In.
Qed.

(** C7. A failed verdict is never an infrastructure error: it comes from a run
    of the committed bundle on the selected [SelectionCount] distinct vectors,
    drawn from the secure random number of the committed round, in which the
    chain answered every one of them. Each was counted as passed on the answer
    that it expects and as failed on another answer of its own kind - other
    bytes within the cap, no revert or a confirmed revert without the expected
    selector or pattern, the other boolean, a size outside the range, another
    word - and at least one failed. *)
Theorem Verify_fail_honest v c instructionId instr p (w : W) verdict s' :
  Verify v c instructionId instr (p, w) = (Ok verdict, s') ->
  o_Outcome (v_Result verdict) = OutcomeFail ->
  exists job rn now s bundle seed selected os,
    verdict_context v c instructionId instr w job rn now /\
    committed_bundle v (Config.AttemptTotalTimeout :: c) instr s bundle /\
    TestSeed rn (i_EscrowAddress instr) (i_JobId instr) (i_Attempt instr)
      (i_SpecHash instr) (i_ArtifactCodeHash instr) = Ok seed /\
    SelectVectors seed (llen (Vectors bundle)) (SelectionCount bundle) = Ok selected /\
    NoDup selected /\ llen selected = SelectionCount bundle /\
    Forall2 (fun idx o => exists vec (s1 : pins * W), Vectors bundle !! Z.to_nat idx = Some vec /\
      out_ID o = ID vec /\ Skipped o = false /\
      (if Passed o then pass_evidence else fail_evidence)
        (TimeoutMsPerCall bundle :: Config.AttemptTotalTimeout :: c) (i_ArtifactAddress instr)
        (i_ArtifactBlock instr) (GasLimitPerCall bundle) (MaxResponseBytes bundle) vec s1) selected os /\
    Exists (fun o => Passed o = false) os /\
    o_PassedCount (v_Result verdict) = passed os /\ o_ExecutedCount (v_Result verdict) = SelectionCount bundle.
Proof.
  intros (job & rn & now & s & Hctx & Hcause)%Verify_ok Hfail.
  destruct (conclusive_executed _ _ _ _ _ _ _ _ Hcause) as (bundle & os & Hb & Hex & Ho & Hp & He & Hlen);
    [by rewrite Hfail|].
  rewrite Hfail in Ho. symmetry in Ho. apply outcome_code_fail in Ho as [Hs Hx].
  destruct Hex as (seed & selected & Hseed & Hsel & Hnd & Hslen & Hran).
  exists job, rn, now, s, bundle, seed, selected, os. split_and!; try done.
  clear -Hran Hs. induction Hran as [|idx o selected os (vec & s1 & Hv & [Hid _] & [Hpe Hfe]) _ IH]; constructor.
  - exists vec, s1. apply Forall_cons in Hs as [Hs _]. destruct (Passed o); auto.
  - apply Forall_cons in Hs as [_ Hs]. by apply IH.
Qed.
End properties.

Lemma w_verify word :
  word = zero_hash \/ word = w_spec ->
  Verify (GE := ref_geth) w_verifier [] w_instruction_id w_instr (∅, w_world word)
  = (Ok (w_verdict word), (w_pins, w_world word)).
Proof. intros [->| ->]; vm_compute; reflexivity. Qed.

Theorem Verify_accepted_by_escrow_witness :
  exists job w', GetJob (i_JobId w_instr) (w_world zero_hash) = (Ok job, w') /\
    forall id b, i_JobId w_instr = Some id ->
      blk_chainid b = cfg_ChainID (cfg w_verifier) -> blk_this b = cfg_EscrowAddress (cfg w_verifier) ->
      checkBinding job (w_verdict zero_hash) id b =
        (beq (blk_codehash b (a_ArtifactAddress (Current job))) (a_ArtifactCodeHash (Current job))
         && negb (beq (o_ReportHash (v_Result (w_verdict zero_hash))) zero_hash)
         && (a_DispatchedAt (Current job) <=? o_IssuedAt (v_Result (w_verdict zero_hash)))
         && (o_IssuedAt (v_Result (w_verdict zero_hash)) <=? blk_timestamp b))%bool.
Proof.
  apply (Verify_accepted_by_escrow (GE := ref_geth) w_verifier [] w_instruction_id w_instr ∅
           (w_world zero_hash) (w_verdict zero_hash) (w_pins, w_world zero_hash)).
  apply w_verify. by left.
Defined.

Theorem Verify_pass_sound_witness :
  exists (job : Job) (rn : bigint) (now : Z) s bundle seed selected,
    verdict_context (GE := ref_geth) w_verifier [] w_instruction_id w_instr (w_world zero_hash) job rn now /\
    committed_bundle (GE := ref_geth) w_verifier [Config.AttemptTotalTimeout] w_instr s bundle /\
    TestSeed (GE := ref_geth) rn (i_EscrowAddress w_instr) (i_JobId w_instr) (i_Attempt w_instr)
      (i_SpecHash w_instr) (i_ArtifactCodeHash w_instr) = Ok seed /\
    SelectVectors (GE := ref_geth) seed (llen (Vectors bundle)) (SelectionCount bundle) = Ok selected /\
    NoDup selected /\ llen selected = SelectionCount bundle /\
    o_PassedCount (v_Result (w_verdict zero_hash)) = SelectionCount bundle /\
    o_ExecutedCount (v_Result (w_verdict zero_hash)) = SelectionCount bundle /\
    Forall (fun idx => exists vec (s1 : pins * ref_world), Vectors bundle !! Z.to_nat idx = Some vec /\
      pass_evidence (GE := ref_geth) [TimeoutMsPerCall bundle; Config.AttemptTotalTimeout]
        (i_ArtifactAddress w_instr) (i_ArtifactBlock w_instr) (GasLimitPerCall bundle)
        (MaxResponseBytes bundle) vec s1) selected.
Proof.
  apply (Verify_pass_sound (GE := ref_geth) w_verifier [] w_instruction_id w_instr ∅
           (w_world zero_hash) (w_verdict zero_hash) (w_pins, w_world zero_hash)).
  - apply w_verify. by left.
  - vm_compute. reflexivity.
Defined.

Theorem Verify_fail_honest_witness :
  exists (job : Job) (rn : bigint) (now : Z) s bundle seed selected os,
    verdict_context (GE := ref_geth) w_verifier [] w_instruction_id w_instr (w_world w_spec) job rn now /\
    committed_bundle (GE := ref_geth) w_verifier [Config.AttemptTotalTimeout] w_instr s bundle /\
    TestSeed (GE := ref_geth) rn (i_EscrowAddress w_instr) (i_JobId w_instr) (i_Attempt w_instr)
      (i_SpecHash w_instr) (i_ArtifactCodeHash w_instr) = Ok seed /\
    SelectVectors (GE := ref_geth) seed (llen (Vectors bundle)) (SelectionCount bundle) = Ok selected /\
    NoDup selected /\ llen selected = SelectionCount bundle /\
    Forall2 (fun idx o => exists vec (s1 : pins * ref_world), Vectors bundle !! Z.to_nat idx = Some vec /\
      out_ID o = ID vec /\ Skipped o = false /\
      (if Passed o then pass_evidence (GE := ref_geth) else fail_evidence (GE := ref_geth))
        [TimeoutMsPerCall bundle; Config.AttemptTotalTimeout] (i_ArtifactAddress w_instr)
        (i_ArtifactBlock w_instr) (GasLimitPerCall bundle) (MaxResponseBytes bundle) vec s1) selected os /\
    Exists (fun o => Passed o = false) os /\
    o_PassedCount (v_Result (w_verdict w_spec)) = passed os /\
    o_ExecutedCount (v_Result (w_verdict w_spec)) = SelectionCount bundle.
Proof.
  apply (Verify_fail_honest (GE := ref_geth) w_verifier [] w_instruction_id w_instr ∅
           (w_world w_spec) (w_verdict w_spec) (w_pins, w_world w_spec)).
  - apply w_verify. by right.
  - vm_compute. reflexivity.
Defined.
