(* ===== verification/Typing.v ===== *)
(** * Types of the instruction and the verdict

    The ABI types of the schemas as a typing relation on values, and the type
    of every verdict the verifier builds. *)

From S2P Require Import Prelude GoStd Config GoEth Reference Bundle Vectors NetStd Ciphertext Canonical WireTypes Verifier RefWorld Verdict.

(** A value of an ABI type: unsigned integers of the width, addresses of 20
    bytes, words of 32, structs field by field. *)
Inductive has_type : abi_component -> abi_value -> Prop :=
| ty_uint256 name x : is_uint 256 x -> has_type (Component name "uint256") (AbiBigInt (Some x))
| ty_uint8 name x : is_uint 8 x -> has_type (Component name "uint8") (AbiUint64 x)
| ty_uint32 name x : is_uint 32 x -> has_type (Component name "uint32") (AbiUint64 x)
| ty_uint64 name x : is_uint 64 x -> has_type (Component name "uint64") (AbiUint64 x)
| ty_address name a : length a = 20%nat -> has_type (Component name "address") (AbiAddress a)
| ty_bytes32 name h : length h = 32%nat -> has_type (Component name "bytes32") (AbiBytes32 h)
| ty_tuple name cs vs : Forall2 has_type cs vs -> has_type (TupleComponent name cs) (AbiTuple vs).
#[export] Hint Constructors has_type : core.

Lemma has_type_tuple_inv name cs v :
  has_type (TupleComponent name cs) v -> exists vs, v = AbiTuple vs /\ Forall2 has_type cs vs.
Proof. inversion 1. eauto. Qed.

(** The fields of an instruction whose value has the type of the schema. *)
Record instruction_typed (i : WorkProofInstruction) : Prop := {
  it_chain : has_type (Component "" "uint256") (AbiBigInt (i_ChainId i));
  it_escrow : length (i_EscrowAddress i) = 20%nat;
  it_job : has_type (Component "" "uint256") (AbiBigInt (i_JobId i));
  it_attempt : is_uint 64 (i_Attempt i);
  it_spec : length (i_SpecHash i) = 32%nat;
  it_bundle : length (i_PrivateBundleHash i) = 32%nat;
  it_cipher : length (i_CiphertextHash i) = 32%nat;
  it_artifact : length (i_ArtifactAddress i) = 20%nat;
  it_block : has_type (Component "" "uint256") (AbiBigInt (i_ArtifactBlock i));
  it_code : length (i_ArtifactCodeHash i) = 32%nat;
  it_round : has_type (Component "" "uint256") (AbiBigInt (i_RandomRound i));
  it_random : length (i_RandomValueHash i) = 32%nat;
  it_engine : length (i_EngineVersionHash i) = 32%nat;
  it_expires : is_uint 64 (i_ExpiresAt i);
}.

Lemma instruction_of_typed v i : has_type instructionTy v -> instruction_of v = Some i -> instruction_typed i.
Proof.
  intros (vs & -> & H)%has_type_tuple_inv Hi.
  repeat (apply Forall2_cons_inv_l in H as (? & ? & ? & H & ->)). apply Forall2_nil_inv_l in H as ->.
  repeat match goal with H : has_type (Component _ _) _ |- _ => inversion H; clear H; subst end.
  simpl in Hi. injection Hi as <-. constructor; simpl; auto.
Qed.

Lemma uint256_name name n : has_type (Component "" "uint256") (AbiBigInt n) -> has_type (Component name "uint256") (AbiBigInt n).
Proof. inversion 1. auto. Qed.
#[export] Hint Resolve uint256_name : core.

Section typing.
Context {GE : GoEthereum} {JC : JsonCodec}.

Lemma reportHashFor_length os h : reportHashFor os = Ok h -> length h = 32%nat.
Proof. unfold reportHashFor. intros (canonical & _ & [= <-])%bind_Ok. apply length_keccak256. Qed.

Lemma verdict_of_typed i iid oc pc ec h t :
  instruction_typed i -> length iid = 32%nat -> is_uint 8 oc -> is_uint 32 pc -> is_uint 32 ec -> length h = 32%nat ->
  is_uint 64 t -> has_type verdictTy (verdict_value (verdict_of i (verdictIdentityFrom i iid) oc pc ec h t)).
Proof.
  intros [] Hiid Hoc Hpc Hec Hh Ht. assert (length realEngineVersionHash = 32%nat) by apply length_keccak256.
  assert (is_uint 8 1) by done. unfold verdictTy, verdict_value, verdict_of. cbn.
  do 2 (repeat first [apply List.Forall2_nil | apply List.Forall2_cons | apply ty_tuple]);
    eauto.
Qed.

Lemma outcome_code_uint8 os : is_uint 8 (outcome_code os).
Proof. unfold outcome_code, is_uint. repeat case_match; done. Qed.

(** The type of a verdict. *)
Lemma verdict_typed {W} {EC : EthClient W} {ES : Escrow W} {NW : Network W} v c instructionId instr p (w : W) verdict s' :
  instruction_typed instr -> length instructionId = 32%nat ->
  Verify v c instructionId instr (p, w) = (Ok verdict, s') -> has_type verdictTy (verdict_value verdict).
Proof.
  intros Hit Hid (job & rn & now & s & Hctx & Hcause)%Verify_ok. pose proof (vc_now _ _ _ _ _ _ _ _ Hctx) as Hnow.
  destruct Hcause as [bundle seed selected os h _ _ _ _ Hh|detail h t s1 s2 Hh _];
    apply verdict_of_typed; try done; eauto using reportHashFor_length, outcome_code_uint8.
  - rewrite countPassed_uint32. by apply uint_is_uint.
  - by apply uint_is_uint.
  - by apply uint_is_uint.
Qed.
End typing.

(** C34. The verifier preserves types: for an instruction decoded from a value
    of the instruction schema and a 32-byte id, the value of every verdict has
    the type of the verdict schema: each integer fits its width, each address
    has 20 bytes and each hash 32. *)
Theorem Verify_type_soundness {GE : GoEthereum} {JC : JsonCodec} {W} {EC : EthClient W} {ES : Escrow W} {NW : Network W}
    v c instructionId value instr p (w : W) verdict s' :
  has_type instructionTy value -> instruction_of value = Some instr -> length instructionId = 32%nat ->
  Verify v c instructionId instr (p, w) = (Ok verdict, s') ->
  has_type verdictTy (verdict_value verdict).
Proof.
  intros Hty Hi Hid. apply verdict_typed; [|done]. by eapply instruction_of_typed.
Qed.

Definition w_instruction_value : abi_value := AbiTuple
  [AbiBigInt (i_ChainId w_instr); AbiAddress (i_EscrowAddress w_instr); AbiBigInt (i_JobId w_instr);
   AbiUint64 (i_Attempt w_instr); AbiBytes32 (i_SpecHash w_instr); AbiBytes32 (i_PrivateBundleHash w_instr);
   AbiBytes32 (i_CiphertextHash w_instr); AbiAddress (i_ArtifactAddress w_instr); AbiBigInt (i_ArtifactBlock w_instr);
   AbiBytes32 (i_ArtifactCodeHash w_instr); AbiBigInt (i_RandomRound w_instr); AbiBytes32 (i_RandomValueHash w_instr);
   AbiBytes32 (i_EngineVersionHash w_instr); AbiUint64 (i_ExpiresAt w_instr)].

Theorem Verify_type_soundness_witness : has_type verdictTy (verdict_value (w_verdict zero_hash)).
Proof.
  apply (Verify_type_soundness (GE := ref_geth) w_verifier [] w_instruction_id w_instruction_value w_instr ∅
           (w_world zero_hash) (w_verdict zero_hash) (w_pins, w_world zero_hash)).
  - apply ty_tuple. repeat first [apply List.Forall2_nil | apply List.Forall2_cons]; constructor; vm_compute; done.
  - reflexivity.
  - reflexivity.
  - apply w_verify. by left.
Defined.
