(* ===== verification/Extension.v ===== *)
(** * The extension server (go/internal/extension, go/pkg/types/types.go)

    Construction from the configuration, the two routes, the action routing
    and the three handlers, with the counters, the last texts and the log as
    explicit state. The node's types and codecs are operations of a class. *)

From S2P Require Import Prelude GoStd Config GoEth Bundle NetStd Ciphertext Encoding HttpMux Canonical WireTypes Verifier.

(** ** Types of the node and of the wire *)

(** [teetypes.Action] and [instruction.DataFixed], the fields the extension
    reads. *)
Record Action := mkAction {
  act_ID : bytes;
  act_SubmissionTag : string;
  act_Message : bytes;
}.

Record DataFixed := mkDataFixed {
  OPType : bytes;
  OPCommand : bytes;
  OriginalMessage : bytes;
}.

Record ActionResult := mkActionResult {
  ar_ID : bytes;
  ar_SubmissionTag : string;
  ar_Version : string;
  ar_OPType : bytes;
  ar_OPCommand : bytes;
  ar_Data : bytes;
  ar_Status : Z;
  ar_Log : string;
}.

Record SayHelloResponse := mkHelloResponse { Greeting : string; GreetingNumber : Z }.
Record SayGoodbyeRequest := mkGoodbyeRequest { gb_Name : string; gb_Reason : string }.
Record SayGoodbyeResponse := mkGoodbyeResponse { Farewell : string; FarewellNumber : Z }.

Definition SayGoodbyeMessageTy : abi_component :=
  TupleComponent EmptyString [Component "name" "string"; Component "reason" "string"].

(** [types.State]. *)
Record StateView := mkStateView {
  sv_GreetingCount : Z;
  sv_LastGreeting : string;
  sv_FarewellCount : Z;
  sv_LastFarewell : string;
  sv_WorkProofVerifierConfigured : bool;
}.

(** The node's helpers, and the JSON decoding of its types. A decoder reads a
    value from a body and leaves the rest of it. *)
Class TeeNode := {
  ToHash : string -> bytes;
  Hash_Hex : bytes -> string;
  Parse_DataFixed : bytes -> result DataFixed;
  Decode_SayHello : bytes -> result string;
  Decode_Action : bytes * option error -> result (Action * (bytes * option error));
  Marshal_ActionResult : ActionResult -> bytes;
  Unmarshal_ActionResult : bytes -> result ActionResult;
  ParseMediaType : string -> result string;
}.

Definition StatusMovedPermanently : Z := 301.
Definition StatusBadRequest : Z := 400.
Definition StatusNotFound : Z := 404.
Definition StatusMethodNotAllowed : Z := 405.
Definition StatusUnsupportedMediaType : Z := 415.
Definition StatusNotImplemented : Z := 501.

(** ** The extension *)

Inductive route := RouteState | RouteAction.

Record HttpServer := mkServer {
  srv_Addr : string;
  srv_Handler : list ((string * string) * route);
  srv_ReadHeaderTimeout : Z;
  srv_ReadTimeout : Z;
  srv_WriteTimeout : Z;
  srv_IdleTimeout : Z;
}.

(** The part of [Extension] fixed at construction. *)
Record Extension := mkExtension {
  Server : option HttpServer;
  workProofVerifier : option Verifier;
}.

(** Its mutable part, under the lock, and the lines logged. *)
Record ExtState := mkExtState {
  greetingCount : Z;
  lastGreeting : string;
  farewellCount : Z;
  lastFarewell : string;
  logs : list string;
}.

Definition initial_state : ExtState := mkExtState 0 "" 0 "" [].

Definition log_line (s : ExtState) (l : string) : ExtState :=
  mkExtState (greetingCount s) (lastGreeting s) (farewellCount s) (lastFarewell s) (logs s ++ [l]).
Definition set_greeting (n : Z) (g : string) (s : ExtState) : ExtState :=
  mkExtState n g (farewellCount s) (lastFarewell s) (logs s).
Definition set_farewell (n : Z) (g : string) (s : ExtState) : ExtState :=
  mkExtState (greetingCount s) (lastGreeting s) n g (logs s).

(** An HTTP answer. *)
Record Reply := mkReply { rep_Status : Z; rep_Body : string }.

(** [http.Error]. *)
Definition http_Error (msg : string) (code : Z) : Reply := mkReply code (msg +:+ String "010" EmptyString).

(** The request, as the router and the handlers read it: the path is the
    escaped one of its URL. *)
Record HttpRequest := mkRequest {
  rq_Method : string;
  rq_Path : string;
  rq_RawQuery : string;
  rq_ContentType : string;
  rq_Body : bytes;
  rq_Body_err : option error;
}.

(** [http.MaxBytesReader]. *)
Definition MaxBytesReader (body : bytes) (err : option error) (n : Z) : bytes * option error :=
  if n <? llen body then (take (Z.to_nat n) body, Some (Plain "http: request body too large")) else (body, err).

(** A decoder that has nothing but white space left returns io.EOF. *)
Definition at_EOF (rest : bytes * option error) : bool :=
  forallb (fun b => bool_decide (byte_val b ∈ [32; 9; 10; 13])) (fst rest)
  && match snd rest with None => true | Some _ => false end.

Section Extension.
  Context {GE : GoEthereum} {JC : JsonCodec} {TN : TeeNode}.
  Context {W : Type} {EC : EthClient W} {ES : Escrow W} {NW : Network W}.

(** ** Construction *)

Definition parseRequiredAddress (name raw : string) : result bytes :=
  fail_if (negb (IsHexAddress raw)) (Plain (name +:+ " must be a 20-byte hex address")) ;;
  let addr := HexToAddress raw in
  fail_if (bool_decide (addr = zero_address)) (Plain (name +:+ " must not be the zero address")) ;;
  Ok addr.

Definition not_initialized (err : error) : string := "workproof verifier not initialized: " +:+ Error err.

Definition new_server (extensionPort : Z) : HttpServer :=
  mkServer (":" +:+ pretty extensionPort) [(("GET", "/state"), RouteState); (("POST", "/action"), RouteAction)]
    Config.ServerReadHeaderTimeout Config.ServerReadTimeout Config.ServerWriteTimeout Config.ServerIdleTimeout.

(** [New]: an invalid address returns the extension before its server is
    set; the lines logged come with it. *)
Definition New (config : Config.vars) (extensionPort signPort : Z) : M W (Extension * list string) :=
  if nonempty (Config.WorkProofRPCURL config) && nonempty (Config.WorkProofEscrowAddress config) then
    escrowAddress <?- lift (parseRequiredAddress "WORKPROOF_ESCROW_ADDRESS" (Config.WorkProofEscrowAddress config))
      onerr err => mret (mkExtension None None, [not_initialized err]);
    randomNumberV2Addr <?- lift (parseRequiredAddress "WORKPROOF_RANDOM_NUMBER_V2_ADDRESS"
                                   (Config.WorkProofRandomNumberV2Addr config))
      onerr err => mret (mkExtension None None, [not_initialized err]);
    v <?- Verifier.New (mkCfg 114 (Config.WorkProofRPCURL config) escrowAddress randomNumberV2Addr signPort
                          (Config.WorkProofCiphertextHosts config))
      onerr err => mret (mkExtension (Some (new_server extensionPort)) None, [not_initialized err]);
    mret (mkExtension (Some (new_server extensionPort)) (Some v), [])
  else mret (mkExtension (Some (new_server extensionPort)) None, []).

(** ** Handlers *)

Definition buildResult (a : Action) (df : DataFixed) (data : bytes) (status : Z) (err : option error)
  : ActionResult :=
  mkActionResult (act_ID a) (act_SubmissionTag a) Config.Version (OPType df) (OPCommand df) data status
    (if status =? 0 then "error: " +:+ match err with Some e => Error e | None => "<nil>" end
     else if status =? 1 then "ok" else "pending").

Definition marshal_hello (r : SayHelloResponse) : string :=
  Json.json_object [("greeting", Json.json_string (Greeting r)); ("greetingNumber", Json.json_int (GreetingNumber r))].
Definition marshal_goodbye (r : SayGoodbyeResponse) : string :=
  Json.json_object [("farewell", Json.json_string (Farewell r)); ("farewellNumber", Json.json_int (FarewellNumber r))].

(** The state of a handler: the extension's, the fetcher's pins, the world. *)
Abbreviation H := (M (ExtState * (pins * W))).
Definition get_state : H ExtState := fun '(s, x) => (Ok s, (s, x)).
Definition modify (f : ExtState -> ExtState) : H unit := fun '(s, x) => (Ok tt, (f s, x)).

Definition processSayHello (action : Action) (df : DataFixed) : H ActionResult :=
  name <?- lift (Decode_SayHello (OriginalMessage df))
    onerr err => mret (buildResult action df [] 0 (Some (Wrap "decoding request: " err "")));
  if String.eqb name "" then mret (buildResult action df [] 0 (Some (Plain "name must not be empty"))) else
  s ← get_state;
  let greetingNumber := int64 (greetingCount s + 1) in
  let greeting := "Hello, " +:+ name +:+ "! Welcome to Flare Confidential Compute." in
  modify (set_greeting greetingNumber greeting) ;;
  let data := bytes_of_string (marshal_hello (mkHelloResponse greeting greetingNumber)) in
  mret (buildResult action df data 1 None).

Definition decode_goodbye (data : bytes) : result SayGoodbyeRequest :=
  value ← structs_DecodeTo SayGoodbyeMessageTy data;
  match value with
  | AbiTuple [AbiString name; AbiString reason] => Ok (mkGoodbyeRequest name reason)
  | _ => Err (Plain "unexpected tuple")
  end.

Definition processSayGoodbye (action : Action) (df : DataFixed) : H ActionResult :=
  req <?- lift (decode_goodbye (OriginalMessage df))
    onerr err => mret (buildResult action df [] 0 (Some (Wrap "decoding request: " err "")));
  if String.eqb (gb_Name req) "" then mret (buildResult action df [] 0 (Some (Plain "name must not be empty"))) else
  s ← get_state;
  let farewellNumber := int64 (farewellCount s + 1) in
  let farewell := "Goodbye, " +:+ gb_Name req +:+ "! Reason: " +:+ gb_Reason req in
  modify (set_farewell farewellNumber farewell) ;;
  let data := bytes_of_string (marshal_goodbye (mkGoodbyeResponse farewell farewellNumber)) in
  mret (buildResult action df data 1 None).

Definition processVerify (e : Extension) (action : Action) (df : DataFixed) : H ActionResult :=
  match workProofVerifier e with
  | None => mret (buildResult action df [] 0 (Some (Plain "workproof verifier not configured on this node")))
  | Some v =>
    instr <?- lift (decode_instruction (OriginalMessage df))
      onerr err => mret (buildResult action df [] 0 (Some (Wrap "decoding WorkProofInstruction: " err "")));
    verdict <?- zoom_snd (Verify v [] (act_ID action) instr)
      onerr err => mret (buildResult action df [] 0 (Some (Wrap "verify: " err "")));
    data <?- lift (encode_verdict verdict)
      onerr err => mret (buildResult action df [] 0 (Some (Wrap "encoding VerdictV1: " err "")));
    mret (buildResult action df data 1 None)
  end.

(** ** Routing *)

Definition named (s : string) : string := Hash_Hex (ToHash s) +:+ " (" +:+ s +:+ ")".

Definition processGreeting (action : Action) (df : DataFixed) : H (Z * string) :=
  if bool_decide (OPCommand df = ToHash Config.OPCommandSayHello) then
    ar ← processSayHello action df; mret (StatusOK, string_of_bytes (Marshal_ActionResult ar))
  else if bool_decide (OPCommand df = ToHash Config.OPCommandSayGoodbye) then
    ar ← processSayGoodbye action df; mret (StatusOK, string_of_bytes (Marshal_ActionResult ar))
  else mret (StatusNotImplemented,
    "unsupported op command: received " +:+ Hash_Hex (OPCommand df) +:+ ", expected one of [" +:+
    named Config.OPCommandSayHello +:+ ", " +:+ named Config.OPCommandSayGoodbye +:+ "]").

Definition processWorkProof (e : Extension) (action : Action) (df : DataFixed) : H (Z * string) :=
  if bool_decide (OPCommand df = ToHash Config.OPCommandVerify) then
    ar ← processVerify e action df; mret (StatusOK, string_of_bytes (Marshal_ActionResult ar))
  else mret (StatusNotImplemented,
    "unsupported op command: received " +:+ Hash_Hex (OPCommand df) +:+ ", expected " +:+
    named Config.OPCommandVerify).

Definition processAction (e : Extension) (action : Action) : H (Z * string) :=
  df <?- lift (Parse_DataFixed (act_Message action))
    onerr err => mret (StatusBadRequest, "decoding fixed data: " +:+ Error err);
  if bool_decide (OPType df = ToHash Config.OPTypeGreeting) then processGreeting action df
  else if bool_decide (OPType df = ToHash Config.OPTypeWorkProof) then processWorkProof e action df
  else mret (StatusNotImplemented,
    "unsupported op type: received " +:+ Hash_Hex (OPType df) +:+ ", expected " +:+
    named Config.OPTypeGreeting +:+ " or " +:+ named Config.OPTypeWorkProof).

Definition getLogFromBody (body : string) : string :=
  match Unmarshal_ActionResult (bytes_of_string body) with Ok ar => ar_Log ar | _ => body end.

(** The content type is absent or JSON. *)
Definition json_content (ct : string) : bool :=
  if nonempty ct then match ParseMediaType ct with Ok m => String.eqb m "application/json" | _ => false end
  else true.

Definition actionHandler (e : Extension) (r : HttpRequest) : H Reply :=
  if negb (json_content (rq_ContentType r))
  then mret (http_Error "Content-Type must be application/json" StatusUnsupportedMediaType) else
  let body := MaxBytesReader (rq_Body r) (rq_Body_err r) Config.MaxActionBodyBytes in
  ar <?- lift (Decode_Action body)
    onerr err => mret (http_Error ("decoding action: " +:+ Error err) StatusBadRequest);
  let '(action, rest) := ar in
  if negb (at_EOF rest) then mret (http_Error "decoding action: trailing JSON data" StatusBadRequest) else
  modify (fun s => log_line s ("received action, ID: " +:+ Hash_Hex (act_ID action))) ;;
  sb ← processAction e action;
  let '(status, body) := sb in
  modify (fun s => log_line s ("sending action result, ID: " +:+ Hash_Hex (act_ID action) +:+ ", status: " +:+
                               pretty status +:+ ", log: " +:+ getLogFromBody body)) ;;
  mret (mkReply status body).

Definition state_view (e : Extension) (s : ExtState) : StateView :=
  mkStateView (greetingCount s) (lastGreeting s) (farewellCount s) (lastFarewell s)
    (match workProofVerifier e with Some _ => true | None => false end).

(** [json.NewEncoder(w).Encode(StateResponse{...})]: the value and a newline. *)
Definition encode_state (v : StateView) : string :=
  Json.json_object
    [("stateVersion", Json.json_string (Hash_Hex (ToHash Config.Version)));
     ("state", Json.json_object
       [("greetingCount", Json.json_int (sv_GreetingCount v)); ("lastGreeting", Json.json_string (sv_LastGreeting v));
        ("farewellCount", Json.json_int (sv_FarewellCount v)); ("lastFarewell", Json.json_string (sv_LastFarewell v));
        ("workProofVerifierConfigured", Json.json_bool (sv_WorkProofVerifierConfigured v))])]
  +:+ String "010" EmptyString.

Definition stateHandler (e : Extension) (r : HttpRequest) : H Reply :=
  s ← get_state; mret (mkReply StatusOK (encode_state (state_view e s))).

(** [http.ServeMux] with the patterns of [New]: the path of a request that is
    no CONNECT is cleaned, and a path that was not clean is redirected to; a
    GET pattern also serves HEAD; a path with another method is 405, another
    path 404. *)
Definition method_matches (pattern method : string) : bool :=
  String.eqb pattern method || (String.eqb pattern "GET" && String.eqb method "HEAD").

Inductive mux_answer := MuxRoute (rt : route) | MuxMoved (path : string) | MuxMethodNotAllowed | MuxNotFound.

Definition find_route (s : HttpServer) (r : HttpRequest) : mux_answer :=
  let path := if String.eqb (rq_Method r) "CONNECT" then rq_Path r else cleanPath (rq_Path r) in
  if negb (String.eqb path (rq_Path r)) then MuxMoved path else
  match List.find (fun '((m, p), _) => pattern_matches p path && method_matches m (rq_Method r)) (srv_Handler s) with
  | Some (_, rt) => MuxRoute rt
  | None =>
    if existsb (fun '((_, p), _) => pattern_matches p path) (srv_Handler s) then MuxMethodNotAllowed else MuxNotFound
  end.

(** [http.Redirect] of the router: a GET has a body. *)
Definition moved (r : HttpRequest) (path : string) : Reply :=
  mkReply StatusMovedPermanently
    (if String.eqb (rq_Method r) "GET" then redirect_body (redirect_target path (rq_RawQuery r)) else "").

(** A request for [*] does not reach the patterns: the server answers OPTIONS,
    the router refuses the others. *)
Definition star_reply (r : HttpRequest) : Reply :=
  mkReply (if String.eqb (rq_Method r) "OPTIONS" then StatusOK else StatusBadRequest) "".

(** One request to the running server; the extension without a server panics
    when it is started ([ListenAndServe] on a nil pointer). *)
Definition serve (e : Extension) (r : HttpRequest) : H Reply :=
  match Server e with
  | None => lift (Panic "invalid memory address or nil pointer dereference")
  | Some s =>
    if String.eqb (rq_Path r) "*" then mret (star_reply r) else
    match find_route s r with
    | MuxRoute RouteState => stateHandler e r
    | MuxRoute RouteAction => actionHandler e r
    | MuxMoved path => mret (moved r path)
    | MuxMethodNotAllowed => mret (http_Error "Method Not Allowed" StatusMethodNotAllowed)
    | MuxNotFound => mret (http_Error "404 page not found" StatusNotFound)
    end
  end.
End Extension.
