(* ===== verification/Server.v ===== *)
(** * Correctness of the extension server

    The HTTP contract of docs/extension-contract.md sections 2 and 4, the
    counters as an abstract machine driven by the requests, what a VERIFY
    result means, and what [New] builds. *)

From S2P Require Import Prelude GoStd Config GoEth Reference Bundle NetStd Ciphertext Encoding HttpMux Canonical WireTypes Verifier RefWorld Escrow Verdict Extension.

Section Server.
  Context {GE : GoEthereum} {JC : JsonCodec} {TN : TeeNode}.
  Context {W : Type} {EC : EthClient W} {ES : Escrow W} {NW : Network W}.
  Implicit Types (s : ExtState) (x : pins * W) (r : HttpRequest) (df : DataFixed).

(** ** The contract's tables *)

(** The registered (op type, op command) pairs. *)
Definition routed df : bool :=
  bool_decide ((OPType df, OPCommand df) ∈
    [(ToHash Config.OPTypeGreeting, ToHash Config.OPCommandSayHello);
     (ToHash Config.OPTypeGreeting, ToHash Config.OPCommandSayGoodbye);
     (ToHash Config.OPTypeWorkProof, ToHash Config.OPCommandVerify)]).

(** The action of a well-formed request body. *)
Definition request_action r : option (Action * DataFixed) :=
  if negb (json_content (rq_ContentType r)) then None else
  match Decode_Action (MaxBytesReader (rq_Body r) (rq_Body_err r) Config.MaxActionBodyBytes) with
  | Ok (a, rest) =>
    if at_EOF rest then match Parse_DataFixed (act_Message a) with Ok df => Some (a, df) | _ => None end else None
  | _ => None
  end.

(** The request's path is one that the router leaves as it is and matches
    with [p]. *)
Definition names (p : string) r : bool :=
  negb (String.eqb (rq_Path r) "*") && (String.eqb (rq_Method r) "CONNECT" || String.eqb (cleanPath (rq_Path r)) (rq_Path r))
  && pattern_matches p (rq_Path r).

Definition tagged (name : string) : string := Hash_Hex (ToHash name) +:+ " (" +:+ name +:+ ")".

(** The text of a 501: which part of the pair is unknown, and what is known. *)
Definition unsupported df : string :=
  if bool_decide (OPType df = ToHash "GREETING") then
    "unsupported op command: received " +:+ Hash_Hex (OPCommand df) +:+ ", expected one of [" +:+ tagged "SAY_HELLO" +:+ ", " +:+
    tagged "SAY_GOODBYE" +:+ "]"
  else if bool_decide (OPType df = ToHash "WORKPROOF") then
    "unsupported op command: received " +:+ Hash_Hex (OPCommand df) +:+ ", expected " +:+ tagged "VERIFY"
  else "unsupported op type: received " +:+ Hash_Hex (OPType df) +:+ ", expected " +:+ tagged "GREETING" +:+ " or " +:+
    tagged "WORKPROOF".

(** The answer to a POST of /action, where the request alone decides it; [None]
    for a routed action. *)
Definition action_reply r : option Reply :=
  if negb (json_content (rq_ContentType r)) then Some (mkReply 415 ("Content-Type must be application/json" +:+ newline)) else
  match Decode_Action (MaxBytesReader (rq_Body r) (rq_Body_err r) Config.MaxActionBodyBytes) with
  | Err e => Some (mkReply 400 ("decoding action: " +:+ Error e +:+ newline))
  | Panic _ => None
  | Ok (a, rest) =>
    if at_EOF rest then
      match Parse_DataFixed (act_Message a) with
      | Err e => Some (mkReply 400 ("decoding fixed data: " +:+ Error e))
      | Panic _ => None
      | Ok df => if routed df then None else Some (mkReply 501 (unsupported df))
      end
    else Some (mkReply 400 ("decoding action: trailing JSON data" +:+ newline))
  end.

(** The state object of docs/extension-contract.md section 2, on a line. *)
Definition contract_state (e : Extension) s : string :=
  Json.json_object
    [("stateVersion", Json.json_string (Hash_Hex (ToHash Config.Version)));
     ("state", Json.json_object
       [("greetingCount", pretty (greetingCount s)); ("lastGreeting", Json.json_string (lastGreeting s));
        ("farewellCount", pretty (farewellCount s)); ("lastFarewell", Json.json_string (lastFarewell s));
        ("workProofVerifierConfigured", if workProofVerifier e then "true" else "false")])]
  +:+ newline.

(** The answer of the server, where the request and the state alone decide
    it. *)
Definition contract_reply (e : Extension) s r : option Reply :=
  if String.eqb (rq_Path r) "*" then Some (mkReply (if String.eqb (rq_Method r) "OPTIONS" then 200 else 400) "")
  else if negb (String.eqb (rq_Method r) "CONNECT") && negb (String.eqb (cleanPath (rq_Path r)) (rq_Path r)) then
    Some (mkReply 301 (if String.eqb (rq_Method r) "GET"
                       then redirect_body (redirect_target (cleanPath (rq_Path r)) (rq_RawQuery r)) else ""))
  else if names "/state" r then
    if String.eqb (rq_Method r) "GET" || String.eqb (rq_Method r) "HEAD" then Some (mkReply 200 (contract_state e s))
    else Some (mkReply 405 ("Method Not Allowed" +:+ newline))
  else if names "/action" r then
    if String.eqb (rq_Method r) "POST" then action_reply r else Some (mkReply 405 ("Method Not Allowed" +:+ newline))
  else Some (mkReply 404 ("404 page not found" +:+ newline)).

(** The action results a handler may return: the request's identity, and a
    log text that agrees with the status (section 4.6). *)
Record result_wf (a : Action) df (ar : ActionResult) : Prop := {
  rw_id : ar_ID ar = act_ID a;
  rw_tag : ar_SubmissionTag ar = act_SubmissionTag a;
  rw_version : ar_Version ar = Config.Version;
  rw_type : ar_OPType ar = OPType df;
  rw_command : ar_OPCommand ar = OPCommand df;
  rw_status : (ar_Status ar = 0 /\ ar_Data ar = [] /\ exists e, ar_Log ar = "error: " +:+ Error e) \/
              (ar_Status ar = 1 /\ ar_Log ar = "ok");
}.

Lemma buildResult_err a df e : result_wf a df (buildResult a df [] 0 (Some e)).
Proof. split; try done. left. eauto. Qed.
Lemma buildResult_ok a df d : result_wf a df (buildResult a df d 1 None).
Proof. split; try done. by right. Qed.
Local Hint Resolve buildResult_err buildResult_ok : core.

(** ** The handlers *)

(** The counters as an abstract machine. *)
Definition counters s : Z * string * Z * string := (greetingCount s, lastGreeting s, farewellCount s, lastFarewell s).

Inductive event := EvHello (name : string) | EvGoodbye (name reason : string).

Definition apply_event (c : Z * string * Z * string) (e : event) : Z * string * Z * string :=
  let '(n, g, m, f) := c in
  match e with
  | EvHello name => (int64 (n + 1), "Hello, " +:+ name +:+ "! Welcome to Flare Confidential Compute.", m, f)
  | EvGoodbye name reason => (n, g, int64 (m + 1), "Goodbye, " +:+ name +:+ "! Reason: " +:+ reason)
  end.

(** The event of a request: a well-formed greeting or farewell with a name. *)
Definition hello_event df : option event :=
  match Decode_SayHello (OriginalMessage df) with
  | Ok name => if String.eqb name "" then None else Some (EvHello name)
  | _ => None
  end.
Definition goodbye_event df : option event :=
  match decode_goodbye (OriginalMessage df) with
  | Ok q => if String.eqb (gb_Name q) "" then None else Some (EvGoodbye (gb_Name q) (gb_Reason q))
  | _ => None
  end.
Definition df_event df : option event :=
  if bool_decide (OPType df = ToHash Config.OPTypeGreeting) then
    if bool_decide (OPCommand df = ToHash Config.OPCommandSayHello) then hello_event df
    else if bool_decide (OPCommand df = ToHash Config.OPCommandSayGoodbye) then goodbye_event df
    else None
  else None.
Definition request_event r : option event :=
  if names "/action" r && String.eqb (rq_Method r) "POST" then
    match request_action r with Some (_, df) => df_event df | None => None end
  else None.

Definition step_counters (c : Z * string * Z * string) (o : option event) :=
  match o with Some e => apply_event c e | None => c end.

Lemma hello_spec a df s x res s' x' :
  processSayHello a df (s, x) = (res, (s', x')) ->
  x' = x /\ counters s' = step_counters (counters s) (hello_event df) /\
  (forall ar, res = Ok ar -> result_wf a df ar).
Proof.
  unfold processSayHello, hello_event, on_error, lift, mbind, M_bind, get_state, modify, mret, M_ret, counters.
  destruct (Decode_SayHello _) as [name|e|p]; [destruct (String.eqb name "")|..]; intros; simplify_eq/=;
    split_and!; try done; intros ar ?; simplify_eq; apply buildResult_err || apply buildResult_ok.
Qed.

Lemma goodbye_spec a df s x res s' x' :
  processSayGoodbye a df (s, x) = (res, (s', x')) ->
  x' = x /\ counters s' = step_counters (counters s) (goodbye_event df) /\
  (forall ar, res = Ok ar -> result_wf a df ar).
Proof.
  unfold processSayGoodbye, goodbye_event, on_error, lift, mbind, M_bind, get_state, modify, mret, M_ret, counters.
  destruct (decode_goodbye _) as [q|e|p]; [destruct (String.eqb (gb_Name q) "")|..]; intros; simplify_eq/=;
    split_and!; try done; intros ar ?; simplify_eq; apply buildResult_err || apply buildResult_ok.
Qed.

(** A VERIFY result: a verdict of [Verify] in its encoding, or a failure. *)
Definition verify_result (e : Extension) (a : Action) df x (ar : ActionResult) : Prop :=
  (ar_Status ar = 0 /\ ar_Data ar = [] /\
   forall v instr verdict x1 data, workProofVerifier e = Some v -> decode_instruction (OriginalMessage df) = Ok instr ->
     Verify v [] (act_ID a) instr x = (Ok verdict, x1) -> encode_verdict verdict <> Ok data) \/
  (exists v instr verdict x1, workProofVerifier e = Some v /\
     decode_instruction (OriginalMessage df) = Ok instr /\
     Verify v [] (act_ID a) instr x = (Ok verdict, x1) /\
     ar_Status ar = 1 /\ encode_verdict verdict = Ok (ar_Data ar)).

Lemma verify_spec e a df s x res s' x' :
  processVerify e a df (s, x) = (res, (s', x')) ->
  s' = s /\ (forall ar, res = Ok ar -> result_wf a df ar /\ verify_result e a df x ar).
Proof.
  unfold processVerify. destruct (workProofVerifier e) as [v|] eqn:Hv.
  2:{ intros [-> [= <- <-]]%mret_eq. split; [done|]. intros ar [= <-]. split; [apply buildResult_err|left; split_and!; [done..|congruence]]. }
  unfold on_error, lift. destruct (decode_instruction _) as [i|er|p] eqn:Hd.
  2:{ intros [-> [= <- <-]]%mret_eq. split; [done|]. intros ar [= <-]. split; [apply buildResult_err|left; split_and!; [done..|congruence]]. }
  2:{ by intros [= <- <- <-]. }
  unfold zoom_snd. destruct (Verify v [] (act_ID a) i x) as [[verdict|er|p] x1] eqn:Hver.
  2:{ intros [-> [= <- <-]]%mret_eq. split; [done|]. intros ar [= <-]. split; [apply buildResult_err|left; split_and!; [done..|congruence]]. }
  2:{ by intros [= <- <- <-]. }
  destruct (encode_verdict verdict) as [d|er|p] eqn:Henc.
  - intros [-> [= <- <-]]%mret_eq. split; [done|]. intros ar [= <-]. split; [apply buildResult_ok|].
    right. by exists v, i, verdict, x'.
  - intros [-> [= <- <-]]%mret_eq. split; [done|]. intros ar [= <-]. split; [apply buildResult_err|left; split_and!; [done..|congruence]].
  - by intros [= <- <- <-].
Qed.

(** What a routed action answers. *)
Definition routed_reply (e : Extension) (a : Action) df x (body : string) : Prop :=
  exists ar, body = string_of_bytes (Marshal_ActionResult ar) /\ result_wf a df ar /\
    (OPType df = ToHash Config.OPTypeWorkProof -> verify_result e a df x ar).

(** The two op types have different hashes: [ToHash] pads a text of at most
    32 bytes. *)
Context (types_distinct : ToHash Config.OPTypeGreeting <> ToHash Config.OPTypeWorkProof).

Lemma routed_spec df : routed df = true <->
  (OPType df = ToHash Config.OPTypeGreeting /\
   (OPCommand df = ToHash Config.OPCommandSayHello \/ OPCommand df = ToHash Config.OPCommandSayGoodbye)) \/
  (OPType df = ToHash Config.OPTypeWorkProof /\ OPCommand df = ToHash Config.OPCommandVerify).
Proof.
  unfold routed. rewrite bool_decide_eq_true, !elem_of_cons, elem_of_nil. split; [|intros [[-> [->| ->]]|[-> ->]]; auto].
  intros [[= -> ->]|[[= -> ->]|[[= -> ->]|[]]]]; auto.
Qed.

Lemma routed_false df : ~ (OPType df = ToHash Config.OPTypeGreeting /\
   (OPCommand df = ToHash Config.OPCommandSayHello \/ OPCommand df = ToHash Config.OPCommandSayGoodbye)) ->
  ~ (OPType df = ToHash Config.OPTypeWorkProof /\ OPCommand df = ToHash Config.OPCommandVerify) ->
  routed df = false.
Proof. intros. apply not_true_iff_false. rewrite routed_spec. tauto. Qed.

Lemma routed_call {A} (m : M (ExtState * (pins * W)) A) (k : A -> string) s x res st' :
  (ar ← m; mret (StatusOK, k ar)) (s, x) = (res, st') ->
  exists q : result A, m (s, x) = (q, st') /\
    forall st body, res = Ok (st, body) -> exists ar, q = Ok ar /\ st = 200 /\ body = k ar.
Proof.
  unfold mbind, M_bind, mret, M_ret. destruct (m (s, x)) as [[ar|e|p] y]; intros [= <- <-];
    eexists; (split; [done|]); [|done..]. intros st body [= <- <-]. eauto.
Qed.

Lemma processAction_spec e a df s x res s' x' :
  Parse_DataFixed (act_Message a) = Ok df ->
  processAction e a (s, x) = (res, (s', x')) ->
  counters s' = step_counters (counters s) (df_event df) /\
  (forall st body, res = Ok (st, body) ->
     if routed df then st = 200 /\ routed_reply e a df x body else st = 501 /\ body = unsupported df).
Proof.
  intros Hp. unfold processAction, on_error, lift, df_event. rewrite Hp.
  case_bool_decide as Ht; [|case_bool_decide as Ht2].
  - unfold processGreeting. case_bool_decide as H1; [|case_bool_decide as H2].
    + intros (r1 & Hh & Hres)%routed_call. apply hello_spec in Hh as (-> & Hc & Hw). split; [done|].
      intros st body Hr. destruct (Hres _ _ Hr) as (ar & -> & -> & ->).
      rewrite (proj2 (routed_spec df)) by auto. split; [done|]. exists ar.
      split_and!; [done|by apply Hw|congruence].
    + intros (r1 & Hh & Hres)%routed_call. apply goodbye_spec in Hh as (-> & Hc & Hw). split; [done|].
      intros st body Hr. destruct (Hres _ _ Hr) as (ar & -> & -> & ->).
      rewrite (proj2 (routed_spec df)) by auto. split; [done|]. exists ar.
      split_and!; [done|by apply Hw|congruence].
    + intros [-> [= <- <-]]%mret_eq. split; [done|]. intros st body [= <- <-].
      rewrite routed_false; [|intros [? [?|?]]; congruence|intros [? ?]; congruence].
      split; [done|]. unfold unsupported. by rewrite (bool_decide_true _ Ht).
  - unfold processWorkProof. case_bool_decide as H1.
    + intros (r1 & Hh & Hres)%routed_call. apply verify_spec in Hh as (-> & Hw). split; [done|].
      intros st body Hr. destruct (Hres _ _ Hr) as (ar & -> & -> & ->).
      rewrite (proj2 (routed_spec df)) by auto. split; [done|]. exists ar.
      destruct (Hw ar eq_refl). auto.
    + intros [-> [= <- <-]]%mret_eq. split; [done|]. intros st body [= <- <-].
      rewrite routed_false; [|intros [? [?|?]]; congruence|intros [? ?]; congruence].
      split; [done|]. unfold unsupported. by rewrite (bool_decide_false _ Ht), (bool_decide_true _ Ht2).
  - intros [-> [= <- <-]]%mret_eq. split; [done|]. intros st body [= <- <-].
    rewrite routed_false; [|intros [? [?|?]]; congruence|intros [? ?]; congruence].
    split; [done|]. unfold unsupported. by rewrite (bool_decide_false _ Ht), (bool_decide_false _ Ht2).
Qed.

Lemma counters_log s l : counters (log_line s l) = counters s.
Proof. done. Qed.

(** The answer to a routed action. *)
Definition routed_answer (e : Extension) r x (rep : Reply) : Prop :=
  exists a df, request_action r = Some (a, df) /\ routed df = true /\ rep_Status rep = 200 /\ routed_reply e a df x (rep_Body rep).

Definition answered (e : Extension) r x (expected : option Reply) (rep : Reply) : Prop :=
  match expected with Some rep' => rep = rep' | None => routed_answer e r x rep end.

Lemma actionHandler_spec e r s x res s' x' :
  actionHandler e r (s, x) = (res, (s', x')) ->
  counters s' = step_counters (counters s) (match request_action r with Some (_, df) => df_event df | None => None end) /\
  (forall rep, res = Ok rep -> answered e r x (action_reply r) rep).
Proof.
  unfold actionHandler, answered, action_reply, routed_answer, request_action.
  destruct (json_content (rq_ContentType r)); simpl; [|by intros [-> [= <- <-]]%mret_eq; naive_solver].
  unfold on_error at 1, lift at 1.
  destruct (Decode_Action _) as [[a rest]|er|p]; [| |by intros; simplify_eq].
  2:{ intros [-> [= <- <-]]%mret_eq. split; [done|]. intros rep [= <-]. unfold http_Error. by rewrite <- !append_assoc. }
  destruct (at_EOF rest); simpl; [|by intros [-> [= <- <-]]%mret_eq; naive_solver].
  unfold mbind, M_bind, modify at 1. intros H.
  destruct (processAction e a _) as [pr [s1 x1]] eqn:Hpa.
  destruct (Parse_DataFixed (act_Message a)) as [df|er|p] eqn:Hp.
  - eapply processAction_spec in Hpa as [Hc Hr]; [|done].
    rewrite counters_log in Hc. destruct pr as [[st body]|er|p]; unfold mret, M_ret, modify in H; simplify_eq;
      (split; [done|]); intros rep ?; simplify_eq.
    specialize (Hr _ _ eq_refl). destruct (routed df) eqn:Er; destruct Hr as [-> Hr]; [|by rewrite Hr].
    by exists a, df.
  - unfold processAction, on_error, lift, mret, M_ret in Hpa. rewrite Hp in Hpa. simplify_eq.
    unfold mret, M_ret, modify in H. simplify_eq. split; [done|]. intros rep [= <-]. done.
  - unfold processAction, on_error, lift in Hpa. rewrite Hp in Hpa. simplify_eq. split; [done|]. done.
Qed.

Lemma state_and_action path : pattern_matches "/state" path = true -> pattern_matches "/action" path = false.
Proof.
  unfold pattern_matches. destruct path as [|a path]; [done|]. destruct (IndexByte path "/"); [done|].
  intros H%String.eqb_eq. by rewrite <- H.
Qed.

Lemma find_route_spec port r :
  String.eqb (rq_Path r) "*" = false ->
  find_route (new_server port) r =
    if negb (String.eqb (rq_Method r) "CONNECT") && negb (String.eqb (cleanPath (rq_Path r)) (rq_Path r))
    then MuxMoved (cleanPath (rq_Path r))
    else if names "/state" r then
      if String.eqb (rq_Method r) "GET" || String.eqb (rq_Method r) "HEAD" then MuxRoute RouteState else MuxMethodNotAllowed
    else if names "/action" r then
      if String.eqb (rq_Method r) "POST" then MuxRoute RouteAction else MuxMethodNotAllowed
    else MuxNotFound.
Proof.
  intros Hstar. unfold find_route, names, method_matches. rewrite Hstar. cbn [List.find new_server srv_Handler existsb negb andb].
  rewrite (String.eqb_sym "GET" (rq_Method r)), (String.eqb_sym "POST" (rq_Method r)).
  change (String.eqb "POST" "GET") with false. change (String.eqb "GET" "GET") with true.
  assert (forall path, (if String.eqb path (rq_Path r) then true else false) = String.eqb path (rq_Path r)) as Hb by (intros; by case_match).
  destruct (String.eqb (rq_Method r) "CONNECT") eqn:Ec; cbn [negb andb orb].
  - rewrite String.eqb_refl. cbn [negb]. destruct (pattern_matches "/state" (rq_Path r)) eqn:Es.
    + rewrite (state_and_action _ Es). cbn [andb orb]. by destruct (_ || _)%bool.
    + cbn [andb orb]. destruct (pattern_matches "/action" (rq_Path r)); cbn [andb orb]; [|done]. rewrite orb_false_r.
      by destruct (String.eqb _ "POST").
  - destruct (String.eqb (cleanPath (rq_Path r)) (rq_Path r)) eqn:Ep; cbn [negb andb]; [|done].
    apply String.eqb_eq in Ep. rewrite Ep. destruct (pattern_matches "/state" (rq_Path r)) eqn:Es.
    + rewrite (state_and_action _ Es). cbn [andb orb]. by destruct (_ || _)%bool.
    + cbn [andb orb]. destruct (pattern_matches "/action" (rq_Path r)); cbn [andb orb]; [|done]. rewrite orb_false_r.
      by destruct (String.eqb _ "POST").
Qed.

Lemma state_text e s : encode_state (state_view e s) = contract_state e s.
Proof. unfold encode_state, contract_state, state_view, Json.json_bool. by destruct (workProofVerifier e). Qed.

Lemma stateHandler_spec e r s x res s' x' :
  stateHandler e r (s, x) = (res, (s', x')) -> s' = s /\ forall rep, res = Ok rep -> rep = mkReply 200 (contract_state e s).
Proof.
  unfold stateHandler, mbind, M_bind, get_state. intros [-> [= <- <-]]%mret_eq. split; [done|]. intros rep [= <-].
  f_equal. apply state_text.
Qed.

Lemma names_state_action r : names "/state" r = true -> names "/action" r = false.
Proof. unfold names. intros [-> H%state_and_action]%andb_true_iff. by rewrite H. Qed.

Lemma names_canonical p r : negb (String.eqb (rq_Method r) "CONNECT") && negb (String.eqb (cleanPath (rq_Path r)) (rq_Path r)) = true ->
  names p r = false.
Proof. unfold names. intros [->%negb_true_iff ->%negb_true_iff]%andb_true_iff. by rewrite andb_false_r. Qed.

Lemma serve_spec e port r s x res s' x' :
  Server e = Some (new_server port) ->
  serve e r (s, x) = (res, (s', x')) ->
  counters s' = step_counters (counters s) (request_event r) /\
  (forall rep, res = Ok rep -> answered e r x (contract_reply e s r) rep).
Proof.
  intros Hs. unfold serve, contract_reply, request_event. rewrite Hs.
  destruct (String.eqb (rq_Path r) "*") eqn:Hstar.
  { unfold names at 1. rewrite Hstar. intros [-> [= <- <-]]%mret_eq. split; [done|]. by intros rep [= <-]. }
  rewrite find_route_spec by done. destruct (_ && negb _)%bool eqn:Hcan.
  { rewrite (names_canonical _ _ Hcan). intros [-> [= <- <-]]%mret_eq. split; [done|]. by intros rep [= <-]. }
  destruct (names "/state" r) eqn:Hps.
  { rewrite (names_state_action _ Hps). destruct (_ || _)%bool.
    - intros [-> H]%stateHandler_spec. split; [done|]. intros rep Hr. by rewrite (H _ Hr).
    - intros [-> [= <- <-]]%mret_eq. split; [done|]. by intros rep [= <-]. }
  destruct (names "/action" r) eqn:Hpa.
  - destruct (String.eqb (rq_Method r) "POST"); cbn [andb]; [apply actionHandler_spec|].
    intros [-> [= <- <-]]%mret_eq. split; [done|]. by intros rep [= <-].
  - intros [-> [= <- <-]]%mret_eq. split; [done|]. by intros rep [= <-].
Qed.

(** A POST of a routed action to /action. *)
Lemma serve_routed e port r s x rep s' x' a df :
  Server e = Some (new_server port) -> serve e r (s, x) = (Ok rep, (s', x')) ->
  rq_Path r = "/action" -> rq_Method r = "POST" -> request_action r = Some (a, df) -> routed df = true ->
  routed_reply e a df x (rep_Body rep).
Proof.
  intros Hs H Hp Hm Ha Hr. apply (serve_spec e port) in H as [_ H]; [|done]. specialize (H rep eq_refl).
  unfold contract_reply, names in H. rewrite Hp, Hm in H.
  change (answered e r x (action_reply r) rep) in H. unfold action_reply in H. pose proof Ha as Ha'.
  unfold request_action in Ha.
  destruct (negb (json_content _)); [done|]. destruct (Decode_Action _) as [[a' rest]| |]; [|done..].
  destruct (at_EOF rest); [|done]. destruct (Parse_DataFixed _) as [df'| |] eqn:E; [|done..]. simplify_eq. rewrite Hr in H.
  destruct H as (a2 & df2 & Ha2 & _ & _ & Hrr). rewrite Ha' in Ha2. by simplify_eq.
Qed.

(** A sequence of requests: what a server under the lock executes. *)
Fixpoint serve_all (e : Extension) (rs : list HttpRequest) (st : ExtState * (pins * W)) : ExtState * (pins * W) :=
  match rs with
  | [] => st
  | r :: rs => serve_all e rs (snd (serve e r st))
  end.

Lemma serve_all_counters e port rs s x :
  Server e = Some (new_server port) ->
  counters (fst (serve_all e rs (s, x))) = foldl (fun c r => step_counters c (request_event r)) (counters s) rs.
Proof.
  intros Hs. revert s x. induction rs as [|r rs IH]; intros s x; [done|]. simpl.
  destruct (serve e r (s, x)) as [res [s1 x1]] eqn:H. simpl. rewrite IH.
  by apply (serve_spec _ port) in H as [-> _].
Qed.
(** Requests that are no greeting leave the counters. *)
Lemma replay_events rs c :
  foldl (fun c r => step_counters c (request_event r)) c rs = foldl apply_event c (omap request_event rs).
Proof. revert c. induction rs as [|r rs IH]; intros c; [done|]. simpl. rewrite IH. by destruct (request_event r). Qed.
End Server.

(** ** Construction *)
Section construction.
  Context {GE : GoEthereum} {W : Type} {ES : Escrow W}.

Definition valid_address (raw : string) : Prop := IsHexAddress raw = true /\ HexToAddress raw <> zero_address.

Lemma parseRequiredAddress_spec name raw :
  (valid_address raw /\ parseRequiredAddress name raw = Ok (HexToAddress raw)) \/
  (~ valid_address raw /\ exists e, parseRequiredAddress name raw = Err e).
Proof.
  unfold parseRequiredAddress, valid_address. destruct (IsHexAddress raw); simpl; [|right; split; [by intros []|eauto]].
  case_bool_decide; simpl; [right; split; [by intros []|eauto]|by left].
Qed.

Definition verifier_configured (c : Config.vars) : Prop :=
  Config.WorkProofRPCURL c <> "" /\ Config.WorkProofEscrowAddress c <> "".

(** The configuration that [New] turns into a verifier. *)
Definition verifier_cfg (c : Config.vars) (signPort : Z) : Cfg :=
  mkCfg 114 (Config.WorkProofRPCURL c) (HexToAddress (Config.WorkProofEscrowAddress c))
    (HexToAddress (Config.WorkProofRandomNumberV2Addr c)) signPort (Config.WorkProofCiphertextHosts c).

Lemma Verifier_New_ok c w v w' :
  Verifier.New c w = (Ok v, w') ->
  cfg v = c /\ decrypter v = Decrypt.NewNodeDecrypter (cfg_SignPort c) /\
  fetcher v = NewCiphertextFetcher (cfg_CiphertextHosts c).
Proof. unfold Verifier.New. intros H. by run_in H. Qed.

Lemma New_cases config ep sp (w : W) e logs w' :
  New config ep sp w = (Ok (e, logs), w') ->
  (verifier_configured config /\ ~ (valid_address (Config.WorkProofEscrowAddress config) /\
      valid_address (Config.WorkProofRandomNumberV2Addr config)) /\ Server e = None /\ workProofVerifier e = None) \/
  (~ verifier_configured config /\ Server e = Some (new_server ep) /\ workProofVerifier e = None) \/
  (verifier_configured config /\ valid_address (Config.WorkProofEscrowAddress config) /\
   valid_address (Config.WorkProofRandomNumberV2Addr config) /\ Server e = Some (new_server ep) /\
   forall v, workProofVerifier e = Some v -> cfg v = verifier_cfg config sp).
Proof.
  unfold New, verifier_configured. intros H.
  destruct (nonempty (Config.WorkProofRPCURL config)) eqn:Hr; simpl in H;
    [apply nonempty_true in Hr|apply nonempty_false in Hr; go_inv; right; left; naive_solver].
  destruct (nonempty (Config.WorkProofEscrowAddress config)) eqn:Hesc;
    [apply nonempty_true in Hesc|apply nonempty_false in Hesc; go_inv; right; left; naive_solver].
  destruct (parseRequiredAddress_spec "WORKPROOF_ESCROW_ADDRESS" (Config.WorkProofEscrowAddress config))
    as [[Hv He]|[Hv [er He]]]; rewrite He in H; unfold on_error at 1, lift at 1 in H; [|go_inv; left; naive_solver].
  destruct (parseRequiredAddress_spec "WORKPROOF_RANDOM_NUMBER_V2_ADDRESS" (Config.WorkProofRandomNumberV2Addr config))
    as [[Hv2 He2]|[Hv2 [er He2]]]; rewrite He2 in H; unfold on_error at 1, lift at 1 in H; [|go_inv; left; naive_solver].
  right. right. apply on_error_eq in H as [(v & w1 & Hnew & H)|[(er & w1 & Hnew & H)|(q & Hnew & H)]]; [| |done].
  - apply Verifier_New_ok in Hnew as (Hc & _). go_inv. split_and!; try done. intros v' [= <-]. done.
  - go_inv. split_and!; done.
Qed.
End construction.

(** ** A concrete node, for witnesses: an action is its ID, then the op type,
    the op command and the message. *)
#[export] Instance ref_node : TeeNode := {|
  ToHash s := copy_to 32 (bytes_of_string s);
  Hash_Hex h := "0x" +:+ hex_encode h;
  Parse_DataFixed l :=
    if (length l <? 64)%nat then Err (Plain "unexpected end of JSON input")
    else Ok (mkDataFixed (take 32 l) (take 32 (drop 32 l)) (drop 64 l));
  Decode_SayHello l := Ok (string_of_bytes l);
  Decode_Action b :=
    match snd b with
    | Some e => Err e
    | None => Ok (mkAction (take 32 (fst b)) "threshold" (drop 32 (fst b)), ([], None))
    end;
  Marshal_ActionResult ar := byte_of_Z (ar_Status ar) :: ar_ID ar ++ ar_Data ar;
  Unmarshal_ActionResult _ := Err (Plain "invalid character");
  ParseMediaType s := Ok (ToLower s);
|}.

Definition w_request (opType opCommand : string) (message : bytes) : HttpRequest :=
  mkRequest "POST" "/action" "" "application/json"
    (w_instruction_id ++ ToHash opType ++ ToHash opCommand ++ message) None.

Definition w_extension : Extension := mkExtension (Some (new_server 8080)) (Some w_verifier).

Definition w_instruction_bytes : bytes :=
  Eval vm_compute in match structs_Encode (GoEthereum := ref_geth) instructionTy
    (AbiTuple [AbiBigInt (i_ChainId w_instr); AbiAddress (i_EscrowAddress w_instr); AbiBigInt (i_JobId w_instr);
       AbiUint64 (i_Attempt w_instr); AbiBytes32 (i_SpecHash w_instr); AbiBytes32 (i_PrivateBundleHash w_instr);
       AbiBytes32 (i_CiphertextHash w_instr); AbiAddress (i_ArtifactAddress w_instr);
       AbiBigInt (i_ArtifactBlock w_instr); AbiBytes32 (i_ArtifactCodeHash w_instr);
       AbiBigInt (i_RandomRound w_instr); AbiBytes32 (i_RandomValueHash w_instr);
       AbiBytes32 (i_EngineVersionHash w_instr); AbiUint64 (i_ExpiresAt w_instr)]) with
  | Ok l => l | _ => [] end.

Lemma w_types_distinct : ToHash Config.OPTypeGreeting <> ToHash Config.OPTypeWorkProof.
Proof. intros H. by vm_compute in H. Qed.

(** ** Properties *)


Definition w_hello : HttpRequest :=
  w_request Config.OPTypeGreeting Config.OPCommandSayHello (bytes_of_string "Alice").

Definition w_hello_reply : Reply :=
  Eval vm_compute in match serve (GE := ref_geth) w_extension w_hello (initial_state, (∅, w_world zero_hash)) with
                     | (Ok r, _) => r | _ => mkReply 0 "" end.

Definition w_unknown : HttpRequest := w_request Config.OPTypeGreeting "WAVE" [].
Definition w_run (r : HttpRequest) := serve (GE := ref_geth) w_extension r (initial_state, (∅, w_world zero_hash)).
Definition w_unknown_reply : Reply :=
  Eval vm_compute in match w_run w_unknown with (Ok r, _) => r | _ => mkReply 0 "" end.


(** C16. A VERIFY request is answered with status 1 only with the encoding of
    a verdict that [Verify] reached on the decoded instruction, under the
    result's own ID as instruction ID; every other VERIFY answer has status 0
    and carries no data, so it cannot settle anything. *)
Theorem verify_reply_sound {GE : GoEthereum} {JC : JsonCodec} {TN : TeeNode} {W} {EC : EthClient W} {ES : Escrow W}
    {NW : Network W} e port r s (x : pins * W) rep st' a df :
  ToHash Config.OPTypeGreeting <> ToHash Config.OPTypeWorkProof ->
  Server e = Some (new_server port) ->
  serve e r (s, x) = (Ok rep, st') ->
  rq_Path r = "/action" -> rq_Method r = "POST" -> request_action r = Some (a, df) ->
  OPType df = ToHash Config.OPTypeWorkProof -> OPCommand df = ToHash Config.OPCommandVerify ->
  exists ar, rep_Body rep = string_of_bytes (Marshal_ActionResult ar) /\ ar_ID ar = act_ID a /\
    ((ar_Status ar = 0 /\ ar_Data ar = []) \/
     exists v instr verdict x1, workProofVerifier e = Some v /\
       decode_instruction (OriginalMessage df) = Ok instr /\
       Verify v [] (ar_ID ar) instr x = (Ok verdict, x1) /\
       ar_Status ar = 1 /\ encode_verdict verdict = Ok (ar_Data ar) /\
       id_InstructionId (v_Id verdict) = ar_ID ar).
Proof.
  intros Hd Hs H Hp Hm Ha Ht Hc. destruct st' as [s' x'].
  destruct (serve_routed Hd _ _ _ _ _ _ _ _ _ _ Hs H Hp Hm Ha) as (ar & Hb & Hw & Hv); [apply routed_spec; auto|].
  exists ar. split; [done|]. pose proof (rw_id _ _ _ Hw) as Hid. split; [done|].
  destruct (Hv Ht) as [(H0 & H1 & _)|(v & instr & verdict & x1 & Hcfg & Hdec & Hver & Hst & Henc)]; [by left|].
  right. exists v, instr, verdict, x1. rewrite Hid. split_and!; try done.
  destruct x as [p w]. apply Verify_ok in Hver as (job & rn & now & s1 & _ & Hcause). by destruct Hcause.
Qed.

Definition w_verify_request : HttpRequest :=
  w_request Config.OPTypeWorkProof Config.OPCommandVerify w_instruction_bytes.
Definition w_verify_run : result Reply * (ExtState * (pins * ref_world)) :=
  serve (GE := ref_geth) w_extension w_verify_request (initial_state, (∅, w_world zero_hash)).
Definition w_verify_reply : Reply :=
  Eval vm_compute in match w_verify_run with (Ok r, _) => r | _ => mkReply 0 "" end.

Theorem verify_reply_sound_witness :
  exists ar, rep_Body w_verify_reply = string_of_bytes (Marshal_ActionResult ar) /\
    ar_ID ar = w_instruction_id /\
    ((ar_Status ar = 0 /\ ar_Data ar = []) \/
     exists v instr verdict x1, workProofVerifier w_extension = Some v /\
       decode_instruction (GE := ref_geth) w_instruction_bytes = Ok instr /\
       Verify (GE := ref_geth) v [] (ar_ID ar) instr (∅, w_world zero_hash) = (Ok verdict, x1) /\
       ar_Status ar = 1 /\ encode_verdict (GE := ref_geth) verdict = Ok (ar_Data ar) /\
       id_InstructionId (v_Id verdict) = ar_ID ar).
Proof.
  apply (verify_reply_sound (GE := ref_geth) w_extension 8080 w_verify_request initial_state (∅, w_world zero_hash)
           w_verify_reply (snd w_verify_run)
           (mkAction w_instruction_id "threshold" (drop 32 (rq_Body w_verify_request)))
           (mkDataFixed (ToHash Config.OPTypeWorkProof) (ToHash Config.OPCommandVerify) w_instruction_bytes));
    [apply w_types_distinct|vm_compute; reflexivity..].
Defined.

(** The counters are an abstract machine driven by the requests alone:
    after any sequence of requests, whatever else they do, the greeting and
    farewell counts and texts are those of replaying the well-formed greeting
    and farewell requests in order. *)
Theorem counters_replay {GE : GoEthereum} {JC : JsonCodec} {TN : TeeNode} {W} {EC : EthClient W} {ES : Escrow W}
    {NW : Network W} e port rs s (x : pins * W) :
  ToHash Config.OPTypeGreeting <> ToHash Config.OPTypeWorkProof ->
  Server e = Some (new_server port) ->
  counters (fst (serve_all e rs (s, x))) = foldl apply_event (counters s) (omap request_event rs).
Proof.
  intros Hd Hs. rewrite (serve_all_counters Hd e port) by done. apply replay_events.
Qed.

Theorem counters_replay_witness :
  counters (fst (serve_all (GE := ref_geth) w_extension [w_hello; w_verify_request; w_hello]
                   (initial_state, (∅, w_world zero_hash))))
  = foldl apply_event (counters initial_state)
      (omap (request_event (GE := ref_geth)) [w_hello; w_verify_request; w_hello]).
Proof.
  apply (counters_replay (GE := ref_geth) w_extension 8080 [w_hello; w_verify_request; w_hello] initial_state
           (∅, w_world zero_hash)); [apply w_types_distinct|reflexivity].
Defined.

(** What [New] builds: an extension without a verifier when the RPC URL or
    the escrow address is not configured, one with the verifier of the
    configured addresses when both addresses are valid; but when an address
    is invalid it returns an extension without a server, so that starting it
    panics on every request instead of serving with no verifier. *)
Theorem New_invalid_address_no_server {GE : GoEthereum} {JC : JsonCodec} {TN : TeeNode} {W} {EC : EthClient W}
    {ES : Escrow W} {NW : Network W} config ep sp (w : W) e logs w' :
  New config ep sp w = (Ok (e, logs), w') ->
  (Server e = None <-> verifier_configured config /\
     ~ (valid_address (Config.WorkProofEscrowAddress config) /\
        valid_address (Config.WorkProofRandomNumberV2Addr config))) /\
  (Server e = None -> forall r (st : ExtState * (pins * W)), exists p, serve e r st = (Panic p, st)) /\
  (Server e <> None -> Server e = Some (new_server ep)) /\
  (forall v, workProofVerifier e = Some v -> Server e <> None /\ cfg v = verifier_cfg config sp).
Proof.
  intros H%New_cases. split_and!.
  - destruct H as [H|[H|H]]; [tauto| |]; destruct H as (? & H2); split; [|tauto| |tauto]; intros Hn;
      destruct H2 as (? & H2); try (destruct H2 as (? & H2)); congruence || (destruct H2; congruence).
  - intros Hn r st. eexists. unfold serve. by rewrite Hn.
  - destruct H as [(_ & _ & H & _)|[(_ & H & _)|(_ & _ & _ & H & _)]]; congruence.
  - intros v Hv. destruct H as [(_ & _ & _ & H)|[(_ & _ & H)|(_ & _ & _ & H & Hc)]]; [congruence..|].
    split; [congruence|auto].
Qed.

Definition w_bad_config : Config.vars :=
  Config.mkVars 8080 9090 "http://rpc" "0x1234" "" ["gateway.example"].

Theorem New_invalid_address_no_server_witness :
  let e := mkExtension None None in
  (Server e = None <-> verifier_configured w_bad_config /\
     ~ (valid_address (GE := ref_geth) (Config.WorkProofEscrowAddress w_bad_config) /\
        valid_address (GE := ref_geth) (Config.WorkProofRandomNumberV2Addr w_bad_config))) /\
  (Server e = None -> forall r (st : ExtState * (pins * ref_world)),
     exists p, serve (GE := ref_geth) e r st = (Panic p, st)) /\
  (Server e <> None -> Server e = Some (new_server 8080)) /\
  (forall v, workProofVerifier e = Some v -> Server e <> None /\ cfg v = verifier_cfg (GE := ref_geth) w_bad_config 9090).
Proof.
  apply (New_invalid_address_no_server (GE := ref_geth) w_bad_config 8080 9090 (w_world zero_hash)
           (mkExtension None None)
           ["workproof verifier not initialized: WORKPROOF_ESCROW_ADDRESS must be a 20-byte hex address"]
           (w_world zero_hash)).
  vm_compute. reflexivity.
Defined.

(** The ports of an empty environment, and the diagnostic of an unknown op
    command. *)
Example default_ports :
  let c := Config.init (fun _ => "") in (Config.ExtensionPort c, Config.SignPort c) = (8080, 9090).
Proof. reflexivity. Qed.

Example unknown_command_body :
  match serve (GE := ref_geth) w_extension (w_request Config.OPTypeGreeting "WAVE" [])
          (initial_state, (∅, w_world zero_hash)) with
  | (Ok rep, _) => rep_Status rep = 501 /\ Contains (rep_Body rep) "unsupported op type" = false
  | _ => False
  end.
Proof. vm_compute. auto. Qed.
