(* ===== verification/Simulation.v ===== *)
(** * The escrow model (go/internal/workproof/simulation.go)

    The job's state machine and its ledger, with the invariants of every
    reachable state, and the round function. *)

From S2P Require Import Prelude GoStd.

Module Simulation.

Inductive State := Created | Accepted | AwaitingResubmission | Retryable | Paid | Cancelled | Refunded.

#[export] Instance State_eq_dec : EqDecision State.
Proof. solve_decision. Defined.

(** [Outcome], a uint8. *)
Definition Pass : Z := 1.
Definition Fail : Z := 2.
Definition Inconclusive : Z := 3.

Record Verdict := mkVerdict {
  v_Escrow : string; v_JobID : string; v_InstructionID : string;
  v_Attempt : Z;
  v_Outcome : Z;
  v_Passed : Z; v_Executed : Z;
  v_IssuedAt : Z; v_ExpiresAt : Z;
  v_TEEID : string;
}.

(** A job made by [NewJob] has big integers that are not nil. *)
Record Job := mkJob {
  j_Client : string; j_Contractor : string; j_ExpectedTEE : string;
  j_Principal : Z; j_Fee : Z;
  j_State : State;
  j_Attempt : Z;
  j_SubmitBy : Z; j_GraceEnds : Z;
  j_Settled : bool;
}.

Record Ledger := mkLedger { l_Client : Z; l_Contractor : Z; l_Treasury : Z }.

Definition set_State (s : State) (j : Job) : Job :=
  mkJob (j_Client j) (j_Contractor j) (j_ExpectedTEE j) (j_Principal j) (j_Fee j) s (j_Attempt j)
    (j_SubmitBy j) (j_GraceEnds j) (j_Settled j).
Definition set_Settled (s : State) (j : Job) : Job :=
  mkJob (j_Client j) (j_Contractor j) (j_ExpectedTEE j) (j_Principal j) (j_Fee j) s (j_Attempt j)
    (j_SubmitBy j) (j_GraceEnds j) true.
Definition set_Attempt (n : Z) (j : Job) : Job :=
  mkJob (j_Client j) (j_Contractor j) (j_ExpectedTEE j) (j_Principal j) (j_Fee j) (j_State j) n
    (j_SubmitBy j) (j_GraceEnds j) (j_Settled j).

Definition NewJob (client contractor tee : string) (principal fee : bigint) (submitBy graceEnds : Z)
  : result (Job * Ledger) :=
  match principal, fee with
  | Some p, Some f =>
    Ok (mkJob client contractor tee p f Created 0 submitBy graceEnds false, mkLedger 0 0 0)
  | _, _ => Panic "nil pointer dereference"
  end.

(** ** Operations: the job and the ledger are the state *)
Abbreviation Op := (M (Job * Ledger) unit).

Definition reject (msg : string) : Op := lift (Err (Plain msg)).

Definition Accept : Op := fun '(j, l) =>
  if bool_decide (j_State j <> Created) then reject "job is not awaiting acceptance" (j, l) else
  (Ok tt, (set_State Accepted j, l)).

Definition Submit (now : Z) : Op := fun '(j, l) =>
  if bool_decide (j_State j <> Accepted) && bool_decide (j_State j <> AwaitingResubmission)
     && bool_decide (j_State j <> Retryable) then reject "job is not submit-ready" (j, l) else
  if j_SubmitBy j <? now then reject "submission deadline passed" (j, l) else
  (Ok tt, (set_Attempt (uint64 (j_Attempt j + 1)) j, l)).

Definition Settle (now : Z) (v : Verdict) : Op := fun '(j, l) =>
  if j_Settled j then reject "job already settled" (j, l) else
  if v_Outcome v =? Pass then
    if negb (String.eqb (v_TEEID v) (j_ExpectedTEE j)) then reject "unexpected TEE" (j, l) else
    if negb (v_Attempt v =? j_Attempt j) then reject "stale attempt" (j, l) else
    if v_ExpiresAt v <? now then reject "verdict expired" (j, l) else
    (Ok tt, (set_Settled Paid j,
             mkLedger (l_Client l) (l_Contractor l + j_Principal j) (l_Treasury l + j_Fee j)))
  else if v_Outcome v =? Fail then (Ok tt, (set_State AwaitingResubmission j, l))
  else if v_Outcome v =? Inconclusive then (Ok tt, (set_State Retryable j, l))
  else reject ("unknown outcome " +:+ pretty (v_Outcome v)) (j, l).

Definition Cancel (now : Z) : Op := fun '(j, l) =>
  if bool_decide (j_State j <> Created) || (j_SubmitBy j <? now)
  then reject "cannot cancel after acceptance/deadline" (j, l) else
  (Ok tt, (set_Settled Cancelled j,
           mkLedger (l_Client l + (j_Principal j + j_Fee j)) (l_Contractor l) (l_Treasury l))).

Definition Refund (now : Z) : Op := fun '(j, l) =>
  if j_Settled j || (now <=? j_GraceEnds j) then reject "refund not available" (j, l) else
  (Ok tt, (set_Settled Refunded j,
           mkLedger (l_Client l + (j_Principal j + j_Fee j)) (l_Contractor l) (l_Treasury l))).

Definition round_multiplier : Z := 0x9e3779b97f4a7c15.
Definition DeterministicRound (seed futureRound : Z) : Z :=
  Z.lxor seed (uint64 (futureRound * round_multiplier)).

(** ** The state machine *)

Inductive call := CallAccept | CallSubmit (now : Z) | CallSettle (now : Z) (v : Verdict)
  | CallCancel (now : Z) | CallRefund (now : Z).

Definition exec (c : call) : Op :=
  match c with
  | CallAccept => Accept
  | CallSubmit now => Submit now
  | CallSettle now v => Settle now v
  | CallCancel now => Cancel now
  | CallRefund now => Refund now
  end.

(** A call, accepted or rejected, moves from a state to the next one. *)
Inductive step : Job * Ledger -> call -> Job * Ledger -> Prop :=
| step_call c st r st' : exec c st = (r, st') -> step st c st'.

Inductive reachable (st0 : Job * Ledger) : Job * Ledger -> Prop :=
| reachable_refl : reachable st0 st0
| reachable_step st c st' : reachable st0 st -> step st c st' -> reachable st0 st'.

(** The ledger is determined by the job's state, and every terminal state is
    settled. *)
Definition ledger_of (j : Job) : Ledger :=
  match j_State j with
  | Paid => mkLedger 0 (j_Principal j) (j_Fee j)
  | Cancelled | Refunded => mkLedger (j_Principal j + j_Fee j) 0 0
  | _ => mkLedger 0 0 0
  end.

Definition terminal (s : State) : bool :=
  match s with Paid | Cancelled | Refunded => true | _ => false end.

Definition job_inv (st : Job * Ledger) : Prop :=
  snd st = ledger_of (fst st) /\ j_Settled (fst st) = terminal (j_State (fst st)).

(** The parties and the terms never change. *)
Definition same_terms (j j' : Job) : Prop :=
  j_Client j' = j_Client j /\ j_Contractor j' = j_Contractor j /\ j_ExpectedTEE j' = j_ExpectedTEE j /\
  j_Principal j' = j_Principal j /\ j_Fee j' = j_Fee j /\ j_SubmitBy j' = j_SubmitBy j /\
  j_GraceEnds j' = j_GraceEnds j.

Ltac run_op H := repeat first [progress (simplify_eq/=) | case_match | progress (unfold reject, lift in H)].

Lemma exec_inv c st r st' : job_inv st -> exec c st = (r, st') -> job_inv st'.
Proof.
  destruct st as [j l]. intros [Hl Hs] H. simpl in Hl, Hs. subst l.
  destruct c; simpl in H; unfold Accept, Submit, Settle, Cancel, Refund in H; run_op H; to_prop;
    unfold job_inv, ledger_of; simpl; try done;
    repeat match goal with
    | H : ~ (_ <> _) |- _ => apply dec_stable in H
    | H : j_State _ = _ |- _ => rewrite H in *
    end; simpl; try done;
    destruct (j_State j); simpl in *; done || congruence.
Qed.

Lemma exec_same_terms c j l r st' : exec c (j, l) = (r, st') -> same_terms j (fst st').
Proof.
  intros H. destruct c; simpl in H; unfold Accept, Submit, Settle, Cancel, Refund in H; run_op H; done.
Qed.

(** A settled job is frozen. *)
Lemma exec_settled c st r st' :
  job_inv st -> j_Settled (fst st) = true -> exec c st = (r, st') -> st' = st /\ is_Err r = true.
Proof.
  destruct st as [j l]. intros [_ Hs] Ht H. simpl in Hs, Ht. rewrite Ht in Hs.
  destruct c; simpl in H; unfold Accept, Submit, Settle, Cancel, Refund in H; run_op H; to_prop; try done;
    repeat match goal with
    | H : ~ (_ <> _) |- _ => apply dec_stable in H
    | H : _ \/ _ |- _ => destruct H
    end; try congruence;
    destruct (j_State j); simpl in *; congruence.
Qed.

(** What moves money to the contractor. *)
Lemma exec_pays c j l r st' :
  exec c (j, l) = (r, st') -> l_Contractor (snd st') <> l_Contractor l \/ l_Treasury (snd st') <> l_Treasury l ->
  exists now v, c = CallSettle now v /\ v_Outcome v = Pass /\ v_TEEID v = j_ExpectedTEE j /\
    v_Attempt v = j_Attempt j /\ now <= v_ExpiresAt v /\ j_Settled j = false /\ j_State (fst st') = Paid.
Proof.
  intros H Hne. destruct c; simpl in H; unfold Accept, Submit, Settle, Cancel, Refund in H; run_op H;
    simpl in Hne; try (exfalso; tauto).
  to_prop. do 2 eexists. split; [done|]. split_and!; done.
Qed.

Lemma lxor_bound a b : is_uint 64 a -> is_uint 64 b -> is_uint 64 (Z.lxor a b).
Proof.
  unfold is_uint. intros [Ha Ha'] [Hb Hb']. pose proof (proj2 (Z.lxor_nonneg a b) ltac:(lia)) as Hn.
  split; [done|]. destruct (decide (Z.lxor a b = 0)) as [->|Hne]; [lia|].
  pose proof (Z.log2_lxor a b Ha Hb). apply Z.log2_lt_pow2; [lia|].
  assert (Hl : forall x, 0 <= x -> x < 2 ^ 64 -> Z.log2 x < 64).
  { intros x ? ?. destruct (decide (x = 0)) as [->|]; [done|]. apply Z.log2_lt_pow2; lia. }
  pose proof (Hl a Ha Ha'). pose proof (Hl b Hb Hb'). lia.
Qed.

(** The multiplier is odd: it has an inverse modulo 2^64. *)
Lemma round_multiplier_inj a b :
  is_uint 64 a -> is_uint 64 b -> uint64 (a * round_multiplier) = uint64 (b * round_multiplier) -> a = b.
Proof.
  intros Ha Hb H. apply (f_equal (fun x => uint64 (x * 17428512612931826493))) in H. revert H.
  unfold uint. rewrite !Zmult_mod_idemp_l, <- !Z.mul_assoc.
  rewrite <- (Zmult_mod_idemp_r _ a), <- (Zmult_mod_idemp_r _ b).
  change ((round_multiplier * 17428512612931826493) mod 2 ^ 64) with 1. rewrite !Z.mul_1_r.
  rewrite !Z.mod_small; [done|apply Hb|apply Ha].
Qed.

Lemma reachable_inv client contractor tee p f sb ge st0 st :
  NewJob client contractor tee p f sb ge = Ok st0 -> reachable st0 st ->
  job_inv st /\ same_terms (fst st0) (fst st).
Proof.
  intros H. induction 1 as [|st c st' _ [IH IHt] Hstep].
  - unfold NewJob in H. destruct p, f; simplify_eq. split; [split; done|done].
  - destruct Hstep as [c [j l] r st' He]. split; [by eapply exec_inv|].
    apply exec_same_terms in He. unfold same_terms in *. simpl in IHt. intuition congruence.
Qed.

Lemma reachable_trans st0 st1 st2 : reachable st0 st1 -> reachable st1 st2 -> reachable st0 st2.
Proof. induction 2; [done|by econstructor]. Qed.

Lemma reachable_settled st st' :
  job_inv st -> j_Settled (fst st) = true -> reachable st st' -> st' = st.
Proof.
  intros Hi Hs. induction 1 as [|st1 c st2 _ -> Hstep]; [done|].
  destruct Hstep as [c st r st' He]. by apply exec_settled in He as [-> _].
Qed.
End Simulation.

Import Simulation.

(** ** Properties *)

(** C19. Conservation: in every state that any sequence of calls reaches from a
    new job, accepted or rejected, the ledger is determined by the job's
    state: nothing was moved before settlement, a paid job gave exactly the
    principal to the contractor and the fee to the treasury, a cancelled or
    refunded one gave both back to the client; and the parties and terms are
    those of the new job. *)
Theorem simulation_conservation client contractor tee p f sb ge st0 st :
  NewJob client contractor tee p f sb ge = Ok st0 -> reachable st0 st ->
  snd st = ledger_of (fst st) /\ j_Settled (fst st) = terminal (j_State (fst st)) /\
  l_Client (snd st) + l_Contractor (snd st) + l_Treasury (snd st)
    = (if j_Settled (fst st) then j_Principal (fst st) + j_Fee (fst st) else 0) /\
  same_terms (fst st0) (fst st).
Proof.
  intros H1 H2. destruct (reachable_inv _ _ _ _ _ _ _ _ _ H1 H2) as [[Hl Hs] Ht].
  split_and!; try done. rewrite Hs, Hl. unfold ledger_of. destruct (j_State (fst st)); simpl; lia.
Qed.

Definition w_job : Job * Ledger := (mkJob "alice" "bob" "tee" 100 5 Created 0 50 80 false, mkLedger 0 0 0).
Definition w_pass : Verdict := mkVerdict "escrow" "job" "instr" 0 Pass 3 3 10 60 "tee".
Definition w_paid : Job * Ledger := (mkJob "alice" "bob" "tee" 100 5 Paid 0 50 80 true, mkLedger 0 100 5).

Lemma w_paid_reachable : reachable w_job w_paid.
Proof. eapply (reachable_step _ _ (CallSettle 20 w_pass)); [constructor|]. by eapply (step_call _ _ (Ok tt)). Qed.

Theorem simulation_conservation_witness :
  snd w_paid = ledger_of (fst w_paid) /\ j_Settled (fst w_paid) = terminal (j_State (fst w_paid)) /\
  l_Client (snd w_paid) + l_Contractor (snd w_paid) + l_Treasury (snd w_paid)
    = (if j_Settled (fst w_paid) then j_Principal (fst w_paid) + j_Fee (fst w_paid) else 0) /\
  same_terms (fst w_job) (fst w_paid).
Proof.
  apply (simulation_conservation "alice" "bob" "tee" (Some 100) (Some 5) 50 80 w_job w_paid);
    [reflexivity|apply w_paid_reachable].
Defined.

(** C20. A settlement is final and pays only on a passed verdict. In every
    reachable state: once the job is settled no later call has any effect, each
    is rejected; and a call moves money to the contractor or the treasury only
    as the settlement of the unsettled job with a passed, unexpired verdict of
    its TEE for the current attempt, after which the job is settled. *)
Theorem simulation_settlement client contractor tee p f sb ge st0 st st' c r st'' :
  NewJob client contractor tee p f sb ge = Ok st0 -> reachable st0 st -> reachable st st' -> exec c st' = (r, st'') ->
  (j_Settled (fst st) = true -> st' = st /\ st'' = st /\ is_Err r = true) /\
  (l_Contractor (snd st'') <> l_Contractor (snd st') \/ l_Treasury (snd st'') <> l_Treasury (snd st') ->
   exists now v, c = CallSettle now v /\ v_Outcome v = Pass /\ v_TEEID v = j_ExpectedTEE (fst st0) /\
     v_Attempt v = j_Attempt (fst st') /\ now <= v_ExpiresAt v /\ j_Settled (fst st') = false /\
     j_Settled (fst st'') = true /\ j_State (fst st'') = Paid).
Proof.
  intros H1 H2 H3 He. destruct (reachable_inv _ _ _ _ _ _ _ _ _ H1 H2) as [Hi _].
  destruct (reachable_inv _ _ _ _ _ _ _ _ _ H1 (reachable_trans _ _ _ H2 H3)) as [Hi' Ht]. split.
  - intros Hs. apply reachable_settled in H3; [|done..]. subst st'. by apply exec_settled in He as [-> ?].
  - intros Hm. destruct st' as [j l]. pose proof (exec_inv _ _ _ _ Hi' He) as [_ Hs].
    destruct (exec_pays _ _ _ _ _ He Hm) as (now & v & -> & ? & Hv & ? & ? & ? & Hp).
    exists now, v. destruct Ht as (_ & _ & Htee & _). simpl in *. split_and!; try congruence. rewrite Hs. by rewrite Hp.
Qed.

Theorem simulation_settlement_witness :
  (j_Settled (fst w_job) = true -> w_job = w_job /\ w_paid = w_job /\ is_Err (Ok tt : result unit) = true) /\
  (l_Contractor (snd w_paid) <> l_Contractor (snd w_job) \/ l_Treasury (snd w_paid) <> l_Treasury (snd w_job) ->
   exists now v, CallSettle 20 w_pass = CallSettle now v /\ v_Outcome v = Pass /\ v_TEEID v = j_ExpectedTEE (fst w_job) /\
     v_Attempt v = j_Attempt (fst w_job) /\ now <= v_ExpiresAt v /\ j_Settled (fst w_job) = false /\
     j_Settled (fst w_paid) = true /\ j_State (fst w_paid) = Paid).
Proof.
  apply (simulation_settlement "alice" "bob" "tee" (Some 100) (Some 5) 50 80 w_job w_job w_job (CallSettle 20 w_pass) (Ok tt) w_paid);
    [reflexivity|constructor|constructor|reflexivity].
Defined.

(** The refund of a job that was paid is refused. *)
Example refund_after_payment : is_Err (fst (Refund 90 w_paid)) = true /\ snd (Refund 90 w_paid) = w_paid.
Proof. vm_compute. auto. Qed.

(** Funds are never stuck: from every reachable unsettled state a refund
    after the grace period succeeds and returns principal and fee to the
    client. *)
Theorem simulation_refund_available client contractor tee p f sb ge st0 st now :
  NewJob client contractor tee p f sb ge = Ok st0 -> reachable st0 st ->
  j_Settled (fst st) = false -> j_GraceEnds (fst st) < now ->
  exists st', Refund now st = (Ok tt, st') /\ j_State (fst st') = Refunded /\
    snd st' = mkLedger (j_Principal (fst st) + j_Fee (fst st)) 0 0.
Proof.
  intros H1 H2 Hs Hn. destruct (reachable_inv _ _ _ _ _ _ _ _ _ H1 H2) as [[Hl Ht] _].
  destruct st as [j l]. simpl in *. unfold Refund. rewrite Hs. destruct (Z.leb_spec now (j_GraceEnds j)); [lia|].
  eexists. split; [done|]. split; [done|]. simpl. subst l. rewrite Hs in Ht. unfold ledger_of.
  by destruct (j_State j).
Qed.

Theorem simulation_refund_available_witness :
  exists st', Refund 81 w_job = (Ok tt, st') /\ j_State (fst st') = Refunded /\
    snd st' = mkLedger (j_Principal (fst w_job) + j_Fee (fst w_job)) 0 0.
Proof.
  apply (simulation_refund_available "alice" "bob" "tee" (Some 100) (Some 5) 50 80 w_job w_job 81);
    [reflexivity|constructor|reflexivity|vm_compute; reflexivity].
Defined.

(** The model pays for work nobody accepted or submitted: on a job that
    was just created, a passed verdict of its TEE with attempt 0 settles and
    pays the contractor, and a failed one makes it ready for a submission that
    [Accept] never allowed. *)
Theorem simulation_unaccepted_settles client contractor tee p f sb ge j l now v :
  NewJob client contractor tee (Some p) (Some f) sb ge = Ok (j, l) ->
  v_TEEID v = tee -> v_Attempt v = 0 -> now <= v_ExpiresAt v -> now <= sb ->
  (v_Outcome v = Pass -> exists j', Settle now v (j, l) = (Ok tt, (j', mkLedger 0 p f)) /\ j_State j' = Paid) /\
  (v_Outcome v = Fail -> exists j' l', Settle now v (j, l) = (Ok tt, (j', l')) /\
     is_Err (fst (Submit now (j, l))) = true /\ is_Ok (fst (Submit now (j', l'))) = true).
Proof.
  intros [= <- <-] Ht Ha He Hs. unfold Settle, Submit. simpl. rewrite Ht, Ha, String.eqb_refl.
  destruct (Z.ltb_spec (v_ExpiresAt v) now); [lia|]. destruct (Z.ltb_spec sb now); [lia|]. split.
  - intros ->. eexists. done.
  - intros ->. simpl. do 2 eexists. split; [done|]. simpl. split; [done|].
    destruct (Z.ltb_spec sb now); [lia|done].
Qed.

Theorem simulation_unaccepted_settles_witness :
  (v_Outcome w_pass = Pass ->
     exists j', Settle 20 w_pass w_job = (Ok tt, (j', mkLedger 0 100 5)) /\ j_State j' = Paid) /\
  (v_Outcome w_pass = Fail -> exists j' l', Settle 20 w_pass w_job = (Ok tt, (j', l')) /\
     is_Err (fst (Submit 20 w_job)) = true /\ is_Ok (fst (Submit 20 (j', l'))) = true).
Proof.
  apply (simulation_unaccepted_settles "alice" "bob" "tee" 100 5 50 80 (fst w_job) (snd w_job) 20 w_pass);
    vm_compute; (reflexivity || discriminate).
Defined.

(** For a fixed seed, distinct 64-bit rounds give distinct random values,
    and the value is a 64-bit integer: the multiplier is odd, so the product
    modulo 2^64 loses nothing. *)
Theorem DeterministicRound_injective seed r1 r2 :
  is_uint 64 seed -> is_uint 64 r1 -> is_uint 64 r2 ->
  is_uint 64 (DeterministicRound seed r1) /\
  (DeterministicRound seed r1 = DeterministicRound seed r2 -> r1 = r2).
Proof.
  intros Hs H1 H2. unfold DeterministicRound. split.
  - apply lxor_bound; [done|apply uint_is_uint; lia].
  - intros H. apply (f_equal (Z.lxor seed)) in H.
    rewrite <- !Z.lxor_assoc, Z.lxor_nilpotent, !Z.lxor_0_l in H.
    by apply round_multiplier_inj in H.
Qed.

Theorem DeterministicRound_injective_witness :
  is_uint 64 (DeterministicRound 7 8) /\ (DeterministicRound 7 8 = DeterministicRound 7 9 -> 8 = 9).
Proof. apply (DeterministicRound_injective 7 8 9); unfold is_uint; lia. Defined.
