(* ===== verification/Report.v ===== *)
(** * The verification report (tools/pkg/validate/report.go)

    Check results, the report, its summary, and its two printed forms. *)

From S2P Require Import Prelude GoStd Encoding.

Inductive Status := PASS | WARN | FAIL | SKIP.

#[export] Instance Status_eq_dec : EqDecision Status.
Proof. solve_decision. Defined.

Definition Status_String (s : Status) : string :=
  match s with PASS => "PASS" | WARN => "WARN" | FAIL => "FAIL" | SKIP => "SKIP" end.

Record CheckResult := mkResult {
  Step : string;
  cr_ID : string;
  Name : string;
  cr_Status : Status;
  Message : string;
  Fix : string;
}.

(** [Report]: the results in the order they were added. *)
Abbreviation Report := (list CheckResult).

Definition report_add (r : Report) (c : CheckResult) : Report := r ++ [c].

Definition HasFailures (r : Report) : bool := existsb (fun c => bool_decide (cr_Status c = FAIL)) r.

Record tally := mkTally { n_passed : Z; n_warning : Z; n_failed : Z; n_skipped : Z }.

Definition count_one (t : tally) (c : CheckResult) : tally :=
  match cr_Status c with
  | PASS => mkTally (n_passed t + 1) (n_warning t) (n_failed t) (n_skipped t)
  | WARN => mkTally (n_passed t) (n_warning t + 1) (n_failed t) (n_skipped t)
  | FAIL => mkTally (n_passed t) (n_warning t) (n_failed t + 1) (n_skipped t)
  | SKIP => mkTally (n_passed t) (n_warning t) (n_failed t) (n_skipped t + 1)
  end.

Definition Summary_tally (r : Report) : tally := foldl count_one (mkTally 0 0 0 0) r.

Definition Summary (r : Report) : string :=
  let t := Summary_tally r in
  pretty (n_passed t) +:+ " passed, " +:+ pretty (n_warning t) +:+ " warning, " +:+
  pretty (n_failed t) +:+ " failed, " +:+ pretty (n_skipped t) +:+ " skipped".

(** ** The terminal form *)

Definition esc (code : string) : string := String "027" ("[" +:+ code +:+ "m").
Definition colorReset := esc "0".
Definition colorRed := esc "31".
Definition colorGreen := esc "32".
Definition colorYellow := esc "33".
Definition colorCyan := esc "36".
Definition colorGray := esc "90".

Definition stepLabel : gmap string string := list_to_map
  [("deploy", "Contract Deployment"); ("register", "Extension Registration"); ("services", "Service Startup");
   ("tee-version", "TEE Version Registration"); ("tee-machine", "TEE Machine Registration"); ("test", "Testing")].

Definition statusColor (s : Status) : string :=
  match s with PASS => colorGreen | WARN => colorYellow | FAIL => colorRed | SKIP => colorGray end.

Definition nl : string := String "010" EmptyString.

(** The steps in order of first appearance. *)
Fixpoint unique_steps (seen : gset string) (r : Report) : list string :=
  match r with
  | [] => []
  | c :: r =>
    if decide (Step c ∈ seen) then unique_steps seen r
    else Step c :: unique_steps ({[Step c]} ∪ seen) r
  end.

Definition print_result (c : CheckResult) : string :=
  "  " +:+ statusColor (cr_Status c) +:+ "[" +:+ Status_String (cr_Status c) +:+ "]" +:+ colorReset +:+ " " +:+
  cr_ID c +:+ "  " +:+ Name c +:+ nl +:+
  (if bool_decide (cr_Status c = FAIL) || bool_decide (cr_Status c = WARN) then
     (if String.eqb (Message c) "" then "" else "         " +:+ Message c +:+ nl) +:+
     (if String.eqb (Fix c) "" then "" else "         Fix: " +:+ Fix c +:+ nl)
   else "").

Definition step_results (r : Report) (step : string) : Report := filter (fun c => Step c = step) r.

Definition label_of (step : string) : string :=
  match stepLabel !! step with Some l => l | None => step end.

Definition concat_strings (l : list string) : string := foldr String.append "" l.

Definition print_step (r : Report) (step : string) : string :=
  label_of step +:+ ":" +:+ nl +:+ concat_strings (print_result <$> step_results r step) +:+ nl.

Definition Fprint (r : Report) : string :=
  nl +:+ colorCyan +:+ "=== Deployment Verification Report ===" +:+ colorReset +:+ nl +:+ nl +:+
  concat_strings (print_step r <$> unique_steps ∅ r) +:+ Summary r +:+ nl.

(** ** The JSON form: the members, before indentation *)

Definition json_result (c : CheckResult) : list (string * string) :=
  [("step", Json.json_string (Step c)); ("id", Json.json_string (cr_ID c)); ("name", Json.json_string (Name c));
   ("status", Json.json_string (Status_String (cr_Status c)))]
  ++ Json.omitempty (String.eqb (TrimSpace (Message c)) "") "message" (Json.json_string (TrimSpace (Message c)))
  ++ Json.omitempty (String.eqb (TrimSpace (Fix c)) "") "fix" (Json.json_string (TrimSpace (Fix c))).

Definition indent (n : nat) : string := Nat.iter n (fun s => "  " +:+ s) "".

Definition indented_object (d : nat) (l : list (string * string)) : string :=
  "{" +:+ nl +:+ Join ((fun '(k, v) => indent (S d) +:+ Json.json_string k +:+ ": " +:+ v) <$> l) ("," +:+ nl)
  +:+ nl +:+ indent d +:+ "}".

Definition indented_array (d : nat) (l : list string) : string :=
  match l with
  | [] => "[]"
  | _ => "[" +:+ nl +:+ Join ((fun v => indent (S d) +:+ v) <$> l) ("," +:+ nl) +:+ nl +:+ indent d +:+ "]"
  end.

Definition FprintJSON (r : Report) : string :=
  indented_object 0
    [("results", indented_array 1 ((fun c => indented_object 2 (json_result c)) <$> r));
     ("summary", Json.json_string (Summary r))] +:+ nl.

(** ** Lemmas *)

Definition of_status (s : Status) (r : Report) : Z := Z.of_nat (length (filter (fun c => cr_Status c = s) r)).

Lemma of_status_cons s c r :
  of_status s (c :: r) = (if decide (cr_Status c = s) then 1 else 0) + of_status s r.
Proof. unfold of_status. rewrite filter_cons. case_decide; simpl; lia. Qed.

Lemma Summary_tally_from t r :
  foldl count_one t r =
    mkTally (n_passed t + of_status PASS r) (n_warning t + of_status WARN r)
            (n_failed t + of_status FAIL r) (n_skipped t + of_status SKIP r).
Proof.
  revert t. induction r as [|c r IH]; intros [p w f k]; simpl.
  - unfold of_status. simpl. f_equal; lia.
  - rewrite IH, !of_status_cons. unfold count_one. destruct (cr_Status c); simpl; f_equal; lia.
Qed.

Lemma HasFailures_iff r : HasFailures r = true <-> exists c, c ∈ r /\ cr_Status c = FAIL.
Proof.
  unfold HasFailures. rewrite existsb_exists. setoid_rewrite list_elem_of_In.
  setoid_rewrite bool_decide_eq_true. done.
Qed.

Lemma of_status_pos s r : 0 < of_status s r <-> exists c, c ∈ r /\ cr_Status c = s.
Proof.
  induction r as [|c r IH].
  - unfold of_status. simpl. split; [lia|]. by intros (c & []%not_elem_of_nil & _).
  - rewrite of_status_cons. assert (0 <= of_status s r) by (unfold of_status; lia). case_decide as E.
    + split; [|lia]. intros _. exists c. split; [by left|done].
    + rewrite Z.add_0_l, IH. split.
      * intros (x & Hx & ?). exists x. split; [by right|done].
      * intros (x & [->|Hx]%elem_of_cons & ?); [done|eauto].
Qed.

Lemma of_status_sum r : of_status PASS r + of_status WARN r + of_status FAIL r + of_status SKIP r = Z.of_nat (length r).
Proof.
  induction r as [|c r IH]; [done|]. rewrite !of_status_cons. destruct (cr_Status c); simpl; lia.
Qed.

(** ** The groups of [Fprint] *)

Lemma unique_steps_spec seen r :
  NoDup (unique_steps seen r) /\
  forall s, s ∈ unique_steps seen r <-> s ∉ seen /\ exists c, c ∈ r /\ Step c = s.
Proof.
  revert seen. induction r as [|c r IH]; intros seen; simpl.
  - split; [constructor|]. intros s. rewrite elem_of_nil. split; [done|]. by intros [_ (c & []%not_elem_of_nil & _)].
  - destruct (IH seen) as [Hn1 Hi1]. destruct (IH ({[Step c]} ∪ seen)) as [Hn2 Hi2]. case_decide as Hs.
    + split; [done|]. intros s. rewrite Hi1. split.
      * intros [? (x & ? & ?)]. split; [done|]. exists x. split; [by right|done].
      * intros [? (x & [->|?]%elem_of_cons & ?)]; [by subst|]. split; [done|eauto].
    + split.
      * apply NoDup_cons_2; [|done]. rewrite Hi2. set_solver.
      * intros s. rewrite elem_of_cons, Hi2. split.
        -- intros [->|[? (x & ? & ?)]]; [split; [done|]; exists c; split; [by left|done]|].
           split; [set_solver|]. exists x. split; [by right|done].
        -- intros [? (x & [->|?]%elem_of_cons & Hx)]; [by left|].
           destruct (decide (s = Step c)) as [->|]; [by left|right]. split; [set_solver|eauto].
Qed.

(** The results in the order [Fprint] prints them. *)
Definition printed (r : Report) : Report := unique_steps ∅ r ≫= step_results r.

Lemma filter_none r p : Forall (fun c => Step c <> p) r -> step_results r p = [].
Proof.
  unfold step_results. induction 1 as [|c r Hc _ IH]; [done|]. rewrite filter_cons. by case_decide.
Qed.

Lemma groups_perm (steps : list string) r :
  NoDup steps -> (forall c, c ∈ r -> Step c ∈ steps) -> steps ≫= step_results r ≡ₚ r.
Proof.
  revert steps. induction r as [|c r IH]; intros steps Hn Hin.
  - induction steps; simpl; [done|]. apply IHsteps; [by apply NoDup_cons_1_2 in Hn|]. by intros ? []%not_elem_of_nil.
  - assert (Hc : Step c ∈ steps) by (apply Hin; by left).
    rewrite <- (IH steps) at 2; [|done|]. 2:{ intros x ?. apply Hin. by right. }
    clear IH Hin. induction steps as [|s steps IHs]; [by apply not_elem_of_nil in Hc|].
    pose proof (NoDup_cons_1_1 _ _ Hn) as Hni. apply NoDup_cons_1_2 in Hn. rewrite !bind_cons.
    destruct (decide (Step c = s)) as [<-|Hne].
    + unfold step_results at 1. rewrite filter_cons, decide_True by done. simpl. constructor.
      apply Permutation_app; [done|].
      assert (Heq : forall l, Step c ∉ l -> l ≫= step_results (c :: r) = l ≫= step_results r).
      { induction l as [|x l IHl]; intros Hx; [done|]. rewrite !bind_cons. rewrite not_elem_of_cons in Hx.
        rewrite IHl by tauto. f_equal. unfold step_results. rewrite filter_cons, decide_False; [done|tauto]. }
      by rewrite Heq.
    + apply elem_of_cons in Hc as [?|Hc]; [congruence|].
      unfold step_results at 1. rewrite filter_cons, decide_False by done. fold (step_results r s).
      rewrite (IHs Hn Hc). by rewrite Permutation_middle.
Qed.

Lemma printed_perm r : printed r ≡ₚ r.
Proof.
  apply groups_perm; [apply unique_steps_spec|]. intros c Hc. apply unique_steps_spec. split; [set_solver|eauto].
Qed.
