(* ===== verification/Checks.v ===== *)
(** * Deployment checks (tools/pkg/validate/checks.go, validate.go)

    The checks of verify-deploy, each a sequence of results added to the
    report, over an arbitrary environment, file system, chain and registry. *)

From S2P Require Import Prelude GoStd RegExp GoEth Bundle NetStd Report.

(** The host and the chain, as the checks see them. [os_Open] gives the
    content of a file that can be opened. [range_map] is the order
    in which a range over a map visits it, which may differ at every range. *)
Class Host (W : Type) := {
  os_Getenv : string -> W -> string * W;
  os_Open : string -> W -> option string * W;
  os_IsNotExist : string -> W -> bool * W;
  net_DialTimeout : string -> Z -> W -> bool * W;
  range_map : gmap string bytes -> W -> list (string * bytes) * W;
  HttpGet : Z -> string -> M W Z;
  BalanceAt : ctx -> bytes -> bigint -> M W bigint;
  ChainID : ctx -> M W bigint;
  NextPublicExtensionId : M W bigint;
  GetTeeExtensionInstructionsSender : Z -> M W bytes;
  IsAllowedTeeMachineOwner : Z -> bytes -> M W bool;
  IsKeyTypeSupported : Z -> bytes -> M W bool;
  EVMType : bytes;
}.

Section ops.
  Context {W : Type} {HO : Host W}.

Definition Getenv (k : string) : M W string := total (os_Getenv k).
Definition Open (path : string) : M W (option string) := total (os_Open path).
Definition IsNotExist (path : string) : M W bool := total (os_IsNotExist path).
Definition DialTimeout (addr : string) (ms : Z) : M W bool := total (net_DialTimeout addr ms).
Definition map_range (m : gmap string bytes) : M W (list (string * bytes)) := total (range_map m).
End ops.

Definition second : Z := 1000.
Definition rpcTimeout : Z := 10 * second.
Definition MinDeployBalance : Z := 10000000000000000.

Definition addressRegex : re := Cat (Lit (chars "0x")) (Rep 40 hexclass).
Definition extensionIDRegex : re := Cat (Lit (chars "0x")) (Rep 64 hexclass).

(** ** extension.env *)

(** [bufio.Scanner] with its default buffer: the lines without their ends;
    a line of 64 KiB or more ends the scan. *)
Definition drop_cr (s : string) : string :=
  match LastIndexByte s "013" with
  | Some i => if Nat.eqb (S i) (String.length s) then String.substring 0 i s else s
  | None => s
  end.

Fixpoint take_lines (l : list string) : list string :=
  match l with
  | [] => []
  | [last] => if String.eqb last "" then [] else if slen last <? 65536 then [drop_cr last] else []
  | x :: l => if slen x <? 65536 then drop_cr x :: take_lines l else []
  end.

Definition scan_lines (content : string) : list string := take_lines (Split content "010").

(** One line: a key and a value, or nothing. *)
Definition env_entry (line : string) : option (string * string) :=
  let line := TrimSpace line in
  if String.eqb line "" || HasPrefix line "#" then None
  else match SplitN2 line "=" with
       | (k, Some v) => Some (TrimSpace k, TrimSpace v)
       | (_, None) => None
       end.

(** The map of [CheckExtensionEnvFormat] and the loop of
    [parseExtensionEnv]. *)
Fixpoint env_vars (vars : gmap string string) (lines : list string) : gmap string string :=
  match lines with
  | [] => vars
  | l :: lines => env_vars (match env_entry l with Some (k, v) => <[k := v]> vars | None => vars end) lines
  end.

Fixpoint env_loop (extensionID instructionSender : string) (lines : list string) : string * string :=
  match lines with
  | [] => (extensionID, instructionSender)
  | l :: lines =>
    match env_entry l with
    | Some (k, v) =>
      if String.eqb k "EXTENSION_ID" then env_loop v instructionSender lines
      else if String.eqb k "INSTRUCTION_SENDER" then env_loop extensionID v lines
      else env_loop extensionID instructionSender lines
    | None => env_loop extensionID instructionSender lines
    end
  end.

Definition chainName (id : bigint) : string :=
  let t := big_text id in
  if String.eqb t "31337" then "Hardhat/Anvil (local devnet)"
  else if String.eqb t "114" then "Coston2 (testnet)"
  else if String.eqb t "14" then "Flare (mainnet)"
  else "unknown network".

(** The value of hexadecimal digits ([big.Int.SetString] with base 16). *)
Fixpoint hex_value (s : string) (acc : Z) : Z :=
  match s with
  | EmptyString => acc
  | String a s => match hex_val a with Some d => hex_value s (acc * 16 + d) | None => acc end
  end.

Definition fix_env : string := "Delete config/extension.env and re-run scripts/pre-build.sh".

(** The three results of a check on one entry of extension.env. *)
Definition env_check (vars : gmap string string) (key : string) (pattern : re) : CheckResult :=
  let name := key +:+ " in extension.env" in
  match vars !! key with
  | None => mkResult "deploy" "D7" name FAIL (key +:+ " not found in extension.env") fix_env
  | Some val =>
    if negb (MatchString pattern val)
    then mkResult "deploy" "D7" name FAIL (key +:+ " has invalid format: " +:+ quote val) fix_env
    else mkResult "deploy" "D7" name PASS val ""
  end.

Section Checks.
  Context {GE : GoEthereum} {W : Type} {EC : EthClient W} {HO : Host W}.

(** ** validate.go *)

Definition AddressNotZero (addr : bytes) (label : string) : result unit :=
  fail_if (bool_decide (addr = zero_address))
    (Plain (label +:+ " is the zero address (" +:+ Address_Hex addr +:+ ") in the addresses file")).

Definition no_code_message (addr : bytes) (label : string) : string :=
  label +:+ " at " +:+ Address_Hex addr +:+ " has no deployed code. " +:+
  "This address will be set as immutable in the contract constructor and cannot be changed. " +:+
  "Check your deployed-addresses.json file — are you on the right network?".

(** [client]: whether the client is not nil. *)
Definition AddressHasCode (client : bool) (addr : bytes) (label : string) : M W unit :=
  if negb client then lift (Err (Plain ("cannot check " +:+ label +:+ ": no chain client connected"))) else
  code <?- CodeAt [rpcTimeout] addr None
    onerr err => lift (Err (Wrap ("cannot check " +:+ label +:+ ": ") err ""));
  if llen code =? 0 then lift (Err (Plain (no_code_message addr label))) else mret tt.

(** [key] is the address of the deployer's key. *)
Definition KeyHasFunds (client : bool) (key : bytes) (minWei : Z) : M W unit :=
  if negb client then lift (Err (Plain "cannot check deployer balance: no chain client connected")) else
  balance <?- BalanceAt [rpcTimeout] key None
    onerr err => lift (Err (Wrap "cannot check deployer balance: " err ""));
  c ← lift (big_Cmp balance (Some minWei));
  match c with
  | Lt => lift (Err (Plain ("deployer " +:+ Address_Hex key +:+ " has insufficient funds (balance: " +:+
            big_text balance +:+ " wei, minimum required: " +:+ pretty minWei +:+ " wei). " +:+
            "Fund this account before deploying")))
  | _ => mret tt
  end.

Definition IsUsingDevKey : M W bool :=
  k ← Getenv "DEPLOYMENT_PRIVATE_KEY"; mret (String.eqb k "").

(** ** The report as state *)
Abbreviation R := (M (Report * W)).
Definition Add (c : CheckResult) : R unit := fun '(r, w) => (Ok tt, (report_add r c, w)).
Definition env (k : string) : R string := zoom_snd (Getenv k).

(** [parseExtensionEnv]: no error when the file cannot be opened. *)
Definition parseExtensionEnv (path : string) : M W (string * string) :=
  f ← Open path;
  mret (match f with None => ("", "") | Some content => env_loop "" "" (scan_lines content) end).

(** The two forms of "reachable": the proxy answers 200 on /info. *)
Definition proxy_reachable (url : string) : M W bool := fun w =>
  match HttpGet (5 * second) (url +:+ "/info") w with
  | (Ok st, w') => (Ok (st =? StatusOK), w')
  | (Err _, w') => (Ok false, w')
  | (Panic p, w') => (Panic p, w')
  end.

(** ** Step 1: deployment *)

Definition CheckDeployerKeySource : M W CheckResult :=
  privKey ← Getenv "DEPLOYMENT_PRIVATE_KEY";
  if nonempty privKey
  then mret (mkResult "deploy" "D5" "deployer key source" PASS "DEPLOYMENT_PRIVATE_KEY is set" "") else
  localMode ← Getenv "LOCAL_MODE";
  if String.eqb localMode "true" || String.eqb localMode ""
  then mret (mkResult "deploy" "D5" "deployer key source" PASS "using Hardhat dev key (LOCAL_MODE)" "")
  else mret (mkResult "deploy" "D5" "deployer key source" WARN
    "DEPLOYMENT_PRIVATE_KEY not set — using Hardhat dev key which has no funds on Coston2"
    "Set DEPLOYMENT_PRIVATE_KEY in .env to a funded account on the target network").

Definition checkChainID : M W CheckResult :=
  chainID <?- ChainID [rpcTimeout]
    onerr err => mret (mkResult "deploy" "D6" "chain ID" FAIL ("failed to get chain ID: " +:+ Error err) "Check CHAIN_URL");
  mret (mkResult "deploy" "D6" "chain ID" PASS
          ("chain ID " +:+ big_text chainID +:+ " (" +:+ chainName chainID +:+ ")") "").

Definition CheckExtensionEnvFormat (path : string) : M W (list CheckResult) :=
  f ← Open path;
  match f with
  | None => mret [mkResult "deploy" "D7" "extension.env exists" SKIP ("file not found: " +:+ path) ""]
  | Some content =>
    let vars := env_vars ∅ (scan_lines content) in
    mret [env_check vars "INSTRUCTION_SENDER" addressRegex; env_check vars "EXTENSION_ID" extensionIDRegex]
  end.

(** D3: the labels of zero addresses. *)
Fixpoint check_zero (l : list (string * bytes)) (zeroAddrs : gset string) : R (gset string) :=
  match l with
  | [] => mret zeroAddrs
  | (label, addr) :: l =>
    match AddressNotZero addr label with
    | Err e =>
      Add (mkResult "deploy" "D3" (label +:+ " address not zero") FAIL (Error e)
             "Re-run the deploy script or check deployed-addresses.json") ;;
      check_zero l ({[label]} ∪ zeroAddrs)
    | _ =>
      Add (mkResult "deploy" "D3" (label +:+ " address not zero") PASS (Address_Hex addr) "") ;;
      check_zero l zeroAddrs
    end
  end.

(** D1: code at the other addresses. *)
Fixpoint check_code (client : bool) (l : list (string * bytes)) (zeroAddrs : gset string) : R unit :=
  match l with
  | [] => mret tt
  | (label, addr) :: l =>
    if decide (label ∈ zeroAddrs) then check_code client l zeroAddrs else
    (_r <?- zoom_snd (AddressHasCode client addr label)
       onerr err => Add (mkResult "deploy" "D1" (label +:+ " has deployed code") FAIL (Error err)
                           "Deploy contracts or check CHAIN_URL / deployed-addresses.json");
     Add (mkResult "deploy" "D1" (label +:+ " has deployed code") PASS ("code found at " +:+ Address_Hex addr) "")) ;;
    check_code client l zeroAddrs
  end.

Fixpoint add_all (l : list CheckResult) : R unit :=
  match l with [] => mret tt | c :: l => Add c ;; add_all l end.

Definition check_funds (client : bool) (key : option bytes) : R unit :=
  match key with
  | Some k =>
    if client then
      _r <?- zoom_snd (KeyHasFunds client k MinDeployBalance)
        onerr err => Add (mkResult "deploy" "D5" "deployer has sufficient funds" FAIL (Error err)
                            "Fund the deployer account before deploying");
      Add (mkResult "deploy" "D5" "deployer has sufficient funds" PASS "balance above minimum threshold" "")
    else mret tt
  | None => mret tt
  end.

Definition RegisterDeployChecks (client : bool) (key : option bytes) (addresses : gmap string bytes)
    (extensionEnvPath : string) : R unit :=
  l1 ← zoom_snd (map_range addresses);
  zeroAddrs ← check_zero l1 ∅;
  l2 ← zoom_snd (map_range addresses);
  check_code client l2 zeroAddrs ;;
  c ← zoom_snd CheckDeployerKeySource;
  Add c ;;
  check_funds client key ;;
  (if client then c ← zoom_snd checkChainID; Add c else mret tt) ;;
  (if nonempty extensionEnvPath then l ← zoom_snd (CheckExtensionEnvFormat extensionEnvPath); add_all l
   else mret tt).

(** ** Step 2: registration

    [registry] and [allowlist] tell whether the bindings are not nil. *)

Definition reg (id name : string) (st : Status) (msg fix_ : string) : R unit :=
  Add (mkResult "register" id name st msg fix_).

(** R1: the counter, nil when the call fails. *)
Definition check_counter (client registry : bool) : R bigint :=
  if registry && client then
    counter <?- zoom_snd NextPublicExtensionId
      onerr err => (reg "R1" "next public extension id" FAIL
                      ("failed to query nextPublicExtensionId: " +:+ Error err) "" ;; mret None);
    match counter with
    | None => lift (Panic "nil pointer dereference")
    | Some n =>
      (if n =? 0 then
         reg "R1" "next public extension id" WARN
           "nextPublicExtensionId is 0 — no public extensions registered yet" ""
       else reg "R1" "next public extension id" PASS ("nextPublicExtensionId = " +:+ pretty n) "") ;;
      mret counter
    end
  else mret None.

(** R2: the registered sender. *)
Definition check_sender (client registry : bool) (extensionID : Z) (instrSender : string) : R unit :=
  let name := "instruction sender matches on-chain" in
  if registry && client && MatchString addressRegex instrSender then
    onChainSender <?- zoom_snd (GetTeeExtensionInstructionsSender extensionID)
      onerr err => reg "R2" name FAIL ("failed to query instruction sender: " +:+ Error err) "";
    if bool_decide (onChainSender = HexToAddress instrSender)
    then reg "R2" name PASS ("on-chain sender " +:+ Address_Hex onChainSender +:+ " matches extension.env") ""
    else reg "R2" name FAIL ("on-chain sender " +:+ Address_Hex onChainSender +:+ " != extension.env " +:+ instrSender)
           "Re-register the extension or update extension.env"
  else mret tt.

(** R3: the deployer's right to own machines. *)
Definition check_owner (client allowlist : bool) (key : option bytes) (extensionID : Z) : R unit :=
  let name := "deployer is allowed TEE machine owner" in
  match key with
  | Some deployerAddr =>
    if allowlist && client then
      allowed <?- zoom_snd (IsAllowedTeeMachineOwner extensionID deployerAddr)
        onerr err => reg "R3" name FAIL ("failed to query allowlist: " +:+ Error err) "";
      if allowed : bool then reg "R3" name PASS "deployer is on the TEE machine owner allowlist" ""
      else reg "R3" name FAIL "deployer is NOT on the TEE machine owner allowlist"
             "Run the register step to add the deployer as a TEE machine owner"
    else mret tt
  | None => mret tt
  end.

(** R4: the EVM key type. *)
Definition check_key_type (client registry : bool) (extensionID : Z) : R unit :=
  let name := "EVM key type supported" in
  if registry && client then
    supported <?- zoom_snd (IsKeyTypeSupported extensionID (copy_to 32 (EVMType (W := W))))
      onerr err => reg "R4" name FAIL ("failed to query key type support: " +:+ Error err) "";
    if supported : bool then reg "R4" name PASS "EVM key type is supported for this extension" ""
    else reg "R4" name FAIL "EVM key type is NOT supported for this extension"
           "Run the register step to add EVM key type support"
  else mret tt.

(** R7: the loop over the registered extensions; a failed query is skipped. *)
Fixpoint matching_ids (k : nat) (i : Z) (expectedAddr : bytes) : M W (list string) :=
  match k with
  | O => mret []
  | S k =>
    sender <?- GetTeeExtensionInstructionsSender i onerr _e => matching_ids k (i + 1) expectedAddr;
    rest ← matching_ids k (i + 1) expectedAddr;
    mret (if bool_decide (sender = expectedAddr) then pretty i :: rest else rest)
  end.

Definition check_unique_sender (client registry : bool) (counter : bigint) (instrSender : string) : R unit :=
  let name := "unique instruction sender" in
  match counter with
  | Some n =>
    if (0 <? n) && MatchString addressRegex instrSender && registry && client then
      matchingIDs ← zoom_snd (matching_ids (Z.to_nat (int64 n)) 0 (HexToAddress instrSender));
      if 1 <? llen matchingIDs
      then reg "R7" name WARN ("INSTRUCTION_SENDER " +:+ instrSender +:+ " is used by multiple extensions: " +:+
                               Join matchingIDs ", ") ""
      else reg "R7" name PASS "instruction sender is unique across registered extensions" ""
    else mret tt
  | None => mret tt
  end.

Definition RegisterRegistrationChecks (client : bool) (key : option bytes) (registry allowlist : bool)
    (extensionEnvPath : string) : R unit :=
  let skipped st msg := reg "R1-R7" "registration checks" st msg "" in
  if String.eqb extensionEnvPath "" then skipped SKIP "no --config path provided" else
  ei <?- zoom_snd (parseExtensionEnv extensionEnvPath)
    onerr err => skipped FAIL ("failed to parse extension.env: " +:+ Error err);
  let '(extIDStr, instrSender) := ei in
  if String.eqb extIDStr "" && String.eqb instrSender ""
  then skipped SKIP "config/extension.env not found — run pre-build.sh first" else
  counter ← check_counter client registry;
  if negb (MatchString extensionIDRegex extIDStr)
  then reg "R2" "EXTENSION_ID format" FAIL ("malformed EXTENSION_ID: " +:+ quote extIDStr) fix_env else
  let extensionID := hex_value (drop_string 2 extIDStr) 0 in
  check_sender client registry extensionID instrSender ;;
  check_owner client allowlist key extensionID ;;
  check_key_type client registry extensionID ;;
  check_unique_sender client registry counter instrSender.

(** ** Step 3: services *)

Definition svc (id name : string) (st : Status) (msg fix_ : string) : R unit :=
  Add (mkResult "services" id name st msg fix_).

Definition check_extension_id (extensionEnvPath : string) : R unit :=
  let name := "EXTENSION_ID is set and well-formed" in
  if String.eqb extensionEnvPath "" then svc "S2" name SKIP "run pre-build.sh first" "" else
  ei ← zoom_snd (parseExtensionEnv extensionEnvPath);
  let extID := fst ei in
  if String.eqb extID "" then svc "S2" name FAIL "EXTENSION_ID is empty or not found in extension.env" fix_env
  else if negb (MatchString extensionIDRegex extID)
  then svc "S2" name FAIL ("EXTENSION_ID has invalid format: " +:+ quote extID) fix_env
  else svc "S2" name PASS extID "".

Definition check_port_free : R unit :=
  port ← env "EXTENSION_PORT";
  let port := if String.eqb port "" then "7702" else port in
  in_use ← zoom_snd (DialTimeout ("localhost:" +:+ port) (1 * second));
  if in_use : bool
  then svc "S5" "extension port not in use" WARN
         ("port " +:+ port +:+ " is already in use — extension server will fail to bind")
         "Stop the process using that port or change EXTENSION_PORT"
  else svc "S5" "extension port not in use" PASS "port available" "".

Definition check_ports : R unit :=
  extPort ← env "EXTENSION_PORT";
  signPort ← env "SIGN_PORT";
  if nonempty extPort || nonempty signPort
  then svc "S7" "port configuration" PASS ("EXTENSION_PORT=" +:+ extPort +:+ ", SIGN_PORT=" +:+ signPort) ""
  else svc "S7" "port configuration" PASS "using defaults (standalone: 8080/9090, Docker: 7702/7701)" "".

(** A check that a URL of the environment is reachable: the texts differ. *)
Definition check_reachable (step id name var unset ok ko fix_ : string) : R unit :=
  url ← env var;
  if String.eqb url "" then Add (mkResult step id name SKIP unset "") else
  up ← zoom_snd (proxy_reachable url);
  let at_url m := match SplitN2 m "%" with (a, Some b) => a +:+ url +:+ b | (a, None) => a end in
  if up : bool then Add (mkResult step id name PASS (at_url ok) "")
  else Add (mkResult step id name WARN (at_url ko) fix_).

Definition check_proxy_key : R unit :=
  let name := "PROXY_PRIVATE_KEY set on non-local" in
  localMode ← env "LOCAL_MODE";
  privateKey ← env "PROXY_PRIVATE_KEY";
  if String.eqb localMode "true" || String.eqb localMode ""
  then svc "S10" name PASS "local mode, dev key OK" ""
  else if String.eqb localMode "false" && String.eqb privateKey ""
  then svc "S10" name WARN "PROXY_PRIVATE_KEY not set in non-local mode — proxy will use default key"
         "Set PROXY_PRIVATE_KEY in .env for non-local deployments"
  else svc "S10" name PASS "PROXY_PRIVATE_KEY is configured" "".

Definition RegisterServicesChecks (extensionEnvPath : string) : R unit :=
  check_extension_id extensionEnvPath ;;
  check_port_free ;;
  check_ports ;;
  check_reachable "services" "S9" "EXT_PROXY_URL reachable" "EXT_PROXY_URL" "EXT_PROXY_URL not set"
    "proxy reachable at %" "proxy not reachable at % — is the proxy running?"
    "Start the proxy or check EXT_PROXY_URL" ;;
  check_proxy_key.

(** ** Step 4: TEE version *)

Definition ver (id name : string) (st : Status) (msg fix_ : string) : R unit :=
  Add (mkResult "tee-version" id name st msg fix_).

Definition check_owner_key : R unit :=
  let name := "extension owner key" in
  extOwnerKey ← env "EXTENSION_OWNER_KEY";
  privKey ← env "DEPLOYMENT_PRIVATE_KEY";
  localMode ← env "LOCAL_MODE";
  if nonempty extOwnerKey then ver "V2" name PASS "EXTENSION_OWNER_KEY is configured" ""
  else if nonempty privKey
  then ver "V2" name PASS "using DEPLOYMENT_PRIVATE_KEY (EXTENSION_OWNER_KEY not set)" ""
  else if negb (String.eqb localMode "true") && nonempty localMode
  then ver "V2" name WARN
         "neither EXTENSION_OWNER_KEY nor DEPLOYMENT_PRIVATE_KEY set — AddTeeVersion will use dev key which isn't the extension owner on Coston2"
         "Set EXTENSION_OWNER_KEY or DEPLOYMENT_PRIVATE_KEY in .env"
  else ver "V2" name PASS "using dev key (local mode)" "".

Definition check_version_id (extensionEnvPath : string) : R unit :=
  let name := "EXTENSION_ID valid" in
  if String.eqb extensionEnvPath "" then ver "V4" name SKIP "no --config provided" "" else
  ei <?- zoom_snd (parseExtensionEnv extensionEnvPath)
    onerr err => ver "V4" name FAIL ("failed to parse extension.env: " +:+ Error err) "";
  let extID := fst ei in
  if String.eqb extID "" then
    missing ← zoom_snd (IsNotExist extensionEnvPath);
    if missing : bool then ver "V4" name SKIP "extension.env not found — run pre-build.sh first" ""
    else ver "V4" name FAIL "EXTENSION_ID not set" fix_env
  else if negb (MatchString extensionIDRegex extID) then ver "V4" name FAIL "EXTENSION_ID malformed" fix_env
  else ver "V4" name PASS extID "".

Definition RegisterTeeVersionChecks (extensionEnvPath : string) : R unit :=
  check_owner_key ;;
  check_version_id extensionEnvPath ;;
  check_reachable "tee-version" "V6" "proxy reachable" "EXT_PROXY_URL"
    "EXT_PROXY_URL not set — allow-tee-version uses -p flag"
    "proxy reachable at %" "proxy not reachable at % — start services first"
    "Start the proxy or check EXT_PROXY_URL".

(** ** Step 5: TEE machine *)

Definition check_simulated : R unit :=
  let add st msg fix_ := Add (mkResult "tee-machine" "T1" "SIMULATED_TEE mode" st msg fix_) in
  simulatedTee ← env "SIMULATED_TEE";
  localMode ← env "LOCAL_MODE";
  if String.eqb simulatedTee "true" && String.eqb localMode "false"
  then add WARN "SIMULATED_TEE=true on non-local deployment — machine will be registered with test attestation values. Set SIMULATED_TEE=false for real TEE hardware"
         "Set SIMULATED_TEE=false in .env when deploying to a real GCP TEE"
  else if String.eqb simulatedTee "true" then add PASS "simulated TEE mode (local)" ""
  else add PASS "real attestation mode" "".

Definition RegisterTeeMachineChecks (extensionEnvPath : string) : R unit :=
  check_simulated ;;
  check_reachable "tee-machine" "T5" "NORMAL_PROXY_URL reachable" "NORMAL_PROXY_URL" "NORMAL_PROXY_URL not set"
    "normal proxy reachable at %"
    "normal proxy not reachable at % — required for FTDC availability check"
    "Ensure the normal/FTDC proxy is running and NORMAL_PROXY_URL is correct in .env" ;;
  check_reachable "tee-machine" "T10" "host URL reachable" "EXT_PROXY_URL" "EXT_PROXY_URL not set"
    "host URL reachable at %"
    "host URL not reachable at % — machine will be registered with unreachable host. Data providers can't relay instructions"
    "Ensure the host is accessible and EXT_PROXY_URL or -h flag points to the right URL".

(** ** Step 6: tests *)

Definition check_test_sender (extensionEnvPath : string) : R unit :=
  let add st msg fix_ := Add (mkResult "test" "E1" "INSTRUCTION_SENDER valid" st msg fix_) in
  if String.eqb extensionEnvPath "" then add SKIP "no --config provided" "" else
  ei ← zoom_snd (parseExtensionEnv extensionEnvPath);
  let instrSender := snd ei in
  missing ← zoom_snd (IsNotExist extensionEnvPath);
  if missing : bool then add SKIP "extension.env not found — run pre-build.sh first" ""
  else if String.eqb instrSender ""
  then add FAIL "INSTRUCTION_SENDER not set — run pre-build.sh" "Run scripts/pre-build.sh to deploy and register the extension"
  else if negb (MatchString addressRegex instrSender) then add FAIL "INSTRUCTION_SENDER malformed" fix_env
  else add PASS instrSender "".

Definition RegisterTestChecks (extensionEnvPath : string) : R unit :=
  check_test_sender extensionEnvPath ;;
  check_reachable "test" "E3" "proxy reachable for test results" "EXT_PROXY_URL" "EXT_PROXY_URL not set"
    "proxy reachable for test result polling" "proxy not reachable — test results cannot be polled"
    "Start the proxy or check EXT_PROXY_URL" ;;
  Add (mkResult "test" "E6" "OPType/OPCommand alignment info" PASS
    "OPType/OPCommand hashes are validated at runtime — if a 501 error occurs, check the hash values in the error message" "").

Definition RegisterStubChecks (step idRange name : string) : R unit :=
  Add (mkResult step idRange name SKIP "not yet implemented" "").
End Checks.
