(* ===== verification/CheckSpecs.v ===== *)
(** * Correctness of the deployment checks

    Which results each step adds, whatever the environment and the chain
    answer, and the agreement of the two parsers of extension.env. *)

From S2P Require Import Prelude GoStd RegExp GoEth Reference Bundle NetStd Report Checks.

(** ** What a computation adds to the report

    [emits m Q]: from every report and host state [m] returns, keeps the
    report's results and adds some that satisfy [Q]. *)
Section emits.
  Context {W : Type}.

Definition emits {A} (m : M (Report * W) A) (Q : A -> list CheckResult -> Prop) : Prop :=
  forall r w, exists a new w', m (r, w) = (Ok a, (r ++ new, w')) /\ Q a new.

(** An operation of the host that returns. *)
Definition returns {A} (m : M W A) : Prop := forall w, exists a w', m w = (Ok a, w').

Lemma returns_total {A} (m : W -> A * W) : returns (total m).
Proof. intros w. unfold total. destruct (m w). eauto. Qed.

Lemma returns_bind {A B} (m : M W A) (k : A -> M W B) :
  returns m -> (forall a, returns (k a)) -> returns (m ≫= k).
Proof. intros Hm Hk w. destruct (Hm w) as (a & w1 & H1). unfold mbind, M_bind. rewrite H1. apply Hk. Qed.

Lemma returns_ret {A} (a : A) : returns (mret a).
Proof. intros w. unfold mret, M_ret. eauto. Qed.

Lemma emits_weaken {A} (m : M (Report * W) A) (Q Q' : A -> list CheckResult -> Prop) :
  emits m Q -> (forall a l, Q a l -> Q' a l) -> emits m Q'.
Proof. intros H HQ r w. destruct (H r w) as (a & new & w' & ? & ?). eauto 10. Qed.

Lemma emits_bind {A B} (m : M (Report * W) A) (k : A -> M (Report * W) B) Q Q' :
  emits m Q -> (forall a l, Q a l -> emits (k a) (fun b l' => Q' b (l ++ l'))) -> emits (m ≫= k) Q'.
Proof.
  intros Hm Hk r w. destruct (Hm r w) as (a & l & w1 & H1 & HQ).
  destruct (Hk a l HQ (r ++ l) w1) as (b & l' & w2 & H2 & HQ').
  exists b, (l ++ l'), w2. unfold mbind, M_bind. rewrite H1, H2. by rewrite (assoc (++)).
Qed.

Lemma emits_ret {A} (a : A) Q : Q a [] -> emits (mret a) Q.
Proof. intros HQ r w. exists a, [], w. by rewrite app_nil_r. Qed.

Lemma emits_Add c Q : Q tt [c] -> emits (Add c) Q.
Proof. intros HQ r w. by exists tt, [c], w. Qed.

Lemma emits_zoom {A} (m : M W A) (Q : A -> list CheckResult -> Prop) :
  returns m -> (forall a, Q a []) -> emits (zoom_snd m) Q.
Proof.
  intros Hm HQ r w. destruct (Hm w) as (a & w1 & H1). exists a, [], w1.
  unfold zoom_snd. rewrite H1, app_nil_r. auto.
Qed.

Lemma emits_on_error {A B} (m : M W A) (h : error -> M (Report * W) B) (k : A -> M (Report * W) B)
    (P : A -> Prop) Q :
  no_panic m -> (forall w a w', m w = (Ok a, w') -> P a) ->
  (forall e, emits (h e) Q) -> (forall a, P a -> emits (k a) Q) -> emits (on_error (zoom_snd m) h k) Q.
Proof.
  intros Hm HP Hh Hk r w. unfold on_error, zoom_snd. destruct (m w) as [[a|e|p] w1] eqn:E.
  - apply Hk. by eapply HP.
  - apply Hh.
  - by apply Hm in E.
Qed.

(** Results of one step with given IDs, in order. *)
Definition ids_of (step : string) (ids : list string) (l : list CheckResult) : Prop :=
  cr_ID <$> l = ids /\ Forall (fun c => Step c = step) l.

Lemma ids_of_app step i1 i2 l1 l2 : ids_of step i1 l1 -> ids_of step i2 l2 -> ids_of step (i1 ++ i2) (l1 ++ l2).
Proof. intros [<- ?] [<- ?]. split; [by rewrite fmap_app|by apply Forall_app]. Qed.

Lemma emits_seq {A B} (m1 : M (Report * W) A) (m2 : M (Report * W) B) step i1 i2 :
  emits m1 (fun _ => ids_of step i1) -> emits m2 (fun _ => ids_of step i2) ->
  emits (m1 ;; m2) (fun _ => ids_of step (i1 ++ i2)).
Proof.
  intros H1 H2. eapply emits_bind; [exact H1|]. intros a l Hl. eapply emits_weaken; [exact H2|].
  intros b l' Hl'. by apply ids_of_app.
Qed.
End emits.

(** What the checks assume of the host: its operations may fail but do not
    panic, a big integer of a successful query is not nil, and a range over a
    map visits each of its entries once. *)
Record quiet_host {W} {EC : EthClient W} (HO : Host W) : Prop := {
  qh_code : forall c a b, no_panic (W := W) (CodeAt c a b);
  qh_balance : forall c a b, no_panic (W := W) (BalanceAt c a b);
  qh_balance_some : forall c a b (w : W) n w', BalanceAt c a b w = (Ok n, w') -> is_Some n;
  qh_chain : forall c, no_panic (W := W) (ChainID c);
  qh_range : forall m (w : W), fst (range_map m w) ≡ₚ map_to_list m;
  qh_http : forall ms url, no_panic (W := W) (HttpGet ms url);
  qh_counter : no_panic (W := W) NextPublicExtensionId;
  qh_counter_some : forall (w : W) n w', NextPublicExtensionId w = (Ok n, w') -> is_Some n;
  qh_sender : forall i, no_panic (W := W) (GetTeeExtensionInstructionsSender i);
  qh_owner : forall i a, no_panic (W := W) (IsAllowedTeeMachineOwner i a);
  qh_key_type : forall i t, no_panic (W := W) (IsKeyTypeSupported i t);
}.

Section quiet.
  Context {W : Type} {EC : EthClient W} {HO : Host W} (HQ : quiet_host HO).

Lemma returns_parse path : returns (W := W) (parseExtensionEnv path).
Proof. apply returns_bind; [apply returns_total|]. intros f. apply returns_ret. Qed.

Lemma no_panic_returns {A} (m : M W A) : returns m -> no_panic m.
Proof. intros H w p w' Hp. destruct (H w) as (a & w1 & Ha). congruence. Qed.

Lemma returns_reachable url : returns (W := W) (proxy_reachable url).
Proof.
  intros w. unfold proxy_reachable. destruct (HttpGet _ _ w) as [[st|e|p] w1] eqn:E; [eauto..|].
  by apply (qh_http _ HQ) in E.
Qed.

Lemma returns_matching k i a : returns (W := W) (matching_ids k i a).
Proof.
  revert i. induction k as [|k IH]; intros i; [apply returns_ret|]. intros w. cbn [matching_ids].
  unfold on_error. destruct (GetTeeExtensionInstructionsSender i w) as [[s|e|p] w1] eqn:E.
  - apply returns_bind; [apply IH|]. intros l. apply returns_ret.
  - apply IH.
  - by apply (qh_sender _ HQ) in E.
Qed.
End quiet.

#[export] Hint Resolve returns_total returns_ret returns_parse returns_reachable returns_matching
  no_panic_returns qh_http qh_counter qh_sender qh_owner qh_key_type : quiet.

Ltac returns_op := unfold env, Getenv, Open, IsNotExist, DialTimeout, map_range; eauto with quiet.

(** One check: read the host, then add one result. *)
Ltac one_check :=
  cbv zeta;
  repeat match goal with
  | |- emits (if ?b then _ else _) _ => destruct b
  | |- emits (match ?x with _ => _ end) _ => destruct x
  | |- emits (env _ ≫= _) _ => apply (emits_bind _ _ (fun _ l => l = [])); [apply emits_zoom; [returns_op|done]|intros ? ? ->]
  | |- emits (zoom_snd _ ≫= _) _ => apply (emits_bind _ _ (fun _ l => l = [])); [apply emits_zoom; [returns_op|done]|intros ? ? ->]
  | |- emits (on_error (zoom_snd _) _ _) _ =>
      apply (emits_on_error _ _ _ (fun _ => True)); [returns_op|done|intros ?|intros ? _]
  | |- emits (Add _) _ => apply emits_Add; split; [reflexivity|by repeat constructor]
  | |- emits (svc _ _ _ _ _) _ => unfold svc
  | |- emits (ver _ _ _ _ _) _ => unfold ver
  | |- emits (reg _ _ _ _ _) _ => unfold reg
  | |- emits (mret _) _ => apply emits_ret
  end.

Section checks.
  Context {GE : GoEthereum} {W : Type} {EC : EthClient W} {HO : Host W} (HQ : quiet_host HO).

Lemma check_reachable_ids step id name var a b c d :
  emits (W := W) (check_reachable step id name var a b c d) (fun _ => ids_of step [id]).
Proof. unfold check_reachable. one_check. Qed.
Lemma check_extension_id_ids path : emits (W := W) (check_extension_id path) (fun _ => ids_of "services" ["S2"]).
Proof. unfold check_extension_id. one_check. Qed.
Lemma check_port_free_ids : emits (W := W) check_port_free (fun _ => ids_of "services" ["S5"]).
Proof. unfold check_port_free. one_check. Qed.
Lemma check_ports_ids : emits (W := W) check_ports (fun _ => ids_of "services" ["S7"]).
Proof. unfold check_ports. one_check. Qed.
Lemma check_proxy_key_ids : emits (W := W) check_proxy_key (fun _ => ids_of "services" ["S10"]).
Proof. unfold check_proxy_key. one_check. Qed.
Lemma check_owner_key_ids : emits (W := W) check_owner_key (fun _ => ids_of "tee-version" ["V2"]).
Proof. unfold check_owner_key. one_check. Qed.
Lemma check_version_id_ids path : emits (W := W) (check_version_id path) (fun _ => ids_of "tee-version" ["V4"]).
Proof. unfold check_version_id. one_check. Qed.
Lemma check_simulated_ids : emits (W := W) check_simulated (fun _ => ids_of "tee-machine" ["T1"]).
Proof. unfold check_simulated. one_check. Qed.
Lemma check_test_sender_ids path : emits (W := W) (check_test_sender path) (fun _ => ids_of "test" ["E1"]).
Proof. unfold check_test_sender. one_check. Qed.
End checks.

(** ** The IDs of each step *)
Section steps.
  Context {GE : GoEthereum} {W : Type} {EC : EthClient W} {HO : Host W} (HQ : quiet_host HO).

Lemma services_ids path :
  emits (W := W) (RegisterServicesChecks path) (fun _ => ids_of "services" ["S2"; "S5"; "S7"; "S9"; "S10"]).
Proof.
  unfold RegisterServicesChecks.
  apply (emits_seq _ _ "services" ["S2"] ["S5"; "S7"; "S9"; "S10"]); [by apply check_extension_id_ids|].
  apply (emits_seq _ _ "services" ["S5"] ["S7"; "S9"; "S10"]); [by apply check_port_free_ids|].
  apply (emits_seq _ _ "services" ["S7"] ["S9"; "S10"]); [by apply check_ports_ids|].
  apply (emits_seq _ _ "services" ["S9"] ["S10"]); [by apply check_reachable_ids|by apply check_proxy_key_ids].
Qed.

Lemma tee_version_ids path :
  emits (W := W) (RegisterTeeVersionChecks path) (fun _ => ids_of "tee-version" ["V2"; "V4"; "V6"]).
Proof.
  unfold RegisterTeeVersionChecks.
  apply (emits_seq _ _ "tee-version" ["V2"] ["V4"; "V6"]); [by apply check_owner_key_ids|].
  apply (emits_seq _ _ "tee-version" ["V4"] ["V6"]); [by apply check_version_id_ids|by apply check_reachable_ids].
Qed.

Lemma tee_machine_ids path :
  emits (W := W) (RegisterTeeMachineChecks path) (fun _ => ids_of "tee-machine" ["T1"; "T5"; "T10"]).
Proof.
  unfold RegisterTeeMachineChecks.
  apply (emits_seq _ _ "tee-machine" ["T1"] ["T5"; "T10"]); [by apply check_simulated_ids|].
  apply (emits_seq _ _ "tee-machine" ["T5"] ["T10"]); by apply check_reachable_ids.
Qed.

Lemma test_ids path : emits (W := W) (RegisterTestChecks path) (fun _ => ids_of "test" ["E1"; "E3"; "E6"]).
Proof.
  unfold RegisterTestChecks.
  apply (emits_seq _ _ "test" ["E1"] ["E3"; "E6"]); [by apply check_test_sender_ids|].
  apply (emits_seq _ _ "test" ["E3"] ["E6"]); [by apply check_reachable_ids|one_check].
Qed.

(** ** The deployment step *)

Definition no_address (kv : string * bytes) : Prop := kv.2 = zero_address.

Lemma check_zero_ids l z :
  emits (W := W) (check_zero l z) (fun z' new => ids_of "deploy" (replicate (length l) "D3") new /\
    forall k, k ∈ z' <-> k ∈ z \/ exists a, (k, a) ∈ l /\ a = zero_address).
Proof.
  revert z. induction l as [|[label a] l IH]; intros z; simpl.
  - apply emits_ret. split; [done|]. set_solver.
  - unfold AddressNotZero. case_bool_decide as Ha; simpl;
      (eapply (emits_bind _ _ (fun _ new => ids_of "deploy" ["D3"] new)); [apply emits_Add; split; [done|by repeat constructor]|]);
      intros _ new Hnew; (eapply emits_weaken; [apply IH|]); intros z' new' [Hids Hz];
      (split; [by apply (ids_of_app "deploy" ["D3"])|]); intros k; rewrite Hz; setoid_rewrite elem_of_cons; set_solver.
Qed.

Lemma has_code_error client a label : no_panic (W := W) (AddressHasCode client a label).
Proof.
  unfold AddressHasCode. intros w p w'. destruct client; [|done]. simpl. unfold on_error.
  destruct (CodeAt _ _ _ w) as [[c|e|q] w1] eqn:E; [by destruct (_ =? _)|done|]. by apply (qh_code _ HQ) in E.
Qed.

Lemma check_code_ids client l z :
  emits (W := W) (check_code client l z) (fun _ =>
    ids_of "deploy" (replicate (length (filter (fun kv => kv.1 ∉ z) l)) "D1")).
Proof.
  induction l as [|[label a] l IH]; simpl; [by apply emits_ret|]. case_decide as Hz.
  - rewrite filter_cons_False by (simpl; tauto). apply IH.
  - rewrite filter_cons_True by done. simpl. apply (emits_seq _ _ "deploy" ["D1"]); [|apply IH].
    apply (emits_on_error _ _ _ (fun _ => True)); [apply has_code_error|done|intros e|intros _ _];
      apply emits_Add; (split; [done|by repeat constructor]).
Qed.

(** The labels of the zero addresses are what both ranges leave out. *)
Lemma filter_zero (m : gmap string bytes) l1 l2 (z : gset string) :
  l1 ≡ₚ map_to_list m -> l2 ≡ₚ map_to_list m -> (forall k, k ∈ z <-> k ∈ (∅ : gset string) \/ exists a, (k, a) ∈ l1 /\ a = zero_address) ->
  length (filter (fun kv => kv.1 ∉ z) l2) = size (filter (fun kv => kv.2 <> zero_address) m).
Proof.
  intros H1 H2 Hz. rewrite map_filter_alt, map_size_list_to_map.
  2:{ eapply sublist_NoDup; [apply (NoDup_fst_map_to_list m)|apply fmap_sublist, sublist_filter]. }
  rewrite H2.
  assert (forall l : list (string * bytes), (forall k a, (k, a) ∈ l -> m !! k = Some a) ->
    filter (fun kv => kv.1 ∉ z) l = filter (fun kv => kv.2 <> zero_address) l) as Hl.
  { induction l as [|[k a] l IH]; intros Hin; [done|]. rewrite !filter_cons. simpl.
    rewrite IH by (intros; apply Hin; by right). specialize (Hin k a ltac:(by left)).
    assert (k ∉ z <-> a <> zero_address) as Hiff; [|repeat case_decide; tauto].
    rewrite Hz. rewrite elem_of_empty. split.
    - intros Hk ->. apply Hk. right. exists zero_address. split; [|done]. rewrite H1. by apply elem_of_map_to_list.
    - intros Ha [[]|(a' & Hin' & ->)]. rewrite H1 in Hin'. apply elem_of_map_to_list in Hin'. congruence. }
  rewrite Hl; [done|]. intros k a. by rewrite elem_of_map_to_list.
Qed.

Lemma funds_ids client key :
  emits (W := W) (check_funds client key) (fun _ =>
    ids_of "deploy" (if client && (if key then true else false) then ["D5"] else [])).
Proof.
  unfold check_funds. destruct key as [k|], client; simpl; try (by apply emits_ret).
  apply (emits_on_error _ _ _ (fun _ => True)); [|done|intros e|intros _ _];
    [|apply emits_Add; (split; [done|by repeat constructor])..].
  unfold KeyHasFunds, on_error. intros w p w'. simpl. destruct (BalanceAt _ _ _ w) as [[b|e|q] w1] eqn:E; [|done|].
  - destruct (qh_balance_some _ HQ _ _ _ _ _ _ E) as [n ->]. unfold mbind, M_bind, lift. simpl. by destruct (n ?= _).
  - by apply (qh_balance _ HQ) in E.
Qed.

Definition deploy_ids (client : bool) (key : option bytes) (addresses : gmap string bytes) (envIDs : list string) : list string :=
  replicate (size addresses) "D3" ++ replicate (size (filter (fun kv => kv.2 <> zero_address) addresses)) "D1" ++
  ["D5"] ++ (if client && (if key then true else false) then ["D5"] else []) ++ (if client then ["D6"] else []) ++ envIDs.

Lemma add_all_ids step l : Forall (fun c => Step c = step) l -> emits (W := W) (add_all l) (fun _ => ids_of step (cr_ID <$> l)).
Proof.
  induction 1 as [|c l Hc _ IH]; simpl; [by apply emits_ret|]. apply (emits_seq _ _ step [cr_ID c]); [|done].
  apply emits_Add. split; [done|by repeat constructor].
Qed.

Definition env_ids (path : string) : list (list string) := if String.eqb path "" then [[]] else [["D7"]; ["D7"; "D7"]].

Lemma env_format_ids path :
  emits (W := W) (if nonempty path then l ← zoom_snd (CheckExtensionEnvFormat path); add_all l else mret tt)
    (fun _ new => exists envIDs, envIDs ∈ env_ids path /\ ids_of "deploy" envIDs new).
Proof.
  unfold nonempty, env_ids. destruct (String.eqb path ""); simpl.
  { apply emits_ret. exists []. split; [by left|done]. }
  eapply (emits_bind _ _ (fun l new => new = [] /\ Forall (fun c => Step c = "deploy") l /\
     (cr_ID <$> l = ["D7"] \/ cr_ID <$> l = ["D7"; "D7"]))).
  - intros r w. unfold zoom_snd, CheckExtensionEnvFormat, mbind, M_bind, Open, total. destruct (os_Open path w) as [[c|] w1].
    + do 3 eexists. split; [by rewrite app_nil_r|]. split; [done|]. unfold env_check.
      split; [repeat constructor; by repeat case_match|right; simpl; by repeat case_match].
    + do 3 eexists. split; [by rewrite app_nil_r|]. split; [done|]. split; [by repeat constructor|by left].
  - intros l new (-> & Hl & Hids). eapply emits_weaken; [by apply add_all_ids|]. intros ? new' Hnew. simpl.
    exists (cr_ID <$> l). split; [|done]. destruct Hids as [-> | ->]; set_solver.
Qed.

Lemma emits_range (m : gmap string bytes) :
  emits (W := W) (zoom_snd (map_range m)) (fun l new => new = [] /\ l ≡ₚ map_to_list m).
Proof.
  intros r w. unfold zoom_snd, map_range, total. pose proof (qh_range _ HQ m w) as Hr. destruct (range_map m w) as [l w1].
  exists l, [], w1. by rewrite app_nil_r.
Qed.

Lemma deploy_step_ids client key addresses path :
  emits (W := W) (RegisterDeployChecks client key addresses path) (fun _ new =>
    exists envIDs, envIDs ∈ env_ids path /\ ids_of "deploy" (deploy_ids client key addresses envIDs) new).
Proof.
  unfold RegisterDeployChecks, deploy_ids.
  eapply emits_bind; [apply emits_range|]. intros l1 ? [-> H1]. simpl.
  eapply emits_bind; [apply check_zero_ids|]. intros z n1 [Hn1 Hz].
  eapply emits_bind; [apply emits_range|]. intros l2 ? [-> H2].
  eapply emits_bind; [apply check_code_ids|]. intros [] n2 Hn2. rewrite (filter_zero _ _ _ _ H1 H2 Hz) in Hn2.
  rewrite H1, length_map_to_list in Hn1.
  eapply (emits_bind _ _ (fun c new => new = [] /\ Step c = "deploy" /\ cr_ID c = "D5")).
  { intros r w. unfold zoom_snd, CheckDeployerKeySource, mbind, M_bind, Getenv, total.
    destruct (os_Getenv _ w) as [k w1]. destruct (nonempty k); [do 3 eexists; split; [by rewrite app_nil_r|done]|].
    destruct (os_Getenv _ w1) as [m w2]. destruct (_ || _)%bool; (do 3 eexists; split; [by rewrite app_nil_r|done]). }
  intros c ? (-> & Hc1 & Hc2).
  eapply (emits_bind _ _ (fun _ => ids_of "deploy" ["D5"])).
  { apply emits_Add. split; [simpl; congruence|by repeat constructor]. }
  intros [] n3 Hn3. eapply emits_bind; [apply funds_ids|]. intros [] n4 Hn4.
  eapply (emits_bind _ _ (fun _ => ids_of "deploy" (if client then ["D6"] else []))).
  { destruct client; [|by apply emits_ret].
    eapply (emits_bind _ _ (fun c new => new = [] /\ Step c = "deploy" /\ cr_ID c = "D6")).
    - intros r w. unfold zoom_snd, checkChainID, on_error. destruct (ChainID _ w) as [[n|e|q] w1] eqn:E;
        [do 3 eexists; (split; [by rewrite app_nil_r|done])..|]. by apply (qh_chain _ HQ) in E.
    - intros c' ? (-> & Hd1 & Hd2). apply emits_Add. split; [simpl; congruence|by repeat constructor]. }
  intros [] n5 Hn5. eapply emits_weaken; [apply env_format_ids|]. intros ? n6 (envIDs & He & Hn6). exists envIDs. split; [done|].
  rewrite !app_nil_l. apply ids_of_app; [done|]. apply ids_of_app; [done|]. apply (ids_of_app "deploy" ["D5"]); [done|].
  apply ids_of_app; [done|]. by apply ids_of_app.
Qed.

(** ** The registration step *)

Ltac reg_check :=
  cbv zeta; unfold reg;
  repeat match goal with
  | |- emits (if ?b then _ else _) _ => destruct b
  | |- emits (on_error (zoom_snd _) _ _) _ =>
      apply (emits_on_error _ _ _ (fun _ => True)); [returns_op|done|intros ?|intros ? _]
  | |- emits (zoom_snd _ ≫= _) _ => apply (emits_bind _ _ (fun _ l => l = [])); [apply emits_zoom; [returns_op|done]|intros ? ? ->]
  | |- emits (Add _) _ => apply emits_Add; split; [reflexivity|by repeat constructor]
  | |- emits (mret _) _ => apply emits_ret; done
  end.

Definition when (b : bool) (id : string) : list string := if b then [id] else [].

Lemma check_sender_ids c r i s :
  emits (W := W) (check_sender c r i s) (fun _ => ids_of "register" (when (r && c && MatchString addressRegex s) "R2")).
Proof. unfold check_sender, when. destruct (_ && _ && _)%bool; reg_check. Qed.
Lemma check_owner_ids c a k i :
  emits (W := W) (check_owner c a k i) (fun _ => ids_of "register" (when ((if k then true else false) && a && c) "R3")).
Proof. unfold check_owner, when. destruct k as [k|]; [|reg_check]. simpl. destruct (_ && _)%bool; reg_check. Qed.
Lemma check_key_type_ids c r i :
  emits (W := W) (check_key_type c r i) (fun _ => ids_of "register" (when (r && c) "R4")).
Proof. unfold check_key_type, when. destruct (_ && _)%bool; reg_check. Qed.

Definition extensions_exist (counter : bigint) : bool := match counter with Some n => 0 <? n | None => false end.

Lemma check_unique_sender_ids c r n s :
  emits (W := W) (check_unique_sender c r n s)
    (fun _ => ids_of "register" (when (extensions_exist n && MatchString addressRegex s && r && c) "R7")).
Proof. unfold check_unique_sender, when. destruct n as [n|]; [|reg_check]. simpl. destruct (_ && _ && _ && _)%bool; reg_check. Qed.

(** What the query of the counter answers from [w]. *)
Definition counter_answer (client registry : bool) (w : W) : bigint :=
  if registry && client then match NextPublicExtensionId w with (Ok n, _) => n | _ => None end else None.

Lemma check_counter_run c r (rep : Report) (w : W) : exists new w',
  check_counter c r (rep, w) = (Ok (counter_answer c r w), (rep ++ new, w')) /\ ids_of "register" (when (r && c) "R1") new.
Proof.
  unfold check_counter, counter_answer, when, on_error, zoom_snd, reg. destruct (r && c)%bool.
  2:{ exists [], w. by rewrite app_nil_r. }
  destruct (NextPublicExtensionId w) as [[n|e|p] w1] eqn:E.
  - destruct (qh_counter_some _ HQ _ _ _ E) as [k ->]. unfold mbind, M_bind.
    destruct (k =? 0); (do 2 eexists; split; [done|]); (split; [done|by repeat constructor]).
  - do 2 eexists. split; [done|]. split; [done|by repeat constructor].
  - by apply (qh_counter _ HQ) in E.
Qed.

(** The checks of the registration step, from the two values of
    extension.env and the counter. *)
Definition registration_ids (client : bool) (key : option bytes) (registry allowlist : bool) (extID sender : string) (counter : bigint)
  : list string :=
  if String.eqb extID "" && String.eqb sender "" then ["R1-R7"] else
  when (registry && client) "R1" ++
  (if MatchString extensionIDRegex extID then
     when (registry && client && MatchString addressRegex sender) "R2" ++
     when ((if key then true else false) && allowlist && client) "R3" ++
     when (registry && client) "R4" ++
     when (extensions_exist counter && MatchString addressRegex sender && registry && client) "R7"
   else ["R2"]).

(** What the step adds to a report, from [w]. *)
Definition registration_adds (client : bool) (key : option bytes) (registry allowlist : bool) (path : string) (w : W)
    (new : list CheckResult) : Prop :=
  if String.eqb path "" then ids_of "register" ["R1-R7"] new else
  exists extID sender w1, parseExtensionEnv path w = (Ok (extID, sender), w1) /\
    ids_of "register" (registration_ids client key registry allowlist extID sender (counter_answer client registry w1)) new.

Lemma registration_step client key registry allowlist path (r : Report) (w : W) : exists new w',
  RegisterRegistrationChecks client key registry allowlist path (r, w) = (Ok tt, (r ++ new, w')) /\
  registration_adds client key registry allowlist path w new.
Proof.
  unfold RegisterRegistrationChecks, registration_adds, registration_ids. cbv zeta. unfold reg.
  destruct (String.eqb path ""); [do 2 eexists; split; [done|]; split; [done|by repeat constructor]|].
  destruct (returns_parse path w) as ([extID sender] & w1 & Hp). unfold on_error at 1, zoom_snd at 1. rewrite Hp.
  destruct (_ && _)%bool eqn:Hempty.
  { do 2 eexists. split; [done|]. exists extID, sender, w1. split; [done|]. rewrite Hempty. split; [done|by repeat constructor]. }
  destruct (check_counter_run client registry r w1) as (n1 & w2 & Hc & Hn1). unfold mbind at 1, M_bind at 1. rewrite Hc.
  destruct (MatchString extensionIDRegex extID) eqn:Hm; simpl negb; cbn iota.
  - assert (emits (W := W) (check_sender client registry (hex_value (drop_string 2 extID) 0) sender ;;
      check_owner client allowlist key (hex_value (drop_string 2 extID) 0) ;; check_key_type client registry (hex_value (drop_string 2 extID) 0) ;;
      check_unique_sender client registry (counter_answer client registry w1) sender) (fun _ => ids_of "register"
       (when (registry && client && MatchString addressRegex sender) "R2" ++
        when ((if key then true else false) && allowlist && client) "R3" ++ when (registry && client) "R4" ++
        when (extensions_exist (counter_answer client registry w1) && MatchString addressRegex sender && registry && client) "R7")))
      as Hrest.
    { apply emits_seq; [apply check_sender_ids|]. apply emits_seq; [apply check_owner_ids|].
      apply emits_seq; [apply check_key_type_ids|apply check_unique_sender_ids]. }
    destruct (Hrest (r ++ n1) w2) as ([] & n2 & w3 & Hrun & Hn2). exists (n1 ++ n2), w3. split; [by rewrite (assoc_L (++))|].
    exists extID, sender, w1. split; [done|]. rewrite Hempty, Hm. by apply ids_of_app.
  - exists (n1 ++ [mkResult "register" "R2" "EXTENSION_ID format" FAIL ("malformed EXTENSION_ID: " +:+ quote extID) fix_env]), w2.
    split; [by rewrite (assoc_L (++))|]. exists extID, sender, w1. split; [done|]. rewrite Hempty, Hm.
    apply ids_of_app; [done|]. split; [done|by repeat constructor].
Qed.
End steps.

(** ** The two parsers of extension.env *)

Definition lookup_or (vars : gmap string string) (k : string) : string :=
  match vars !! k with Some v => v | None => "" end.

Lemma env_loop_vars lines vars a b :
  lookup_or vars "EXTENSION_ID" = a -> lookup_or vars "INSTRUCTION_SENDER" = b ->
  env_loop a b lines = (lookup_or (env_vars vars lines) "EXTENSION_ID",
                        lookup_or (env_vars vars lines) "INSTRUCTION_SENDER").
Proof.
  revert vars a b. induction lines as [|l lines IH]; intros vars a b <- <-; [done|]. simpl.
  destruct (env_entry l) as [[k v]|]; [|by apply IH].
  destruct (String.eqb_spec k "EXTENSION_ID") as [->|H1].
  { apply IH; unfold lookup_or; by rewrite ?lookup_insert_eq, ?lookup_insert_ne by done. }
  destruct (String.eqb_spec k "INSTRUCTION_SENDER") as [->|H2];
    apply IH; unfold lookup_or; by rewrite ?lookup_insert_eq, ?lookup_insert_ne by done.
Qed.

(** ** A concrete host, for witnesses: an environment, one file, a proxy that
    answers with a status, no chain. *)
Record ref_host := mkHost {
  rh_env : list (string * string);
  rh_file : option string;
  rh_proxy : Z;
}.

Definition ref_getenv (w : ref_host) (k : string) : string :=
  match List.find (fun kv => String.eqb (fst kv) k) (rh_env w) with Some (_, v) => v | None => "" end.

#[export] Instance ref_host_ops : Host ref_host := {|
  os_Getenv k w := (ref_getenv w k, w);
  os_Open _ w := (rh_file w, w);
  os_IsNotExist _ w := (match rh_file w with Some _ => false | None => true end, w);
  net_DialTimeout _ _ w := (false, w);
  range_map m w := (map_to_list m, w);
  HttpGet _ _ := fun w => (Ok (rh_proxy w), w);
  BalanceAt _ _ _ := fun w => (Ok (Some 0), w);
  ChainID _ := fun w => (Ok (Some 114), w);
  NextPublicExtensionId := fun w => (Ok (Some 1), w);
  GetTeeExtensionInstructionsSender _ := fun w => (Ok (be_bytes 20 7), w);
  IsAllowedTeeMachineOwner _ _ := fun w => (Ok true, w);
  IsKeyTypeSupported _ _ := fun w => (Ok true, w);
  EVMType := bytes_of_string "EVM";
|}.

#[export] Instance ref_host_client : EthClient ref_host := {|
  CodeAt _ _ _ := fun w => (Ok [], w);
  StorageAt _ _ _ _ := fun w => (Ok zero_hash, w);
  CallContract _ _ _ := fun w => (Err (Plain "no contract"), w);
|}.

Definition w_env_file : string :=
  "# generated" +:+ nl +:+ "EXTENSION_ID=0x00" +:+ nl +:+ " EXTENSION_ID = 0x" +:+ hex_encode zero_hash +:+ nl +:+
  "INSTRUCTION_SENDER=0x" +:+ hex_encode zero_address +:+ nl.

Definition w_host (env : list (string * string)) : ref_host := mkHost env (Some w_env_file) 200.

Definition ran_report {A} (x : result A * (Report * ref_host)) : Report := fst (snd x).

(** ** Properties *)

(** C23. Each step of the checks terminates normally, leaves the earlier
    results of the report in place, and adds, whatever the environment, the
    files, the proxy and the chain answer, exactly one result for each check
    that applies, in order, all under its own step. The deployment step: D3 for
    every address, D1 for every one that is not zero, D5 for the key and, with a
    client and a key, for its funds, D6 with a client, and one or two D7 when
    there is a path. The registration step: R1 and R4 with a registry and a
    client, R2 also for a sender of the right form, R3 with a key, an allowlist
    and a client, R7 when the chain counts an extension; a malformed extension
    id ends it with an R2, and it is the one result R1-R7 without a path or
    without the two values. The other steps are unconditional. *)
Theorem step_results_complete {GE : GoEthereum} {W} {EC : EthClient W} {HO : Host W} path client key registry allowlist addresses :
  quiet_host HO ->
  emits (W := W) (RegisterDeployChecks client key addresses path) (fun _ new => exists envIDs,
    envIDs ∈ (if String.eqb path "" then [[]] else [["D7"]; ["D7"; "D7"]]) /\
    ids_of "deploy" (replicate (size addresses) "D3" ++
      replicate (size (filter (fun kv => kv.2 <> zero_address) addresses)) "D1" ++ ["D5"] ++
      (if client && (if key then true else false) then ["D5"] else []) ++ (if client then ["D6"] else []) ++ envIDs) new) /\
  (forall (r : Report) (w : W), exists new w',
     RegisterRegistrationChecks client key registry allowlist path (r, w) = (Ok tt, (r ++ new, w')) /\
     registration_adds client key registry allowlist path w new) /\
  emits (W := W) (RegisterServicesChecks path) (fun _ => ids_of "services" ["S2"; "S5"; "S7"; "S9"; "S10"]) /\
  emits (W := W) (RegisterTeeVersionChecks path) (fun _ => ids_of "tee-version" ["V2"; "V4"; "V6"]) /\
  emits (W := W) (RegisterTeeMachineChecks path) (fun _ => ids_of "tee-machine" ["T1"; "T5"; "T10"]) /\
  emits (W := W) (RegisterTestChecks path) (fun _ => ids_of "test" ["E1"; "E3"; "E6"]).
Proof.
  intros HQ. split_and!; [by apply deploy_step_ids|by apply registration_step|by apply services_ids|by apply tee_version_ids|
    by apply tee_machine_ids|by apply test_ids].
Qed.

Definition w_addresses : gmap string bytes := {["FlareTeeManager" := zero_address]}.

Theorem step_results_complete_witness :
  let path := "extension.env" in
  emits (W := ref_host) (RegisterDeployChecks (GE := ref_geth) true (Some zero_address) w_addresses path)
    (fun _ new => exists envIDs, envIDs ∈ (if String.eqb path "" then [[]] else [["D7"]; ["D7"; "D7"]]) /\
      ids_of "deploy" (replicate (size w_addresses) "D3" ++
        replicate (size (filter (fun kv => kv.2 <> zero_address) w_addresses)) "D1" ++ ["D5"] ++ ["D5"] ++ ["D6"] ++ envIDs) new) /\
  (forall (r : Report) (w : ref_host), exists new w',
     RegisterRegistrationChecks (GE := ref_geth) true (Some zero_address) true true path (r, w) = (Ok tt, (r ++ new, w')) /\
     registration_adds true (Some zero_address) true true path w new) /\
  emits (W := ref_host) (RegisterServicesChecks path) (fun _ => ids_of "services" ["S2"; "S5"; "S7"; "S9"; "S10"]) /\
  emits (W := ref_host) (RegisterTeeVersionChecks path) (fun _ => ids_of "tee-version" ["V2"; "V4"; "V6"]) /\
  emits (W := ref_host) (RegisterTeeMachineChecks path) (fun _ => ids_of "tee-machine" ["T1"; "T5"; "T10"]) /\
  emits (W := ref_host) (RegisterTestChecks path) (fun _ => ids_of "test" ["E1"; "E3"; "E6"]).
Proof.
  apply (step_results_complete (GE := ref_geth) (W := ref_host) "extension.env" true (Some zero_address) true true
           w_addresses).
  split; try (intros; intros w p w' E; discriminate E); try (intros; done).
  - intros c a b w n w' [= <- _]. by eexists.
  - intros w n w' [= <- _]. by eexists.
Defined.

(** The two parsers of extension.env agree: on every file the loop of
    [parseExtensionEnv] returns what the map of [CheckExtensionEnvFormat]
    holds under the two keys, the last assignment of each, and the empty text
    when there is none. *)
Theorem env_parsers_agree {W} {HO : Host W} path content (w w' : W) :
  os_Open path w = (Some content, w') ->
  let vars := env_vars ∅ (scan_lines content) in
  parseExtensionEnv path w = (Ok (lookup_or vars "EXTENSION_ID", lookup_or vars "INSTRUCTION_SENDER"), w') /\
  CheckExtensionEnvFormat path w =
    (Ok [env_check vars "INSTRUCTION_SENDER" addressRegex; env_check vars "EXTENSION_ID" extensionIDRegex], w').
Proof.
  intros H vars. unfold parseExtensionEnv, CheckExtensionEnvFormat, mbind, M_bind, mret, M_ret, Open, total.
  rewrite H. split; [|done]. by rewrite (env_loop_vars (scan_lines content) ∅) by done.
Qed.

Theorem env_parsers_agree_witness :
  let vars := env_vars ∅ (scan_lines w_env_file) in
  parseExtensionEnv "extension.env" (w_host []) =
    (Ok (lookup_or vars "EXTENSION_ID", lookup_or vars "INSTRUCTION_SENDER"), w_host []) /\
  CheckExtensionEnvFormat "extension.env" (w_host []) =
    (Ok [env_check vars "INSTRUCTION_SENDER" addressRegex; env_check vars "EXTENSION_ID" extensionIDRegex], w_host []).
Proof. apply (env_parsers_agree "extension.env" w_env_file (w_host []) (w_host [])). reflexivity. Defined.

(** The parsed ID is the last assignment, its blanks removed. *)
Example w_env_file_id :
  fst (parseExtensionEnv "extension.env" (w_host [])) =
  Ok ("0x" +:+ hex_encode zero_hash, "0x" +:+ hex_encode zero_address).
Proof. vm_compute. reflexivity. Qed.

(** The proxy-key check vouches for a key that is not there: with
    PROXY_PRIVATE_KEY unset, a LOCAL_MODE other than the empty text, "true"
    and "false" (say "FALSE" or "0") makes it add the passing result
    "PROXY_PRIVATE_KEY is configured". *)
Theorem proxy_key_check_passes_unset {W} {HO : Host W} (r : Report) (w w1 w2 : W) mode :
  os_Getenv "LOCAL_MODE" w = (mode, w1) -> os_Getenv "PROXY_PRIVATE_KEY" w1 = ("", w2) ->
  mode ∉ [""; "true"; "false"] ->
  check_proxy_key (r, w) =
    (Ok tt, (r ++ [mkResult "services" "S10" "PROXY_PRIVATE_KEY set on non-local" PASS
                    "PROXY_PRIVATE_KEY is configured" ""], w2)).
Proof.
  intros H1 H2 Hm. rewrite !not_elem_of_cons in Hm. destruct Hm as (Hm1 & Hm2 & Hm3 & _).
  unfold check_proxy_key, env, mbind, M_bind, zoom_snd, Getenv, total. rewrite H1, H2.
  apply String.eqb_neq in Hm1, Hm2, Hm3. by rewrite Hm1, Hm2, Hm3.
Qed.

Theorem proxy_key_check_passes_unset_witness :
  check_proxy_key ([], w_host [("LOCAL_MODE", "FALSE")]) =
    (Ok tt, ([mkResult "services" "S10" "PROXY_PRIVATE_KEY set on non-local" PASS
               "PROXY_PRIVATE_KEY is configured" ""], w_host [("LOCAL_MODE", "FALSE")])).
Proof.
  apply (proxy_key_check_passes_unset [] (w_host [("LOCAL_MODE", "FALSE")]) (w_host [("LOCAL_MODE", "FALSE")])
           (w_host [("LOCAL_MODE", "FALSE")]) "FALSE"); [reflexivity..|].
  apply (bool_decide_unpack _). vm_compute. exact I.
Defined.
