(* ===== verification/Safety.v ===== *)
(** * Error handling of the verification flow

    [Verify] never panics on an instruction whose integers are set, whatever
    the chain, the gateway, the node and the bundle answer, and each of its
    errors is a [HandlerFailure]; past the binding checks it always ends with
    a verdict. What the code relies on of its libraries is stated as laws. *)

From S2P Require Import Prelude GoStd Config GoEth Bundle Vectors Selection Execution NetStd Ciphertext Encoding Canonical Decrypt WireTypes Verifier Verdict Reference RefWorld.

(** ** Documented behaviour of the ABI codec: values have the requested
    types, and only a nil integer makes packing panic *)

Definition packable (l : list (string * abi_value)) : Prop := Forall (fun '(_, v) => v <> AbiBigInt None) l.

Class AbiLaws {GE : GoEthereum} := {
  abi_Pack_no_panic l p : packable l -> abi_Pack l <> Panic p;
  abi_Unpack_no_panic tys data p : abi_Unpack tys data <> Panic p;
  abi_Unpack_length tys data vs : abi_Unpack tys data = Ok vs -> length vs = length tys;
  abi_Unpack_uint256 tys data n vs :
    abi_Unpack ("uint256" :: tys) data = Ok (AbiBigInt n :: vs) -> exists x, n = Some x /\ 0 <= x < 2 ^ 256;
}.

(** The JSON and JCS operations do not panic. *)
Class JsonLaws {JC : JsonCodec} := {
  Unmarshal_response_no_panic l p : Unmarshal_decryptResponse l <> Panic p;
  Unmarshal_bundle_no_panic l p : Unmarshal_bundle l <> Panic p;
  jcs_no_panic l p : jcs_Transform l <> Panic p;
}.

(** Neither do the clients of the chain and the network; the generated
    binding decodes every integer of a job. *)
Class ChainLaws {W} {EC : EthClient W} := {
  CodeAt_no_panic c a b : no_panic (CodeAt (W := W) c a b);
  StorageAt_no_panic c a k b : no_panic (StorageAt (W := W) c a k b);
  CallContract_no_panic c m b : no_panic (CallContract (W := W) c m b);
}.

Class EscrowLaws {W} {ES : Escrow W} := {
  GetJob_no_panic j : no_panic (GetJob (W := W) j);
  GetJob_integers j w job w' : GetJob (W := W) j w = (Ok job, w') ->
    is_Some (a_ArtifactBlock (Current job)) /\ is_Some (a_RandomRound (Current job));
}.

Class NetworkLaws {W} {NW : Network W} := {
  LookupIP_no_panic h : no_panic (LookupIP (W := W) h);
  RoundTrip_no_panic c a u : no_panic (RoundTrip (W := W) c a u);
  Post_no_panic c u b : no_panic (Post (W := W) c u b);
  url_Parse_no_panic s p : url_Parse (W := W) s <> Panic p;
  url_ParseRef_no_panic u s p : url_ParseRef (W := W) u s <> Panic p;
}.

#[export] Instance ChainLaws_snd {S W} `{ChainLaws W} : ChainLaws (W := S * W).
Proof. split; intros; apply no_panic_zoom; auto using CodeAt_no_panic, StorageAt_no_panic, CallContract_no_panic. Qed.

#[export] Instance NetworkLaws_snd {S W} `{NetworkLaws W} : NetworkLaws (W := S * W).
Proof.
  split; intros; try (apply no_panic_zoom; auto using LookupIP_no_panic, RoundTrip_no_panic, Post_no_panic).
  - apply (url_Parse_no_panic (W := W)).
  - apply (url_ParseRef_no_panic (W := W)).
Qed.

#[export] Hint Resolve CodeAt_no_panic StorageAt_no_panic CallContract_no_panic GetJob_no_panic
  LookupIP_no_panic RoundTrip_no_panic Post_no_panic url_Parse_no_panic url_ParseRef_no_panic
  Unmarshal_response_no_panic Unmarshal_bundle_no_panic jcs_no_panic abi_Unpack_no_panic
  hexutil_Decode_no_panic : safe.

(** Follow the calls of a computation that must not panic: the leaves are in
    the database [safe]. *)
Ltac safe_step :=
  match goal with
  | |- no_panic (on_error _ _ _) => apply no_panic_on_error; [|intros ?|intros ?]
  | |- no_panic (_ ≫= _) => apply no_panic_bind; [|intros ?]
  | |- no_panic (lift (Err _)) => by apply no_panic_lift
  | |- no_panic (lift (fail _)) => by apply no_panic_lift
  | |- no_panic (lift (fail_wrap _ _)) => by apply no_panic_lift
  | |- no_panic (lift _) => apply no_panic_lift; solve [eauto with safe typeclass_instances]
  | |- no_panic _ => solve [eauto with safe typeclass_instances]
  | |- no_panic (if ?b then _ else _) => destruct b eqn:?
  | |- no_panic (match ?x with _ => _ end) => destruct x
  end.
Ltac safe := repeat (cbn zeta; safe_step).

(** ** Errors of one kind *)

Definition errors_in {W A} (P : error -> Prop) (m : M W A) : Prop := forall w e w', m w = (Err e, w') -> P e.

Section errors.
  Context {W A B : Type} (P : error -> Prop).

Lemma errors_in_on_error (m : M W A) (h : error -> M W B) (k : A -> M W B) :
  (forall e, errors_in P (h e)) -> (forall a, errors_in P (k a)) -> errors_in P (on_error m h k).
Proof.
  intros Hh Hk w e w' H. apply on_error_eq in H as [(a & w1 & _ & H)|[(e1 & w1 & _ & H)|(q & _ & H)]];
    [by eapply Hk|by eapply Hh|done].
Qed.
Lemma errors_in_bind (m : M W A) (k : A -> M W B) :
  errors_in P m -> (forall a, errors_in P (k a)) -> errors_in P (m ≫= k).
Proof. intros Hm Hk w e w' [H|(a & w1 & _ & H)]%M_bind_Err; [by eapply Hm|by eapply Hk]. Qed.
Lemma errors_in_lift (x : result A) : (forall e, x = Err e -> P e) -> errors_in (W := W) P (lift x).
Proof. intros Hx w e w' [-> _]%lift_eq. by apply Hx. Qed.
Lemma no_error_errors_in (m : M W A) : no_error m -> errors_in P m.
Proof. intros H w e w' Hm. by apply H in Hm. Qed.
End errors.

Definition is_handler_failure (e : error) : Prop := exists e', e = HandlerFailure e'.

Lemma is_handler_failure_fail {W A} msg : errors_in (W := W) (A := A) is_handler_failure (lift (fail msg)).
Proof. apply errors_in_lift. intros e [= <-]. by eexists. Qed.
Lemma is_handler_failure_wrap {W A} pre e :
  errors_in (W := W) (A := A) is_handler_failure (lift (fail_wrap pre e)).
Proof. apply errors_in_lift. intros e' [= <-]. by eexists. Qed.
#[export] Hint Resolve no_error_errors_in is_handler_failure_fail is_handler_failure_wrap : safe.

(** ** The vectors *)
Section vectors.
Context {GE : GoEthereum} {W : Type} {EC : EthClient W}.

Lemma lift_no_error_if (b : bool) (x y : VectorOutcome) :
  no_error (W := W) (if b then mret x else mret y).
Proof. destruct b; apply no_error_ret. Qed.

Lemma ExecuteVector_no_error c a b g m v : no_error (ExecuteVector (W := W) c a b g m v).
Proof.
  unfold ExecuteVector, executeEthCallEquals, executeEthCallReverts, executeErc165, executeCodeSizeRange,
    executeStorageAtEquals.
  repeat (cbn zeta; first
    [ apply no_error_ret | apply no_error_on_error; intros ?
    | match goal with |- no_error (if ?b then _ else _) => destruct b end ]).
Qed.

Context {HL : HexutilLaws} {AL : AbiLaws} {CL : ChainLaws (W := W)}.
Lemma parseCallValue_no_panic s p : parseCallValue s <> Panic p.
Proof.
  unfold parseCallValue. destruct (String.eqb s ""); [done|]. intros [H|(? & _ & H)]%bind_Panic; [|done].
  by apply hexutil_DecodeBig_no_panic in H.
Qed.

Lemma decodeCanonicalBool_no_panic data p : decodeCanonicalBool data <> Panic p.
Proof.
  unfold decodeCanonicalBool. intros [H|(? & _ & H)]%bind_Panic; [by apply fail_if_Panic in H|].
  apply bind_Panic in H as [H|(vs & Hvs & H)]; [by apply abi_Unpack_no_panic in H|].
  apply abi_Unpack_length in Hvs. destruct vs as [|[] ?]; done.
Qed.
Hint Resolve parseCallValue_no_panic decodeCanonicalBool_no_panic : safe.

Lemma ExecuteVector_no_panic c a b g m v : no_panic (ExecuteVector (W := W) c a b g m v).
Proof.
  unfold ExecuteVector, executeEthCallEquals, executeEthCallReverts, executeErc165, executeCodeSizeRange,
    executeStorageAtEquals. safe.
Qed.

(** The random number is a 256-bit integer. *)
Lemma FetchRandomNumber_ok c a round w n s w' :
  FetchRandomNumber c a round w = (Ok (n, s), w') -> exists x, n = Some x /\ 0 <= x < 2 ^ 256.
Proof.
  unfold FetchRandomNumber. intros (args & w1 & _ & H)%M_bind_Ok.
  run_in H. destruct_or?; go_inv.
  match goal with H : abi_Unpack _ _ = Ok ?vs |- _ => destruct vs as [|[] [|[] ?]]; go_inv end.
  by eapply abi_Unpack_uint256.
Qed.

Lemma FetchRandomNumber_no_panic c a round :
  is_Some round -> no_panic (FetchRandomNumber (W := W) c a round).
Proof.
  intros [r ->]. unfold FetchRandomNumber.
  apply no_panic_bind; [|intros args].
  { apply no_panic_lift. intros p Hp. apply wrap_err_Panic in Hp. apply abi_Pack_no_panic in Hp; [done|].
    by repeat constructor. }
  apply no_panic_on_error; [apply CallContract_no_panic|intros; by apply no_panic_lift|intros data].
  apply (no_panic_bind_post _ _ (fun vs => length vs = 3%nat)).
  - apply no_panic_lift. intros p Hp. apply wrap_err_Panic in Hp. by apply abi_Unpack_no_panic in Hp.
  - intros w vs w' [Hv _]%lift_eq. apply wrap_err_Ok in Hv. by apply abi_Unpack_length in Hv.
  - intros vs Hvs. destruct vs as [|x [|y [|z ?]]]; try done.
    destruct x; try (by apply no_panic_lift). destruct y; try (by apply no_panic_lift).
Qed.
End vectors.
#[export] Hint Resolve ExecuteVector_no_panic : safe.

(** ** The fetcher and the node *)
Section network.
Context {W : Type} {NW : Network W} {NL : NetworkLaws (W := W)}.

Lemma SplitHostPort_no_panic s p : SplitHostPort s <> Panic p.
Proof. unfold SplitHostPort, mbind, result_bind. repeat case_match; simplify_eq; done. Qed.

Lemma choose_pin_no_panic host pinned ips p : choose_pin host pinned ips <> Panic p.
Proof.
  revert pinned. induction ips as [|ip ips IH]; intros pinned; [done|]. simpl.
  intros [H|(? & _ & H)]%bind_Panic; [by apply fail_if_Panic in H|by apply IH in H].
Qed.

Lemma ReadAll_limited_no_panic r n p : ReadAll_limited r n <> Panic p.
Proof. unfold ReadAll_limited. repeat case_match; done. Qed.

Lemma decode_end_no_panic s si out p : Base64.decode_end s si out <> Panic p.
Proof. revert si out. induction s; intros; simpl; repeat case_match; try done. Qed.
Lemma decode_pad2_no_panic s si out p : Base64.decode_pad2 s si out <> Panic p.
Proof.
  revert si out. induction s; intros; simpl; repeat case_match; try done. by apply decode_end_no_panic.
Qed.

Lemma DecodeString_no_panic s p : Base64.DecodeString s <> Panic p.
Proof.
  unfold Base64.DecodeString. generalize 0, (@nil Z), (@nil Byte.byte).
  induction s as [|a s IH]; intros si q out; simpl; repeat (case_match; simplify_eq; try done);
    by first [apply IH | apply decode_pad2_no_panic | apply decode_end_no_panic].
Qed.
Hint Resolve SplitHostPort_no_panic choose_pin_no_panic ReadAll_limited_no_panic DecodeString_no_panic : safe.

Lemma get_pins_no_panic : no_panic (get_pins (W := W)).
Proof. by intros [] ??. Qed.
Lemma set_pin_no_panic host addr : no_panic (set_pin (W := W) host addr).
Proof. by intros [] ??. Qed.
Hint Resolve get_pins_no_panic set_pin_no_panic : safe.

Lemma dialPinned_no_panic a : no_panic (dialPinned (W := W) a).
Proof.
  unfold dialPinned. safe.
Qed.

Lemma validateURL_no_panic f u : no_panic (validateURL (NW := NW) f u).
Proof.
  unfold validateURL. safe.
Qed.

Hint Resolve dialPinned_no_panic validateURL_no_panic : safe.

Lemma CheckRedirect_no_panic f u via : no_panic (CheckRedirect (NW := NW) f u via).
Proof. unfold CheckRedirect. case_match; [by apply no_panic_lift|apply validateURL_no_panic]. Qed.

Hint Resolve CheckRedirect_no_panic : safe.

Lemma fst_no_panic {A} {S} (m : M S A) s p : no_panic m -> fst (m s) <> Panic p.
Proof. intros Hm H. destruct (m s) as [r s'] eqn:E. simpl in H. subst. by apply Hm in E. Qed.

Lemma Fetch_no_panic f c locator : no_panic (Fetch (NW := NW) f 3 c locator).
Proof.
  unfold Fetch. safe. intros s p s'. apply (do_loop_panic _ _ 3);
    try (intros; by eauto using fst_no_panic with safe typeclass_instances).
  intros. by apply CheckRedirect_limit.
Qed.
End network.
#[export] Hint Resolve ReadAll_limited_no_panic DecodeString_no_panic Fetch_no_panic : safe.

(** ** The flow *)
Section flow.
Context {GE : GoEthereum} {HL : HexutilLaws} {AL : AbiLaws} {JC : JsonCodec} {JL : JsonLaws}.
Context {W : Type} {EC : EthClient W} {ES : Escrow W} {NW : Network W} {CL : ChainLaws (W := W)} {EL : EscrowLaws (W := W)} {NL : NetworkLaws (W := W)}.
Implicit Types (s : pins * W).

Lemma Decrypt_no_panic d c ct : no_panic (Decrypt (W := pins * W) d c ct).
Proof.
  unfold Decrypt. safe.
Qed.

Hint Resolve Decrypt_no_panic fail_if_no_panic : safe.

Lemma Validate_no_panic b p : Validate b <> Panic p.
Proof.
  unfold Validate. intros H.
  repeat (apply bind_Panic in H as [H|(? & ? & H)]; [by apply fail_if_Panic in H|]).
  by apply validate_vectors_no_panic in H.
Qed.

Lemma checkPublicSpecHash_no_panic text h p : checkPublicSpecHash text h <> Panic p.
Proof.
  unfold checkPublicSpecHash. destruct (hexutil_Decode text) eqn:E; [|done|by apply hexutil_Decode_no_panic in E].
  case_match; [done|apply fail_if_no_panic].
Qed.

Lemma CanonicalizeAndHash_no_panic b p : CanonicalizeAndHash b <> Panic p.
Proof.
  unfold CanonicalizeAndHash. intros [H|(? & _ & H)]%bind_Panic; [|done].
  apply wrap_err_Panic in H. by apply jcs_no_panic in H.
Qed.

Lemma reportHashFor_no_panic os p : reportHashFor os <> Panic p.
Proof. unfold reportHashFor. intros [H|(? & _ & H)]%bind_Panic; [by apply jcs_no_panic in H|done]. Qed.

Hint Resolve Validate_no_panic checkPublicSpecHash_no_panic CanonicalizeAndHash_no_panic reportHashFor_no_panic : safe.

Lemma checkBundleSize_no_panic l p : checkBundleSize l <> Panic p.
Proof. apply fail_if_no_panic. Qed.
Hint Resolve checkBundleSize_no_panic : safe.

Lemma fetchAndDecryptBundle_no_panic v c instr : no_panic (fetchAndDecryptBundle (W := W) v c instr).
Proof.
  unfold fetchAndDecryptBundle. safe.
Qed.

Lemma unix_now_no_panic : no_panic (unix_now (W := W)).
Proof. apply no_panic_bind; [apply no_panic_zoom, no_panic_total|intros; apply no_panic_ret]. Qed.
Lemma unix_now_no_error : no_error (unix_now (W := W)).
Proof. apply no_error_bind; [apply no_error_zoom, no_error_total|intros; apply no_error_ret]. Qed.

Lemma inconclusiveVerdict_no_panic instr identity detail : no_panic (inconclusiveVerdict (W := W) instr identity detail).
Proof.
  unfold inconclusiveVerdict.
  apply no_panic_on_error; [apply no_panic_lift, reportHashFor_no_panic|intros; by apply no_panic_lift|intros h].
  apply no_panic_bind; [apply unix_now_no_panic|intros; apply no_panic_ret].
Qed.

Lemma inconclusiveVerdict_errors instr identity detail :
  errors_in is_handler_failure (inconclusiveVerdict (W := W) instr identity detail).
Proof.
  unfold inconclusiveVerdict. apply errors_in_on_error; [intros e; apply is_handler_failure_wrap|intros h].
  apply no_error_errors_in, no_error_bind; [apply unix_now_no_error|intros; apply no_error_ret].
Qed.

Lemma run_vectors_no_error c instr b selected st : no_error (run_vectors (W := W) c instr b selected st).
Proof.
  revert st. induction selected as [|i selected IH]; intros st; cbn [run_vectors]; [apply no_error_ret|].
  case_match; [|by apply no_error_lift]. cbn zeta.
  apply no_error_bind; [apply ExecuteVector_no_error|intros; apply IH].
Qed.

Lemma run_vectors_no_panic c instr b selected st :
  Forall (fun i => 0 <= i < llen (Vectors b)) selected -> no_panic (run_vectors (W := W) c instr b selected st).
Proof.
  intros Hs. revert st. induction Hs as [|i selected Hi _ IH]; intros st; cbn [run_vectors]; [apply no_panic_ret|].
  destruct (lookup_lt_is_Some_2 (Vectors b) (Z.to_nat i)) as [vec ->]; [unfold llen in Hi; lia|]. cbn zeta.
  apply no_panic_bind; [|intros; apply IH].
  apply ExecuteVector_no_panic.
Qed.

Lemma TestSeed_no_panic x escrow j attempt spec code p :
  TestSeed (Some x) escrow (Some j) attempt spec code <> Panic p.
Proof.
  unfold TestSeed. intros [H|(? & _ & H)]%bind_Panic; [|done].
  apply wrap_err_Panic in H. apply abi_Pack_no_panic in H; [done|]. by repeat constructor.
Qed.

Lemma run_bundle_no_panic v c instr identity x now :
  is_Some (i_JobId instr) -> no_panic (run_bundle (W := W) v c instr identity (Some x) now).
Proof.
  intros [j Hj]. unfold run_bundle. rewrite Hj.
  apply (no_panic_on_error_post _ _ _ (fun b => Validate b = Ok tt)); [apply fetchAndDecryptBundle_no_panic| | |].
  { intros w b w' Hb. by apply fetchAndDecryptBundle_ok in Hb as []. }
  { intros e. apply inconclusiveVerdict_no_panic. }
  intros b Hb%Validate_iff_wf. destruct Hb.
  apply no_panic_on_error; [apply no_panic_lift, TestSeed_no_panic|intros e; apply inconclusiveVerdict_no_panic|].
  intros seed. destruct (SelectVectors_ok seed (llen (Vectors b)) (SelectionCount b)) as (l & Hl & _ & _ & Hf); [lia..|].
  rewrite Hl. apply (no_panic_bind_post _ _ (fun sel => sel = l)); [by apply no_panic_lift| |].
  { by intros w a w' [[= ->] _]%lift_eq. }
  intros _ ->. apply no_panic_bind; [by apply run_vectors_no_panic|intros st].
  apply no_panic_on_error; [apply no_panic_lift, reportHashFor_no_panic|intros e; apply inconclusiveVerdict_no_panic|].
  intros h. apply no_panic_ret.
Qed.

Lemma SelectVectors_no_err seed n k e : SelectVectors seed n k <> Err e.
Proof.
  unfold SelectVectors. case_match; [done|]. cbn zeta. intros [H'|(l & _ & H')]%bind_Err; [|by case_match].
  revert H'. generalize (Z.to_nat (if k <? n then k else n)), 0, (seqZ 0 n). intros m.
  induction m as [|m IH]; intros i l; cbn [select_loop]; [done|]. cbn zeta.
  intros [H'|(l' & _ & H')]%bind_Err; [|by apply IH in H']. unfold swap in H'. repeat case_match; done.
Qed.

Lemma run_bundle_errors v c instr identity rn now :
  errors_in is_handler_failure (run_bundle (W := W) v c instr identity rn now).
Proof.
  unfold run_bundle.
  apply errors_in_on_error; [intros e; apply inconclusiveVerdict_errors|intros b].
  apply errors_in_on_error; [intros e; apply inconclusiveVerdict_errors|intros seed].
  apply errors_in_bind; [apply errors_in_lift; intros e H; by apply SelectVectors_no_err in H|intros l].
  apply errors_in_bind; [apply no_error_errors_in, run_vectors_no_error|intros st].
  apply errors_in_on_error; [intros e; apply inconclusiveVerdict_errors|intros h].
  apply no_error_errors_in, no_error_ret.
Qed.
End flow.

(** ** Properties *)
Section properties.
  Context {GE : GoEthereum} {HL : HexutilLaws} {AL : AbiLaws} {JC : JsonCodec} {JL : JsonLaws}.
  Context {W : Type} {EC : EthClient W} {ES : Escrow W} {NW : Network W} {CL : ChainLaws (W := W)} {EL : EscrowLaws (W := W)} {NL : NetworkLaws (W := W)}.

Lemma keccak256AbiEncodedUint_no_panic x p : 0 <= x < 2 ^ 256 -> keccak256AbiEncodedUint (Some x) <> Panic p.
Proof. intros Hx. cbn. rewrite Z.abs_eq by lia. destruct (Z.ltb_spec x (2 ^ 256)); [done|lia]. Qed.

Lemma keccak256AbiEncodedUint_no_err x e : keccak256AbiEncodedUint x <> Err e.
Proof. unfold keccak256AbiEncodedUint. repeat case_match; done. Qed.

Lemma Verify_no_panic v c instructionId instr :
  is_Some (i_ArtifactBlock instr) -> is_Some (i_RandomRound instr) -> no_panic (Verify (W := W) v c instructionId instr).
Proof.
  intros Hblock Hround. unfold Verify. cbn zeta.
  case_match; [by apply no_panic_lift|]. case_match; [by apply no_panic_lift|].
  case_bool_decide as Hjob; [by apply no_panic_lift|]. case_match; [by apply no_panic_lift|].
  apply (no_panic_on_error_post _ _ _ (fun job =>
    is_Some (a_ArtifactBlock (Current job)) /\ is_Some (a_RandomRound (Current job)))).
  { apply no_panic_zoom, GetJob_no_panic. }
  { intros [p w] job s (w' & Hj & _)%zoom_snd_eq. by eapply GetJob_integers. }
  { intros e. by apply no_panic_lift. }
  intros job [Hb Hr].
  apply no_panic_on_error; [|intros; by apply no_panic_lift|intros _].
  { apply no_panic_lift. intros p. by apply crossCheckInstruction_no_panic. }
  apply no_panic_bind; [apply unix_now_no_panic|intros now].
  case_match; [by apply no_panic_lift|]. case_match; [by apply no_panic_lift|].
  apply no_panic_on_error; [|intros; by apply no_panic_lift|intros h].
  { unfold recomputeArtifactCodeHash. apply no_panic_bind; [apply CodeAt_no_panic|intros; apply no_panic_ret]. }
  case_match; [by apply no_panic_lift|].
  apply (no_panic_on_error_post _ _ _ (fun ns => exists x, fst ns = Some x /\ 0 <= x < 2 ^ 256)).
  { by apply FetchRandomNumber_no_panic. }
  { intros s [n sec] s' Hn. simpl. exact (FetchRandomNumber_ok _ _ _ _ _ _ _ Hn). }
  { intros e. by apply no_panic_lift. }
  intros [n sec] (x & Hx & Hrange). simpl in Hx. subst n. case_match; [by apply no_panic_lift|].
  apply no_panic_bind; [apply no_panic_lift; intros p; by apply keccak256AbiEncodedUint_no_panic|intros h'].
  case_match; [by apply no_panic_lift|]. apply run_bundle_no_panic. by apply not_eq_None_Some.
Qed.

Lemma Verify_errors v c instructionId instr : errors_in is_handler_failure (Verify (W := W) v c instructionId instr).
Proof.
  unfold Verify. cbn zeta.
  repeat first
    [ apply is_handler_failure_fail
    | apply is_handler_failure_wrap
    | apply run_bundle_errors
    | apply no_error_errors_in, unix_now_no_error
    | apply errors_in_lift; intros e He; by apply keccak256AbiEncodedUint_no_err in He
    | match goal with
      | |- errors_in _ (on_error _ _ _) => apply errors_in_on_error; intros ?
      | |- errors_in _ (_ ≫= _) => apply errors_in_bind; [|intros ?]
      end
    | case_match ].
Qed.

(** C26. [Verify] cannot crash the node: on an instruction whose integers are
    set, and whatever the chain, the escrow, the resolver, the gateway, the
    local node and the decrypted bundle answer, it does not panic, and every
    error it returns is a [HandlerFailure]. *)
Theorem Verify_total v c instructionId instr s :
  is_Some (i_ArtifactBlock instr) -> is_Some (i_RandomRound instr) ->
  (exists verdict s', Verify (W := W) v c instructionId instr s = (Ok verdict, s')) \/
  (exists e s', Verify (W := W) v c instructionId instr s = (Err (HandlerFailure e), s')).
Proof.
  intros Hb Hr. destruct (Verify v c instructionId instr s) as [[verdict|e|p] s'] eqn:E.
  - eauto.
  - apply Verify_errors in E as [e' ->]. eauto.
  - by apply Verify_no_panic in E.
Qed.

(** C27. Past the binding checks a verdict is always formed: when reports can
    be canonicalised, every failure of the gateway, the decryption, the
    bundle or a vector ends in a verdict (an inconclusive one, when the
    bundle could not be run), never in an error. *)
Theorem bound_run_yields_verdict v c instr identity x now s :
  is_Some (i_JobId instr) ->
  (forall os, exists l, jcs_Transform (bytes_of_string (marshal_report (public <$> os))) = Ok l) ->
  exists verdict s',
    run_bundle (W := W) v c instr identity (Some x) now s = (Ok verdict, s') /\
    verdict_cause v c instr identity (Some x) now s verdict.
Proof.
  intros Hj Hjcs.
  assert (Hrep : forall os e, reportHashFor os <> Err e).
  { intros os e. unfold reportHashFor. destruct (Hjcs os) as [l ->]. done. }
  assert (Hinc : forall d, no_error (inconclusiveVerdict (W := W) instr identity d)).
  { intros d w e w' [(h & w1 & _ & H)|[(e1 & w1 & Hr & _)|(q & _ & H)]]%on_error_eq; [|by apply lift_eq in Hr as [Hr%Hrep _]|done].
    revert H. apply no_error_bind; [apply unix_now_no_error|intros; apply no_error_ret]. }
  destruct (returns_safe (run_bundle v c instr identity (Some x) now) s) as (verdict & s' & Hrun).
  - by apply run_bundle_no_panic.
  - unfold run_bundle. apply no_error_on_error; [done|intros b]. apply no_error_on_error; [done|intros seed].
    apply no_error_bind; [apply no_error_lift; intros e; apply SelectVectors_no_err|intros l].
    apply no_error_bind; [apply run_vectors_no_error|intros st].
    apply no_error_on_error; [done|intros; apply no_error_ret].
  - exists verdict, s'. split; [done|]. by eapply run_bundle_cause.
Qed.
End properties.

(** ** The laws hold: the codec of the reference instance, and the concrete
    world of the verification flow, standing still *)

#[export] Instance ref_abi_laws : AbiLaws (GE := ref_geth).
Proof.
  constructor; cbn [abi_Pack abi_Unpack ref_geth].
  - intros l p Hl. induction Hl as [|[ty v] l Hv _ IH]; [done|]. cbn [ref_Pack].
    intros [H|(? & _ & [H|(? & _ & H)]%bind_Panic)]%bind_Panic; [|done..].
    destruct v as [[]| | | | | | | |]; done.
  - induction tys as [|ty tys IH]; intros data p; cbn [ref_Unpack]; [done|]. case_match; [done|].
    intros [H'|(? & _ & [H'|(? & _ & H')]%bind_Panic)]%bind_Panic; [|by apply IH in H'|done].
    unfold ref_unword in H'. repeat case_match; done.
  - induction tys as [|ty tys IH]; intros data vs; cbn [ref_Unpack]; [by intros [= <-]|]. case_match; [done|].
    intros (? & _ & (r & Hr & [= <-])%bind_Ok)%bind_Ok. simpl. f_equal. by eapply IH.
  - intros tys data n vs. cbn [ref_Unpack]. destruct (_ <? _)%nat; [done|].
    intros (v & [= <-] & (r & _ & [= <- _])%bind_Ok)%bind_Ok. eexists. split; [done|]. split; [apply be_value_nonneg|].
    eapply Z.lt_le_trans; [apply be_value_bound|]. change (2 ^ 256) with (256 ^ 32).
    apply Z.pow_le_mono_r; [lia|]. rewrite length_take. lia.
Qed.

#[export] Instance ref_json_laws b : JsonLaws (JC := ref_codec b).
Proof. by constructor. Qed.

Definition still {A} (m : M ref_world A) : M unit A := fun u => (fst (m (w_world zero_hash)), u).

Definition still_client : EthClient unit := {|
  CodeAt c a b := still (CodeAt c a b);
  StorageAt c a k b := still (StorageAt c a k b);
  CallContract c m b := still (CallContract c m b);
|}.
Definition still_escrow : Escrow unit := {|
  ethclient_Dial s := still (ethclient_Dial s);
  NewWorkProofEscrowCaller a := still (NewWorkProofEscrowCaller a);
  GetJob j := still (GetJob j);
  Now_Unix := fun u => (1000, u);
|}.
Definition still_network : Network unit := {|
  LookupIP h := still (LookupIP h);
  url_Parse := ref_url;
  url_ParseRef _ := ref_url;
  RoundTrip c a u := still (RoundTrip c a u);
  Post c u b := still (Post c u b);
|}.

Lemma ref_url_no_panic s p : ref_url s <> Panic p.
Proof. unfold ref_url. by repeat case_match. Qed.

#[export] Instance still_chain_laws : ChainLaws (EC := still_client).
Proof. by constructor. Qed.
#[export] Instance still_network_laws : NetworkLaws (NW := still_network).
Proof. constructor; try (by intros); intros; apply ref_url_no_panic. Qed.
#[export] Instance still_escrow_laws : EscrowLaws (ES := still_escrow).
Proof.
  constructor; [by intros|]. intros j w job w' H. simpl in H. unfold still in H. simpl in H.
  injection H as <- _. split; by eexists.
Qed.

Theorem Verify_total_witness :
  (exists verdict s', Verify (GE := ref_geth) (EC := still_client) (ES := still_escrow) (NW := still_network)
     w_verifier [] w_instruction_id w_instr (∅, tt) = (Ok verdict, s')) \/
  (exists e s', Verify (GE := ref_geth) (EC := still_client) (ES := still_escrow) (NW := still_network)
     w_verifier [] w_instruction_id w_instr (∅, tt) = (Err (HandlerFailure e), s')).
Proof.
  apply (Verify_total (GE := ref_geth) (EC := still_client) (ES := still_escrow) (NW := still_network)); by eexists.
Defined.

Theorem bound_run_yields_verdict_witness :
  exists verdict s',
    run_bundle (GE := ref_geth) (EC := still_client) (ES := still_escrow) (NW := still_network)
      w_verifier [] w_instr (verdictIdentityFrom w_instr w_instruction_id) (Some w_random) 1000 (∅, tt)
      = (Ok verdict, s') /\
    verdict_cause (GE := ref_geth) (EC := still_client) (ES := still_escrow) (NW := still_network)
      w_verifier [] w_instr (verdictIdentityFrom w_instr w_instruction_id) (Some w_random) 1000 (∅, tt) verdict.
Proof.
  apply (bound_run_yields_verdict (GE := ref_geth) (EC := still_client) (ES := still_escrow) (NW := still_network)); [by eexists|].
  intros os. by eexists.
Defined.
