(* ===== verification/Revert.v ===== *)
(** * Transactions and revert reasons (tools/pkg/fccutils/revert.go, diag.go,
    tools/pkg/support/support.go)

    What the tools read from a failed call: the data of the RPC error, the
    decoded reason, the custom error of an ABI that has the selector; and the
    wait for a transaction with the replay of one that failed. *)

From S2P Require Import Prelude GoStd GoEth Bundle.

(** [errors.Errorf(pre + "%s", err)] of github.com/pkg/errors: the text only,
    nothing to unwrap. *)
Definition Errorf (pre : string) (e : error) : error := Plain (pre +:+ Error e).
Definition on_err {W A} (pre : string) (m : M W A) : M W A :=
  on_error m (fun e => lift (Err (Errorf pre e))) mret.

(** One entry of [abi.ABI.Errors]: the name, the topic, and the text that
    [%v] gives for the values [Unpack] reads from a revert payload. *)
Record AbiError := mkAbiError {
  ae_Name : string;
  ae_ID : bytes;
  ae_Unpack : bytes -> option string;
}.

(** [abi.UnpackRevert] and [common.FromHex]. *)
Class RevertCodec := {
  abi_UnpackRevert : bytes -> option string;
  common_FromHex : string -> bytes;
}.

(** A transaction and its receipt, the parts the tools read. *)
Record Transaction := mkTx {
  tx_Hash : bytes;
  tx_To : option bytes;
  tx_Gas : Z;
  tx_GasPrice : bigint;
  tx_Value : bigint;
  tx_Data : bytes;
}.

Record Log := mkLog { log_Topics : list bytes; log_Data : bytes }.

Record Receipt := mkReceipt { rc_Status : Z; rc_Logs : list Log; rc_TxHash : bytes }.

(** The client's transaction calls and the signer of a transaction. *)
Class TxClient (W : Type) := {
  WaitMined : ctx -> Transaction -> M W Receipt;
  TransactionByHash : bytes -> M W Transaction;
  types_Sender : Transaction -> result bytes;
}.

Section Revert.
Context {RC : RevertCodec}.

Definition decodeRevertHex (hexStr : string) : string :=
  let hexStr := TrimPrefix hexStr "0x" in
  match hex_decode hexStr with
  | None => ""
  | Some decoded =>
    if llen decoded <? 4 then "" else
    match abi_UnpackRevert decoded with
    | Some reason => reason
    | None => "0x" +:+ hexStr
    end
  end.

(** [None] is the nil error. *)
Definition DecodeRevertReason (err : option error) : string :=
  match err with
  | None => ""
  | Some err =>
    match errors_As_data err with
    | Some (DataString hexStr) => decodeRevertHex hexStr
    | _ => ""
    end
  end.

(** [errs] are the entries of the map, in the order the range visits them. *)
Fixpoint match_selector (errs : list AbiError) (data : bytes) : string :=
  match errs with
  | [] => ""
  | e :: errs =>
    if negb (bool_decide (take 4 (ae_ID e) = take 4 data)) then match_selector errs data else
    match ae_Unpack e data with
    | Some argStr =>
      if negb (String.eqb argStr "[]") && negb (String.eqb argStr "<nil>") then ae_Name e +:+ argStr else ae_Name e
    | None => ae_Name e
    end
  end.

Definition MatchCustomError (errs : list AbiError) (revertHex : string) : string :=
  match hex_decode (TrimPrefix revertHex "0x") with
  | None => ""
  | Some data => if llen data <? 4 then "" else match_selector errs data
  end.

(** ** diag.go *)

Definition ExtractRevertData (err : option error) : bytes :=
  match err with
  | None => []
  | Some err =>
    match errors_As_data err with
    | Some (DataString d) => common_FromHex d
    | Some (DataBytes d) => d
    | _ => []
    end
  end.

(** ** support.go *)

Definition decodeRevertFromError (err : error) : string :=
  match errors_As_data err with
  | Some (DataString hexStr) =>
    match hex_decode (TrimPrefix hexStr "0x") with
    | Some decoded => match abi_UnpackRevert decoded with Some reason => reason | None => "" end
    | None => ""
    end
  | _ => ""
  end.

Context {W : Type} {EC : EthClient W} {TC : TxClient W}.

Definition SimulateAndDecodeRevert (from to : bytes) (value : bigint) (data : bytes) : M W string :=
  result <?- CallContract [] (mkCallMsg from (Some to) 0 None value data) None
    onerr err =>
      (let reason := DecodeRevertReason (Some err) in
       mret (if negb (String.eqb reason "") then reason else Error err));
  if 4 <=? llen result then mret (decodeRevertHex (hex_encode result)) else mret "".

Definition getFailingMessage (hash : bytes) : M W string :=
  tx <?- TransactionByHash hash onerr err => lift (Err (Errorf "" err));
  from <?- lift (types_Sender tx) onerr err => lift (Err (Errorf "" err));
  res <?- CallContract [] (mkCallMsg from (tx_To tx) (tx_Gas tx) (tx_GasPrice tx) (tx_Value tx) (tx_Data tx)) None
    onerr err =>
      (let reason := decodeRevertFromError err in
       mret (if negb (String.eqb reason "") then reason else Error err));
  match abi_UnpackRevert res with
  | Some reason => mret reason
  | None => if 0 <? llen res then mret ("0x" +:+ hex_encode res) else mret "unknown revert reason"
  end.

Definition CheckTx (tx : Transaction) : M W Receipt :=
  receipt <?- WaitMined [120000] tx
    onerr err => lift (Err (Errorf ("transaction not mined within 2 minutes (tx: 0x" +:+ hex_encode (tx_Hash tx) +:+ "): ") err));
  if rc_Status receipt =? 0 then
    reason <?- getFailingMessage (tx_Hash tx) onerr err => lift (Err err);
    lift (Err (Plain ("error: Transaction fail: " +:+ reason)))
  else mret receipt.

(** ** Lemmas *)

Lemma CheckTx_ok tx w r w' :
  CheckTx tx w = (Ok r, w') -> WaitMined [120000] tx w = (Ok r, w') /\ rc_Status r <> 0.
Proof. unfold CheckTx. intros H. run_in H. to_prop. auto. Qed.
End Revert.
