(* ===== verification/TeeCalls.v ===== *)
(** * Calls to a TEE node and its proxy (tools/pkg/fccutils/tee_calls.go,
    common.go, encoding.go, policy_consistency.go) *)

From S2P Require Import Prelude GoStd GoEth NetStd Encoding Checks Revert.

(** ** Types of tee-node, the parts the tools read: [ti_rest] and
    [md_rest] stand for the fields they do not *)

Record TeeInfoData := mkTeeInfoData {
  ti_PublicKey : bytes * bytes;
  ti_ChainID : Z;
  ti_LastSigningPolicyID : Z;
  ti_rest : bytes;
}.

Record MachineData := mkMachineData {
  md_ExtensionID : bytes;
  md_InitialOwner : bytes;
  md_CodeHash : bytes;
  md_Platform : bytes;
  md_PublicKey : bytes * bytes;
  md_GovernanceHash : bytes;
}.

Record SignedTeeInfoResponse := mkTeeInfoResponse {
  TeeInfo_ : TeeInfoData;
  Attestation : bytes;
  MachineData_ : MachineData;
  DataSignature : bytes;
  ProxySignature : bytes;
}.

(** [types.ActionResponse]: the parts of its result that the tools read, and
    the signature. *)
Record ActionResponse := mkActionResponse {
  ar_Data : bytes;
  ar_Status : Z;
  ar_OPType : bytes;
  ar_OPCommand : bytes;
  ar_SubmissionTag : string;
  ar_Log : string;
  ar_Signature : bytes;
}.

(** tee-node, go-flare-common and the JSON decoders of the answers. *)
Class TeeLib := {
  Decode_TeeInfo : bytes -> result SignedTeeInfoResponse;
  Decode_ActionResponse : bytes -> result ActionResponse;
  ParsePubKey : bytes * bytes -> result bytes;
  PubkeyToAddress : bytes -> bytes;
  TeeInfo_Hash : TeeInfoData -> result bytes;
  ProxyTeeInfo_Hash : Z -> bytes -> result bytes;
  accounts_TextHash : bytes -> bytes;
  common_HexToHash : string -> bytes;
  crypto_SigToPub : bytes -> bytes -> result bytes;
  attestation_claims : string -> result (result bytes * result bytes);
}.

(** One GET request with its body, and [time.Sleep] in milliseconds. *)
Class TeeHttp (W : Type) := {
  http_Get : string -> M W (Z * bytes);
  time_Sleep : Z -> W -> W;
}.

(** The JSON form of a request of the node's configuration port, and one POST
    request with the status of its answer. *)
Class NodeSetup (W : Type) := {
  Marshal_ConfigureProxyURLRequest : string -> result bytes;
  http_Post : string -> string -> bytes -> M W Z;
}.

(** A result as a value: the Go code keeps it and goes on. *)
Definition attempt {W A} (m : M W A) : M W (result A) := fun w =>
  match m w with
  | (Panic p, w') => (Panic p, w')
  | (r, w') => (Ok r, w')
  end.

(** ** Constants *)

Definition hex_const (s : string) : bytes := match hex_decode s with Some l => l | None => [] end.
Definition PlatformIntel : bytes := hex_const "4743505f494e54454c5f54445800000000000000000000000000000000000000".
Definition PlatformAMD : bytes := hex_const "4743505f414d445f534556000000000000000000000000000000000000000000".
Definition PlatformAMDESEV : bytes := hex_const "4743505f414d445f5345565f4553000000000000000000000000000000000000".
Definition TestPlatform : bytes := hex_const "544553545f504c4154464f524d00000000000000000000000000000000000000".
Definition TeeCodeHash : bytes := hex_const "194844cf417dde867073e5ab7199fa4d21fd82b5dbe2bdea8b3d7fc18d10fdc2".

Definition repeats : nat := 15.

(** ** Signing policies *)

Definition ErrPolicyOutOfSync : string := "FTDC proxy signing policy out of sync with on-chain reward epoch".

Definition policyInSync (onchainEpoch proxyPolicyID : Z) : bool :=
  (proxyPolicyID =? onchainEpoch) || (proxyPolicyID =? uint64 (onchainEpoch + 1)).

Definition outOfSyncError (onchainEpoch proxyPolicyID : Z) : error :=
  let rel :=
    if proxyPolicyID <? onchainEpoch
    then "proxy is " +:+ pretty (uint64 (onchainEpoch - proxyPolicyID)) +:+ " epoch(s) behind"
    else "proxy is " +:+ pretty (uint64 (proxyPolicyID - onchainEpoch)) +:+ " epoch(s) ahead" in
  Wrap "" (Sentinel ErrPolicyOutOfSync)
    (": proxy signing policy " +:+ pretty proxyPolicyID +:+ " vs on-chain current reward epoch " +:+
     pretty onchainEpoch +:+ " (" +:+ rel +:+ "); " +:+
     "data providers will reject the availability check with 404 " +:+ quote "no round" +:+ "; " +:+
     "wait for the proxy to catch up to the current signing policy, or check the proxy's " +:+
     "initial_signing_policy_offset and C-chain indexer sync").

Section TeeCalls.
Context {TL : TeeLib} {W : Type} {TH : TeeHttp W}.

Definition Sleep (ms : Z) : M W unit := total (fun w => (tt, time_Sleep ms w)).

Definition TeeInfo (nodeURL : string) : M W SignedTeeInfoResponse :=
  result <?- http_Get (nodeURL +:+ "/info") onerr err => lift (Err (Errorf "" err));
  on_err "" (lift (Decode_TeeInfo (snd result))).

Definition SetProxyUrl {NS : NodeSetup W} (configurationPort proxyPort : Z) : M W unit :=
  body ← lift (Marshal_ConfigureProxyURLRequest (W := W) ("http://localhost:" +:+ pretty proxyPort));
  status ← http_Post ("http://localhost:" +:+ pretty configurationPort +:+ "/proxy") "application/json" body;
  if status =? StatusOK then mret tt else lift (Err (Plain ("unexpected status code: " +:+ pretty status))).

Definition CodeHashAndPlatform (attestationString : string) : result (bytes * bytes) :=
  let failed {A} (r : result A) := match r with Err e => Err (Errorf "" e) | _ => r end in
  claims ← failed (attestation_claims attestationString);
  codeHash ← failed (fst claims);
  platform ← failed (snd claims);
  Ok (codeHash, platform).

Definition TeeProxyId (teeInfo : SignedTeeInfoResponse) : result (bytes * bytes) :=
  let failed {A} (r : result A) := match r with Err e => Err (Errorf "" e) | _ => r end in
  pubKey ← failed (ParsePubKey (ti_PublicKey (TeeInfo_ teeInfo)));
  let teeID := PubkeyToAddress pubKey in
  hash ← failed (TeeInfo_Hash (TeeInfo_ teeInfo));
  infoSignHash ← failed (ProxyTeeInfo_Hash (ti_ChainID (TeeInfo_ teeInfo)) hash);
  proxyPubKey ← failed (crypto_SigToPub (accounts_TextHash infoSignHash) (ProxySignature teeInfo));
  Ok (teeID, PubkeyToAddress proxyPubKey).

(** The loop over the attempts: [last] is what [result] and [err] hold, at
    first the nil response, whose use panics. *)
Fixpoint poll (k : nat) (url : string) (last : result (Z * bytes)) : M W (result (Z * bytes)) :=
  match k with
  | O => mret last
  | S k =>
    r ← attempt (http_Get url);
    match r with
    | Ok (status, _) => if status =? StatusOK then mret r else Sleep 2000 ;; poll k url r
    | _ => Sleep 2000 ;; poll k url r
    end
  end.

Definition ActionResult (nodeURL : string) (actionID : bytes) : M W ActionResponse :=
  let url := nodeURL +:+ "/action/result/0x" +:+ hex_encode actionID in
  r ← poll repeats url (Panic "nil pointer dereference");
  result <?- lift r onerr err => lift (Err (Errorf "" err));
  let '(status, body) := result in
  if negb (status =? StatusOK)
  then lift (Err (Plain ("action result status not ok, got: " +:+ pretty status))) else
  on_err "" (lift (Decode_ActionResponse body)).

Definition GetTeeProxyID (proxyURL : string) : M W (bytes * bytes) :=
  teeInfo ← TeeInfo proxyURL;
  lift (TeeProxyId teeInfo).

(** [simulated]: whether SIMULATED_TEE is "true". *)
Definition GetCodeHashAndPlatform (simulated : bool) (teeInfo : SignedTeeInfoResponse) : result (bytes * bytes) :=
  cp ← (if simulated then Ok (TeeCodeHash, TestPlatform)
        else CodeHashAndPlatform (string_of_bytes (Attestation teeInfo)));
  let '(codeHash, platform) := cp in
  fail_if (bool_decide (codeHash <> md_CodeHash (MachineData_ teeInfo)))
    (Plain ("code hashes do not match: 0x" +:+ hex_encode codeHash +:+ ", 0x" +:+
            hex_encode (md_CodeHash (MachineData_ teeInfo)))) ;;
  fail_if (bool_decide (platform <> md_Platform (MachineData_ teeInfo)))
    (Plain ("platforms do not matc: 0x" +:+ hex_encode platform +:+ ", 0x" +:+
            hex_encode (md_Platform (MachineData_ teeInfo)))) ;;
  Ok (codeHash, platform).

(** [onchain] is the call of [getCurrentRewardEpochId]. *)
Definition CheckFTDCProxyPolicyConsistency (onchain : M W bigint) (ftdcProxyURL : string) : M W unit :=
  onchain <?- onchain onerr _e => mret tt;
  match onchain with
  | None => mret tt
  | Some n =>
    info <?- TeeInfo ftdcProxyURL onerr _e => mret tt;
    let onchainEpoch := uint64 (Z.abs n) in
    let proxyPolicyID := uint64 (ti_LastSigningPolicyID (TeeInfo_ info)) in
    if negb (policyInSync onchainEpoch proxyPolicyID)
    then lift (Err (outOfSyncError onchainEpoch proxyPolicyID)) else mret tt
  end.
End TeeCalls.
