(* ===== verification/Registration.v ===== *)
(** * Registration of a TEE machine (tools/pkg/fccutils/registration.go)

    The flow with its state file: the disk is the first component of the
    state; the chain and the node are operations of classes. *)

From S2P Require Import Prelude GoStd GoEth Bundle NetStd Encoding Report Checks Revert TeeCalls.

(** ** The state and its file *)

Record registrationState := mkRegState {
  CompletedSteps : string;
  TeeAttestInstructionID : bytes;
  InstructionID : bytes;
}.

Definition empty_state : registrationState := mkRegState "" zero_hash zero_hash.

(** [json.MarshalIndent(state, "", "  ")]. *)
Definition hash_json (h : bytes) : string := Json.json_string ("0x" +:+ hex_encode h).
Definition marshal_state (st : registrationState) : bytes :=
  bytes_of_string (indented_object 0
    [("completed_steps", Json.json_string (CompletedSteps st));
     ("tee_attest_instruction_id", hash_json (TeeAttestInstructionID st));
     ("instruction_id", hash_json (InstructionID st))]).

(** Files by path. *)
Abbreviation disk := (gmap string bytes).
Definition ErrNotExist : string := "file does not exist".

(** What the operating system may refuse: a refused write leaves the file as
    the second component says. *)
Class DiskFaults (W : Type) := {
  read_fault : string -> W -> option error * W;
  write_fault : string -> bytes -> W -> option (error * option bytes) * W;
  remove_fault : string -> W -> option error * W;
}.

Section disk.
Context {W : Type} {DF : DiskFaults W}.

Definition ReadFile (path : string) : M (disk * W) bytes := fun '(d, w) =>
  match read_fault path w with
  | (Some e, w') => (Err e, (d, w'))
  | (None, w') =>
    match d !! path with
    | Some data => (Ok data, (d, w'))
    | None => (Err (Sentinel ErrNotExist), (d, w'))
    end
  end.

Definition WriteFile (path : string) (data : bytes) : M (disk * W) unit := fun '(d, w) =>
  match write_fault path data w with
  | (Some (e, kept), w') => (Err e, (partial_alter (fun _ => kept) path d, w'))
  | (None, w') => (Ok tt, (<[path := data]> d, w'))
  end.

(** [os.Remove] with its error dropped. *)
Definition Remove (path : string) : M (disk * W) unit := fun '(d, w) =>
  match remove_fault path w with
  | (Some _, w') => (Ok tt, (d, w'))
  | (None, w') => (Ok tt, (delete path d, w'))
  end.
End disk.

(** ** The contracts *)

Record TransactOpts := mkOpts { opts_Key : bytes; opts_Value : bigint }.
Record Signature := mkSignature { sig_V : Byte.byte; sig_R : bytes; sig_S : bytes }.

(** [machinemanager.IMachineManagerTeeMachineData]. *)
Record TeeMachineData := mkTeeMachineData {
  tm_ExtensionId : Z;
  tm_InitialOwner : bytes;
  tm_CodeHash : bytes;
  tm_Platform : bytes;
  tm_PublicKey : bytes * bytes;
  tm_GovernanceHash : bytes;
}.

(** The proof of an availability check. *)
Record RequestBody := mkRequestBody { rb_TeeId : bytes; rb_rest : bytes }.
Record ResponseBody := mkResponseBody {
  rs_Status : Z;
  rs_TeeTimestamp : Z;
  rs_CodeHash : bytes;
  rs_Platform : bytes;
  rs_InitialSigningPolicyId : Z;
  rs_LastSigningPolicyId : Z;
  rs_State : bytes;
}.
Record ProveResponse := mkProveResponse {
  pr_ResponseHeader : bytes;
  pr_RequestBody : bytes;
  pr_ResponseBody : bytes;
  pr_DataProviderSignatures : bytes;
}.
Record Proof_ := mkProof {
  pf_Signatures : bytes;
  pf_Header : bytes;
  pf_RequestBody : RequestBody;
  pf_ResponseBody : ResponseBody;
}.

(** The generated bindings of the TEE manager and the codecs of its events
    and proofs. *)
Class TeeManager (W : Type) := {
  NewKeyedTransactor : bytes -> result unit;
  GetTeeMachine : bytes -> M W bytes;
  Register : TransactOpts -> TeeMachineData -> Signature -> bytes -> string -> bytes -> M W Transaction;
  register_abi : option (list AbiError);
  register_pack : TeeMachineData -> Signature -> bytes -> string -> bytes -> option bytes;
  availability_abis : list (string * option (list AbiError));
  availability_pack : bytes -> bytes -> bytes -> bytes -> bytes -> result bytes;
  RequestTeeAttestation_tx : TransactOpts -> bytes -> bytes -> M W Transaction;
  RequestAvailabilityCheckAttestation :
    TransactOpts -> bytes -> bytes -> bytes -> bytes -> bytes -> M W Transaction;
  ToProduction_tx : TransactOpts -> Proof_ -> M W Transaction;
  AddTeeVersion_tx : TransactOpts -> bigint -> bytes -> bytes -> list bytes -> M W Transaction;
  GetCurrentRewardEpochId : M W bigint;
  ParseTeeAttestationRequested : Log -> result bytes;
  ParseTeeInstructionsSent : Log -> result bytes;
  TransformSignatureRSVtoVRS : bytes -> result bytes;
  Unmarshal_ProveResponse : bytes -> result ProveResponse;
  fdc_DecodeResponse : bytes -> result bytes;
  DecodeFTDCTeeAvailabilityCheckRequest : bytes -> result RequestBody;
  DecodeFTDCTeeAvailabilityCheckResponse : bytes -> result ResponseBody;
  Unmarshal_registrationState : bytes -> result registrationState;
}.

(** [support.Support]: the key and the manager's address. *)
Record Support := mkSupport { Prv : bytes; FlareTeeManager : bytes }.

Definition attestation_fee : bigint := Some 1000000000.

(** A 32-byte text, left-aligned. *)
Definition StringToBytes32 (s : string) : result bytes :=
  if 32 <? slen s then Err (Plain ("version " +:+ quote s +:+ " exceeds 32 bytes"))
  else Ok (copy_to 32 (bytes_of_string s)).

Definition savedAvailabilityInstructionID {TL : TeeLib} (instructionIDString : string) (state : registrationState)
  : bytes :=
  if nonempty instructionIDString then common_HexToHash instructionIDString
  else if Contains (CompletedSteps state) "a" && negb (bool_decide (InstructionID state = zero_hash))
  then InstructionID state else zero_hash.

Section Registration.
Context {GE : GoEthereum} {RC : RevertCodec} {TL : TeeLib} {W : Type} {EC : EthClient W} {TC : TxClient W}
  {TH : TeeHttp W} {TM : TeeManager W} {DF : DiskFaults W}.

(** ** The state file *)

Definition loadState (path : string) : M (disk * W) registrationState :=
  data <?- ReadFile path
    onerr err => (if errors_Is err ErrNotExist then mret empty_state
                  else lift (Err (Errorf "failed to read state file: " err)));
  on_err "failed to parse state file: " (lift (Unmarshal_registrationState (W := W) data)).

Definition saveState (path : string) (state : registrationState) : M (disk * W) unit :=
  on_err "failed to write state file: " (WriteFile path (marshal_state state)).

(** A failed save is only logged. *)
Definition save_or_warn (path : string) (state : registrationState) : M (disk * W) unit :=
  _s <?- saveState path state onerr _e => mret tt; mret tt.

(** ** The transactions *)

Definition NewTransactor (key : bytes) (value : bigint) : M W TransactOpts :=
  _t ← on_err "" (lift (NewKeyedTransactor (W := W) key)); mret (mkOpts key value).

Definition machine_data (teeInfo : SignedTeeInfoResponse) : TeeMachineData :=
  let md := MachineData_ teeInfo in
  mkTeeMachineData (be_value (md_ExtensionID md)) (md_InitialOwner md) (md_CodeHash md) (md_Platform md)
    (md_PublicKey md) (md_GovernanceHash md).

(** [sigVRS[0]], [sigVRS[1:33]] and [sigVRS[33:65]] of 65 bytes. *)
Definition signature_of (vrs : bytes) : result Signature :=
  match vrs with
  | v :: rs => if llen rs <? 64 then Panic "slice bounds out of range"
               else Ok (mkSignature v (take 32 rs) (take 32 (drop 32 rs)))
  | [] => Panic "index out of range"
  end.

(** Why [register] failed. *)
Definition register_revert_reason (s : Support) (md : TeeMachineData) (sg : Signature) (proxyID : bytes)
    (hostURL : string) (claimBack : bytes) (value : bigint) (err : error) : M W string :=
  let reason := DecodeRevertReason (Some err) in
  reason ← match register_abi (W := W), register_pack (W := W) md sg proxyID hostURL claimBack with
    | Some errs, Some callData =>
      raw ← SimulateAndDecodeRevert claimBack (FlareTeeManager s) value callData;
      let named := MatchCustomError errs raw in
      mret (if nonempty named then named else if String.eqb reason "" then raw else reason)
    | _, _ => mret reason
    end;
  mret (if String.eqb reason "" then Error err else reason).

(** The first two logs of a receipt. *)
Definition two_logs (r : Receipt) : result (Log * Log) :=
  match rc_Logs r with
  | l0 :: l1 :: _ => Ok (l0, l1)
  | _ => Err (Plain "unexpected logs, this should not happen")
  end.

Definition PreRegistration (s : Support) (hostURL : string) (teeID proxyID : bytes)
    (teeInfo : SignedTeeInfoResponse) : M W (bytes * bytes) :=
  opts ← NewTransactor (Prv s) attestation_fee;
  let md := machine_data teeInfo in
  if negb (llen (DataSignature teeInfo) =? 65) then lift (Err (Plain "signature error")) else
  sigVRS ← on_err "" (lift (TransformSignatureRSVtoVRS (W := W) (DataSignature teeInfo)));
  sg ← lift (signature_of sigVRS);
  let claimBack := PubkeyToAddress (Prv s) in
  tx <?- Register opts md sg proxyID hostURL claimBack
    onerr err =>
      (reason ← register_revert_reason s md sg proxyID hostURL claimBack (opts_Value opts) err;
       lift (Err (Plain ("register() reverted: " +:+ reason))));
  receipt ← CheckTx tx;
  logs ← lift (two_logs receipt);
  challenge ← on_err "failed to parse TeeAttestationRequested event: "
                (lift (ParseTeeAttestationRequested (W := W) (snd logs)));
  instructionID ← on_err "failed to parse TeeInstructionsSent event: "
                    (lift (ParseTeeInstructionsSent (W := W) (fst logs)));
  mret (challenge, instructionID).

Definition RequestTeeAttestation (s : Support) (teeID : bytes) : M W bytes :=
  opts ← NewTransactor (Prv s) attestation_fee;
  tx ← on_err "error: " (RequestTeeAttestation_tx opts teeID (PubkeyToAddress (Prv s)));
  receipt ← CheckTx tx;
  logs ← lift (two_logs receipt);
  on_err "failed to parse TeeInstructionsSent event: " (lift (ParseTeeInstructionsSent (W := W) (fst logs))).

(** The diagnosis of a failed request: it replays the call and logs what the
    revert means (diag.go). The result is the text it logs; no caller reads
    it. *)
Definition diag_match (abis : list (string * option (list AbiError))) (data : bytes) : string :=
  let go := fix go (l : list (string * option (list AbiError))) : string :=
    match l with
    | [] => "diag: revert with unknown selector 0x" +:+ hex_encode (take 4 data) +:+ "; full data: 0x" +:+ hex_encode data
    | (_, None) :: l => go l
    | (src, Some errs) :: l =>
      match list_find (fun e => take 4 (ae_ID e) = take 4 data) errs with
      | None => go l
      | Some (_, e) =>
        match ae_Unpack e data with
        | None => "diag: revert -> " +:+ src +:+ "." +:+ ae_Name e +:+ " (arg unpack failed) data=0x" +:+ hex_encode data
        | Some args => "diag: revert -> " +:+ src +:+ "." +:+ ae_Name e +:+ "(" +:+ args +:+ ")"
        end
      end
    end in go abis.

Definition diagAvailabilityCheckRevert (s : Support) (opts : TransactOpts) (teeID instructionID externalTeeID
    proofOwner claimBack : bytes) : M W string :=
  calldata <?- lift (availability_pack (W := W) teeID instructionID externalTeeID proofOwner claimBack)
    onerr err => mret ("diag: pack calldata: " +:+ Error err);
  r ← attempt (CallContract [] (mkCallMsg (PubkeyToAddress (Prv s)) (Some (FlareTeeManager s)) 0 None (opts_Value opts) calldata) None);
  match r with
  | Err callErr =>
    let revertData := ExtractRevertData (Some callErr) in
    mret (match revertData with
          | [] => "diag: eth_call error has no revert data: " +:+ Error callErr
          | _ =>
            if llen revertData <? 4 then "diag: revert data too short to contain a selector: 0x" +:+ hex_encode revertData
            else if bool_decide (take 4 revertData = hex_const "08c379a0")
            then match abi_UnpackRevert revertData with
                 | Some reason => "diag: revert reason (string): " +:+ quote reason
                 | None => diag_match (availability_abis (W := W)) revertData
                 end
            else diag_match (availability_abis (W := W)) revertData
          end)
  | _ => mret "diag: eth_call unexpectedly succeeded — revert may be tx-time/gas-related"
  end.

Definition RequestFTDCAvailabilityCheck (s : Support) (teeID externalTeeID teeAttestInstructionID : bytes)
  : M W bytes :=
  opts ← NewTransactor (Prv s) attestation_fee;
  let claimBack := PubkeyToAddress (Prv s) in
  tx <?- RequestAvailabilityCheckAttestation opts teeID teeAttestInstructionID externalTeeID claimBack claimBack
    onerr err =>
      (diagAvailabilityCheckRevert s opts teeID teeAttestInstructionID externalTeeID claimBack claimBack ;;
       lift (Err (Errorf "" err)));
  receipt ← on_err "" (CheckTx tx);
  match rc_Logs receipt with
  | [] => lift (Err (Plain "no logs found in receipt"))
  | l0 :: _ => on_err "failed to parse TeeInstructionsSent event: " (lift (ParseTeeInstructionsSent (W := W) l0))
  end.

Definition GetFTDCAvailabilityCheckResult (hostURL : string) (instructionId : bytes) : M W Proof_ :=
  actionResult ← ActionResult hostURL instructionId;
  ftdcProof ← on_err "" (lift (Unmarshal_ProveResponse (W := W) (ar_Data actionResult)));
  header ← on_err "" (lift (fdc_DecodeResponse (W := W) (pr_ResponseHeader ftdcProof)));
  request ← on_err "" (on_err "" (lift (DecodeFTDCTeeAvailabilityCheckRequest (W := W) (pr_RequestBody ftdcProof))));
  response ← on_err "" (on_err "" (lift (DecodeFTDCTeeAvailabilityCheckResponse (W := W) (pr_ResponseBody ftdcProof))));
  mret (mkProof (pr_DataProviderSignatures ftdcProof) header request response).

Definition ToProduction (s : Support) (p : Proof_) : M W unit :=
  opts ← NewTransactor (Prv s) None;
  tx ← on_err "" (ToProduction_tx opts p);
  _r ← on_err "" (CheckTx tx);
  teeId ← on_err "" (GetTeeMachine (rb_TeeId (pf_RequestBody p)));
  if bool_decide (teeId <> rb_TeeId (pf_RequestBody p))
  then lift (Err (Plain "tee machine not set up correctly")) else mret tt.

Definition AddTeeVersion (s : Support) (privKey : bytes) (extensionId : bigint) (codeHash platform : bytes)
    (version : string) : M W unit :=
  opts ← NewTransactor privKey None;
  versionBytes ← lift (StringToBytes32 version);
  tx ← on_err "TeeExtensionRegistry.AddTeeVersion failed: "
         (AddTeeVersion_tx opts extensionId versionBytes codeHash [platform]);
  _r ← on_err "" (CheckTx tx);
  mret tt.

(** ** The flow

    Each step takes the state and gives back the state and the instruction
    id the rest of the flow uses. *)

Definition Pause : M (disk * W) unit := zoom_snd (Sleep 1000).

Definition complete (step : string) (attest instr : bytes) (st : registrationState) : registrationState :=
  mkRegState (CompletedSteps st +:+ step) attest instr.

(** Step r: pre-registration, or a fresh attestation of a known machine. *)
Definition pre_register (s : Support) (teeInfo : SignedTeeInfoResponse) (hostURL : string) (teeID proxyID : bytes)
  : M W bytes :=
  known ← attempt (GetTeeMachine teeID);
  match known with
  | Ok teeId =>
    if bool_decide (teeId <> zero_address) then RequestTeeAttestation s teeID
    else r ← PreRegistration s hostURL teeID proxyID teeInfo; mret (snd r)
  | _ => r ← PreRegistration s hostURL teeID proxyID teeInfo; mret (snd r)
  end.

(** Steps r and R: both record the attestation they requested. *)
Definition attest_step (step path : string) (request : M W bytes) (state : registrationState)
  : M (disk * W) (registrationState * bytes) :=
  r ← (if Contains (CompletedSteps state) step then mret (state, TeeAttestInstructionID state)
       else id ← zoom_snd request;
            let state := complete step id (InstructionID state) state in
            save_or_warn path state ;;
            mret (state, id));
  Pause ;;
  mret r.

(** Step a. *)
Definition availability_step (s : Support) (ftdcTeeURL path : string) (teeID ftdcTee teeAttestInstructionID : bytes)
    (state : registrationState) : M (disk * W) (registrationState * bytes) :=
  r ← (if Contains (CompletedSteps state) "a" then mret (state, InstructionID state)
       else zoom_snd (CheckFTDCProxyPolicyConsistency GetCurrentRewardEpochId ftdcTeeURL) ;;
            id ← zoom_snd (RequestFTDCAvailabilityCheck s teeID ftdcTee teeAttestInstructionID);
            let state := complete "a" (TeeAttestInstructionID state) id state in
            save_or_warn path state ;;
            mret (state, id));
  Pause ;;
  mret r.

(** Step p. *)
Definition promotion_step (s : Support) (ftdcTeeURL : string) (instructionID : bytes) : M W unit :=
  toProductionProof ← GetFTDCAvailabilityCheckResult ftdcTeeURL instructionID;
  ToProduction s toProductionProof.

Definition RegisterNode (s : Support) (teeInfo : SignedTeeInfoResponse) (hostURL ftdcTeeURL : string)
    (ftdcTee : bytes) (command instructionIDstring stateFilePath : string) : M (disk * W) unit :=
  ids ← lift (TeeProxyId teeInfo);
  let '(teeID, proxyID) := ids in
  state ← loadState stateFilePath;
  r ← (if Contains command "r"
       then attest_step "r" stateFilePath (pre_register s teeInfo hostURL teeID proxyID) state
       else mret (state, zero_hash));
  let '(state, attestID) := r in
  r ← (if Contains command "R"
       then attest_step "R" stateFilePath (RequestTeeAttestation s teeID) state
       else mret (state, attestID));
  let '(state, attestID) := r in
  r ← (if Contains command "a"
       then availability_step s ftdcTeeURL stateFilePath teeID ftdcTee attestID state
       else mret (state, savedAvailabilityInstructionID instructionIDstring state));
  let '(_, instructionID) := r in
  (if Contains command "p" then zoom_snd (promotion_step s ftdcTeeURL instructionID) else mret tt) ;;
  Remove stateFilePath.
End Registration.
