(* ===== verification/ExtensionSetup.v ===== *)
(** * Setting up an extension (tools/pkg/fccutils/extension.go, governance.go)

    The registration of an extension with its owners and key types, and its
    governance. *)

From S2P Require Import Prelude GoStd GoEth Bundle NetStd Checks Revert TeeCalls Registration.

(** The registry, the allowlist and the governance facet. *)
Class ExtensionRegistry (W : Type) := {
  Registry_Register : TransactOpts -> bytes -> bytes -> M W Transaction;
  ParseTeeExtensionRegistered : Log -> result bigint;
  ParseTeeExtensionContractsSet : Log -> result bytes;
  ext_IsAllowedTeeMachineOwner : bigint -> bytes -> M W bool;
  AddAllowedTeeMachineOwners : TransactOpts -> bigint -> list bytes -> M W Transaction;
  ParseAllowedTeeMachineOwnersAdded : Log -> result bytes;
  IsAllowedTeeWalletProjectOwner : bigint -> bytes -> M W bool;
  AddAllowedTeeWalletProjectOwners : TransactOpts -> bigint -> list bytes -> M W Transaction;
  ParseAllowedTeeWalletProjectOwnersAdded : Log -> result bytes;
  ext_IsKeyTypeSupported : bigint -> bytes -> M W bool;
  AddSupportedKeyTypes_tx : TransactOpts -> bigint -> list bytes -> M W Transaction;
  wallets_EVMType : bytes;
  types_GovernanceHash : list bytes -> Z -> result bytes;
  GetLatestTeeGovernanceHash : bigint -> M W bytes;
  SetNewTeeGovernance : TransactOpts -> bigint -> list bytes -> Z -> M W Transaction;
}.

Section ExtensionSetup.
Context {RC : RevertCodec} {TL : TeeLib} {W : Type} {EC : EthClient W} {TC : TxClient W} {TM : TeeManager W}
  {ER : ExtensionRegistry W}.

(** [opts.Value] stays nil in this file. *)
Definition ext_id_text (id : bigint) : string := big_text id.

Definition registerExtension (opts : TransactOpts) (instructionsSender stateVerifier : bytes)
  : M W (bigint * bytes) :=
  tx ← on_err "TeeExtensionRegistry.Register failed: " (Registry_Register opts stateVerifier instructionsSender);
  receipt ← on_err "Register transaction failed: " (CheckTx tx);
  match rc_Logs receipt with
  | l0 :: l1 :: _ =>
    extensionRegistered ← on_err "failed to parse TeeExtensionRegistered event: "
                            (lift (ParseTeeExtensionRegistered (W := W) l0));
    extensionContractsSet ← on_err "failed to parse TeeExtensionContractsSet event: "
                              (lift (ParseTeeExtensionContractsSet (W := W) l1));
    mret (extensionRegistered, extensionContractsSet)
  | ls => lift (Err (Plain ("expected at least 2 logs from Register() transaction, got " +:+ pretty (llen ls) +:+
                            " — the registry contract may have changed or be behind a proxy")))
  end.

(** The common shape of the two owner transactions: [name] of the call and
    [event] of its log. *)
Definition add_owners (name event : string) (send : M W Transaction) (parse : Log -> result bytes) : M W bytes :=
  tx ← on_err (name +:+ " failed: ") send;
  receipt ← on_err (name +:+ " transaction failed: ") (CheckTx tx);
  match rc_Logs receipt with
  | [] => lift (Err (Plain ("no logs in " +:+ name +:+ " transaction — unexpected")))
  | l0 :: _ => on_err ("failed to parse " +:+ event +:+ " event: ") (lift (parse l0))
  end.

Definition allowTeeMachineOwners (opts : TransactOpts) (extensionId : bigint) (owners : list bytes) : M W bytes :=
  add_owners "AddAllowedTeeMachineOwners" "AllowedTeeMachineOwnersAdded"
    (AddAllowedTeeMachineOwners opts extensionId owners) (ParseAllowedTeeMachineOwnersAdded (W := W)).

Definition allowTeeProjectManagerOwners (opts : TransactOpts) (extensionId : bigint) (owners : list bytes) : M W bytes :=
  add_owners "AddAllowedTeeWalletProjectOwners" "AllowedTeeWalletProjectOwnersAdded"
    (AddAllowedTeeWalletProjectOwners opts extensionId owners) (ParseAllowedTeeWalletProjectOwnersAdded (W := W)).

Definition addSupportedKeyTypesTx (opts : TransactOpts) (extensionId : bigint) (keyTypes : list bytes) : M W unit :=
  tx ← on_err "" (AddSupportedKeyTypes_tx opts extensionId keyTypes);
  _r ← on_err "" (CheckTx tx);
  mret tt.

Definition AddSupportedKeyTypes (s : Support) (extensionId : bigint) (keyTypes : list bytes) : M W unit :=
  opts ← NewTransactor (Prv s) None;
  on_err "" (addSupportedKeyTypesTx opts extensionId keyTypes).

Definition IsKeyTypeSupported (extensionId : bigint) (keyType : bytes) : M W bool :=
  on_err "" (ext_IsKeyTypeSupported extensionId keyType).

(** One step of the setup: skipped when the chain says it is done. *)
Definition ensure_owner (check : M W bool) (role : string) (extensionID : bigint) (add : M W bytes) : M W unit :=
  already ← on_err ("failed checking " +:+ role +:+ " owner status: ") check;
  if already : bool then mret tt else
  _o ← on_err ("failed adding " +:+ role +:+ " owners (extension exists as ID " +:+ ext_id_text extensionID +:+
               " but owners not set): ") add;
  mret tt.

Definition SetupExtension (s : Support) (instructionsSender stateVerifier : bytes) : M W bigint :=
  let deployerAddr := PubkeyToAddress (Prv s) in
  _t ← lift (NewKeyedTransactor (W := W) (Prv s));
  let opts := mkOpts (Prv s) None in
  er ← registerExtension opts instructionsSender stateVerifier;
  let extensionID := fst er in
  ensure_owner (ext_IsAllowedTeeMachineOwner extensionID deployerAddr) "TEE machine" extensionID
    (allowTeeMachineOwners opts extensionID [deployerAddr]) ;;
  ensure_owner (IsAllowedTeeWalletProjectOwner extensionID deployerAddr) "wallet project" extensionID
    (allowTeeProjectManagerOwners opts extensionID [deployerAddr]) ;;
  supported ← IsKeyTypeSupported extensionID (wallets_EVMType (W := W));
  (if supported : bool then mret tt else AddSupportedKeyTypes s extensionID [wallets_EVMType (W := W)]) ;;
  mret extensionID.

(** ** governance.go *)

Definition SetTeeGovernance (privKey : bytes) (extensionId : bigint) (signers : list bytes) (threshold : Z)
  : M W unit :=
  if llen signers =? 0
  then lift (Err (Plain "at least one governance signer is required (set GOVERNANCE_SIGNERS)")) else
  if (threshold =? 0) || (uint64 (llen signers) <? threshold)
  then lift (Err (Plain ("invalid GOVERNANCE_THRESHOLD " +:+ pretty threshold +:+ " for " +:+
                         pretty (llen signers) +:+ " signer(s)"))) else
  desiredHash ← on_err "computing governance hash: " (lift (types_GovernanceHash (W := W) signers threshold));
  current ← attempt (GetLatestTeeGovernanceHash extensionId);
  if (match current with Ok h => bool_decide (h = desiredHash) | _ => false end) then mret tt else
  opts ← NewTransactor privKey None;
  tx ← on_err "SetNewTeeGovernance failed: " (SetNewTeeGovernance opts extensionId signers threshold);
  _r ← on_err "" (CheckTx tx);
  mret tt.

End ExtensionSetup.

(** ** tools/cmd/set-governance/main.go *)

Definition parseSigners {GE : GoEthereum} (raw : string) (fallback : bytes) : list bytes :=
  match omap (fun part => let part := TrimSpace part in if nonempty part then Some (HexToAddress part) else None)
          (Split raw ",") with
  | [] => [fallback]
  | signers => signers
  end.

(** [strconv.ParseUint(s, 10, bits)]: a value, when the text is decimal digits
    in range. *)
Definition ParseUint (bits : Z) (s : string) : option Z :=
  if nonempty s && all_chars is_digit s then
    match digits_val s 0 with
    | Some v => if v <? 2 ^ bits then Some v else None
    | None => None
    end
  else None.

Definition parseThreshold (raw : string) : Z :=
  match ParseUint 64 (TrimSpace raw) with
  | Some v => if 0 <? v then v else 1
  | None => 1
  end.
