(* ===== verification/RegistrationSpecs.v ===== *)
(** * Correctness of the registration tools

    Resuming a registration from its state file, the policy gate, the polling
    of results, the decoding of reverts and the governance setup. *)

From S2P Require Import Prelude GoStd GoEth Bundle NetStd Encoding Report Checks Revert TeeCalls Registration ExtensionSetup Reference.

(** ** Texts of step letters *)

Lemma append_nil_r s : s +:+ EmptyString = s.
Proof. induction s as [|a s IH]; [done|]. by rewrite append_cons, IH. Qed.

Abbreviation letter c := (String c EmptyString).

Lemma Contains_letter_cons a s c : Contains (String a s) (letter c) = (Ascii.eqb c a || Contains s (letter c))%bool.
Proof.
  change (Contains (String a s) (letter c)) with (String.prefix (letter c) (String a s) || Contains s (letter c))%bool.
  f_equal. simpl. destruct (Ascii.ascii_dec c a) as [->|Hne].
  - rewrite Ascii.eqb_refl. by destruct s.
  - symmetry. by apply Ascii.eqb_neq.
Qed.

Lemma Contains_letter_app a b c : Contains (a +:+ b) (letter c) = (Contains a (letter c) || Contains b (letter c))%bool.
Proof.
  induction a as [|x a IH]; [done|]. by rewrite append_cons, !Contains_letter_cons, IH, orb_assoc.
Qed.

(** ** The state file *)
Section progress.
Context {GE : GoEthereum} {RC : RevertCodec} {TL : TeeLib} {W : Type} {EC : EthClient W} {TC : TxClient W}
  {TH : TeeHttp W} {TM : TeeManager W} {DF : DiskFaults W}.

Record no_faults : Prop := {
  nf_read path w : fst (read_fault path w) = None;
  nf_write path data w : fst (write_fault path data w) = None;
  nf_remove path w : fst (remove_fault path w) = None;
}.

Lemma Pause_eq d (w : W) : Pause (d, w) = (Ok tt, (d, time_Sleep 1000 w)).
Proof. done. Qed.

Lemma save_eq path st d w :
  no_faults -> exists w', save_or_warn path st (d, w) = (Ok tt, (<[path := marshal_state st]> d, w')).
Proof.
  intros [_ Hw _]. specialize (Hw path (marshal_state st) w).
  unfold save_or_warn, saveState, on_err, on_error, WriteFile.
  destruct (write_fault path (marshal_state st) w) as [[?|] w'] eqn:E; simpl in *; [done|]. by eexists.
Qed.

Lemma Remove_eq path d w : no_faults -> exists w', Remove path (d, w) = (Ok tt, (delete path d, w')).
Proof.
  intros [_ _ Hr]. specialize (Hr path w). unfold Remove.
  destruct (remove_fault path w) as [[?|] w']; simpl in *; [done|]. by eexists.
Qed.

(** What the flow starts from. *)
Definition loads (d : disk) (path : string) (st : registrationState) : Prop :=
  (d !! path = None /\ st = empty_state) \/
  (exists data, d !! path = Some data /\ Unmarshal_registrationState (W := W) data = Ok st).

Lemma loadState_eq path d w r s :
  no_faults -> loadState path (d, w) = (r, s) ->
  fst s = d /\ forall st, r = Ok st -> loads d path st.
Proof.
  intros [Hr _ _] H. specialize (Hr path w). unfold loadState, on_err, on_error, ReadFile, loads in *.
  destruct (read_fault path w) as [[?|] w1]; simpl in *; [done|].
  destruct (d !! path) as [data|] eqn:Hd; simpl in H.
  - unfold lift in H. destruct (Unmarshal_registrationState data) eqn:E; simpl in H; injection H as <- <-;
      split; try done. intros st [= <-]. right. eauto.
  - injection H as <- <-. split; [done|]. intros st [= <-]. by left.
Qed.

(** The run fails as its operation did. *)
Definition ends {A B} (r : result A) (q : result B) : Prop :=
  (exists e, r = Err e /\ q = Err e) \/ (exists p, r = Panic p /\ q = Panic p).

Definition fails_with {A B} (r : result A) (m : M W B) : Prop := exists w1 w2 q, m w1 = (q, w2) /\ ends r q.

Lemma fails_err {A B} e (m : M W B) w1 w2 : m w1 = (Err e, w2) -> fails_with (A := A) (Err e) m.
Proof. intros H. do 3 eexists. split; [exact H|left; eauto]. Qed.
Lemma fails_panic {A B} p (m : M W B) w1 w2 : m w1 = (Panic p, w2) -> fails_with (A := A) (Panic p) m.
Proof. intros H. do 3 eexists. split; [exact H|right; eauto]. Qed.
Local Hint Resolve fails_err fails_panic : core.

(** A step either finds its letter, or runs its request and records the
    answer, or stops with its request, without a change of the disk. *)
Lemma attest_step_eq step path req st d w r d' w' :
  no_faults -> attest_step step path req st (d, w) = (r, (d', w')) ->
  match r with
  | Ok (st', id) =>
    (Contains (CompletedSteps st) step = true /\ st' = st /\ d' = d) \/
    (Contains (CompletedSteps st) step = false /\ st' = complete step id (InstructionID st) st /\
     d' = <[path := marshal_state st']> d /\ exists w1 w2, req w1 = (Ok id, w2))
  | _ => d' = d /\ Contains (CompletedSteps st) step = false /\ fails_with r req
  end.
Proof.
  intros Hnf. unfold attest_step, mbind, M_bind.
  destruct (Contains (CompletedSteps st) step); [cbn; intros [= <- <- <-]; by left|].
  unfold zoom_snd at 1. destruct (req w) as [[id|e|p] w1] eqn:Hreq; [|intros [= <- <- <-]; by eauto..].
  destruct (save_eq path (complete step id (InstructionID st) st) d w1 Hnf) as [w2 ->].
  cbn. intros [= <- <- <-]. right. split_and!; eauto.
Qed.

Lemma availability_step_eq s url path teeID ftdcTee attestID st d w r d' w' :
  no_faults -> availability_step s url path teeID ftdcTee attestID st (d, w) = (r, (d', w')) ->
  match r with
  | Ok (st', id) =>
    (Contains (CompletedSteps st) "a" = true /\ st' = st /\ d' = d /\ id = InstructionID st) \/
    (Contains (CompletedSteps st) "a" = false /\ st' = complete "a" (TeeAttestInstructionID st) id st /\
     d' = <[path := marshal_state st']> d /\
     exists w1 w2, RequestFTDCAvailabilityCheck s teeID ftdcTee attestID w1 = (Ok id, w2))
  | _ => d' = d /\ Contains (CompletedSteps st) "a" = false /\
      (fails_with r (CheckFTDCProxyPolicyConsistency GetCurrentRewardEpochId url) \/
       fails_with r (RequestFTDCAvailabilityCheck s teeID ftdcTee attestID))
  end.
Proof.
  intros Hnf. unfold availability_step, mbind, M_bind.
  destruct (Contains (CompletedSteps st) "a"); [cbn; intros [= <- <- <-]; by left|].
  unfold zoom_snd. destruct (CheckFTDCProxyPolicyConsistency _ _ w) as [[[]|e|p] w0] eqn:Hpol;
    [|intros [= <- <- <-]; by eauto 10..].
  destruct (RequestFTDCAvailabilityCheck _ _ _ _ w0) as [[id|e|p] w1] eqn:Hreq; [|intros [= <- <- <-]; by eauto 10..].
  destruct (save_eq path (complete "a" (TeeAttestInstructionID st) id st) d w1 Hnf) as [w2 ->].
  cbn. intros [= <- <- <-]. right. split_and!; eauto.
Qed.

(** What a run did, by letter, from the loaded state [st0] and the disk [d]. *)
Definition done_steps (r R a : bool) : string :=
  (if r then "r" else "") +:+ (if R then "R" else "") +:+ (if a then "a" else "").

Record tracked (s : Support) (teeInfo : SignedTeeInfoResponse) (hostURL : string) (ftdcTee : bytes)
    (command path : string) (st0 : registrationState) (d : disk) (r R a : bool) (st : registrationState) (d' : disk)
  : Prop := {
  tr_steps : CompletedSteps st = CompletedSteps st0 +:+ done_steps r R a;
  tr_new c : Contains (done_steps r R a) (letter c) = true ->
    Contains command (letter c) = true /\ Contains (CompletedSteps st0) (letter c) = false;
  tr_disk : d' = if (r || R || a)%bool then <[path := marshal_state st]> d else d;
  tr_r : r = true -> R = false -> exists teeID proxyID w1 w2,
    TeeProxyId teeInfo = Ok (teeID, proxyID) /\
    pre_register s teeInfo hostURL teeID proxyID w1 = (Ok (TeeAttestInstructionID st), w2 : W);
  tr_R : R = true -> exists teeID proxyID w1 w2,
    TeeProxyId teeInfo = Ok (teeID, proxyID) /\
    RequestTeeAttestation s teeID w1 = (Ok (TeeAttestInstructionID st), w2 : W);
  tr_a : a = true -> exists teeID proxyID attestID w1 w2,
    TeeProxyId teeInfo = Ok (teeID, proxyID) /\
    RequestFTDCAvailabilityCheck s teeID ftdcTee attestID w1 = (Ok (InstructionID st), w2 : W);
  tr_keep_attest : r = false -> R = false -> TeeAttestInstructionID st = TeeAttestInstructionID st0;
  tr_keep_id : a = false -> InstructionID st = InstructionID st0;
}.

Lemma tracked_init s teeInfo hostURL ftdcTee command path st0 d :
  tracked s teeInfo hostURL ftdcTee command path st0 d false false false st0 d.
Proof. split; try done. change (done_steps false false false) with EmptyString. by rewrite append_nil_r. Qed.

Lemma Contains_done r R a c :
  Contains (done_steps r R a) (letter c) =
  (r && Ascii.eqb c "r" || R && Ascii.eqb c "R" || a && Ascii.eqb c "a")%bool.
Proof.
  unfold done_steps. rewrite !Contains_letter_app.
  destruct r, R, a; rewrite ?Contains_letter_cons; cbn [Contains]; simpl; by rewrite ?orb_false_r, ?orb_assoc.
Qed.

Section steps.
Context (s : Support) (teeInfo : SignedTeeInfoResponse) (hostURL : string) (ftdcTee : bytes) (command path : string).
Context (st0 : registrationState) (d : disk) (teeID proxyID : bytes).
Context (Hnf : no_faults) (Hids : TeeProxyId teeInfo = Ok (teeID, proxyID)).
Local Abbreviation track := (tracked s teeInfo hostURL ftdcTee command path st0 d).

(** A letter that a step adds was requested and not yet recorded. *)
Lemma new_letters r R a st d1 c :
  track r R a st d1 -> Contains (CompletedSteps st) (letter c) = false ->
  Contains (CompletedSteps st0) (letter c) = false.
Proof. intros [-> _ _ _ _ _ _ _]. rewrite Contains_letter_app. by intros [? _]%orb_false_iff. Qed.

(** A step is due when it is asked for and not recorded. *)
Definition due (c : ascii) : bool := Contains command (letter c) && negb (Contains (CompletedSteps st0) (letter c)).

Lemma track_recorded r R a st d1 c : track r R a st d1 -> Contains (done_steps r R a) (letter c) = false ->
  Contains (CompletedSteps st) (letter c) = Contains (CompletedSteps st0) (letter c).
Proof. intros [-> _ _ _ _ _ _ _] H. by rewrite Contains_letter_app, H, orb_false_r. Qed.

Lemma tracked_r w st id d' w' :
  Contains command "r" = true ->
  attest_step "r" path (pre_register s teeInfo hostURL teeID proxyID) st0 (d, w) = (Ok (st, id), (d', w')) ->
  track (due "r") false false st d'.
Proof.
  unfold due. intros Hc [(Hn & -> & ->)|(Hn & -> & -> & (w1 & w2 & Hreq))]%(attest_step_eq _ _ _ _ _ _ _ _ _ Hnf);
    rewrite Hc, Hn; simpl.
  - apply tracked_init.
  - split; try done.
    + intros c. rewrite Contains_done. simpl. rewrite !orb_false_r. intros ->%Ascii.eqb_eq. done.
    + intros _ _. eauto 10.
Qed.

Lemma tracked_R r st d1 w st' id d' w' :
  Contains command "R" = true -> track r false false st d1 ->
  attest_step "R" path (RequestTeeAttestation s teeID) st (d1, w) = (Ok (st', id), (d', w')) ->
  track r (due "R") false st' d'.
Proof.
  intros Hc Ht. assert (Contains (done_steps r false false) "R" = false) as Hdone by (rewrite Contains_done; by destruct r).
  unfold due. rewrite <- (track_recorded _ _ _ _ _ "R" Ht Hdone).
  intros [(Hn & -> & ->)|(Hn & -> & -> & (w1 & w2 & Hreq))]%(attest_step_eq _ _ _ _ _ _ _ _ _ Hnf); rewrite Hc, Hn; [done|]; simpl.
  pose proof (new_letters _ _ _ _ _ _ Ht Hn) as Hn0. destruct Ht as [Hs Hnew Hd _ _ _ _ Hki].
  split; try done.
  - simpl. rewrite Hs. unfold done_steps. simpl. rewrite <- (assoc String.append). by destruct r.
  - intros c. rewrite Contains_done. simpl. rewrite orb_false_r. intros [Hr| ->%Ascii.eqb_eq]%orb_true_iff; [|done].
    apply Hnew. by rewrite Contains_done, Hr.
  - rewrite orb_true_r. rewrite Hd. destruct r; simpl; [|done]. by rewrite insert_insert_eq.
  - intros _. eauto 10.
Qed.

Lemma tracked_a url attestID r R st d1 w st' id d' w' :
  Contains command "a" = true -> track r R false st d1 ->
  availability_step s url path teeID ftdcTee attestID st (d1, w) = (Ok (st', id), (d', w')) ->
  track r R (due "a") st' d'.
Proof.
  intros Hc Ht. assert (Contains (done_steps r R false) "a" = false) as Hdone by (rewrite Contains_done; by destruct r, R).
  unfold due. rewrite <- (track_recorded _ _ _ _ _ "a" Ht Hdone).
  intros [(Hn & -> & -> & _)|(Hn & -> & -> & (w1 & w2 & Hreq))]%(availability_step_eq _ _ _ _ _ _ _ _ _ _ _ _ Hnf);
    rewrite Hc, Hn; [done|]; simpl.
  pose proof (new_letters _ _ _ _ _ _ Ht Hn) as Hn0. destruct Ht as [Hs Hnew Hd Hr HR _ Hka _].
  split; try done.
  - simpl. rewrite Hs. unfold done_steps. by rewrite <- !(assoc String.append).
  - intros c. rewrite Contains_done. simpl. intros [Hx| ->%Ascii.eqb_eq]%orb_true_iff; [|done].
    apply Hnew. by rewrite Contains_done, Hx.
  - rewrite orb_true_r. rewrite Hd. destruct r, R; simpl; try done; by rewrite insert_insert_eq.
  - intros _. eauto 10.
Qed.
End steps.

(** Where a run failed after it loaded [st0]: the operation that ended it, and
    which of the requests had been made by then - all those due before it. *)
Inductive stopped (s : Support) (teeInfo : SignedTeeInfoResponse) (hostURL ftdcTeeURL : string) (ftdcTee : bytes)
    (command : string) (st0 : registrationState) (teeID proxyID : bytes) (res : result unit) : bool -> bool -> bool -> Prop :=
| stopped_r :
    due command st0 "r" = true -> fails_with res (pre_register s teeInfo hostURL teeID proxyID) ->
    stopped s teeInfo hostURL ftdcTeeURL ftdcTee command st0 teeID proxyID res false false false
| stopped_R :
    due command st0 "R" = true -> fails_with res (RequestTeeAttestation s teeID) ->
    stopped s teeInfo hostURL ftdcTeeURL ftdcTee command st0 teeID proxyID res (due command st0 "r") false false
| stopped_a attestID :
    due command st0 "a" = true ->
    fails_with res (CheckFTDCProxyPolicyConsistency GetCurrentRewardEpochId ftdcTeeURL) \/
    fails_with res (RequestFTDCAvailabilityCheck s teeID ftdcTee attestID) ->
    stopped s teeInfo hostURL ftdcTeeURL ftdcTee command st0 teeID proxyID res (due command st0 "r") (due command st0 "R") false
| stopped_p instructionID :
    Contains command "p" = true -> fails_with res (promotion_step s ftdcTeeURL instructionID) ->
    stopped s teeInfo hostURL ftdcTeeURL ftdcTee command st0 teeID proxyID res
      (due command st0 "r") (due command st0 "R") (due command st0 "a").

Lemma tracked_delete s teeInfo hostURL ftdcTee command path st0 d r R a st d' :
  tracked s teeInfo hostURL ftdcTee command path st0 d r R a st d' -> delete path d' = delete path d.
Proof. intros [_ _ -> _ _ _ _ _]. case_match; [by rewrite delete_insert_eq|done]. Qed.

Lemma ends_unit {A B} (r : result A) (r' : result B) (m : M W bytes) :
  ends r' r -> fails_with r m -> fails_with r' m.
Proof.
  intros [(e & -> & ->)|(p & -> & ->)] (w1 & w2 & q & H & [(e' & He & ->)|(p' & He & ->)]); simplify_eq; eauto.
Qed.
Lemma ends_unit' {A B} (r : result A) (r' : result B) (m : M W unit) :
  ends r' r -> fails_with r m -> fails_with r' m.
Proof.
  intros [(e & -> & ->)|(p & -> & ->)] (w1 & w2 & q & H & [(e' & He & ->)|(p' & He & ->)]); simplify_eq; eauto.
Qed.

(** A bind ends with its first part, or goes on. *)
Lemma bind_ends {S A B} (m : M S A) (k : A -> M S B) x r y :
  (m ≫= k) x = (r, y) ->
  (exists a z, m x = (Ok a, z) /\ k a z = (r, y)) \/ (exists q, m x = (q, y) /\ is_Ok q = false /\ ends r q).
Proof.
  intros [(a & z & H1 & H2)|[(e & H1 & ->)|(p & H1 & ->)]]%M_bind_eq; [left; eauto|right; exists (Err e)|right; exists (Panic p)];
    (split; [done|]); (split; [done|]); [left|right]; eauto.
Qed.

(** The last part of the flow: the promotion and the removal of the file. *)
Lemma finish_eq s ftdcTeeURL command path instructionID (d : disk) (w : W) r d' w' :
  no_faults ->
  ((if Contains command "p" then zoom_snd (promotion_step s ftdcTeeURL instructionID) else mret tt) ;;
   Remove path) (d, w) = (r, (d', w')) ->
  match r with
  | Ok _ => d' = delete path d
  | _ => d' = d /\ Contains command "p" = true /\ fails_with r (promotion_step s ftdcTeeURL instructionID)
  end.
Proof.
  intros Hnf [([] & [d1 w1] & H1 & H)|(q & H1 & Hq & He)]%bind_ends.
  - assert (d1 = d) as ->.
    { destruct (Contains command "p"); [by apply zoom_snd_eq in H1 as (? & _ & [= ->])|by apply mret_eq in H1 as [_ [= ->]]]. }
    destruct (Remove_eq path d w1 Hnf) as [w2 Hr]. rewrite Hr in H. by injection H as <- <- <-.
  - destruct (Contains command "p"); [|by apply mret_eq in H1 as [-> _]].
    apply zoom_snd_eq in H1 as (w1 & H1 & [= -> ->]).
    destruct He as [(e & -> & ->)|(p & -> & ->)]; eauto.
Qed.

Context (s : Support) (teeInfo : SignedTeeInfoResponse) (hostURL ftdcTeeURL : string) (ftdcTee : bytes).
Context (command iid path : string) (d : disk) (Hnf : no_faults).

Local Abbreviation track := (tracked s teeInfo hostURL ftdcTee command path).
Local Abbreviation stop := (stopped s teeInfo hostURL ftdcTeeURL ftdcTee command).

Lemma not_due c st0 : Contains command (letter c) = false -> due command st0 c = false.
Proof. unfold due. by intros ->. Qed.

(** What a run that failed leaves. *)
Definition failed_run (w : W) (r : result unit) (d' : disk) : Prop :=
  (d' = d /\ (ends r (TeeProxyId teeInfo) \/ ends r (fst (loadState path (d, w))))) \/
  exists st0 teeID proxyID did_r did_R did_a st,
    TeeProxyId teeInfo = Ok (teeID, proxyID) /\ fst (loadState path (d, w)) = Ok st0 /\ loads d path st0 /\
    stop st0 teeID proxyID r did_r did_R did_a /\ track st0 d did_r did_R did_a st d'.

Section stages.
Context (w : W) (r : result unit) (d' : disk) (w' : W) (st0 : registrationState) (teeID proxyID : bytes).
Context (Hids : TeeProxyId teeInfo = Ok (teeID, proxyID)) (Hload : fst (loadState path (d, w)) = Ok st0) (Hst : loads d path st0).

Lemma stage_p did_r did_R did_a st d1 w1 id :
  did_r = due command st0 "r" -> did_R = due command st0 "R" -> did_a = due command st0 "a" -> track st0 d did_r did_R did_a st d1 ->
  ((if Contains command "p" then zoom_snd (promotion_step s ftdcTeeURL id) else mret tt) ;; Remove path) (d1, w1) = (r, (d', w')) ->
  match r with Ok _ => d' = delete path d | _ => failed_run w r d' end.
Proof.
  intros -> -> -> Ht H. apply finish_eq in H; [|done]. destruct r as [[]|e|p].
  - subst. by eapply tracked_delete.
  - destruct H as (-> & Hp & Hf). right. do 7 eexists. split_and!; [done..|by eapply stopped_p|done].
  - destruct H as (-> & Hp & Hf). right. do 7 eexists. split_and!; [done..|by eapply stopped_p|done].
Qed.

Lemma stage_a did_r did_R st d1 w1 attestID k :
  did_r = due command st0 "r" -> did_R = due command st0 "R" -> track st0 d did_r did_R false st d1 ->
  (forall st' id d2 w2, track st0 d did_r did_R (due command st0 "a") st' d2 -> k (st', id) (d2, w2) = (r, (d', w')) ->
     match r with Ok _ => d' = delete path d | _ => failed_run w r d' end) ->
  ((if Contains command "a" then availability_step s ftdcTeeURL path teeID ftdcTee attestID st
    else mret (st, savedAvailabilityInstructionID iid st)) ≫= k) (d1, w1) = (r, (d', w')) ->
  match r with Ok _ => d' = delete path d | _ => failed_run w r d' end.
Proof.
  intros Hdr HdR Ht Hk [([st' id] & [d2 w2] & H1 & H)|(q & H1 & Hq & He)]%bind_ends.
  - eapply Hk; [|exact H]. destruct (Contains command "a") eqn:Hc; [by eapply tracked_a|].
    apply mret_eq in H1 as [[= -> ->] [= -> ->]]. by rewrite (not_due _ _ Hc).
  - destruct (Contains command "a") eqn:Hc; [|by apply mret_eq in H1 as [-> _]].
    apply availability_step_eq in H1; [|done].
    assert (d' = d1 /\ Contains (CompletedSteps st) "a" = false /\
      (fails_with r (CheckFTDCProxyPolicyConsistency GetCurrentRewardEpochId ftdcTeeURL) \/
       fails_with r (RequestFTDCAvailabilityCheck s teeID ftdcTee attestID))) as (-> & Hn & Hf).
    { destruct q as [[]|e|p]; [done|..]; destruct H1 as (-> & Hn & Hf); (split; [done|]); (split; [done|]);
        destruct Hf as [Hf|Hf]; [left|right|left|right]; by eauto using ends_unit, ends_unit'. }
    assert (due command st0 "a" = true) as Hdue.
    { unfold due. rewrite Hc. rewrite <- (track_recorded _ _ _ _ _ _ _ _ _ _ _ _ _ "a" Ht), Hn; [done|].
      rewrite Contains_done. by destruct did_r, did_R. }
    assert (failed_run w r d1) as Hfail.
    { right. do 7 eexists. split_and!; [done..| |exact Ht]. subst. by eapply stopped_a. }
    by destruct He as [(e & -> & _)|(p & -> & _)].
Qed.

Lemma stage_R did_r st d1 w1 attestID k :
  did_r = due command st0 "r" -> track st0 d did_r false false st d1 ->
  (forall st' id d2 w2, track st0 d did_r (due command st0 "R") false st' d2 -> k (st', id) (d2, w2) = (r, (d', w')) ->
     match r with Ok _ => d' = delete path d | _ => failed_run w r d' end) ->
  ((if Contains command "R" then attest_step "R" path (RequestTeeAttestation s teeID) st else mret (st, attestID)) ≫= k) (d1, w1)
    = (r, (d', w')) ->
  match r with Ok _ => d' = delete path d | _ => failed_run w r d' end.
Proof.
  intros Hdr Ht Hk [([st' id] & [d2 w2] & H1 & H)|(q & H1 & Hq & He)]%bind_ends.
  - eapply Hk; [|exact H]. destruct (Contains command "R") eqn:Hc; [by eapply tracked_R|].
    apply mret_eq in H1 as [[= -> ->] [= -> ->]]. by rewrite (not_due _ _ Hc).
  - destruct (Contains command "R") eqn:Hc; [|by apply mret_eq in H1 as [-> _]].
    apply attest_step_eq in H1; [|done].
    assert (d' = d1 /\ Contains (CompletedSteps st) "R" = false /\ fails_with r (RequestTeeAttestation s teeID)) as (-> & Hn & Hf).
    { destruct q as [[]|e|p]; [done|..]; destruct H1 as (-> & Hn & Hf); by eauto using ends_unit. }
    assert (due command st0 "R" = true) as Hdue.
    { unfold due. rewrite Hc. rewrite <- (track_recorded _ _ _ _ _ _ _ _ _ _ _ _ _ "R" Ht), Hn; [done|].
      rewrite Contains_done. by destruct did_r. }
    assert (failed_run w r d1) as Hfail.
    { right. do 7 eexists. split_and!; [done..| |exact Ht]. subst. by apply stopped_R. }
    by destruct He as [(e & -> & _)|(p & -> & _)].
Qed.

Lemma stage_r w1 k :
  (forall st' id d2 w2, track st0 d (due command st0 "r") false false st' d2 -> k (st', id) (d2, w2) = (r, (d', w')) ->
     match r with Ok _ => d' = delete path d | _ => failed_run w r d' end) ->
  ((if Contains command "r" then attest_step "r" path (pre_register s teeInfo hostURL teeID proxyID) st0 else mret (st0, zero_hash))
     ≫= k) (d, w1) = (r, (d', w')) ->
  match r with Ok _ => d' = delete path d | _ => failed_run w r d' end.
Proof.
  intros Hk [([st' id] & [d2 w2] & H1 & H)|(q & H1 & Hq & He)]%bind_ends.
  - eapply Hk; [|exact H]. destruct (Contains command "r") eqn:Hc; [by eapply tracked_r|].
    apply mret_eq in H1 as [[= -> ->] [= -> ->]]. rewrite (not_due _ _ Hc). apply tracked_init.
  - destruct (Contains command "r") eqn:Hc; [|by apply mret_eq in H1 as [-> _]].
    apply attest_step_eq in H1; [|done].
    assert (d' = d /\ Contains (CompletedSteps st0) "r" = false /\
      fails_with r (pre_register s teeInfo hostURL teeID proxyID)) as (-> & Hn & Hf).
    { destruct q as [[]|e|p]; [done|..]; destruct H1 as (-> & Hn & Hf); by eauto using ends_unit. }
    assert (failed_run w r d) as Hfail.
    { right. do 7 eexists. split_and!; [done..| |apply tracked_init]. apply stopped_r; [|done]. unfold due. by rewrite Hc, Hn. }
    by destruct He as [(e & -> & _)|(p & -> & _)].
Qed.
End stages.

Lemma RegisterNode_tracked w r d' w' :
  RegisterNode s teeInfo hostURL ftdcTeeURL ftdcTee command iid path (d, w) = (r, (d', w')) ->
  match r with Ok _ => d' = delete path d | _ => failed_run w r d' end.
Proof.
  unfold RegisterNode. intros [([teeID proxyID] & x & Hids & H)|(q & Hids & Hq & He)]%bind_ends;
    apply lift_eq in Hids as [Hids Hx].
  2:{ injection Hx as <- <-. assert (failed_run w r d) as Hf by (left; split; [done|]; left; by rewrite Hids).
      by destruct He as [(e & -> & _)|(p & -> & _)]. }
  subst x. symmetry in Hids.
  apply bind_ends in H as [(st0 & [d1 w1] & Hl & H)|(q & Hl & Hq & He)]; pose proof Hl as Hl'; apply loadState_eq in Hl as [Hd Hst];
    try exact Hnf; simpl in Hd; subst.
  2:{ assert (failed_run w r d) as Hf by (left; split; [done|]; right; by rewrite Hl').
      by destruct He as [(e & -> & _)|(p & -> & _)]. }
  specialize (Hst _ eq_refl). assert (fst (loadState path (d, w)) = Ok st0) as Hload by by rewrite Hl'.
  eapply stage_r; [done..| |exact H]. intros st1 id1 d2 w2 Ht1 H1.
  eapply stage_R; [done..|exact Ht1| |exact H1]. intros st2 id2 d3 w3 Ht2 H2.
  eapply stage_a; [done..|exact Ht2| |exact H2]. intros st3 id3 d4 w4 Ht3 H3.
  eapply stage_p; [done..|exact Ht3|exact H3].
Qed.
End progress.

(** ** Resuming repeats no transaction *)

(** Two managers that differ at most in the transactions of the steps that
    [st] records as completed. *)
Record same_manager {W} (st : registrationState) (M1 M2 : TeeManager W) : Prop := {
  sm_transactor : NewKeyedTransactor (TeeManager := M1) = NewKeyedTransactor (TeeManager := M2);
  sm_get : GetTeeMachine (TeeManager := M1) = GetTeeMachine (TeeManager := M2);
  sm_abi : register_abi (TeeManager := M1) = register_abi (TeeManager := M2);
  sm_pack : register_pack (TeeManager := M1) = register_pack (TeeManager := M2);
  sm_abis : availability_abis (TeeManager := M1) = availability_abis (TeeManager := M2);
  sm_apack : availability_pack (TeeManager := M1) = availability_pack (TeeManager := M2);
  sm_production : ToProduction_tx (TeeManager := M1) = ToProduction_tx (TeeManager := M2);
  sm_epoch : GetCurrentRewardEpochId (TeeManager := M1) = GetCurrentRewardEpochId (TeeManager := M2);
  sm_challenge : ParseTeeAttestationRequested (TeeManager := M1) = ParseTeeAttestationRequested (TeeManager := M2);
  sm_sent : ParseTeeInstructionsSent (TeeManager := M1) = ParseTeeInstructionsSent (TeeManager := M2);
  sm_vrs : TransformSignatureRSVtoVRS (TeeManager := M1) = TransformSignatureRSVtoVRS (TeeManager := M2);
  sm_prove : Unmarshal_ProveResponse (TeeManager := M1) = Unmarshal_ProveResponse (TeeManager := M2);
  sm_header : fdc_DecodeResponse (TeeManager := M1) = fdc_DecodeResponse (TeeManager := M2);
  sm_request : DecodeFTDCTeeAvailabilityCheckRequest (TeeManager := M1)
             = DecodeFTDCTeeAvailabilityCheckRequest (TeeManager := M2);
  sm_response : DecodeFTDCTeeAvailabilityCheckResponse (TeeManager := M1)
              = DecodeFTDCTeeAvailabilityCheckResponse (TeeManager := M2);
  sm_state : Unmarshal_registrationState (TeeManager := M1) = Unmarshal_registrationState (TeeManager := M2);
  sm_register : Contains (CompletedSteps st) "r" = false -> Register (TeeManager := M1) = Register (TeeManager := M2);
  sm_attest : Contains (CompletedSteps st) "r" = false \/ Contains (CompletedSteps st) "R" = false ->
    RequestTeeAttestation_tx (TeeManager := M1) = RequestTeeAttestation_tx (TeeManager := M2);
  sm_availability : Contains (CompletedSteps st) "a" = false ->
    RequestAvailabilityCheckAttestation (TeeManager := M1) = RequestAvailabilityCheckAttestation (TeeManager := M2);
}.

Section resume.
Context {GE : GoEthereum} {RC : RevertCodec} {TL : TeeLib} {W : Type} {EC : EthClient W} {TC : TxClient W}
  {TH : TeeHttp W} {DF : DiskFaults W} (M1 M2 : TeeManager W).
Context (st0 : registrationState) (Hsame : same_manager st0 M1 M2).

Lemma RequestTeeAttestation_same s teeID :
  Contains (CompletedSteps st0) "r" = false \/ Contains (CompletedSteps st0) "R" = false ->
  RequestTeeAttestation (TM := M1) s teeID = RequestTeeAttestation (TM := M2) s teeID.
Proof.
  intros H. unfold RequestTeeAttestation, NewTransactor.
  by rewrite (sm_attest _ _ _ Hsame H), (sm_transactor _ _ _ Hsame), (sm_sent _ _ _ Hsame).
Qed.

Lemma pre_register_same s teeInfo hostURL teeID proxyID :
  Contains (CompletedSteps st0) "r" = false ->
  pre_register (TM := M1) s teeInfo hostURL teeID proxyID = pre_register (TM := M2) s teeInfo hostURL teeID proxyID.
Proof.
  intros H. unfold pre_register, PreRegistration, register_revert_reason, NewTransactor.
  by rewrite (RequestTeeAttestation_same _ _ (or_introl H)), (sm_register _ _ _ Hsame H), (sm_transactor _ _ _ Hsame),
    (sm_sent _ _ _ Hsame), (sm_challenge _ _ _ Hsame), (sm_vrs _ _ _ Hsame), (sm_abi _ _ _ Hsame),
    (sm_pack _ _ _ Hsame), (sm_get _ _ _ Hsame).
Qed.

Lemma RequestFTDC_same s teeID ftdcTee attestID :
  Contains (CompletedSteps st0) "a" = false ->
  RequestFTDCAvailabilityCheck (TM := M1) s teeID ftdcTee attestID
  = RequestFTDCAvailabilityCheck (TM := M2) s teeID ftdcTee attestID.
Proof.
  intros H. unfold RequestFTDCAvailabilityCheck, diagAvailabilityCheckRevert, NewTransactor.
  by rewrite (sm_availability _ _ _ Hsame H), (sm_transactor _ _ _ Hsame), (sm_sent _ _ _ Hsame),
    (sm_abis _ _ _ Hsame), (sm_apack _ _ _ Hsame).
Qed.

Lemma promotion_same s url id : promotion_step (TM := M1) s url id = promotion_step (TM := M2) s url id.
Proof.
  unfold promotion_step, GetFTDCAvailabilityCheckResult, ToProduction, NewTransactor.
  by rewrite (sm_prove _ _ _ Hsame), (sm_header _ _ _ Hsame), (sm_request _ _ _ Hsame), (sm_response _ _ _ Hsame),
    (sm_transactor _ _ _ Hsame), (sm_production _ _ _ Hsame), (sm_get _ _ _ Hsame).
Qed.

Lemma attest_step_same step path req1 req2 st w :
  (Contains (CompletedSteps st) step = false -> req1 = req2) ->
  attest_step (W := W) step path req1 st w = attest_step step path req2 st w.
Proof. unfold attest_step. destruct (Contains _ step); intros H; [done|]. by rewrite H. Qed.

Lemma availability_step_same s url path teeID ftdcTee attestID st w :
  (Contains (CompletedSteps st) "a" = false -> Contains (CompletedSteps st0) "a" = false) ->
  availability_step (TM := M1) s url path teeID ftdcTee attestID st w
  = availability_step (TM := M2) s url path teeID ftdcTee attestID st w.
Proof.
  unfold availability_step. destruct (Contains _ "a"); intros H; [done|].
  by rewrite (RequestFTDC_same _ _ _ _ (H eq_refl)), (sm_epoch _ _ _ Hsame).
Qed.

(** Completing a step forgets none. *)
Lemma attest_step_keeps step path req st w st' id s' c :
  attest_step (W := W) step path req st w = (Ok (st', id), s') ->
  Contains (CompletedSteps st') (letter c) = false -> Contains (CompletedSteps st) (letter c) = false.
Proof.
  unfold attest_step. destruct (Contains (CompletedSteps st) step) eqn:E; intros H Hc.
  - by apply M_bind_Ok in H as (x & w1 & [[= ->] _]%mret_eq & (u & w2 & _ & [[= -> ->] _]%mret_eq)%M_bind_Ok).
  - apply M_bind_Ok in H as (x & w1 & (i & w2 & _ & (u & w3 & _ & [[= ->] _]%mret_eq)%M_bind_Ok)%M_bind_Ok &
      (u' & w4 & _ & [[= -> ->] _]%mret_eq)%M_bind_Ok).
    cbn in Hc. rewrite Contains_letter_app in Hc. by apply orb_false_iff in Hc as [? _].
Qed.
End resume.

(** ** A concrete registration, for witnesses *)

#[export] Instance ref_teelib : TeeLib := {|
  Decode_TeeInfo _ := Ok (mkTeeInfoResponse (mkTeeInfoData ([], []) 114 7 []) []
    (mkMachineData [] [] [] [] ([], []) []) (zero_bytes 65) []);
  Decode_ActionResponse b := Ok (mkActionResponse b 1 zero_hash zero_hash "" "" []);
  ParsePubKey p := Ok (fst p);
  PubkeyToAddress k := copy_to 20 k;
  TeeInfo_Hash _ := Ok zero_hash;
  ProxyTeeInfo_Hash _ h := Ok h;
  accounts_TextHash h := h;
  common_HexToHash _ := zero_hash;
  crypto_SigToPub h _ := Ok h;
  attestation_claims _ := Err (Plain "no token");
|}.

#[export] Instance ref_revert : RevertCodec := {|
  abi_UnpackRevert _ := None;
  common_FromHex s := match hex_decode (TrimPrefix s "0x") with Some l => l | None => [] end;
|}.

(** A world with one counter, which each mined transaction moves. *)
#[export] Instance ref_eth : EthClient Z := {|
  CodeAt _ _ _ := fun w => (Ok [], w);
  StorageAt _ _ _ _ := fun w => (Ok [], w);
  CallContract _ _ _ := fun w => (Err (Plain "execution reverted"), w);
|}.
#[export] Instance ref_tx : TxClient Z := {|
  WaitMined _ _ := fun w => (Ok (mkReceipt 1 [mkLog [] (be_bytes 32 (w + 1)); mkLog [] []] []), w + 1);
  TransactionByHash h := fun w => (Ok (mkTx h None 0 None None []), w);
  types_Sender _ := Ok zero_address;
|}.
#[export] Instance ref_http : TeeHttp Z := {|
  http_Get _ := fun w => (Ok (200, []), w);
  time_Sleep _ w := w;
|}.
#[export] Instance ref_faults : DiskFaults Z := {|
  read_fault _ w := (None, w);
  write_fault _ _ w := (None, w);
  remove_fault _ w := (None, w);
|}.

Definition w_tx : Transaction := mkTx [] None 0 None None [].
Definition w_state : registrationState := mkRegState "r" (be_bytes 32 1) zero_hash.

(** A manager given by the answers of its three requests; the state files it
    reads hold [w_state]. *)
Definition ref_manager (register attest availability : result Transaction) : TeeManager Z := {|
  NewKeyedTransactor _ := Ok tt;
  GetTeeMachine id := fun w => (Ok zero_address, w);
  Register _ _ _ _ _ _ := fun w => (register, w);
  register_abi := None;
  register_pack _ _ _ _ _ := None;
  availability_abis := [];
  availability_pack _ _ _ _ _ := Ok [];
  RequestTeeAttestation_tx _ _ _ := fun w => (attest, w);
  RequestAvailabilityCheckAttestation _ _ _ _ _ _ := fun w => (availability, w);
  ToProduction_tx _ _ := fun w => (Ok w_tx, w);
  AddTeeVersion_tx _ _ _ _ _ := fun w => (Ok w_tx, w);
  GetCurrentRewardEpochId := fun w => (Ok (Some 7), w);
  ParseTeeAttestationRequested _ := Ok [];
  ParseTeeInstructionsSent l := Ok (log_Data l);
  TransformSignatureRSVtoVRS b := Ok b;
  Unmarshal_ProveResponse _ := Ok (mkProveResponse [] [] [] []);
  fdc_DecodeResponse b := Ok b;
  DecodeFTDCTeeAvailabilityCheckRequest _ := Ok (mkRequestBody zero_address []);
  DecodeFTDCTeeAvailabilityCheckResponse _ := Ok (mkResponseBody 0 0 [] [] 0 0 []);
  Unmarshal_registrationState _ := Ok w_state;
|}.

Definition w_support : Support := mkSupport (zero_bytes 20) (zero_bytes 20).
Definition w_info : SignedTeeInfoResponse :=
  match Decode_TeeInfo [] with Ok i => i | _ => mkTeeInfoResponse (mkTeeInfoData ([], []) 0 0 []) [] (mkMachineData [] [] [] [] ([], []) []) [] [] end.
Definition w_register (M : TeeManager Z) (command : string) (d : disk) : result unit * (disk * Z) :=
  RegisterNode (TM := M) w_support w_info "http://host" "http://ftdc" (zero_bytes 20) command "" "state" (d, 0).

(** A first run that stops at step R, and a second one that goes on. *)
Definition w_stops : TeeManager Z := ref_manager (Ok w_tx) (Err (Plain "nonce too low")) (Ok w_tx).
Definition w_works : TeeManager Z := ref_manager (Ok w_tx) (Ok w_tx) (Ok w_tx).
Definition w_disk : disk := fst (snd (w_register w_stops "rRap" ∅)).

Example w_stopped : fst (w_register w_stops "rRap" ∅) = Err (Plain "error: nonce too low").
Proof. vm_compute. reflexivity. Qed.
Example w_saved : w_disk = <["state" := marshal_state w_state]> ∅.
Proof. vm_compute. reflexivity. Qed.
Example w_resumed : w_register w_works "rRap" w_disk = (Ok tt, (∅, 3)).
Proof. vm_compute. reflexivity. Qed.

(** ** Polling *)
Section polling.
Context {TL : TeeLib} {W : Type} {TH : TeeHttp W}.

(** [polled url n w body w']: from [w], the first [n] requests fail or have
    another status, and the next one gives [body] with status 200. *)
Inductive polled (url : string) : nat -> W -> bytes -> W -> Prop :=
| polled_now w body w' : http_Get url w = (Ok (200, body), w') -> polled url 0 w body w'
| polled_later n w r w1 body w' :
    http_Get url w = (r, w1) -> (forall p, r <> Panic p) -> (forall b, r <> Ok (200, b)) ->
    polled url n (time_Sleep 2000 w1) body w' -> polled url (S n) w body w'.

Lemma poll_step k url last w r w1 :
  http_Get url w = (r, w1) -> (forall p, r <> Panic p) -> (forall b, r <> Ok (200, b)) ->
  poll (S k) url last w = poll k url r (time_Sleep 2000 w1).
Proof.
  intros Hg Hp Hb. cbn [poll]. unfold mbind at 1, M_bind at 1, attempt. rewrite Hg.
  destruct r as [[st b]|e|p]; [|done|by destruct (Hp p)].
  destruct (Z.eqb_spec st StatusOK) as [->|]; [by destruct (Hb b)|done].
Qed.

Lemma poll_now k url last w b w1 :
  http_Get url w = (Ok (200, b), w1) -> poll (S k) url last w = (Ok (Ok (200, b)), w1).
Proof. intros Hg. cbn [poll]. unfold mbind at 1, M_bind at 1, attempt. by rewrite Hg. Qed.

Lemma poll_polled n k url last w body w' :
  polled url n w body w' -> (n < k)%nat -> poll k url last w = (Ok (Ok (200, body)), w').
Proof.
  intros H. revert k last. induction H as [w body w' Hg|n w r w1 body w' Hg Hp Hb _ IH]; intros k last Hk;
    destruct k as [|k]; try lia; [by apply poll_now|].
  rewrite (poll_step _ _ _ _ r w1) by done. apply IH. lia.
Qed.

Lemma poll_ok k url last w body w' :
  (forall b, last <> Ok (200, b)) -> poll k url last w = (Ok (Ok (200, body)), w') ->
  exists n, (n < k)%nat /\ polled url n w body w'.
Proof.
  revert last w. induction k as [|k IH]; intros last w Hl H; [by apply mret_eq in H as [[= <-] _]; destruct (Hl body)|].
  destruct (http_Get url w) as [r w1] eqn:Hg.
  destruct r as [[st b]|e|p].
  - destruct (decide (st = 200)) as [->|Hst].
    + rewrite (poll_now _ _ _ _ b w1) in H by done. injection H as <- <-. exists 0%nat. split; [lia|by constructor].
    + rewrite (poll_step _ _ _ _ (Ok (st, b)) w1) in H; [|done|done|intros ? [= ? _]; done].
      apply IH in H as (n & Hn & Hp); [|intros ? [= ? _]; done].
      exists (S n). split; [lia|]. econstructor; [exact Hg|done|intros ? [= ? _]; done|done].
  - rewrite (poll_step _ _ _ _ (Err e) w1) in H; [|done..]. apply IH in H as (n & Hn & Hp); [|done].
    exists (S n). split; [lia|]. by econstructor.
  - cbn [poll] in H. unfold mbind at 1, M_bind at 1, attempt in H. by rewrite Hg in H.
Qed.
End polling.

(** ** Reverts *)

Lemma TrimPrefix_hex l : TrimPrefix (hex_encode l) "0x" = hex_encode l.
Proof.
  unfold TrimPrefix. destruct (HasPrefix (hex_encode l) "0x") eqn:E; [|done].
  apply HasPrefix_inv in E. pose proof (hex_decode_encode l) as H. rewrite E in H. done.
Qed.

(** The text for an error that matches. *)
Definition named_error (e : AbiError) (data : bytes) : string :=
  match ae_Unpack e data with
  | Some argStr =>
    if negb (String.eqb argStr "[]") && negb (String.eqb argStr "<nil>") then ae_Name e +:+ argStr else ae_Name e
  | None => ae_Name e
  end.

Definition selector (e : AbiError) : bytes := take 4 (ae_ID e).

Lemma match_selector_unique errs e data :
  NoDup (selector <$> errs) -> e ∈ errs -> selector e = take 4 data -> match_selector errs data = named_error e data.
Proof.
  unfold selector. intros Hnd He Hs. induction errs as [|x errs IH]; [by apply not_elem_of_nil in He|].
  cbn [match_selector]. rewrite fmap_cons in Hnd. apply NoDup_cons in Hnd as [Hx Hnd].
  case_bool_decide as Hd; simpl.
  - apply elem_of_cons in He as [->|He]; [done|]. destruct Hx. rewrite Hd, <- Hs. apply list_elem_of_fmap. eauto.
  - apply elem_of_cons in He as [->|He]; [done|]. by apply IH.
Qed.

(** ** Governance *)

(** A transaction that was sent and mined without failing. *)
Definition mined {W} {TC : TxClient W} (send : M W Transaction) : Prop :=
  exists tx receipt w1 w2 w3 w4, send w1 = (Ok tx, w2) /\
    WaitMined [120000] tx w3 = (Ok receipt, w4) /\ rc_Status receipt <> 0.

Lemma on_err_Ok {W A} pre (m : M W A) w a w' : on_err pre m w = (Ok a, w') <-> m w = (Ok a, w').
Proof.
  unfold on_err. rewrite on_error_eq. split.
  - intros [(x & w1 & H & [[= ->] ->]%mret_eq)|[(e & w1 & _ & [[=] _]%lift_eq)|(p & _ & [=])]]. done.
  - intros H. left. eauto.
Qed.
#[export] Hint Rewrite @on_err_Ok : go.

(** ** Properties *)

(** C28. On a disk without faults, the state file tracks the progress of a
    registration. A run that succeeds deletes it and touches nothing else. A
    run that fails before it has loaded the state leaves the disk as it was;
    one that fails, or panics, later does so in a step that was due, and all
    requests that were due before that step - asked for and not recorded -
    succeeded. If there are any, the file holds the letters loaded followed by
    theirs, in order, with the ids that the chain gave and the others as they
    were loaded, and it reads back as the state to resume from; else the disk
    is as it was. *)
Theorem registration_tracks_progress {RC : RevertCodec} {TL : TeeLib} {W} {EC : EthClient W} {TC : TxClient W}
    {TH : TeeHttp W} {TM : TeeManager W} {DF : DiskFaults W}
    s teeInfo hostURL ftdcTeeURL ftdcTee command iid path (d : disk) (w : W) r d' w' :
  no_faults (W := W) ->
  RegisterNode s teeInfo hostURL ftdcTeeURL ftdcTee command iid path (d, w) = (r, (d', w')) ->
  (r = Ok tt -> d' = delete path d) /\
  (is_Ok r = false ->
    (d' = d /\ (ends r (TeeProxyId teeInfo) \/ ends r (fst (loadState path (d, w))))) \/
    exists st0 teeID proxyID did_r did_R did_a st,
      TeeProxyId teeInfo = Ok (teeID, proxyID) /\ fst (loadState path (d, w)) = Ok st0 /\ loads (W := W) d path st0 /\
      stopped (W := W) s teeInfo hostURL ftdcTeeURL ftdcTee command st0 teeID proxyID r did_r did_R did_a /\
      tracked (W := W) s teeInfo hostURL ftdcTee command path st0 d did_r did_R did_a st d' /\
      ((did_r || did_R || did_a)%bool = true -> Unmarshal_registrationState (W := W) (marshal_state st) = Ok st ->
       loads (W := W) d' path st)).
Proof.
  intros Hnf H. apply RegisterNode_tracked in H; [|done]. split; [by intros ->|]. intros Hr.
  assert (failed_run (W := W) s teeInfo hostURL ftdcTeeURL ftdcTee command path d w r d') as Hf by by destruct r.
  destruct Hf as [?|(st0 & teeID & proxyID & did_r & did_R & did_a & st & H1 & H2 & H3 & H4 & Ht)]; [by left|]. right.
  exists st0, teeID, proxyID, did_r, did_R, did_a, st. split_and!; try done. intros Hany Hcodec.
  destruct Ht as [_ _ Hd _ _ _ _ _]. rewrite Hany in Hd. subst. right. exists (marshal_state st). split; [|done].
  apply lookup_insert_eq.
Qed.

Lemma ref_no_faults : no_faults (W := Z).
Proof. by split. Qed.

(** The run that stops at step R: it had made the request of step r. *)
Theorem registration_tracks_progress_witness :
  let r := fst (w_register w_stops "rRap" ∅) in
  (r = Ok tt -> w_disk = delete "state" ∅) /\
  (is_Ok r = false ->
    (w_disk = ∅ /\ (ends r (TeeProxyId w_info) \/ ends r (fst (loadState (TM := w_stops) "state" (∅, 0))))) \/
    exists st0 teeID proxyID did_r did_R did_a st,
      TeeProxyId w_info = Ok (teeID, proxyID) /\ fst (loadState (TM := w_stops) "state" (∅, 0)) = Ok st0 /\
      loads (TM := w_stops) ∅ "state" st0 /\
      stopped (TM := w_stops) w_support w_info "http://host" "http://ftdc" (zero_bytes 20) "rRap" st0 teeID proxyID r did_r did_R did_a /\
      tracked (TM := w_stops) w_support w_info "http://host" (zero_bytes 20) "rRap" "state" st0 ∅ did_r did_R did_a st w_disk /\
      ((did_r || did_R || did_a)%bool = true ->
       Unmarshal_registrationState (TeeManager := w_stops) (marshal_state st) = Ok st ->
       loads (TM := w_stops) w_disk "state" st)).
Proof.
  apply (registration_tracks_progress (TM := w_stops) w_support w_info "http://host" "http://ftdc" (zero_bytes 20)
           "rRap" "" "state" ∅ 0 (fst (w_register w_stops "rRap" ∅)) w_disk 1 ref_no_faults).
  vm_compute. reflexivity.
Defined.

(** C29. A resumed registration repeats no transaction: when the state that is
    read records a step, the run is the same whatever that step's request
    would do. (The attestation request serves both r and R, so it is spared
    when both are recorded.) *)
Theorem resume_never_repeats {RC : RevertCodec} {TL : TeeLib} {W} {EC : EthClient W} {TC : TxClient W}
    {TH : TeeHttp W} {DF : DiskFaults W} (M1 M2 : TeeManager W) st0
    s teeInfo hostURL ftdcTeeURL ftdcTee command iid path (d : disk) (w : W) s1 :
  loadState (TM := M1) path (d, w) = (Ok st0, s1) ->
  same_manager st0 M1 M2 ->
  RegisterNode (TM := M1) s teeInfo hostURL ftdcTeeURL ftdcTee command iid path (d, w)
  = RegisterNode (TM := M2) s teeInfo hostURL ftdcTeeURL ftdcTee command iid path (d, w).
Proof.
  intros Hload Hsame. unfold RegisterNode.
  apply M_bind_cong; [done|]. intros [teeID proxyID] x [_ <-]%lift_eq.
  apply M_bind_cong; [unfold loadState; by rewrite (sm_state _ _ _ Hsame)|].
  intros st x Hl. rewrite Hload in Hl. injection Hl as <- <-.
  apply M_bind_cong.
  { destruct (Contains command "r"); [|done]. apply attest_step_same. intros Hr.
    by apply (pre_register_same M1 M2 st0). }
  intros [st1 id1] x H1. apply M_bind_cong.
  { destruct (Contains command "R"); [|done]. apply attest_step_same. intros HR.
    apply (RequestTeeAttestation_same M1 M2 st0); [done|]. right.
    destruct (Contains command "r"); [by eapply attest_step_keeps in H1|by apply mret_eq in H1 as [[= -> _] _]]. }
  intros [st2 id2] x2 H2. apply M_bind_cong.
  { destruct (Contains command "a"); [|done]. apply (availability_step_same M1 M2 st0); [done|]. intros Ha.
    assert (Ha1 : Contains (CompletedSteps st1) "a" = false)
      by (destruct (Contains command "R"); [by eapply attest_step_keeps in H2|by apply mret_eq in H2 as [[= -> _] _]]).
    destruct (Contains command "r"); [by eapply attest_step_keeps in H1|by apply mret_eq in H1 as [[= -> _] _]]. }
  intros [st3 id3] x3 _. apply M_bind_cong; [|done].
  destruct (Contains command "p"); [|done]. by rewrite (promotion_same M1 M2 st0).
Qed.

(** The registration of the stopped run is done: asking for it again would
    panic here, and the resumed run does not ask. *)
Theorem resume_never_repeats_witness :
  w_register w_works "rRap" w_disk = w_register (ref_manager (Panic "twice") (Ok w_tx) (Ok w_tx)) "rRap" w_disk.
Proof.
  apply (resume_never_repeats w_works (ref_manager (Panic "twice") (Ok w_tx) (Ok w_tx)) w_state w_support w_info
           "http://host" "http://ftdc" (zero_bytes 20) "rRap" "" "state" w_disk 0 (w_disk, 0)).
  - vm_compute. reflexivity.
  - constructor; try reflexivity. intros H. vm_compute in H. discriminate H.
Defined.

(** C30. The policy gate blocks a registration exactly on a confirmed mismatch:
    both lookups answered, and the proxy's policy is neither the current
    reward epoch nor the next one; its error is [ErrPolicyOutOfSync] for
    [errors.Is]. A lookup that fails never blocks. *)
Theorem policy_gate_confirmed {TL : TeeLib} {W} {TH : TeeHttp W} (onchain : M W bigint) url (w w' : W) e :
  CheckFTDCProxyPolicyConsistency onchain url w = (Err e, w') <->
  exists n info w1, onchain w = (Ok (Some n), w1) /\ TeeInfo url w1 = (Ok info, w') /\
    let epoch := uint64 (Z.abs n) in
    let policy := uint64 (ti_LastSigningPolicyID (TeeInfo_ info)) in
    policy <> epoch /\ policy <> uint64 (epoch + 1) /\ e = outOfSyncError epoch policy /\
    errors_Is e ErrPolicyOutOfSync = true.
Proof.
  unfold CheckFTDCProxyPolicyConsistency. split.
  - intros H. run_in H. case_in H; go_inv. run_in H. unfold policyInSync in *.
    do 3 eexists. split; [done|]. split; [done|]. to_prop. destruct_or?; destruct_and?; to_prop. done.
  - intros (n & info & w1 & H1 & H2 & Hne & Hne1 & -> & _). cbn zeta in *.
    unfold on_error. rewrite H1, H2. unfold policyInSync.
    apply Z.eqb_neq in Hne as ->. apply Z.eqb_neq in Hne1 as ->. done.
Qed.

(** Polling for a result returns the first answer with status 200 among
    fifteen, and only such an answer: later ones are not asked for, and the
    result is what the decoder makes of its body. *)
Theorem ActionResult_first_answer {TL : TeeLib} {W} {TH : TeeHttp W} nodeURL actionID (w : W) a w' :
  ActionResult nodeURL actionID w = (Ok a, w') <->
  exists n body, (n < 15)%nat /\ polled (nodeURL +:+ "/action/result/0x" +:+ hex_encode actionID) n w body w' /\
    Decode_ActionResponse body = Ok a.
Proof.
  unfold ActionResult. cbn zeta. split.
  - intros (r & w1 & Hp & H)%M_bind_Ok.
    apply on_error_eq in H as [([st body] & w2 & [-> <-]%lift_eq & H)|[(e & w2 & _ & H)|(p & _ & H)]];
      [|by apply lift_eq in H as [[=] _]|done].
    destruct (Z.eqb_spec st StatusOK) as [->|]; cbn [negb] in H; [|by apply lift_eq in H as [[=] _]].
    apply on_err_Ok, lift_eq in H as [Hd ->].
    apply poll_ok in Hp as (n & Hn & Hp); [|done]. eauto.
  - intros (n & body & Hn & Hp & Hd). apply M_bind_Ok.
    eexists _, _. split; [eapply poll_polled; [exact Hp|exact Hn]|].
    unfold on_err, on_error, lift. cbn. by rewrite Hd.
Qed.

(** A custom error survives the two decoders of the tools: a revert that
    is no [Error(string)] reads as its hex, and the name that is found for
    the hex is that of the error with the selector, in whatever order the
    errors of the ABI are visited. *)
Theorem revert_custom_error_named {RC : RevertCodec} errs errs' e data :
  NoDup (selector <$> errs) -> errs' ≡ₚ errs -> e ∈ errs -> selector e = take 4 data -> 4 <= llen data ->
  abi_UnpackRevert data = None ->
  decodeRevertHex (hex_encode data) = "0x" +:+ hex_encode data /\
  MatchCustomError errs' (decodeRevertHex (hex_encode data)) = named_error e data.
Proof.
  intros Hnd Hp He Hs Hlen Hu.
  assert (Hd : decodeRevertHex (hex_encode data) = "0x" +:+ hex_encode data).
  { unfold decodeRevertHex. rewrite TrimPrefix_hex, hex_decode_encode, Hu. destruct (Z.ltb_spec (llen data) 4); [lia|done]. }
  split; [done|]. rewrite Hd. unfold MatchCustomError. rewrite TrimPrefix_app, hex_decode_encode.
  destruct (Z.ltb_spec (llen data) 4); [lia|].
  apply match_selector_unique; [by rewrite Hp|by rewrite Hp|done].
Qed.

Definition w_abi_error (name id : string) : AbiError := mkAbiError name (hex_const id) (fun _ => Some "[7]").

Theorem revert_custom_error_named_witness :
  decodeRevertHex (hex_encode (hex_const "deadbeef07")) = "0x" +:+ hex_encode (hex_const "deadbeef07") /\
  MatchCustomError [w_abi_error "Bad" "deadbeef"; w_abi_error "Other" "01020304"]
    (decodeRevertHex (hex_encode (hex_const "deadbeef07")))
  = named_error (w_abi_error "Bad" "deadbeef") (hex_const "deadbeef07").
Proof.
  apply (revert_custom_error_named [w_abi_error "Other" "01020304"; w_abi_error "Bad" "deadbeef"]
           [w_abi_error "Bad" "deadbeef"; w_abi_error "Other" "01020304"]).
  - apply (bool_decide_unpack _). vm_compute. exact I.
  - apply Permutation_swap.
  - right. left.
  - vm_compute. reflexivity.
  - vm_compute. discriminate.
  - reflexivity.
Defined.

(** A governance setup that reports success did its work: the threshold fits
    the signers, and either the chain already held their hash, or the
    transaction that registers them was mined and did not fail. *)
Lemma SetTeeGovernance_did {RC : RevertCodec} {W} {EC : EthClient W} {TC : TxClient W} {TM : TeeManager W}
    {ER : ExtensionRegistry W} key extensionId signers threshold (w w' : W) :
  SetTeeGovernance key extensionId signers threshold w = (Ok tt, w') ->
  threshold <> 0 /\ threshold <= llen signers /\
  exists hash, types_GovernanceHash (W := W) signers threshold = Ok hash /\
    (GetLatestTeeGovernanceHash extensionId w = (Ok hash, w') \/
     mined (SetNewTeeGovernance (mkOpts key None) extensionId signers threshold)).
Proof.
  unfold SetTeeGovernance.
  destruct (Z.eqb_spec (llen signers) 0); [by intros [[=] _]%lift_eq|].
  destruct ((threshold =? 0) || (uint64 (llen signers) <? threshold))%bool eqn:E; [by intros [[=] _]%lift_eq|].
  to_prop. intros (hash & w1 & Hhash & Hrun)%M_bind_Ok. apply on_err_Ok, lift_eq in Hhash as [Hh <-].
  split; [done|]. split.
  { assert (uint64 (llen signers) <= llen signers); [|lia]. apply Z.mod_le; unfold llen; lia. }
  exists hash. split; [done|].
  apply M_bind_Ok in Hrun as (cur & w2 & Hc & Hrun). unfold attempt in Hc.
  destruct (GetLatestTeeGovernanceHash extensionId w) as [r w3] eqn:Hg.
  destruct (match cur with Ok h => bool_decide (h = hash) | _ => false end) eqn:Hcur.
  - left. destruct cur as [h|e|p]; [|done..]. to_prop. subst. apply mret_eq in Hrun as [_ ->].
    destruct r; [|simplify_eq..|done]. by simplify_eq.
  - right. apply M_bind_Ok in Hrun as (opts & w4 & Ho & Hrun). unfold NewTransactor in Ho.
    apply M_bind_Ok in Ho as (u & w5 & _ & [[= ->] ->]%mret_eq).
    apply M_bind_Ok in Hrun as (tx & w6 & Htx%on_err_Ok & Hrun). apply M_bind_Ok in Hrun as (rc & w7 & Hrc%on_err_Ok & _).
    apply CheckTx_ok in Hrc as [Hw Hst]. by do 6 eexists.
Qed.

Definition ref_registry : ExtensionRegistry Z := {|
  Registry_Register _ _ _ := fun w => (Ok w_tx, w);
  ParseTeeExtensionRegistered _ := Ok (Some 3);
  ParseTeeExtensionContractsSet _ := Ok [];
  ext_IsAllowedTeeMachineOwner _ _ := fun w => (Ok true, w);
  AddAllowedTeeMachineOwners _ _ _ := fun w => (Ok w_tx, w);
  ParseAllowedTeeMachineOwnersAdded _ := Ok [];
  IsAllowedTeeWalletProjectOwner _ _ := fun w => (Ok false, w);
  AddAllowedTeeWalletProjectOwners _ _ _ := fun w => (Ok w_tx, w);
  ParseAllowedTeeWalletProjectOwnersAdded _ := Ok [];
  ext_IsKeyTypeSupported _ _ := fun w => (Ok true, w);
  AddSupportedKeyTypes_tx _ _ _ := fun w => (Ok w_tx, w);
  wallets_EVMType := zero_hash;
  types_GovernanceHash _ _ := Ok (be_bytes 32 5);
  GetLatestTeeGovernanceHash _ := fun w => (Ok zero_hash, w);
  SetNewTeeGovernance _ _ _ _ := fun w => (Ok w_tx, w);
|}.

(** A setup that skips what the chain already has. *)
Example w_setup :
  SetupExtension (TM := w_works) (ER := ref_registry) w_support zero_address zero_address 0 = (Ok (Some 3), 2).
Proof. vm_compute. reflexivity. Qed.
