(* ===== verification/Instructions.v ===== *)
(** * Support and instructions (tools/pkg/support/support.go, tools/pkg/utils)

    The deployer's key and addresses, the deployment of the two contracts,
    their extension id, and the two instructions of the sample extension. *)

From S2P Require Import Prelude GoStd GoEth Bundle Checks Revert TeeCalls Registration.

(** ** support.go *)

(** Keys, and the files and connections of [DefaultSupport]. *)
Class SupportEnv (W : Type) := {
  crypto_HexToECDSA : string -> result bytes;
  godotenv_Load : W -> option error * W;
  os_ReadFile : string -> M W bytes;
  Unmarshal_Addresses : bytes -> result (bytes * bytes * bytes);
  Unmarshal_RawContracts : bytes -> result (list (string * string));
  ethclient_Connect : string -> M W unit;
  bind_contract : string -> bytes -> result unit;
}.

(** [FlareTeeManager] is the diamond of every TEE facet. *)
Record Addresses := mkAddresses {
  ad_FlareSystemManager : bytes;
  ad_Fdc2Hub : bytes;
  ad_FlareTeeManager : bytes;
}.

Definition no_addresses : Addresses := mkAddresses zero_address zero_address zero_address.

(** One entry of the raw file: its name and its address. *)
Record RawContract := mkRawContract { rawc_Name : string; rawc_Address : string }.

(** The JSON name of each address field, and the assignment to it. *)
Definition fieldMap : list (string * (bytes -> Addresses -> Addresses)) :=
  [("FlareSystemsManager", fun a d => mkAddresses a (ad_Fdc2Hub d) (ad_FlareTeeManager d));
   ("Fdc2Hub", fun a d => mkAddresses (ad_FlareSystemManager d) a (ad_FlareTeeManager d));
   ("FlareTeeManager", fun a d => mkAddresses (ad_FlareSystemManager d) (ad_Fdc2Hub d) a)].

(** [s[2:]] when the text starts with 0x or 0X. *)
Definition strip_0x (s : string) : string :=
  if HasPrefix s "0x" || HasPrefix s "0X" then drop_string 2 s else s.

Definition hardhat_key : string := "804b01a8c27a65cc694a867be76edae3ccce7a7161cda1f67a8349df696d2207".

(** ** The contract bindings *)

(** The generated bindings of the two contracts. [_pack] is the call data of a
    method, when the ABI and the packing give one. *)
Class SenderBindings (W : Type) := {
  DeployHelloWorldInstructionSender : TransactOpts -> bytes -> bytes -> M W (bytes * Transaction);
  NewHelloWorldInstructionSender : bytes -> result unit;
  HelloWorld_SetExtensionId : bytes -> TransactOpts -> M W Transaction;
  HelloWorld_SendSayHello : bytes -> TransactOpts -> bytes -> M W Transaction;
  HelloWorld_SendSayGoodbye : bytes -> TransactOpts -> string -> string -> M W Transaction;
  HelloWorld_pack : string -> list abi_value -> option bytes;
  DeployWorkProofEscrow_tx : TransactOpts -> bytes -> bytes -> bytes -> Z -> M W (bytes * Transaction);
  NewWorkProofEscrow : bytes -> result unit;
  Escrow_SetExtensionId : bytes -> TransactOpts -> M W Transaction;
  Escrow_pack : string -> list abi_value -> option bytes;
}.

Section Instructions.
Context {GE : GoEthereum} {RC : RevertCodec} {TL : TeeLib} {W : Type} {EC : EthClient W} {TC : TxClient W}
  {TM : TeeManager W} {HO : Host W} {SE : SupportEnv W} {SB : SenderBindings W}.

(** [configs.PrvWithFunds], which the initialisation of its package reads. *)
Definition PrvWithFunds : result bytes :=
  match crypto_HexToECDSA (W := W) hardhat_key with
  | Ok k => Ok k
  | _ => Panic "cannot read privateKey with funds"
  end.

(** [DefaultPrivateKey] after the .env file is loaded. *)
Definition deployment_key : M W bytes :=
  privKeyString ← Getenv "DEPLOYMENT_PRIVATE_KEY";
  if String.eqb privKeyString "" then lift PrvWithFunds
  else on_err "" (lift (crypto_HexToECDSA (W := W) (strip_0x privKeyString))).

Definition DefaultPrivateKey : M W bytes :=
  _e ← total godotenv_Load;
  deployment_key.

(** The loop of [ParseAddresses] and its lookup in the field map. *)
Definition set_address (addrs : Addresses) (c : RawContract) : Addresses :=
  match list_find (fun kv => fst kv = rawc_Name c) fieldMap with
  | Some (_, (_, dest)) => dest (HexToAddress (rawc_Address c)) addrs
  | None => addrs
  end.

Definition ParseAddresses (filePath : string) : M W Addresses :=
  file ← os_ReadFile filePath;
  raw ← lift (Unmarshal_RawContracts (W := W) file);
  mret (foldl set_address no_addresses ((fun '(n, a) => mkRawContract n a) <$> raw)).

(** [configs.ReadAddresses]. *)
Definition ReadAddresses (filePath : string) : M W Addresses :=
  file ← os_ReadFile filePath;
  a ← lift (Unmarshal_Addresses (W := W) file);
  let '(fsm, hub, ftm) := a in mret (mkAddresses fsm hub ftm).

(** The facets that [NewSupport] binds, with their addresses, in its order. *)
Definition facets (addresses : Addresses) : list (string * bytes) :=
  let diamond := ad_FlareTeeManager addresses in
  [("MachineManager", diamond); ("WalletManager", diamond); ("WalletKeyManager", diamond);
   ("WalletProjectManager", diamond); ("FlareSystemsManager", ad_FlareSystemManager addresses);
   ("Fdc2Hub", ad_Fdc2Hub addresses); ("Verification", diamond); ("ExtensionManager", diamond);
   ("OwnerAllowlist", diamond); ("ExtensionGovernance", diamond)].

Fixpoint bind_all (l : list (string * bytes)) : result unit :=
  match l with
  | [] => Ok tt
  | (name, addr) :: l => bind_contract (W := W) name addr ;; bind_all l
  end.

Definition NewSupport (prv : bytes) (addresses : Addresses) : M W Support :=
  lift (bind_all (facets addresses)) ;;
  _chainID ← ChainID [];
  mret (mkSupport prv (ad_FlareTeeManager addresses)).

Definition DefaultSupport (AddressesFilePath chainNodeURL : string) : M W Support :=
  addr ← on_error (ReadAddresses AddressesFilePath) (fun _ => on_err "" (ParseAddresses AddressesFilePath)) mret;
  on_err "" (ethclient_Connect chainNodeURL) ;;
  privKey ← DefaultPrivateKey;
  NewSupport privKey addr.

(** ** instructions.go and workproof.go *)

Definition transactor (key : bytes) (value : bigint) : M W TransactOpts :=
  _t ← on_err "failed to create transactor: " (lift (NewKeyedTransactor (W := W) key)); mret (mkOpts key value).

Definition status_ok (r : Receipt) : bool := rc_Status r =? 1.

(** The deployment of a contract: the shape of both [Deploy] functions. *)
Definition deploy_contract (s : Support) (send : TransactOpts -> M W (bytes * Transaction)) : M W bytes :=
  opts ← transactor (Prv s) None;
  d ← on_err "failed to deploy contract: " (send opts);
  let '(address, tx) := d in
  receipt ← on_err ("deployment tx not mined within 2 minutes (tx: 0x" +:+ hex_encode (tx_Hash tx) +:+ "): ")
              (WaitMined [120000] tx);
  if status_ok receipt then mret address else lift (Err (Plain "contract deployment failed")).

Definition DeployInstructionSender (s : Support) : M W bytes :=
  deploy_contract s (fun opts => DeployHelloWorldInstructionSender opts (FlareTeeManager s) (FlareTeeManager s)).

Definition DeployWorkProofEscrow (s : Support) (treasury : bytes) (protocolFeeBps : Z) : M W bytes :=
  deploy_contract s (fun opts => DeployWorkProofEscrow_tx opts (FlareTeeManager s) (FlareTeeManager s) treasury protocolFeeBps).

(** The reason of a call that failed: the replay of its call data, when there
    is any. *)
Definition replay_reason (s : Support) (to : bytes) (value : bigint) (callData : option bytes) : M W string :=
  match callData with
  | Some data => SimulateAndDecodeRevert (PubkeyToAddress (Prv s)) to value data
  | None => mret ""
  end.

(** The error of a transaction that could not be sent. *)
Definition send_failed {A} (what : string) (s : Support) (to : bytes) (value : bigint) (callData : option bytes)
    (err : error) : M W A :=
  let reason := DecodeRevertReason (Some err) in
  reason ← (if String.eqb reason "" then replay_reason s to value callData else mret reason);
  lift (Err (Plain (what +:+ Error err +:+ (if nonempty reason then " (revert reason: " +:+ reason +:+ ")" else "")))).

(** The error of a transaction that was mined and failed. *)
Definition mined_failed {A} (what plain : string) (s : Support) (to : bytes) (value : bigint) (callData : option bytes)
  : M W A :=
  reason ← replay_reason s to value callData;
  lift (Err (Plain (if nonempty reason then what +:+ " (revert reason: " +:+ reason +:+ ")" else plain))).

(** The shape of both calls of [setExtensionId]. *)
Definition set_extension_id (bind_ : bytes -> result unit) (send : bytes -> TransactOpts -> M W Transaction)
    (callData : option bytes) (s : Support) (address : bytes) : M W unit :=
  on_err "failed to bind contract: " (lift (bind_ address)) ;;
  opts ← transactor (Prv s) None;
  tx <?- send address opts
    onerr err => send_failed "failed to call setExtensionId: " s address None callData err;
  receipt ← on_err "failed waiting for transaction: " (WaitMined [] tx);
  if status_ok receipt then mret tt
  else mined_failed "setExtensionId transaction failed" "setExtensionId transaction failed" s address None callData.

Definition SetExtensionId (s : Support) (instructionSenderAddress : bytes) : M W unit :=
  set_extension_id (NewHelloWorldInstructionSender (W := W)) HelloWorld_SetExtensionId
    (HelloWorld_pack (W := W) "setExtensionId" []) s instructionSenderAddress.

Definition SetWorkProofEscrowExtensionId (s : Support) (escrowAddress : bytes) : M W unit :=
  set_extension_id (NewWorkProofEscrow (W := W)) Escrow_SetExtensionId
    (Escrow_pack (W := W) "setExtensionId" []) s escrowAddress.

Definition instruction_fee : bigint := Some 1000000.

(** The event of an instruction that was mined. *)
Definition instruction_sent (receipt : Receipt) : M W (bytes * bytes) :=
  match rc_Logs receipt with
  | [] => lift (Err (Plain "no logs found in receipt"))
  | l0 :: _ =>
    instructionId ← on_err "failed to parse TeeInstructionsSent event: " (lift (ParseTeeInstructionsSent (W := W) l0));
    mret (instructionId, rc_TxHash receipt)
  end.

Definition SendSayHello (s : Support) (address message : bytes) : M W (bytes * bytes) :=
  on_err "failed to bind contract: " (lift (NewHelloWorldInstructionSender (W := W) address)) ;;
  opts ← transactor (Prv s) instruction_fee;
  let callData := HelloWorld_pack (W := W) "sendSayHello" [AbiBytes message] in
  tx <?- HelloWorld_SendSayHello address opts message
    onerr err => send_failed "failed to send instruction: " s address instruction_fee callData err;
  receipt ← on_err "failed waiting for transaction: " (WaitMined [] tx);
  if status_ok receipt then instruction_sent receipt
  else mined_failed ("transaction failed with status " +:+ pretty (rc_Status receipt))
         ("transaction failed with status: " +:+ pretty (rc_Status receipt)) s address instruction_fee callData.

Definition SendSayGoodbye (s : Support) (address : bytes) (name reason : string) : M W (bytes * bytes) :=
  on_err "failed to bind contract: " (lift (NewHelloWorldInstructionSender (W := W) address)) ;;
  opts ← transactor (Prv s) instruction_fee;
  tx ← on_err "failed to send instruction: " (HelloWorld_SendSayGoodbye address opts name reason);
  receipt ← on_err "failed waiting for transaction: " (WaitMined [] tx);
  if status_ok receipt then instruction_sent receipt
  else lift (Err (Plain ("transaction failed with status: " +:+ pretty (rc_Status receipt)))).
End Instructions.
