(* ===== verification/Commands.v ===== *)
(** * The commands of the deployment tools (tools/cmd)

    run-test, deploy-contract, deploy-workproof-escrow, register-extension,
    set-workproof-extension-id, allow-tee-version, register-tee and
    set-governance, over the values of their flags. A fatal error is the [Err]
    of the run; the value is the line printed for scripts. *)

From S2P Require Import Prelude GoStd GoEth Bundle NetStd Encoding Checks Revert TeeCalls Registration ExtensionSetup Instructions.

(** The JSON answers of the sample extension, and the calls of the commands
    that no package wraps. *)
Class CommandEnv (W : Type) := {
  Unmarshal_sayHelloResponse : bytes -> result (string * Z);
  Unmarshal_sayGoodbyeResponse : bytes -> result (string * Z);
  write_address_file : string -> string -> W -> W;
  IsCodeHashPlatformSupported : bigint -> bytes -> bytes -> M W bool;
}.

Definition defaultProtocolFeeBps : Z := 100.

(** [sayHelloResponse] and [sayGoodbyeResponse]. *)
Record TestResponse := mkTestResponse { tr_Text : string; tr_Number : Z }.

Section Commands.
Context {GE : GoEthereum} {RC : RevertCodec} {TL : TeeLib} {W : Type} {EC : EthClient W} {TC : TxClient W}
  {TH : TeeHttp W} {TM : TeeManager W} {HO : Host W} {SE : SupportEnv W} {SB : SenderBindings W}
  {ER : ExtensionRegistry W} {CE : CommandEnv W}.

(** ** run-test *)

(** What both checks of a result share: [decode] reads the response, and the
    two names are those of its fields. *)
Definition check_result (text number : string) (decode : bytes -> result (string * Z)) (ar : ActionResponse)
  : result unit :=
  fail_if (ar_Status ar =? 0) (Plain ("instruction processing failed: " +:+ ar_Log ar)) ;;
  fail_if (ar_Status ar =? 2) (Plain "instruction still pending after polling, expected completed") ;;
  fail_if (llen (ar_Data ar) =? 0) (Plain "expected response data but got none") ;;
  r ← match decode (ar_Data ar) with Err e => Err (Errorf "failed to unmarshal response: " e) | r => r end;
  let '(t, n) := r in
  let resp := mkTestResponse t n in
  fail_if (String.eqb (tr_Text resp) "") (Plain ("expected non-empty " +:+ text)) ;;
  fail_if (tr_Number resp <? 1) (Plain ("expected " +:+ number +:+ " >= 1, got " +:+ pretty (tr_Number resp))).

Definition verifyHelloResult (proxyURL : string) (instructionId : bytes) : M W unit :=
  ar ← ActionResult proxyURL instructionId;
  lift (check_result "Greeting" "GreetingNumber" (Unmarshal_sayHelloResponse (W := W)) ar).

Definition verifyGoodbyeResult (proxyURL : string) (instructionId : bytes) : M W unit :=
  ar ← ActionResult proxyURL instructionId;
  lift (check_result "Farewell" "FarewellNumber" (Unmarshal_sayGoodbyeResponse (W := W)) ar).

(** An extension id that is set already is no failure. *)
Definition already_set (err : error) : bool :=
  Contains (Error err) "already set" || Contains (Error err) "Extension ID already set".

Definition test_payload : bytes := bytes_of_string (Json.json_object [("name", Json.json_string "World")]).

Definition run_test (af cf proxyURL instructionSender : string) : M W unit :=
  let sender := HexToAddress instructionSender in
  s ← DefaultSupport af cf;
  on_error (SetExtensionId s sender)
    (fun err => if already_set err then mret tt
                else lift (Err (Errorf ("setExtensionId failed — is the extension registered? " +:+
                       "Check that pre-build.sh completed successfully. Error: ") err))) mret ;;
  hello ← SendSayHello s sender test_payload;
  Sleep 5000 ;;
  verifyHelloResult proxyURL (fst hello) ;;
  goodbye ← SendSayGoodbye s sender "World" "heading out";
  Sleep 5000 ;;
  verifyGoodbyeResult proxyURL (fst goodbye).

(** ** deploy-contract and deploy-workproof-escrow *)

Definition preflight (s : Support) : M W unit :=
  lift (AddressNotZero (FlareTeeManager s) "FlareTeeManager") ;;
  AddressHasCode true (FlareTeeManager s) "FlareTeeManager".

Definition funded (s : Support) : M W unit := KeyHasFunds true (PubkeyToAddress (Prv s)) MinDeployBalance.

(** The output: the file, when asked for, and the line for scripts. *)
Definition report_address (outFile : string) (address : bytes) : M W (option string) :=
  (if nonempty outFile then total (fun w => (tt, write_address_file outFile (Address_Hex address) w)) else mret tt) ;;
  mret (Some (Address_Hex address)).

Definition deploy_contract_cmd (af cf outFile : string) (preflightOnly : bool) : M W (option string) :=
  s ← DefaultSupport af cf;
  preflight s ;;
  funded s ;;
  if preflightOnly then mret None else
  address ← DeployInstructionSender s;
  report_address outFile address.

Definition resolveTreasury : M W bytes :=
  raw ← Getenv "WORKPROOF_TREASURY";
  if String.eqb raw "" then lift (Err (Plain "WORKPROOF_TREASURY is not set -- refusing to default the fee-sink address"))
  else mret (HexToAddress raw).

Definition resolveProtocolFeeBps : M W Z :=
  raw ← Getenv "WORKPROOF_PROTOCOL_FEE_BPS";
  if String.eqb raw "" then mret defaultProtocolFeeBps else
  match ParseUint 16 raw with
  | Some v => mret v
  | None => lift (Err (Plain ("WORKPROOF_PROTOCOL_FEE_BPS is not a valid uint16: " +:+ raw)))
  end.

Definition deploy_escrow_cmd (af cf outFile : string) (preflightOnly : bool) : M W (option string) :=
  s ← DefaultSupport af cf;
  treasury ← resolveTreasury;
  protocolFeeBps ← resolveProtocolFeeBps;
  preflight s ;;
  lift (AddressNotZero treasury "Treasury") ;;
  funded s ;;
  if preflightOnly then mret None else
  address ← DeployWorkProofEscrow s treasury protocolFeeBps;
  report_address outFile address.

(** ** register-extension and set-workproof-extension-id *)

(** ["0x%064x"] of an extension id, a uint256 of the registry. *)
Definition id_hex (id : bigint) : string :=
  match id with Some n => "0x" +:+ hex_encode (be_bytes 32 n) | None => "0x<nil>" end.

Definition register_extension_cmd (af cf instructionSender : string) : M W string :=
  if String.eqb instructionSender "" then lift (Err (Plain "--instructionSender flag is required")) else
  s ← DefaultSupport af cf;
  let address := HexToAddress instructionSender in
  AddressHasCode true address "InstructionSender" ;;
  extensionID ← SetupExtension s address zero_address;
  mret (id_hex extensionID).

Definition set_escrow_extension_cmd (af cf escrow : string) : M W unit :=
  if String.eqb escrow "" then lift (Err (Plain "--escrow flag is required")) else
  s ← DefaultSupport af cf;
  let address := HexToAddress escrow in
  AddressHasCode true address "WorkProofEscrow" ;;
  SetWorkProofEscrowExtensionId s address.

(** ** The owner's key, allow-tee-version and set-governance *)

Definition owner_key (s : Support) : M W bytes :=
  privKeyString ← Getenv "EXTENSION_OWNER_KEY";
  if String.eqb privKeyString "" then mret (Prv s)
  else lift (crypto_HexToECDSA (W := W) (strip_0x privKeyString)).

Definition allow_tee_version_cmd (af cf proxyURL version : string) : M W unit :=
  s ← DefaultSupport af cf;
  teeInfo ← TeeInfo proxyURL;
  privKey ← owner_key s;
  _ids ← lift (TeeProxyId teeInfo);
  let md := MachineData_ teeInfo in
  let extensionID := Some (be_value (md_ExtensionID md)) in
  supported ← IsCodeHashPlatformSupported extensionID (md_CodeHash md) (md_Platform md);
  if supported : bool then mret tt else
  on_error (AddTeeVersion s privKey extensionID (md_CodeHash md) (md_Platform md) version)
    (fun err => if Contains (Error err) "VersionAlreadyExists" then mret tt else lift (Err err)) mret.

(** set-governance trims both prefixes, one after the other. *)
Definition governance_key (s : Support) : M W bytes :=
  privKeyString ← Getenv "EXTENSION_OWNER_KEY";
  if String.eqb privKeyString "" then mret (Prv s)
  else lift (crypto_HexToECDSA (W := W) (TrimPrefix (TrimPrefix privKeyString "0x") "0X")).

(** The signer when GOVERNANCE_SIGNERS names none. *)
Definition default_signer (privKey : bytes) : M W bytes :=
  io ← Getenv "INITIAL_OWNER";
  let io := TrimSpace io in
  mret (if nonempty io then HexToAddress io else PubkeyToAddress privKey).

Definition set_governance_cmd (af cf proxyURL : string) : M W unit :=
  s ← DefaultSupport af cf;
  privKey ← governance_key s;
  defaultSigner ← default_signer privKey;
  teeInfo ← TeeInfo proxyURL;
  let extensionID := Some (be_value (md_ExtensionID (MachineData_ teeInfo))) in
  signers ← Getenv "GOVERNANCE_SIGNERS";
  threshold ← Getenv "GOVERNANCE_THRESHOLD";
  SetTeeGovernance privKey extensionID (parseSigners signers defaultSigner) (parseThreshold threshold).

(** ** register-tee *)

Context {DF : DiskFaults W}.

Definition register_tee_cmd (af cf proxyURL hostURL ftdcURL instructionID command stateFile : string)
    (resume : bool) : M (disk * W) unit :=
  (if resume then mret tt else Remove stateFile) ;;
  s ← zoom_snd (DefaultSupport af cf);
  teeInfo ← zoom_snd (TeeInfo proxyURL);
  _ids ← lift (TeeProxyId teeInfo);
  ftdc ← zoom_snd (GetTeeProxyID ftdcURL);
  simulated ← zoom_snd (Getenv "SIMULATED_TEE");
  _cp ← lift (GetCodeHashAndPlatform (String.eqb simulated "true") teeInfo);
  let hostURL := if String.eqb hostURL "" then proxyURL else hostURL in
  RegisterNode s teeInfo hostURL ftdcURL (fst ftdc) command instructionID stateFile.
End Commands.
