(* ===== verification/CommandSpecs.v ===== *)
(** * Correctness of the commands

    The test command accepts the answers of the sample extension, and the
    deployment of the escrow is guarded by its checks. *)

From S2P Require Import Prelude GoStd Config GoEth Bundle NetStd Ciphertext Encoding Canonical WireTypes Verifier Extension Reference Checks Revert TeeCalls Registration ExtensionSetup Instructions Commands RegistrationSpecs Server.

Lemma digits_val_nonneg s acc v : digits_val s acc = Some v -> 0 <= acc -> 0 <= v.
Proof.
  revert acc. induction s as [|a s IH]; intros acc; simpl; [by intros [= ->]|].
  repeat case_match; try done. intros H1 H2. eapply IH; [done|]. unfold is_digit, in_range, ascii_val in *. to_prop. lia.
Qed.

Lemma ParseUint_range bits s v : ParseUint bits s = Some v -> 0 <= v < 2 ^ bits.
Proof.
  unfold ParseUint. case_match; [|done]. destruct (digits_val s 0) as [x|] eqn:E; [|done]. case_match; [|done].
  intros [= ->]. to_prop. split; [by eapply digits_val_nonneg|done].
Qed.

(** ** The test and the extension *)

(** The response in which the proxy hands out a result of the extension. *)
Definition response_of (ar : Extension.ActionResult) (sig : bytes) : ActionResponse :=
  mkActionResponse (Extension.ar_Data ar) (Extension.ar_Status ar) (Extension.ar_OPType ar) (Extension.ar_OPCommand ar)
    (Extension.ar_SubmissionTag ar) (Extension.ar_Log ar) sig.

(** [json.Unmarshal] reads back what [json.Marshal] wrote: the number, and a
    text that is not empty when the one written is not. *)
Class AnswerLaws {W} {CE : CommandEnv W} := {
  hello_roundtrip text n : - 2 ^ 63 <= n < 2 ^ 63 -> exists t,
    Unmarshal_sayHelloResponse (W := W) (bytes_of_string (marshal_hello (mkHelloResponse text n))) = Ok (t, n) /\
    (text <> "" -> t <> "");
  goodbye_roundtrip text n : - 2 ^ 63 <= n < 2 ^ 63 -> exists t,
    Unmarshal_sayGoodbyeResponse (W := W) (bytes_of_string (marshal_goodbye (mkGoodbyeResponse text n))) = Ok (t, n) /\
    (text <> "" -> t <> "");
}.

Lemma check_failed text number decode ar : ar_Status ar = 0 -> is_Ok (check_result text number decode ar) = false.
Proof. intros H. unfold check_result. by rewrite H. Qed.

Lemma check_passed text number decode ar t n :
  ar_Status ar = 1 -> ar_Data ar <> [] -> decode (ar_Data ar) = Ok (t, n) -> t <> "" -> 1 <= n ->
  is_Ok (check_result text number decode ar) = true.
Proof.
  intros Hs Hd Hr Ht Hn. unfold check_result. rewrite Hs, Hr. simpl. destruct (Z.eqb_spec (llen (ar_Data ar)) 0) as [Hl|].
  { unfold llen in Hl. destruct (ar_Data ar); [done|simpl in Hl; lia]. }
  simpl. destruct (String.eqb_spec t ""); [done|]. simpl. destruct (Z.ltb_spec n 1); [lia|done].
Qed.

(** ** A concrete reader of answers, for witnesses *)

(** A reader of the number of an answer: what follows the last colon. *)
Fixpoint after_colon (s cur : string) : string :=
  match s with
  | EmptyString => cur
  | String a s => after_colon s (if Ascii.eqb a ":" then s else cur)
  end.
Fixpoint leading_number (s : string) (acc : Z) : Z :=
  match s with
  | String a s => if is_digit a then leading_number s (acc * 10 + (ascii_val a - 48)) else acc
  | EmptyString => acc
  end.
Definition read_number (s : string) : Z :=
  match after_colon s s with
  | String "-" s => - leading_number s 0
  | s => leading_number s 0
  end.

Lemma pretty_digit x : (x < 10)%N ->
  is_digit (pretty_N_char x) = true /\ ascii_val (pretty_N_char x) - 48 = Z.of_N x /\ pretty_N_char x <> ":"%char /\
  pretty_N_char x <> "-"%char.
Proof.
  intros H. assert (x ∈ [0; 1; 2; 3; 4; 5; 6; 7; 8; 9]%N) as Hx by (rewrite !elem_of_cons; lia).
  revert x H Hx. intros x _. revert x. apply Forall_forall. repeat constructor; done.
Qed.

Lemma pretty_go_ind (P : N -> Prop) : P 0%N -> (forall x, (0 < x)%N -> P (x `div` 10)%N -> P x) -> forall x, P x.
Proof.
  intros H0 Hs x. induction (N.lt_wf_0 x) as [x _ IH]. destruct (decide (x = 0%N)) as [->|]; [done|].
  apply Hs; [lia|]. apply IH. apply N.div_lt; lia.
Qed.

Lemma pretty_go_app x s t : pretty_N_go x s +:+ t = pretty_N_go x (s +:+ t).
Proof.
  revert s. induction x using pretty_go_ind; intros s; [by rewrite !pretty_N_go_0|].
  rewrite !(pretty_N_go_step x) by done. by rewrite IHx.
Qed.

Lemma leading_number_go x s : leading_number (pretty_N_go x s) 0 = leading_number s (Z.of_N x).
Proof.
  revert s. induction x using pretty_go_ind; intros s; [by rewrite pretty_N_go_0|].
  rewrite pretty_N_go_step by done. rewrite IHx. cbn [leading_number].
  destruct (pretty_digit (x mod 10)) as (-> & -> & _); [apply N.mod_lt; lia|]. f_equal.
  rewrite (N.div_mod x 10) at 3 by done. lia.
Qed.

Lemma after_colon_go x s cur : after_colon (pretty_N_go x s) cur = after_colon s cur.
Proof.
  revert s. induction x using pretty_go_ind; intros s; [by rewrite pretty_N_go_0|].
  rewrite pretty_N_go_step by done. rewrite IHx. cbn [after_colon].
  destruct (pretty_digit (x mod 10)) as (_ & _ & Hc & _); [apply N.mod_lt; lia|].
  by apply Ascii.eqb_neq in Hc as ->.
Qed.

Lemma after_colon_app a s cur : after_colon (a +:+ String ":" s) cur = after_colon s s.
Proof. revert cur. induction a as [|c a IH]; intros cur; [done|]. rewrite append_cons. apply IH. Qed.

Lemma pretty_pos p t : pretty (Zpos p) +:+ t = pretty_N_go (Npos p) t.
Proof. change (pretty (Zpos p)) with (pretty_N_go (Npos p) EmptyString). apply pretty_go_app. Qed.

Lemma go_head x s a t : pretty_N_go x s = String a t -> (0 < x)%N -> a <> "-"%char.
Proof.
  revert s. induction x using pretty_go_ind; intros s; [lia|]. intros H1 Hx.
  rewrite pretty_N_go_step in H1 by done. destruct (decide (x `div` 10 = 0)%N) as [E|].
  - rewrite E, pretty_N_go_0 in H1. injection H1 as <- _. apply pretty_digit, N.mod_lt. lia.
  - apply IHx in H1; [done|by apply N.neq_0_lt_0].
Qed.

Lemma read_number_pretty a n : read_number (a +:+ String ":" (pretty n +:+ "}")) = n.
Proof.
  assert (Hb : forall c, after_colon "}" c = c) by done. unfold read_number. rewrite after_colon_app. destruct n as [|p|p].
  - done.
  - rewrite pretty_pos, after_colon_go, Hb.
    destruct (pretty_N_go (Npos p) "}") as [|c s] eqn:E.
    { apply (f_equal (fun s => leading_number s 0)) in E. by rewrite leading_number_go in E. }
    pose proof (go_head _ _ _ _ E eq_refl) as Hc.
    transitivity (leading_number (String c s) 0); [|by rewrite <- E, leading_number_go].
    destruct c as [[] [] [] [] [] [] [] []]; try reflexivity. by destruct Hc.
  - change (pretty (Zneg p) +:+ "}") with (String "-" (pretty (Zpos p) +:+ "}")). rewrite pretty_pos.
    change (after_colon (String "-" ?x) ?y) with (after_colon x y). rewrite after_colon_go, Hb. by rewrite leading_number_go.
Qed.

Lemma read_two_members k1 v1 k2 n :
  read_number (Json.json_object [(k1, v1); (k2, Json.json_int n)]) = n.
Proof.
  unfold Json.json_object. cbn [fmap list_fmap Join].
  set (a := "{" +:+ (Json.json_string k1 +:+ ":" +:+ v1) +:+ "," +:+ Json.json_string k2).
  transitivity (read_number (a +:+ String ":" (pretty n +:+ "}"))); [|apply read_number_pretty].
  f_equal. subst a. change (String ":" (pretty n +:+ "}")) with (":" +:+ (pretty n +:+ "}")).
  by rewrite <- !(assoc String.append).
Qed.

Definition read_answer (b : bytes) : result (string * Z) := Ok ("x", read_number (string_of_bytes b)).

#[export] Instance ref_commands : CommandEnv Z := {|
  Unmarshal_sayHelloResponse := read_answer;
  Unmarshal_sayGoodbyeResponse := read_answer;
  write_address_file _ _ w := w;
  IsCodeHashPlatformSupported _ _ _ := fun w => (Ok false, w);
|}.

#[export] Instance ref_answers : AnswerLaws (W := Z).
Proof.
  split; intros text n _; exists "x"; (split; [|done]); simpl; unfold read_answer;
    rewrite String.string_of_list_byte_of_string; do 2 f_equal; apply read_two_members.
Qed.

(** ** What a check or a transaction that succeeded did *)
Section guards.
Context {GE : GoEthereum} {RC : RevertCodec} {TL : TeeLib} {W : Type} {EC : EthClient W} {TC : TxClient W}
  {TM : TeeManager W} {HO : Host W} {SB : SenderBindings W}.

Lemma Getenv_Ok k (w w' : W) v : Getenv k w = (Ok v, w') -> os_Getenv k w = (v, w').
Proof. unfold Getenv, total. destruct (os_Getenv k w). by intros [= -> ->]. Qed.

Lemma AddressNotZero_Ok a l u : AddressNotZero a l = Ok u -> a <> zero_address.
Proof. unfold AddressNotZero. intros H%fail_if_Ok. by apply bool_decide_eq_false in H. Qed.

(** The chain, as the checks of a run found it. *)
Definition has_code (a : bytes) : Prop := exists w w' code, CodeAt [rpcTimeout] a None w = (Ok code, w' : W) /\ code <> [].
Definition has_funds (a : bytes) (min : Z) : Prop :=
  exists w w' b, BalanceAt [rpcTimeout] a None w = (Ok (Some b), w' : W) /\ min <= b.

Lemma AddressHasCode_Ok a l (w : W) u w' : AddressHasCode true a l w = (Ok u, w') -> has_code a.
Proof.
  unfold AddressHasCode. cbn [negb]. intros [(code & w1 & H1 & H)|[(e & w1 & _ & [[=] _]%lift_eq)|(p & _ & [=])]]%on_error_eq.
  exists w, w1, code. split; [done|]. intros ->. discriminate H.
Qed.

Lemma KeyHasFunds_Ok a min (w : W) u w' : KeyHasFunds true a min w = (Ok u, w') -> has_funds a min.
Proof.
  unfold KeyHasFunds. cbn [negb]. intros [(b & w1 & H1 & H)|[(e & w1 & _ & [[=] _]%lift_eq)|(p & _ & [=])]]%on_error_eq.
  apply M_bind_Ok in H as (c & w2 & [Hc _]%lift_eq & H). destruct b as [b|]; [|done]. exists w, w1, b. split; [done|].
  injection Hc as <-. destruct (Z.compare_spec b min); [lia| |lia]. by apply lift_eq in H as [? _].
Qed.

(** A contract was deployed: its transaction was sent by the key, and mined
    with success. *)
Definition deployed (key : bytes) (send : TransactOpts -> M W (bytes * Transaction)) (address : bytes) : Prop :=
  exists w w1 w2 tx receipt, send (mkOpts key None) w = (Ok (address, tx), w1) /\
    WaitMined [120000] tx w1 = (Ok receipt, w2) /\ rc_Status receipt = 1.

Lemma deploy_contract_Ok s send (w : W) a w' : deploy_contract s send w = (Ok a, w') -> deployed (Prv s) send a.
Proof.
  unfold deploy_contract, transactor, status_ok. intros H.
  apply M_bind_Ok in H as (opts & w1 & (t & w2 & _ & [[= ->] _]%mret_eq)%M_bind_Ok & H).
  apply M_bind_Ok in H as ([address tx] & w3 & H1 & (receipt & w4 & H2 & H)%M_bind_Ok).
  apply on_err_Ok in H1, H2. destruct (Z.eqb_spec (rc_Status receipt) 1); [|by apply lift_eq in H as [? _]].
  apply mret_eq in H as [[= ->] _]. by exists w1, w3, w4, tx, receipt.
Qed.
End guards.

(** ** The governance command *)

(** The texts that name a signer. *)
Definition signer_texts (raw : string) : list string :=
  filter (fun part => part <> "") (TrimSpace <$> Split raw ",").

Lemma parseSigners_spec {GE : GoEthereum} raw fallback :
  parseSigners raw fallback = match signer_texts raw with [] => [fallback] | l => HexToAddress <$> l end.
Proof.
  unfold parseSigners, signer_texts. set (f := fun part => _).
  assert (forall l, omap f l = HexToAddress <$> filter (fun part => part <> "") (TrimSpace <$> l)) as ->.
  { intros l. induction l as [|part l IH]; [done|]. rewrite fmap_cons.
    change (omap f (part :: l)) with (match f part with Some y => y :: omap f l | None => omap f l end).
    rewrite IH. unfold f, nonempty. destruct (String.eqb_spec (TrimSpace part) "") as [E|E]; simpl.
    - by rewrite E, filter_cons_False by naive_solver.
    - by rewrite filter_cons_True by done. }
  by destruct (filter _ _).
Qed.

Lemma parseThreshold_pos raw : 1 <= parseThreshold raw.
Proof. unfold parseThreshold. destruct (ParseUint _ _); [|lia]. destruct (Z.ltb_spec 0 z); lia. Qed.

(** ** Properties *)

(** The test command accepts what the sample extension answers: the result
    of a greeting passes the check of its command exactly when the request
    could be decoded and had a name, up to a counter that does not overflow. *)
Theorem run_test_accepts_extension {GE : GoEthereum} {TN : TeeNode} {W W' : Type} {CE : CommandEnv W'} {AL : AnswerLaws (W := W')}
    action df (s : ExtState) (x : pins * W) sig :
  0 <= greetingCount s < 2 ^ 63 - 1 -> 0 <= farewellCount s < 2 ^ 63 - 1 ->
  (forall ar s', processSayHello action df (s, x) = (Ok ar, s') ->
    is_Ok (check_result "Greeting" "GreetingNumber" (Unmarshal_sayHelloResponse (W := W')) (response_of ar sig)) = true <->
    exists name, Decode_SayHello (OriginalMessage df) = Ok name /\ name <> "") /\
  (forall ar s', processSayGoodbye action df (s, x) = (Ok ar, s') ->
    is_Ok (check_result "Farewell" "FarewellNumber" (Unmarshal_sayGoodbyeResponse (W := W')) (response_of ar sig)) = true <->
    exists req, decode_goodbye (OriginalMessage df) = Ok req /\ gb_Name req <> "").
Proof.
  intros Hg Hf. split.
  - intros ar s' H. unfold processSayHello in H.
    apply on_error_eq in H as [(name & s1 & [Hn <-]%lift_eq & H)|[(e & s1 & [He <-]%lift_eq & H)|(p & _ & [=])]].
    + destruct (String.eqb_spec name "") as [->|Hne].
      { apply mret_eq in H as [[= ->] _]. rewrite check_failed by done. split; [done|]. intros (n' & Hn' & Hne).
        rewrite Hn in Hn'. by injection Hn' as <-. }
      apply M_bind_Ok in H as (st & s2 & [= <- <-] & H). apply M_bind_Ok in H as (u & s3 & _ & H).
      apply mret_eq in H as [[= ->] _]. split; [by eauto|]. intros _.
      rewrite int64_id by lia. edestruct (hello_roundtrip (W := W') ("Hello, " +:+ name +:+ "! Welcome to Flare Confidential Compute."))
        as (t & Ht & Hte); [|eapply check_passed; [done| |exact Ht|by apply Hte|lia]]; [lia|done].
    + apply mret_eq in H as [[= ->] _]. rewrite check_failed by done. split; [done|]. intros (n' & Hn' & _). by rewrite He in Hn'.
  - intros ar s' H. unfold processSayGoodbye in H.
    apply on_error_eq in H as [(req & s1 & [Hn <-]%lift_eq & H)|[(e & s1 & [He <-]%lift_eq & H)|(p & _ & [=])]].
    + destruct (String.eqb_spec (gb_Name req) "") as [Hnil|Hne].
      { apply mret_eq in H as [[= ->] _]. rewrite check_failed by done. split; [done|]. intros (n' & Hn' & Hne).
        rewrite Hn in Hn'. by injection Hn' as <-. }
      apply M_bind_Ok in H as (st & s2 & [= <- <-] & H). apply M_bind_Ok in H as (u & s3 & _ & H).
      apply mret_eq in H as [[= ->] _]. split; [by eauto|]. intros _.
      rewrite int64_id by lia. edestruct (goodbye_roundtrip (W := W') ("Goodbye, " +:+ gb_Name req +:+ "! Reason: " +:+ gb_Reason req))
        as (t & Ht & Hte); [|eapply check_passed; [done| |exact Ht|by apply Hte|lia]]; [lia|done].
    + apply mret_eq in H as [[= ->] _]. rewrite check_failed by done. split; [done|]. intros (n' & Hn' & _). by rewrite He in Hn'.
Qed.

Definition w_greeting : DataFixed :=
  mkDataFixed (ToHash Config.OPTypeGreeting) (ToHash Config.OPCommandSayHello) (bytes_of_string "Alice").
Definition w_farewell : DataFixed :=
  mkDataFixed (ToHash Config.OPTypeGreeting) (ToHash Config.OPCommandSayGoodbye) [].

Theorem run_test_accepts_extension_witness :
  (forall ar s', processSayHello (mkAction zero_hash "submit" []) w_greeting (initial_state, ((∅ : pins), 0))
      = (Ok ar, s') ->
    is_Ok (check_result "Greeting" "GreetingNumber" (Unmarshal_sayHelloResponse (W := Z)) (response_of ar [])) = true <->
    exists name, Decode_SayHello (OriginalMessage w_greeting) = Ok name /\ name <> "") /\
  (forall ar s', processSayGoodbye (GE := ref_geth) (mkAction zero_hash "submit" []) w_farewell (initial_state, ((∅ : pins), 0))
      = (Ok ar, s') ->
    is_Ok (check_result "Farewell" "FarewellNumber" (Unmarshal_sayGoodbyeResponse (W := Z)) (response_of ar [])) = true <->
    exists req, decode_goodbye (GE := ref_geth) (OriginalMessage w_farewell) = Ok req /\ gb_Name req <> "").
Proof.
  split; apply (run_test_accepts_extension (GE := ref_geth) (W := Z) (W' := Z)); split; simpl; lia.
Defined.

(** C39. The deployment of the escrow is guarded: a run that ends well had a
    treasury set in the environment and not zero, a fee that fits 16 bits and
    is the default when none is set, a manager that is not zero and has code,
    and a deployer with the minimal balance; the printed address is that of a
    deployment with this manager, treasury and fee, sent by the deployer's key
    and mined with success; a preflight run never uses the contract's binding
    at all. *)
Theorem deploy_escrow_guarded {GE : GoEthereum} {RC : RevertCodec} {TL : TeeLib} {W} {EC : EthClient W} {TC : TxClient W}
    {TM : TeeManager W} {HO : Host W} {SE : SupportEnv W} {CE : CommandEnv W} (SB SB' : SenderBindings W)
    af cf outFile (w w' : W) :
  deploy_escrow_cmd (SB := SB) af cf outFile true = deploy_escrow_cmd (SB := SB') af cf outFile true /\
  forall preflightOnly line, deploy_escrow_cmd af cf outFile preflightOnly w = (Ok line, w') ->
  exists s w1 raw w2 raw_fee w3 fee,
    DefaultSupport af cf w = (Ok s, w1) /\
    os_Getenv "WORKPROOF_TREASURY" w1 = (raw, w2) /\ raw <> "" /\ HexToAddress raw <> zero_address /\
    os_Getenv "WORKPROOF_PROTOCOL_FEE_BPS" w2 = (raw_fee, w3) /\ is_uint 16 fee /\
    (if String.eqb raw_fee "" then fee = defaultProtocolFeeBps else ParseUint 16 raw_fee = Some fee) /\
    FlareTeeManager s <> zero_address /\ has_code (FlareTeeManager s) /\
    has_funds (PubkeyToAddress (Prv s)) MinDeployBalance /\
    match line with
    | None => preflightOnly = true
    | Some text => preflightOnly = false /\ exists address, text = Address_Hex address /\
        deployed (Prv s) (fun opts => DeployWorkProofEscrow_tx opts (FlareTeeManager s) (FlareTeeManager s)
                                        (HexToAddress raw) fee) address
    end.
Proof.
  split; [done|]. intros pf line H. unfold deploy_escrow_cmd in H.
  apply M_bind_Ok in H as (s & w1 & Hs & (treasury & w2 & Ht & (fee & w3 & Hf & H)%M_bind_Ok)%M_bind_Ok).
  apply M_bind_Ok in H as (u & w4 & Hp & (u2 & w5 & [Hz _]%lift_eq & (u3 & w6 & Hb%KeyHasFunds_Ok & H)%M_bind_Ok)%M_bind_Ok).
  apply M_bind_Ok in Hp as (u4 & w7 & [Hm _]%lift_eq & Hc%AddressHasCode_Ok).
  apply AddressNotZero_Ok in Hz, Hm.
  apply M_bind_Ok in Ht as (raw & w8 & Hraw%Getenv_Ok & Ht). destruct (String.eqb_spec raw "") as [|Hne]; [by apply lift_eq in Ht as [? _]|].
  apply mret_eq in Ht as [[= ->] ->].
  apply M_bind_Ok in Hf as (rf & w9 & Hrf%Getenv_Ok & Hf).
  assert (w9 = w3 /\ (if String.eqb rf "" then fee = defaultProtocolFeeBps else ParseUint 16 rf = Some fee)) as [-> Hfee].
  { destruct (String.eqb rf ""); [by apply mret_eq in Hf as [[= ->] ->]|].
    destruct (ParseUint 16 rf); [by apply mret_eq in Hf as [[= ->] ->]|by apply lift_eq in Hf as [? _]]. }
  assert (is_uint 16 fee) as Hr.
  { destruct (String.eqb rf ""); [subst; unfold is_uint, defaultProtocolFeeBps; lia|by apply ParseUint_range in Hfee]. }
  exists s, w1, raw, w8, rf, w3, fee. split_and!; try done. destruct pf; [by apply mret_eq in H as [[= ->] _]|].
  apply M_bind_Ok in H as (a & w10 & Hd%deploy_contract_Ok & (u5 & w11 & _ & [[= ->] _]%mret_eq)%M_bind_Ok). eauto.
Qed.

(** A devnet on which the manager has code and the deployer funds. *)
#[export] Instance dev_eth : EthClient Z := {|
  CodeAt _ _ _ := fun w => (Ok (zero_bytes 2), w);
  StorageAt _ _ _ _ := fun w => (Ok zero_hash, w);
  CallContract _ _ _ := fun w => (Err (Plain "execution reverted"), w);
|}.
Definition dev_treasury : string := "0x00000000000000000000000000000000000000aa".
#[export] Instance dev_host : Host Z := {|
  os_Getenv k w := (if String.eqb k "WORKPROOF_TREASURY" then dev_treasury else
                    if String.eqb k "WORKPROOF_PROTOCOL_FEE_BPS" then "250" else "", w);
  os_Open _ w := (None, w);
  os_IsNotExist _ w := (true, w);
  net_DialTimeout _ _ w := (false, w);
  range_map m w := (map_to_list m, w);
  HttpGet _ _ := fun w => (Ok 200, w);
  BalanceAt _ _ _ := fun w => (Ok (Some MinDeployBalance), w);
  ChainID _ := fun w => (Ok (Some 31337), w);
  NextPublicExtensionId := fun w => (Ok (Some 1), w);
  GetTeeExtensionInstructionsSender _ := fun w => (Ok (be_bytes 20 7), w);
  IsAllowedTeeMachineOwner _ _ := fun w => (Ok true, w);
  Checks.IsKeyTypeSupported _ _ := fun w => (Ok true, w);
  EVMType := bytes_of_string "EVM";
|}.
#[export] Instance dev_support : SupportEnv Z := {|
  crypto_HexToECDSA s := match hex_decode s with Some k => Ok k | None => Err (Plain "invalid hex data for private key") end;
  godotenv_Load w := (Some (Plain "open .env: no such file or directory"), w);
  os_ReadFile _ := fun w => (Ok [], w);
  Unmarshal_Addresses _ := Err (Plain "json: cannot unmarshal array into Go value");
  Unmarshal_RawContracts _ := Ok [("FlareTeeManager", "0x00000000000000000000000000000000000000bb"); ("Other", "0x00")];
  ethclient_Connect _ := fun w => (Ok tt, w);
  bind_contract _ _ := Ok tt;
|}.

(** A deployment costs the fee: the new address holds its parameters. *)
#[export] Instance dev_bindings : SenderBindings Z := {|
  DeployHelloWorldInstructionSender _ _ _ := fun w => (Ok (be_bytes 20 (w + 1), w_tx), w);
  NewHelloWorldInstructionSender _ := Ok tt;
  HelloWorld_SetExtensionId _ _ := fun w => (Ok w_tx, w);
  HelloWorld_SendSayHello _ _ _ := fun w => (Ok w_tx, w);
  HelloWorld_SendSayGoodbye _ _ _ _ := fun w => (Ok w_tx, w);
  HelloWorld_pack _ _ := Some [];
  DeployWorkProofEscrow_tx _ _ _ treasury fee := fun w => (Ok (be_bytes 20 (be_value treasury * 65536 + fee), w_tx), w);
  NewWorkProofEscrow _ := Ok tt;
  Escrow_SetExtensionId _ _ := fun w => (Ok w_tx, w);
  Escrow_pack _ _ := Some [];
|}.

Definition dev_deploy (preflightOnly : bool) : result (option string) * Z :=
  deploy_escrow_cmd (GE := ref_geth) (EC := dev_eth) (TM := w_works) (SB := dev_bindings) "addresses.json" "http://node"
    "" preflightOnly 0.

Example dev_deployed : dev_deploy false = (Ok (Some "0x0000000000000000000000000000000000aa00fa"), 1).
Proof. vm_compute. reflexivity. Qed.
Example dev_preflight : dev_deploy true = (Ok None, 0).
Proof. vm_compute. reflexivity. Qed.

Theorem deploy_escrow_guarded_witness :
  exists s w1 raw w2 raw_fee w3 fee,
    DefaultSupport (GE := ref_geth) "addresses.json" "http://node" 0 = (Ok s, w1) /\
    os_Getenv "WORKPROOF_TREASURY" w1 = (raw, w2) /\ raw <> "" /\ HexToAddress (GoEthereum := ref_geth) raw <> zero_address /\
    os_Getenv "WORKPROOF_PROTOCOL_FEE_BPS" w2 = (raw_fee, w3) /\ is_uint 16 fee /\
    (if String.eqb raw_fee "" then fee = defaultProtocolFeeBps else ParseUint 16 raw_fee = Some fee) /\
    FlareTeeManager s <> zero_address /\ has_code (EC := dev_eth) (FlareTeeManager s) /\
    has_funds (PubkeyToAddress (Prv s)) MinDeployBalance /\
    (false = false /\ exists address, "0x0000000000000000000000000000000000aa00fa" = Address_Hex (GoEthereum := ref_geth) address /\
        deployed (Prv s) (fun opts => DeployWorkProofEscrow_tx (SenderBindings := dev_bindings) opts (FlareTeeManager s)
           (FlareTeeManager s) (HexToAddress (GoEthereum := ref_geth) raw) fee) address).
Proof.
  apply (deploy_escrow_guarded (GE := ref_geth) (EC := dev_eth) (TM := w_works) dev_bindings dev_bindings
           "addresses.json" "http://node" "" 0 1) with (preflightOnly := false)
           (line := Some "0x0000000000000000000000000000000000aa00fa").
  vm_compute. reflexivity.
Defined.

(** C40. A governance command that ends well did its work for the signers that
    its environment names: those of GOVERNANCE_SIGNERS, in order and repeated
    as written, or, when it names none, the one default signer, which is
    INITIAL_OWNER or else the address of the owner's key; the threshold lies
    between one and their number; and for the extension that the proxy
    reports, either the chain held the hash of these signers already, or the
    owner's transaction that registers them was mined and did not fail. *)
Theorem set_governance_cmd_ok {GE : GoEthereum} {RC : RevertCodec} {TL : TeeLib} {W} {EC : EthClient W} {TC : TxClient W}
    {TH : TeeHttp W} {TM : TeeManager W} {HO : Host W} {SE : SupportEnv W} {ER : ExtensionRegistry W} {CE : CommandEnv W}
    af cf proxyURL (w w' : W) :
  set_governance_cmd af cf proxyURL w = (Ok tt, w') ->
  exists s w1 key w2 owner w3 info w4 raw w5 signers threshold hash,
    DefaultSupport af cf w = (Ok s, w1) /\ governance_key s w1 = (Ok key, w2) /\
    os_Getenv "INITIAL_OWNER" w2 = (owner, w3) /\ TeeInfo proxyURL w3 = (Ok info, w4) /\
    os_Getenv "GOVERNANCE_SIGNERS" w4 = (raw, w5) /\
    signers = match signer_texts raw with
              | [] => [if String.eqb (TrimSpace owner) "" then PubkeyToAddress key else HexToAddress (TrimSpace owner)]
              | texts => HexToAddress <$> texts
              end /\
    1 <= threshold <= llen signers /\ types_GovernanceHash (W := W) signers threshold = Ok hash /\
    let id := Some (be_value (md_ExtensionID (MachineData_ info))) in
    ((exists w6, GetLatestTeeGovernanceHash id w6 = (Ok hash, w')) \/
     mined (SetNewTeeGovernance (mkOpts key None) id signers threshold)).
Proof.
  unfold set_governance_cmd. intros (s & w1 & Hs & (key & w2 & Hk & (signer & w3 & (owner & w0 & Ho%Getenv_Ok & [[= ->] ->]%mret_eq)%M_bind_Ok & H)%M_bind_Ok)%M_bind_Ok)%M_bind_Ok.
  apply M_bind_Ok in H as (info & w4 & Hi & (raw & w5 & Hraw%Getenv_Ok & (th & w6 & _ & H)%M_bind_Ok)%M_bind_Ok).
  pose proof (parseThreshold_pos th) as Hpos. apply SetTeeGovernance_did in H as (_ & Hle & hash & Hh & Hdid).
  do 10 eexists. exists (parseSigners raw (if nonempty (TrimSpace owner) then HexToAddress (TrimSpace owner) else PubkeyToAddress key)),
    (parseThreshold th), hash. split_and!; try done.
  - rewrite parseSigners_spec. unfold nonempty. by destruct (String.eqb _ _).
  - destruct Hdid; [left; eauto|by right].
Qed.

Definition dev_govern : result unit * Z :=
  set_governance_cmd (GE := ref_geth) (EC := dev_eth) (TM := w_works) (ER := ref_registry) "addresses.json" "http://node"
    "http://proxy" 0.

Theorem set_governance_cmd_ok_witness :
  exists s w1 key w2 owner w3 info w4 raw w5 signers threshold hash,
    DefaultSupport (GE := ref_geth) "addresses.json" "http://node" 0 = (Ok s, w1) /\ governance_key s w1 = (Ok key, w2) /\
    os_Getenv "INITIAL_OWNER" w2 = (owner, w3) /\ TeeInfo "http://proxy" w3 = (Ok info, w4) /\
    os_Getenv "GOVERNANCE_SIGNERS" w4 = (raw, w5) /\
    signers = match signer_texts raw with
              | [] => [if String.eqb (TrimSpace owner) "" then PubkeyToAddress key else HexToAddress (GoEthereum := ref_geth) (TrimSpace owner)]
              | texts => HexToAddress (GoEthereum := ref_geth) <$> texts
              end /\
    1 <= threshold <= llen signers /\ types_GovernanceHash (ExtensionRegistry := ref_registry) signers threshold = Ok hash /\
    let id := Some (be_value (md_ExtensionID (MachineData_ info))) in
    ((exists w6, GetLatestTeeGovernanceHash (ExtensionRegistry := ref_registry) id w6 = (Ok hash, 1)) \/
     mined (SetNewTeeGovernance (ExtensionRegistry := ref_registry) (mkOpts key None) id signers threshold)).
Proof.
  apply (set_governance_cmd_ok (GE := ref_geth) (EC := dev_eth) (TM := w_works) (ER := ref_registry) "addresses.json"
           "http://node" "http://proxy" 0 1).
  vm_compute. reflexivity.
Defined.
