(* ===== verification/VerifyDeploy.v ===== *)
(** * The verify-deploy command (tools/cmd/verify-deploy/main.go)

    The connection to the chain, the checks of a step, the filter of the
    results, the printed report and the exit status. *)

From S2P Require Import Prelude GoStd RegExp GoEth Reference Bundle NetStd Report Checks CheckSpecs Revert TeeCalls Registration ExtensionSetup Instructions Commands RegistrationSpecs CommandSpecs.

(** What the support layer hands to the checks: nil-ness of the client, the
    deployer's address, the registry and the allowlist, and the addresses. *)
Record Chain := mkChain {
  ch_client : bool;
  ch_key : option bytes;
  ch_registry : bool;
  ch_allowlist : bool;
  ch_addresses : gmap string bytes;
}.

(** The set of the --checks flag, and the filter. *)
Definition allowed_ids (checksFilter : string) : gset string :=
  list_to_set (filter (fun t => t <> "") (TrimSpace <$> Split checksFilter ",")).

Definition filter_results (checksFilter : string) (r : Report) : Report :=
  if String.eqb checksFilter "" then r
  else filter (fun c => cr_ID c ∈ allowed_ids checksFilter) r.

Section VerifyDeploy.
Context {GE : GoEthereum} {TL : TeeLib} {W : Type} {EC : EthClient W} {HO : Host W} {SE : SupportEnv W}.

(** The support layer connects all of it, or fails. *)
Definition connect (af cf : string) : M W Chain :=
  s ← DefaultSupport af cf;
  mret (mkChain true (Some (PubkeyToAddress (Prv s))) true true {["FlareTeeManager" := FlareTeeManager s]}).

Definition needs_chain (step : string) : bool :=
  String.eqb step "deploy" || String.eqb step "register" || String.eqb step "all".

Definition chain_step_checks (step : string) (chain : Chain) (configPath : string) : M (Report * W) unit :=
  let deploy := RegisterDeployChecks (ch_client chain) (ch_key chain) (ch_addresses chain) configPath in
  let register := RegisterRegistrationChecks (ch_client chain) (ch_key chain) (ch_registry chain)
                    (ch_allowlist chain) configPath in
  if String.eqb step "deploy" then deploy
  else if String.eqb step "register" then register
  else
    deploy ;; register ;; RegisterServicesChecks configPath ;; RegisterTeeVersionChecks configPath ;;
    RegisterTeeMachineChecks configPath ;; RegisterTestChecks configPath.

(** The switch over the step: an error ends the command before it prints. *)
Definition run_step (af cf step configPath : string) : M (Report * W) unit :=
  if needs_chain step then
    chain ← zoom_snd (connect af cf);
    chain_step_checks step chain configPath
  else if String.eqb step "services" then RegisterServicesChecks configPath
  else if String.eqb step "tee-version" then RegisterTeeVersionChecks configPath
  else if String.eqb step "tee-machine" then RegisterTeeMachineChecks configPath
  else if String.eqb step "test" then RegisterTestChecks configPath
  else lift (Err (Plain ("Unknown step: " +:+ quote step))).

(** The exit status of the command, and what it prints on its standard
    output. *)
Definition verify_deploy (af cf step configPath checksFilter : string) (json : bool) : M W (Z * string) := fun w =>
  match run_step af cf step configPath ([], w) with
  | (Ok _, (r, w')) =>
    let r := filter_results checksFilter r in
    (Ok (if HasFailures r then 1 else 0, if json then FprintJSON r else Fprint r), w')
  | (Err e, (_, w')) => (Ok (1, ""), w')
  | (Panic p, (_, w')) => (Panic p, w')
  end.
End VerifyDeploy.

(** ** No check fails: what goes wrong is a result of the report *)

Definition never_errs {S A} (m : M S A) : Prop := forall x e x', m x <> (Err e, x').

Section never.
Context {W : Type}.

Lemma never_ret {S A} (a : A) : never_errs (S := S) (mret a).
Proof. by intros x e x' [= ]. Qed.
Lemma never_panic {S A} p : never_errs (S := S) (A := A) (lift (Panic p)).
Proof. by intros x e x' [= ]. Qed.
Lemma never_bind {S A B} (m : M S A) (k : A -> M S B) : never_errs m -> (forall a, never_errs (k a)) -> never_errs (m ≫= k).
Proof.
  intros Hm Hk x e x'. unfold mbind, M_bind. destruct (m x) as [[a|er|p] x1] eqn:E; [apply Hk| |done].
  by apply Hm in E.
Qed.
Lemma never_on_error {S A B} (m : M S A) (h : error -> M S B) (k : A -> M S B) :
  (forall er, never_errs (h er)) -> (forall a, never_errs (k a)) -> never_errs (on_error m h k).
Proof. intros Hh Hk x e x'. unfold on_error. destruct (m x) as [[a|er|p] x1]; [apply Hk|apply Hh|done]. Qed.
Lemma never_zoom {S A} (m : M W A) : never_errs m -> never_errs (zoom_snd (S := S) m).
Proof. intros Hm [s w] e x'. unfold zoom_snd. destruct (m w) as [[a|er|p] w1] eqn:E; [done| |done]. by apply Hm in E. Qed.
Lemma never_total {A} (m : W -> A * W) : never_errs (total m).
Proof. intros w e x'. unfold total. by destruct (m w). Qed.
Lemma never_Add c : never_errs (Add (W := W) c).
Proof. by intros [r w] e x' [= ]. Qed.
Lemma never_add_all l : never_errs (add_all (W := W) l).
Proof. induction l; [apply never_ret|]. apply never_bind; [apply never_Add|done]. Qed.
Lemma never_reachable {HO : Host W} url : never_errs (proxy_reachable (W := W) url).
Proof. intros w e x'. unfold proxy_reachable. by destruct (HttpGet _ _ w) as [[]]. Qed.
End never.

Ltac never :=
  cbv zeta;
  repeat first
    [ assumption | progress cbv zeta | apply never_Add | apply never_ret | apply never_panic | apply never_total | apply never_add_all
    | apply never_reachable | apply never_zoom | apply never_bind; [|intros ?] | apply never_on_error; intros ?
    | match goal with
      | |- never_errs (if ?b then _ else _) => destruct b
      | |- never_errs (match ?x with _ => _ end) => destruct x
      end ].

Section never_checks.
Context {GE : GoEthereum} {W : Type} {EC : EthClient W} {HO : Host W}.

Lemma never_parse path : never_errs (parseExtensionEnv (W := W) path).
Proof. unfold parseExtensionEnv, Open. never. Qed.
Lemma never_matching k i a : never_errs (matching_ids (W := W) k i a).
Proof. revert i. induction k as [|k IH]; intros i; simpl; never; apply IH. Qed.
Lemma never_check_zero l z : never_errs (check_zero (W := W) l z).
Proof. revert z. induction l as [|[label a] l IH]; intros z; simpl; never; apply IH. Qed.
Lemma never_check_code c l z : never_errs (check_code (W := W) c l z).
Proof.
  induction l as [|[label a] l IH]; simpl; [never|]. case_decide; [done|]. never.
Qed.
Lemma never_deploy c k ads path : never_errs (RegisterDeployChecks (W := W) c k ads path).
Proof.
  unfold RegisterDeployChecks, check_funds, CheckDeployerKeySource, checkChainID, CheckExtensionEnvFormat, map_range, Getenv, Open.
  never; auto using never_check_zero, never_check_code.
Qed.
Lemma never_registration c k r al path : never_errs (RegisterRegistrationChecks (W := W) c k r al path).
Proof.
  unfold RegisterRegistrationChecks, check_counter, check_sender, check_owner, check_key_type, check_unique_sender, reg.
  never; auto using never_matching.
Qed.
Lemma never_check_reachable step id name var a b c d : never_errs (check_reachable (W := W) step id name var a b c d).
Proof. unfold check_reachable, env, Getenv. never. Qed.
Lemma never_services path : never_errs (RegisterServicesChecks (W := W) path).
Proof.
  unfold RegisterServicesChecks, check_extension_id, check_port_free, check_ports, check_proxy_key, svc, env, Getenv, DialTimeout.
  never; auto using never_check_reachable, never_parse.
Qed.
Lemma never_version path : never_errs (RegisterTeeVersionChecks (W := W) path).
Proof.
  unfold RegisterTeeVersionChecks, check_owner_key, check_version_id, ver, env, Getenv, IsNotExist.
  never; auto using never_check_reachable, never_parse.
Qed.
Lemma never_machine path : never_errs (RegisterTeeMachineChecks (W := W) path).
Proof. unfold RegisterTeeMachineChecks, check_simulated, env, Getenv. never; auto using never_check_reachable. Qed.
Lemma never_test path : never_errs (RegisterTestChecks (W := W) path).
Proof.
  unfold RegisterTestChecks, check_test_sender, IsNotExist. never; auto using never_check_reachable, never_parse.
Qed.

Lemma never_chain_step step chain path : never_errs (chain_step_checks (W := W) step chain path).
Proof.
  unfold chain_step_checks. repeat case_match; auto using never_deploy, never_registration.
  apply never_bind; [apply never_deploy|intros _]. apply never_bind; [apply never_registration|intros _].
  apply never_bind; [apply never_services|intros _]. apply never_bind; [apply never_version|intros _].
  apply never_bind; [apply never_machine|intros _]. apply never_test.
Qed.
End never_checks.

(** ** The printed report *)

(** Its texts, from the statuses and the counts alone. *)
Definition sgr (code : string) : string := String "027" ("[" +:+ code +:+ "m").
Definition mark (s : Status) : string :=
  match s with
  | PASS => sgr "32" +:+ "[PASS]" | WARN => sgr "33" +:+ "[WARN]" | FAIL => sgr "31" +:+ "[FAIL]" | SKIP => sgr "90" +:+ "[SKIP]"
  end.
Definition detail_line (prefix text : string) : string := if String.eqb text "" then "" else "         " +:+ prefix +:+ text +:+ nl.

Definition result_text (c : CheckResult) : string :=
  "  " +:+ mark (cr_Status c) +:+ sgr "0" +:+ " " +:+ cr_ID c +:+ "  " +:+ Name c +:+ nl +:+
  match cr_Status c with
  | FAIL | WARN => detail_line "" (Message c) +:+ detail_line "Fix: " (Fix c)
  | _ => ""
  end.

Definition step_title (step : string) : string :=
  if String.eqb step "deploy" then "Contract Deployment" else if String.eqb step "register" then "Extension Registration"
  else if String.eqb step "services" then "Service Startup" else if String.eqb step "tee-version" then "TEE Version Registration"
  else if String.eqb step "tee-machine" then "TEE Machine Registration" else if String.eqb step "test" then "Testing" else step.

Definition section_text (kept : Report) (step : string) : string :=
  step_title step +:+ ":" +:+ nl +:+ foldr String.append "" (result_text <$> filter (fun c => Step c = step) kept) +:+ nl.

Definition with_status (s : Status) (kept : Report) : Z := llen (filter (fun c => cr_Status c = s) kept).

Definition summary_text (kept : Report) : string :=
  pretty (with_status PASS kept) +:+ " passed, " +:+ pretty (with_status WARN kept) +:+ " warning, " +:+
  pretty (with_status FAIL kept) +:+ " failed, " +:+ pretty (with_status SKIP kept) +:+ " skipped".

(** Every result is printed once, in the section of its step, and the summary
    counts them by status. *)
Definition prints_each_once (kept : Report) (out : string) : Prop :=
  exists steps, NoDup steps /\ (forall s, s ∈ steps <-> exists c, c ∈ kept /\ Step c = s) /\
    steps ≫= (fun s => filter (fun c => Step c = s) kept) ≡ₚ kept /\
    out = nl +:+ sgr "36" +:+ "=== Deployment Verification Report ===" +:+ sgr "0" +:+ nl +:+ nl +:+
      foldr String.append "" (section_text kept <$> steps) +:+ summary_text kept +:+ nl.

Lemma label_title step : label_of step = step_title step.
Proof.
  unfold label_of, step_title, stepLabel. cbn [list_to_map foldr curry uncurry fst snd].
  repeat match goal with |- context [String.eqb step ?k] => destruct (String.eqb_spec step k) as [->|]; [done|] end.
  by rewrite !lookup_insert_ne, lookup_empty by congruence.
Qed.

Lemma print_result_text c : print_result c = result_text c.
Proof.
  unfold print_result, result_text, detail_line. destruct (cr_Status c); try done;
    destruct (String.eqb (Message c) ""), (String.eqb (Fix c) ""); done.
Qed.

Lemma print_step_text r step : print_step r step = section_text r step.
Proof.
  unfold print_step, section_text, concat_strings, step_results. rewrite label_title.
  rewrite (list_fmap_ext print_result result_text); [done|]. intros ? c _. apply print_result_text.
Qed.

Lemma Summary_text r : Summary r = summary_text r.
Proof. unfold Summary, Summary_tally. rewrite Summary_tally_from. done. Qed.

Lemma Fprint_each_once r : prints_each_once r (Fprint r).
Proof.
  exists (unique_steps ∅ r). destruct (unique_steps_spec ∅ r) as [Hn Hs]. split_and!; [done| |apply printed_perm|].
  - intros s. rewrite Hs. split; [by intros [_ ?]|split; [set_solver|done]].
  - unfold Fprint, concat_strings. rewrite Summary_text, (list_fmap_ext (print_step r) (section_text r)); [done|].
    intros ? s _. apply print_step_text.
Qed.

Lemma with_status_sum kept :
  with_status PASS kept + with_status WARN kept + with_status FAIL kept + with_status SKIP kept = llen kept.
Proof. apply of_status_sum. Qed.

(** ** The filter and the exit *)

Lemma HasFailures_filter f r :
  HasFailures (filter_results f r) = true <->
  exists c, c ∈ r /\ cr_Status c = FAIL /\ (f = "" \/ cr_ID c ∈ allowed_ids f).
Proof.
  rewrite HasFailures_iff. unfold filter_results. destruct (String.eqb_spec f "") as [->|Hf].
  - naive_solver.
  - setoid_rewrite list_elem_of_filter. naive_solver.
Qed.

Lemma allowed_ids_spec f id :
  id ∈ allowed_ids f <-> id <> "" /\ exists part, part ∈ Split f "," /\ TrimSpace part = id.
Proof.
  unfold allowed_ids. rewrite elem_of_list_to_set, list_elem_of_filter, list_elem_of_fmap. naive_solver.
Qed.

Section exit.
Context {GE : GoEthereum} {TL : TeeLib} {W : Type} {EC : EthClient W} {HO : Host W} {SE : SupportEnv W}.

Definition known_steps : list string := ["deploy"; "register"; "all"; "services"; "tee-version"; "tee-machine"; "test"].

(** The only errors of the switch. *)
Lemma run_step_err af cf step path (w : W) :
  is_Err (fst (run_step af cf step path ([], w))) = true <->
  step ∉ known_steps \/ step ∈ ["deploy"; "register"; "all"] /\ is_Err (fst (DefaultSupport af cf w)) = true.
Proof.
  unfold run_step, known_steps. destruct (needs_chain step) eqn:Hn.
  - assert (step ∈ ["deploy"; "register"; "all"]) as Hs.
    { unfold needs_chain in Hn. rewrite !orb_true_iff, !String.eqb_eq in Hn. set_solver. }
    unfold mbind, M_bind, zoom_snd, connect.
    transitivity (is_Err (fst (DefaultSupport af cf w)) = true); [|split; [by right|]; intros [Hk|[_ H]]; [set_solver|done]].
    unfold mbind, M_bind. destruct (DefaultSupport af cf w) as [[s|e|p] w1]; [|done..]. unfold mret, M_ret. simpl.
    split; [|done]. destruct (chain_step_checks _ _ _ _) as [[u|e|p] x'] eqn:E; [done| |done]. by apply never_chain_step in E.
  - assert (step ∉ ["deploy"; "register"; "all"]) as Hs.
    { unfold needs_chain in Hn. rewrite !orb_false_iff, !String.eqb_neq in Hn. set_solver. }
    assert (forall m : M (Report * W) unit, never_errs m -> is_Err (fst (m ([], w))) = true <-> False) as Hnever.
    { intros m Hm. split; [|done]. destruct (m _) as [[u|e|p] x'] eqn:E; [done| |done]. by apply Hm in E. }
    destruct (String.eqb_spec step "services") as [->|]; [rewrite Hnever by apply never_services; set_solver|].
    destruct (String.eqb_spec step "tee-version") as [->|]; [rewrite Hnever by apply never_version; set_solver|].
    destruct (String.eqb_spec step "tee-machine") as [->|]; [rewrite Hnever by apply never_machine; set_solver|].
    destruct (String.eqb_spec step "test") as [->|]; [rewrite Hnever by apply never_test; set_solver|].
    split; [|done]. intros _. left. set_solver.
Qed.
End exit.

(** ** Properties *)

(** C25. verify-deploy exits with 0 or 1, and with 1 exactly when the step is
    unknown, the chain that a step needs cannot be connected, or one of the
    results that the --checks list keeps failed: a failed check that the list
    hides does not fail the command. It prints nothing in the first two cases;
    else the terminal form is the title, a section for each step with a result
    and in it a line for each of its kept results, with its status, ID and
    name and, for a failure or a warning, its message and its fix, and a
    summary with the numbers of the kept results of each status, which add up
    to them. *)
Theorem verify_deploy_exit {GE : GoEthereum} {TL : TeeLib} {W} {EC : EthClient W} {HO : Host W} {SE : SupportEnv W}
    af cf step configPath checks json (w w' : W) code out :
  verify_deploy af cf step configPath checks json w = (Ok (code, out), w') ->
  (code = 0 \/ code = 1) /\
  exists res r, run_step af cf step configPath ([], w) = (res, (r, w')) /\
    let unknown := step ∉ ["deploy"; "register"; "all"; "services"; "tee-version"; "tee-machine"; "test"] in
    let disconnected := step ∈ ["deploy"; "register"; "all"] /\ is_Err (fst (DefaultSupport af cf w)) = true in
    (code = 1 <-> unknown \/ disconnected \/
       exists c, c ∈ r /\ cr_Status c = FAIL /\
         (checks = "" \/ cr_ID c <> "" /\ exists part, part ∈ Split checks "," /\ TrimSpace part = cr_ID c)) /\
    (unknown \/ disconnected -> out = "") /\
    (~ (unknown \/ disconnected) -> exists kept,
       (forall c, c ∈ kept <-> c ∈ r /\
          (checks = "" \/ cr_ID c <> "" /\ exists part, part ∈ Split checks "," /\ TrimSpace part = cr_ID c)) /\
       kept `sublist_of` r /\ (code = 1 <-> 0 < with_status FAIL kept) /\
       with_status PASS kept + with_status WARN kept + with_status FAIL kept + with_status SKIP kept = llen kept /\
       (json = false -> prints_each_once kept out)).
Proof.
  intros H. pose proof (run_step_err af cf step configPath w) as Herr. unfold known_steps in Herr. unfold verify_deploy in H.
  destruct (run_step _ _ _ _ _) as [[u|e|p] [r w1]] eqn:Hr; simplify_eq; cbn [fst is_Err] in Herr.
  - split; [destruct (HasFailures _); tauto|]. exists (Ok u), r. split; [done|]. cbv zeta.
    assert (Hc : (if HasFailures (filter_results checks r) then 1 else 0) = 1 <-> HasFailures (filter_results checks r) = true)
      by by destruct (HasFailures _).
    split; [|split; [intros H; discriminate (proj2 Herr H)|intros _; exists (filter_results checks r); split_and!]].
    + rewrite Hc, HasFailures_filter. setoid_rewrite allowed_ids_spec. split; [tauto|]. intros [Hu|[Hd|?]]; [| |done].
      * discriminate (proj2 Herr (or_introl Hu)).
      * discriminate (proj2 Herr (or_intror Hd)).
    + intros c. rewrite <- (allowed_ids_spec checks (cr_ID c)). unfold filter_results.
      destruct (String.eqb_spec checks "") as [->|]; [naive_solver|]. rewrite list_elem_of_filter. naive_solver.
    + unfold filter_results. destruct (String.eqb checks ""); [done|]. apply sublist_filter.
    + rewrite Hc, HasFailures_iff. symmetry. apply of_status_pos.
    + apply with_status_sum.
    + intros ->. apply Fprint_each_once.
  - split; [tauto|]. exists (Err e), r. split; [done|]. cbv zeta.
    destruct Herr as [Herr _]. specialize (Herr eq_refl). split; [tauto|]. split; [done|tauto].
Qed.

(** On the devnet of [CommandSpecs], whose sender is that of no extension.env:
    the funds are there, and the file that the checks look for is not. *)
Definition w_verify (step checks : string) : result (Z * string) * Z :=
  verify_deploy (GE := ref_geth) (EC := dev_eth) "addresses.json" "http://node" step "extension.env" checks false 0.
Definition w_verify_out (step checks : string) : string := match fst (w_verify step checks) with Ok (_, s) => s | _ => "" end.

Example w_verify_all : match fst (w_verify "all" "") with Ok (code, _) => code | _ => 2 end = 1.
Proof. vm_compute. reflexivity. Qed.
Example w_verify_deploy_step : w_verify_out "deploy" "D5,D7" =
  nl +:+ sgr "36" +:+ "=== Deployment Verification Report ===" +:+ sgr "0" +:+ nl +:+ nl +:+ "Contract Deployment:" +:+ nl +:+
  "  " +:+ sgr "32" +:+ "[PASS]" +:+ sgr "0" +:+ " D5  deployer key source" +:+ nl +:+
  "  " +:+ sgr "32" +:+ "[PASS]" +:+ sgr "0" +:+ " D5  deployer has sufficient funds" +:+ nl +:+
  "  " +:+ sgr "90" +:+ "[SKIP]" +:+ sgr "0" +:+ " D7  extension.env exists" +:+ nl +:+ nl +:+
  "2 passed, 0 warning, 0 failed, 1 skipped" +:+ nl.
Proof. vm_compute. reflexivity. Qed.

Theorem verify_deploy_exit_witness :
  let out := w_verify_out "all" "D5,R1-R7" in
  (0 = 0 \/ 0 = 1) /\
  exists res r, run_step (GE := ref_geth) (EC := dev_eth) "addresses.json" "http://node" "all" "extension.env" ([], 0) = (res, (r, 0)) /\
    let unknown := "all" ∉ ["deploy"; "register"; "all"; "services"; "tee-version"; "tee-machine"; "test"] in
    let disconnected := "all" ∈ ["deploy"; "register"; "all"] /\
      is_Err (fst (DefaultSupport (GE := ref_geth) (W := Z) "addresses.json" "http://node" 0)) = true in
    (0 = 1 <-> unknown \/ disconnected \/
       exists c, c ∈ r /\ cr_Status c = FAIL /\
         ("D5,R1-R7" = "" \/ cr_ID c <> "" /\ exists part, part ∈ Split "D5,R1-R7" "," /\ TrimSpace part = cr_ID c)) /\
    (unknown \/ disconnected -> out = "") /\
    (~ (unknown \/ disconnected) -> exists kept,
       (forall c, c ∈ kept <-> c ∈ r /\
          ("D5,R1-R7" = "" \/ cr_ID c <> "" /\ exists part, part ∈ Split "D5,R1-R7" "," /\ TrimSpace part = cr_ID c)) /\
       kept `sublist_of` r /\ (0 = 1 <-> 0 < with_status FAIL kept) /\
       with_status PASS kept + with_status WARN kept + with_status FAIL kept + with_status SKIP kept = llen kept /\
       (false = false -> prints_each_once kept out)).
Proof.
  apply (verify_deploy_exit (GE := ref_geth) (EC := dev_eth) "addresses.json" "http://node" "all" "extension.env" "D5,R1-R7" false
           0 0 0 (w_verify_out "all" "D5,R1-R7")).
  vm_compute. reflexivity.
Defined.
