(* ===== verification/LocalNode.v ===== *)
(** * The processes of a node (go/cmd/docker, go/cmd/start-tee, go/pkg/server,
    tools/cmd/start-proxy)

    What the entry points compute before they wait: paths, environment, ports
    and the extension; and the process itself, in which the goroutine of the
    server, the signals and the main function interleave. *)

From S2P Require Import Prelude GoStd Config GoEth Bundle NetStd Ciphertext Encoding HttpMux Canonical WireTypes Verifier Extension Report Checks Revert TeeCalls Registration Instructions.

(** ** path/filepath, on slash-separated paths *)

Definition filepath_Dir (path : string) : string :=
  match LastIndexByte path "/" with
  | Some i => filepath_Clean (String.substring 0 (S i) path)
  | None => "."
  end.

Fixpoint filepath_Join (elems : list string) : string :=
  match elems with
  | [] => ""
  | e :: rest => if String.eqb e "" then filepath_Join rest else filepath_Clean (Join elems "/")
  end.

(** ** The environment of a local process *)

(** [initProxy_Init] is the start of the proxy; [proxyConfig_Read] gives the
    external port of its configuration. *)
Class LocalHost (W : Type) := {
  os_Setenv : string -> string -> W -> W;
  godotenv_Load_file : string -> W -> option error * W;
  os_Stat : string -> W -> bool * W;
  proxyConfig_Read : string -> M W string;
  initProxy_Init : string -> M W unit;
}.

Section LocalNode.
Context {GE : GoEthereum} {TL : TeeLib} {W : Type} {HO : Host W} {SE : SupportEnv W} {LH : LocalHost W} {TH : TeeHttp W}
  {NS : NodeSetup W}.

Definition Setenv (k v : string) : M W unit := total (fun w => (tt, os_Setenv k v w)).

(** Both [loadEnv]: a file, else the one of the working directory. *)
Definition load_env (rootEnv : string) : M W unit :=
  e ← total (godotenv_Load_file rootEnv);
  match e with
  | None => mret tt
  | Some _ => _e ← total godotenv_Load; mret tt
  end.

(** ** start-tee: [thisFile] is the path that [runtime.Caller] reports *)

Definition start_tee_env_path (thisFile : string) : string :=
  filepath_Join [filepath_Dir thisFile; ".."; ".."; ".env"].

Definition setProxyURL (configurationPort proxyPort : Z) : M W unit :=
  body ← lift (Marshal_ConfigureProxyURLRequest (W := W) ("http://localhost:" +:+ pretty proxyPort));
  status ← http_Post ("http://localhost:" +:+ pretty configurationPort +:+ "/proxy") "application/json" body;
  if status =? StatusOK then mret tt else lift (Err (Plain ("unexpected status code: " +:+ pretty status))).

(** The key of the deployment, as [setOwnerAddress] derives it. *)
Definition start_tee_key : M W bytes :=
  privKeyString ← Getenv "DEPLOYMENT_PRIVATE_KEY";
  if String.eqb privKeyString "" then
    lift (match crypto_HexToECDSA (W := W) hardhat_key with Ok k => Ok k | _ => Panic "cannot parse default private key" end)
  else on_err "Error: " (lift (crypto_HexToECDSA (W := W) (strip_0x privKeyString))).

Definition setOwnerAddress : M W bytes :=
  owner ← Getenv "INITIAL_OWNER";
  (if String.eqb owner "" then
     privKey ← start_tee_key; Setenv "INITIAL_OWNER" (Address_Hex (PubkeyToAddress privKey))
   else mret tt) ;;
  mret (HexToAddress owner).

(** ** start-proxy *)

Definition projectRoot (thisFile : string) : string := filepath_Join [filepath_Dir thisFile; ".."; ".."; ".."].

Definition findProxyConfig (thisFile : string) : M W string :=
  envConfig ← Getenv "PROXY_CONFIG";
  if nonempty envConfig then mret envConfig else
  let candidate := filepath_Join [projectRoot thisFile; "config"; "proxy"; "extension_proxy.toml"] in
  found ← total (os_Stat candidate);
  mret (if found : bool then candidate else "./config/proxy/extension_proxy.toml").

Definition logProxyAndTeeIds (configFile : string) : M W unit :=
  port <?- proxyConfig_Read configFile
    onerr err => lift (Err (Wrap "failed to read proxy config: " err ""));
  _ids <?- GetTeeProxyID ("http://localhost:" +:+ port)
    onerr err => lift (Err (Wrap "failed to extract teeID and proxyID: " err ""));
  mret tt.

(** The command up to its wait: an error of the last step is a warning. *)
Definition start_proxy (thisFile : string) : M W unit :=
  load_env (filepath_Join [projectRoot thisFile; ".env"]) ;;
  proxyConfigFile ← findProxyConfig thisFile;
  initProxy_Init proxyConfigFile ;;
  _r ← attempt (logProxyAndTeeIds proxyConfigFile);
  mret tt.

(** ** The start of a node *)

Definition ExtConfigurationPort : Z := 5501.
Definition ExtProxyInternalPort : Z := 6663.
Definition ExtensionServerPort : Z := 7701.
Definition ExtensionPort : Z := 7702.

(** [config.init], which runs before [main]. *)
Definition init_config : M W Config.vars := fun w => (Ok (Config.init (fun k => fst (os_Getenv k w))), w).

Definition intEnv (key : string) (fallback : Z) : M W Z :=
  raw ← Getenv key; mret (match Atoi raw with Some v => v | None => fallback end).

(** The ports of the node (configuration, signing, extension) and the
    extension. *)
Record started := mkStarted { st_Ports : Z * Z * Z; st_Extension : Extension }.

Context {JC : JsonCodec} {EC : EthClient W} {ES : Escrow W} {NW : Network W}.

(** [StartExtension] up to its goroutine. *)
Definition StartExtension (config : Config.vars) (extensionPort signPort : Z) : M W Extension :=
  e ← New config extensionPort signPort; mret (fst e).

Definition docker_start : M W started :=
  config ← init_config;
  configPort ← intEnv "CONFIG_PORT" 5501;
  let signPort := Config.SignPort config in
  let extensionPort := Config.ExtensionPort config in
  e ← StartExtension config extensionPort signPort;
  mret (mkStarted (configPort, signPort, extensionPort) e).

Definition start_tee_start (thisFile extensionID : string) : M W started :=
  config ← init_config;
  load_env (start_tee_env_path thisFile) ;;
  _owner ← setOwnerAddress;
  (if nonempty extensionID then Setenv "EXTENSION_ID" extensionID else mret tt) ;;
  e ← StartExtension config ExtensionPort ExtensionServerPort;
  mret (mkStarted (ExtConfigurationPort, ExtensionServerPort, ExtensionPort) e).
End LocalNode.
