(* ===== verification/LocalNodeSpecs.v ===== *)
(** * Correctness of the local start

    The paths of the entry points, and the owner that a local node announces
    against the signer that the governance command defaults to. *)

From S2P Require Import Prelude GoStd GoEth Bundle HttpMux Checks Revert TeeCalls Registration Instructions Commands CommandSpecs LocalNode Reference RegistrationSpecs.

(** ** Paths: in a checkout under /src, start-tee loads the .env file of the
    module, start-proxy that of the project *)

Example start_tee_loads : start_tee_env_path "/src/go/cmd/start-tee/main.go" = "/src/go/.env".
Proof. vm_compute. reflexivity. Qed.
Example start_proxy_root : projectRoot "/src/tools/cmd/start-proxy/main.go" = "/src".
Proof. vm_compute. reflexivity. Qed.

(** ** The owner *)

(** The environment of a process is a store of texts, and an address is read
    back from its text. *)
Class EnvLaws {W} {HO : Host W} {LH : LocalHost W} := {
  getenv_pure k w : snd (os_Getenv k w) = w;
  getenv_set k v w : fst (os_Getenv k (os_Setenv k v w)) = v;
  getenv_set_ne k k' v w : k <> k' -> fst (os_Getenv k' (os_Setenv k v w)) = fst (os_Getenv k' w);
}.
Class AddressLaws {GE : GoEthereum} {TL : TeeLib} := {
  address_length k : length (PubkeyToAddress k) = 20%nat;
  address_text a : length a = 20%nat ->
    Address_Hex a <> "" /\ TrimSpace (Address_Hex a) = Address_Hex a /\ HexToAddress (Address_Hex a) = a;
}.

Section owner.
Context {GE : GoEthereum} {TL : TeeLib} {W : Type} {HO : Host W} {SE : SupportEnv W} {LH : LocalHost W} {EL : EnvLaws}
  {AL : AddressLaws}.
Implicit Types (w : W).

Definition getenv (k : string) w : string := fst (os_Getenv k w).

Lemma Getenv_eq k w : Getenv k w = (Ok (getenv k w), w).
Proof. unfold Getenv, total, getenv. pose proof (getenv_pure k w). by destruct (os_Getenv k w) as [v w']; simpl in *; subst. Qed.

Lemma bind_Getenv {A} k (f : string -> M W A) w : (v ← Getenv k; f v) w = f (getenv k w) w.
Proof. unfold mbind, M_bind. by rewrite Getenv_eq. Qed.

(** Both derivations of the deployment's key give the same key. *)
Lemma start_tee_key_eq k w : deployment_key w = (Ok k, w) -> start_tee_key w = (Ok k, w).
Proof.
  unfold deployment_key, start_tee_key. rewrite !bind_Getenv. destruct (String.eqb _ ""); unfold PrvWithFunds, lift, on_err, on_error.
  - by destruct (crypto_HexToECDSA hardhat_key).
  - by destruct (crypto_HexToECDSA _).
Qed.

Lemma default_signer_eq key w :
  default_signer key w = (Ok (let io := TrimSpace (getenv "INITIAL_OWNER" w) in
                              if nonempty io then HexToAddress io else PubkeyToAddress key), w).
Proof. unfold default_signer. by rewrite bind_Getenv. Qed.

Lemma governance_key_eq s w : getenv "EXTENSION_OWNER_KEY" w = "" -> governance_key s w = (Ok (Prv s), w).
Proof. intros H. unfold governance_key. by rewrite bind_Getenv, H. Qed.

Lemma setOwnerAddress_unset k w :
  getenv "INITIAL_OWNER" w = "" -> deployment_key w = (Ok k, w) ->
  setOwnerAddress w = (Ok (HexToAddress ""), os_Setenv "INITIAL_OWNER" (Address_Hex (PubkeyToAddress k)) w).
Proof.
  intros Ho Hk%start_tee_key_eq. unfold setOwnerAddress. rewrite bind_Getenv, Ho. simpl. unfold mbind, M_bind. by rewrite Hk.
Qed.

Lemma setOwnerAddress_set w :
  getenv "INITIAL_OWNER" w <> "" -> setOwnerAddress w = (Ok (HexToAddress (getenv "INITIAL_OWNER" w)), w).
Proof. intros Ho%String.eqb_neq. unfold setOwnerAddress. rewrite bind_Getenv, Ho. done. Qed.
End owner.

(** ** Properties *)

(** C24. The owner of a local node and the default signer of its governance.
    When INITIAL_OWNER is not set, [setOwnerAddress] exports the address of the
    deployment's key and changes no other variable, but returns the address of
    the empty text. In that environment the governance command, which starts
    from the same variables, defaults to the address of its own key: the two
    agree exactly when that key has the address of the deployment's, as it does
    when EXTENSION_OWNER_KEY is not set; and they agree for every key once the
    command sees the exported variable. When INITIAL_OWNER is set, nothing is
    exported, and the command takes the same text for every key. *)
Theorem local_owner_default {GE : GoEthereum} {TL : TeeLib} {W : Type} {HO : Host W} {SE : SupportEnv W} {LH : LocalHost W}
    {EL : EnvLaws} {AL : AddressLaws} s (w : W) :
  deployment_key w = (Ok (Prv s), w) ->
  let owner := PubkeyToAddress (Prv s) in
  (getenv "INITIAL_OWNER" w = "" -> exists w1,
     setOwnerAddress w = (Ok (HexToAddress ""), w1) /\
     getenv "INITIAL_OWNER" w1 = Address_Hex owner /\
     (forall k, k <> "INITIAL_OWNER" -> getenv k w1 = getenv k w) /\
     (forall key, fst (default_signer key w) = Ok owner <-> PubkeyToAddress key = owner) /\
     (forall key, fst (default_signer key w1) = Ok owner) /\
     (getenv "EXTENSION_OWNER_KEY" w = "" -> exists key, governance_key s w = (Ok key, w) /\ PubkeyToAddress key = owner)) /\
  (getenv "INITIAL_OWNER" w <> "" ->
     setOwnerAddress w = (Ok (HexToAddress (getenv "INITIAL_OWNER" w)), w) /\
     forall key key', TrimSpace (getenv "INITIAL_OWNER" w) <> "" -> default_signer key w = default_signer key' w).
Proof.
  intros Hk owner. destruct (address_text owner (address_length _)) as (Hne & Htrim & Hback). split.
  - intros Ho. exists (os_Setenv "INITIAL_OWNER" (Address_Hex owner) w). split; [by apply setOwnerAddress_unset|].
    split; [apply getenv_set|]. split; [intros k Hkne; by apply getenv_set_ne|]. split_and!.
    + intros key. rewrite default_signer_eq, Ho. simpl. split; [by intros [= ->]|by intros ->].
    + intros key. rewrite default_signer_eq. unfold getenv. rewrite getenv_set, Htrim. simpl.
      apply nonempty_true in Hne as ->. by rewrite Hback.
    + intros He. exists (Prv s). by rewrite governance_key_eq.
  - intros Ho. split; [by apply setOwnerAddress_set|]. intros key key' Ht. rewrite !default_signer_eq. simpl.
    by apply nonempty_true in Ht as ->.
Qed.

(** ** A concrete environment, for witnesses *)

Abbreviation env_store := (gmap string string).

#[export] Instance store_host : Host env_store := {|
  os_Getenv k w := (default "" (w !! k), w);
  os_Open _ w := (None, w);
  os_IsNotExist _ w := (true, w);
  net_DialTimeout _ _ w := (false, w);
  range_map m w := (map_to_list m, w);
  HttpGet _ _ := fun w => (Ok 200, w);
  BalanceAt _ _ _ := fun w => (Ok (Some 0), w);
  ChainID _ := fun w => (Ok (Some 31337), w);
  NextPublicExtensionId := fun w => (Ok (Some 1), w);
  GetTeeExtensionInstructionsSender _ := fun w => (Ok zero_address, w);
  IsAllowedTeeMachineOwner _ _ := fun w => (Ok true, w);
  IsKeyTypeSupported _ _ := fun w => (Ok true, w);
  EVMType := [];
|}.
#[export] Instance store_support : SupportEnv env_store := {|
  crypto_HexToECDSA s := match hex_decode s with Some k => Ok k | None => Err (Plain "invalid hex data for private key") end;
  godotenv_Load w := (None, w);
  os_ReadFile _ := fun w => (Ok [], w);
  Unmarshal_Addresses _ := Err (Plain "unexpected end of JSON input");
  Unmarshal_RawContracts _ := Err (Plain "unexpected end of JSON input");
  ethclient_Connect _ := fun w => (Ok tt, w);
  bind_contract _ _ := Ok tt;
|}.
#[export] Instance store_local : LocalHost env_store := {|
  os_Setenv k v w := <[k := v]> w;
  godotenv_Load_file _ w := (None, w);
  os_Stat _ w := (true, w);
  proxyConfig_Read _ := fun w => (Ok "6664", w);
  initProxy_Init _ := fun w => (Ok tt, w);
|}.

#[export] Instance store_laws : EnvLaws (W := env_store).
Proof. split; intros; simpl; [done|by rewrite lookup_insert_eq|by rewrite lookup_insert_ne]. Qed.

Lemma hex_not_space a : is_hex a = true -> is_space a = false.
Proof. by destruct a as [[] [] [] [] [] [] [] []]. Qed.

Lemma trim_right_hex s : all_chars is_hex s = true -> trim_right s = s.
Proof.
  induction s as [|a s IH]; [done|]. simpl. intros [Ha Hs]%andb_true_iff. rewrite (IH Hs). destruct s; [|done].
  by rewrite hex_not_space.
Qed.

#[export] Instance ref_address_laws : AddressLaws (GE := ref_geth) (TL := ref_teelib).
Proof.
  split.
  - intros k. apply length_copy_to.
  - intros a Ha. cbn [Address_Hex HexToAddress ref_geth]. split_and!; [done| |].
    + change (TrimSpace ("0x" +:+ hex_encode a)) with (trim_right (String "0" (String "x" (hex_encode a)))). cbn [trim_right].
      rewrite (trim_right_hex _ (hex_encode_all_hex a)). by destruct (hex_encode a).
    + unfold ref_HexToAddress. rewrite TrimPrefix_app, hex_decode_encode, <- Ha. apply be_bytes_value.
Qed.

(** Two keys: the deployment's, and another owner's. *)
Definition w_keys : env_store := <["DEPLOYMENT_PRIVATE_KEY" := "0x11"]> (<["EXTENSION_OWNER_KEY" := "22"]> ∅).
Definition w_deployer : Support := mkSupport [Byte.x11] zero_address.

Theorem local_owner_default_witness :
  let owner := PubkeyToAddress (Prv w_deployer) in
  (getenv "INITIAL_OWNER" w_keys = "" -> exists w1,
     setOwnerAddress (GE := ref_geth) w_keys = (Ok (HexToAddress (GoEthereum := ref_geth) ""), w1) /\
     getenv "INITIAL_OWNER" w1 = Address_Hex (GoEthereum := ref_geth) owner /\
     (forall k, k <> "INITIAL_OWNER" -> getenv k w1 = getenv k w_keys) /\
     (forall key, fst (default_signer (GE := ref_geth) key w_keys) = Ok owner <-> PubkeyToAddress key = owner) /\
     (forall key, fst (default_signer (GE := ref_geth) key w1) = Ok owner) /\
     (getenv "EXTENSION_OWNER_KEY" w_keys = "" ->
        exists key, governance_key w_deployer w_keys = (Ok key, w_keys) /\ PubkeyToAddress key = owner)) /\
  (getenv "INITIAL_OWNER" w_keys <> "" ->
     setOwnerAddress (GE := ref_geth) w_keys = (Ok (HexToAddress (GoEthereum := ref_geth) (getenv "INITIAL_OWNER" w_keys)), w_keys) /\
     forall key key', TrimSpace (getenv "INITIAL_OWNER" w_keys) <> "" ->
       default_signer (GE := ref_geth) key w_keys = default_signer (GE := ref_geth) key' w_keys).
Proof.
  apply (local_owner_default (GE := ref_geth) w_deployer w_keys). vm_compute. reflexivity.
Defined.

(** With its own key the governance command signs for another owner. *)
Example owners_differ :
  governance_key w_deployer w_keys = (Ok [Byte.x22], w_keys) /\
  fst (default_signer (GE := ref_geth) [Byte.x22] w_keys) <> Ok (PubkeyToAddress (Prv w_deployer)).
Proof. split; [vm_compute; reflexivity|]. vm_compute. intros H. discriminate H. Qed.
