(* ===== verification/Process.v ===== *)
(** * The life of a node's process

    The main function, the goroutine of the server and the signals as a step
    relation, for both entry points of the extension. *)

From S2P Require Import Prelude GoStd Config GoEth Reference Bundle NetStd Ciphertext Encoding Canonical WireTypes Verifier RefWorld Extension Server Report Checks Revert TeeCalls Registration Instructions LocalNode RegistrationSpecs.

(** ** States *)

(** The two main functions; [StartTee] has the path of its file and its flag. *)
Inductive entry := Docker | StartTee (thisFile extensionID : string).

Inductive main_pc :=
| Starting | Checking | Settling | Configuring | Waiting
| Returned | Killed | Fatal (msg : string).

(** The goroutine of the server: not scheduled yet, in [ListenAndServe], or
    returned from it with an error. *)
Inductive goroutine := Spawned | Listening | Failed (e : error).

(** [pr_errs] is the channel of [StartExtension], [pr_signal] that of the
    signals. *)
Record proc (W : Type) := mkProc {
  pr_pc : main_pc;
  pr_server : goroutine;
  pr_errs : option error;
  pr_signal : bool;
  pr_crashed : bool;
  pr_world : W;
}.
Arguments mkProc {W} _ _ _ _ _ _.
Arguments pr_pc {W} _. Arguments pr_server {W} _. Arguments pr_errs {W} _.
Arguments pr_signal {W} _. Arguments pr_crashed {W} _. Arguments pr_world {W} _.

Definition finished (pc : main_pc) : bool := match pc with Returned | Killed | Fatal _ => true | _ => false end.
Definition over {W} (p : proc W) : bool := pr_crashed p || finished (pr_pc p).

(** What may happen next: the goroutine is scheduled, [ListenAndServe] returns
    (always with an error), a signal arrives, the main function goes on, or it
    takes one of the two branches of its last select. *)
Inductive event := Scheduled | ListenReturns (e : error) | SignalArrives | MainSteps | TakesSignal | TakesError.

Section Process.
Context {W : Type} {NS : NodeSetup W}.

Definition set_pc (pc : main_pc) (p : proc W) : proc W :=
  mkProc pc (pr_server p) (pr_errs p) (pr_signal p) (pr_crashed p) (pr_world p).
Definition set_server (g : goroutine) (errs : option error) (p : proc W) : proc W :=
  mkProc (pr_pc p) g errs (pr_signal p) (pr_crashed p) (pr_world p).
Definition set_signal (p : proc W) : proc W :=
  mkProc (pr_pc p) (pr_server p) (pr_errs p) true (pr_crashed p) (pr_world p).
Definition crash (p : proc W) : proc W :=
  mkProc (pr_pc p) (pr_server p) (pr_errs p) (pr_signal p) true (pr_world p).
Definition set_world (w : W) (p : proc W) : proc W :=
  mkProc (pr_pc p) (pr_server p) (pr_errs p) (pr_signal p) (pr_crashed p) w.

(** Whether the process has asked for its signals: the Docker entry point does
    so after its check, and dies of an earlier one. *)
Definition notified (prog : entry) (pc : main_pc) : bool :=
  match prog, pc with Docker, (Starting | Checking) => false | _, _ => true end.

(** The goroutine: a nil server panics, and a panic ends the process. *)
Definition schedule (srv : option HttpServer) (p : proc W) : option (proc W) :=
  match pr_server p with
  | Spawned => Some (match srv with None => crash p | Some _ => set_server Listening (pr_errs p) p end)
  | _ => None
  end.

(** One step of the main function before its last select. *)
Definition main_step (prog : entry) (p : proc W) : option (proc W) :=
  match pr_pc p with
  | Starting => Some (set_pc Checking p)
  | Checking =>
    match pr_errs p with
    | Some err => Some (set_pc (Fatal ("extension server failed to start: " +:+ Error err)) (set_server (pr_server p) None p))
    | None => Some (set_pc (match prog with Docker => Waiting | StartTee _ _ => Settling end) p)
    end
  | Settling => Some (set_pc Configuring p)
  | Configuring =>
    match setProxyURL ExtConfigurationPort ExtProxyInternalPort (pr_world p) with
    | (Ok _, w) => Some (set_pc Waiting (set_world w p))
    | (Err err, w) => Some (set_pc (Fatal ("Error: " +:+ Error err)) (set_world w p))
    | (Panic _, w) => Some (crash (set_world w p))
    end
  | _ => None
  end.

Definition next (prog : entry) (srv : option HttpServer) (ev : event) (p : proc W) : option (proc W) :=
  if over p then None else
  match ev with
  | Scheduled => schedule srv p
  | ListenReturns e => match pr_server p with Listening => Some (set_server (Failed e) (Some e) p) | _ => None end
  | SignalArrives => Some (if notified prog (pr_pc p) then set_signal p else set_pc Killed p)
  | MainSteps => main_step prog p
  | TakesSignal => match pr_pc p with Waiting => if pr_signal p then Some (set_pc Returned p) else None | _ => None end
  | TakesError =>
    match prog, pr_pc p, pr_errs p with
    | Docker, Waiting, Some err =>
        Some (set_pc (Fatal ("extension server error: " +:+ Error err)) (set_server (pr_server p) None p))
    | _, _, _ => None
    end
  end.

Definition pstep (prog : entry) (srv : option HttpServer) (p p' : proc W) : Prop := exists ev, next prog srv ev p = Some p'.

Fixpoint run_events (prog : entry) (srv : option HttpServer) (evs : list event) (p : proc W) : option (proc W) :=
  match evs with
  | [] => Some p
  | ev :: evs => match next prog srv ev p with Some p' => run_events prog srv evs p' | None => None end
  end.

(** The process when its goroutines are spawned. *)
Definition spawned (w : W) : proc W := mkProc Starting Spawned None false false w.
End Process.

Section Entry.
Context {GE : GoEthereum} {TL : TeeLib} {W : Type} {HO : Host W} {SE : SupportEnv W} {LH : LocalHost W} {NS : NodeSetup W}
  {JC : JsonCodec} {EC : EthClient W} {ES : Escrow W} {NW : Network W}.

Definition node_start (prog : entry) : M W started :=
  match prog with Docker => docker_start | StartTee thisFile extensionID => start_tee_start thisFile extensionID end.
End Entry.

(** ** The start *)

Section start.
Context {GE : GoEthereum} {TL : TeeLib} {W : Type} {HO : Host W} {SE : SupportEnv W} {LH : LocalHost W} {NS : NodeSetup W}
  {JC : JsonCodec} {EC : EthClient W} {ES : Escrow W} {NW : Network W}.

(** The configuration of the environment in which the process starts. *)
Definition env_config (w : W) : Config.vars := Config.init (fun k => fst (os_Getenv k w)).

Lemma StartExtension_New config ep sp (w w' : W) e :
  StartExtension config ep sp w = (Ok e, w') -> exists logs, New config ep sp w = (Ok (e, logs), w').
Proof. intros ([e' logs] & w1 & H & [[= ->] ->]%mret_eq)%M_bind_Ok. eauto. Qed.

Lemma node_start_New prog (w w1 : W) st :
  node_start prog w = (Ok st, w1) ->
  exists w0 logs, New (env_config w) (snd (st_Ports st)) (snd (fst (st_Ports st))) w0 = (Ok (st_Extension st, logs), w1).
Proof.
  destruct prog as [|thisFile extensionID]; simpl.
  - intros (config & w2 & [= <- <-] & (port & w3 & _ & (e & w4 & [logs He]%StartExtension_New & [[= ->] ->]%mret_eq)%M_bind_Ok)%M_bind_Ok)%M_bind_Ok.
    eauto.
  - intros (config & w2 & [= <- <-] & (u & w3 & _ & (a & w4 & _ & (u' & w5 & _ & H)%M_bind_Ok)%M_bind_Ok)%M_bind_Ok)%M_bind_Ok.
    apply M_bind_Ok in H as (e & w6 & [logs He]%StartExtension_New & [[= ->] ->]%mret_eq). eauto.
Qed.
End start.

(** ** Invariants of a process *)
Section invariant.
Context {W : Type} {NS : NodeSetup W} (prog : entry) (srv : option HttpServer) (w0 : W).
Implicit Types (p : proc W).

(** The answer of the node to [start-tee], in the world of the start. *)
Definition proxy_answer : result unit := fst (setProxyURL ExtConfigurationPort ExtProxyInternalPort w0).

Definition start_message (e : error) : string := "extension server failed to start: " +:+ Error e.
Definition stop_message (e : error) : string := "extension server error: " +:+ Error e.

(** What ends each entry point with a message, and what crashes it. *)
Definition failed_by p (msg : string) : Prop :=
  match prog with
  | Docker => exists e, pr_server p = Failed e /\ (msg = start_message e \/ msg = stop_message e)
  | StartTee _ _ =>
    (exists e, pr_server p = Failed e /\ msg = start_message e) \/
    (exists e, proxy_answer = Err e /\ msg = "Error: " +:+ Error e)
  end.
Definition crashed_by : Prop :=
  match prog with Docker => srv = None | StartTee _ _ => srv = None \/ exists q, proxy_answer = Panic q end.

Definition before_waiting (pc : main_pc) : bool :=
  match pc with Starting | Checking | Settling | Configuring => true | _ => false end.

Record proc_inv p : Prop := {
  pi_errs e : pr_errs p = Some e -> pr_server p = Failed e;
  pi_failed e : pr_server p = Failed e -> pr_errs p = Some e \/ exists m, pr_pc p = Fatal m;
  pi_nil : srv = None -> pr_server p = Spawned;
  pi_crashed : pr_crashed p = true -> crashed_by;
  pi_returned : pr_pc p = Returned -> pr_signal p = true;
  pi_fatal m : pr_pc p = Fatal m -> failed_by p m;
  pi_killed : pr_pc p = Killed -> prog = Docker;
  pi_world : before_waiting (pr_pc p) = true -> pr_crashed p = false -> pr_world p = w0;
  pi_docker : prog = Docker -> pr_pc p <> Settling /\ pr_pc p <> Configuring;
}.

Lemma over_false p : over p = false -> pr_crashed p = false /\ finished (pr_pc p) = false.
Proof. apply orb_false_iff. Qed.

Lemma spawned_inv : proc_inv (spawned w0).
Proof. by split. Qed.

Lemma nil_crashed_by : srv = None -> crashed_by.
Proof. unfold crashed_by. destruct prog; auto. Qed.

Lemma start_failed p p' e : pr_errs p = Some e -> pr_server p = Failed e -> pr_server p' = pr_server p ->
  failed_by p' (start_message e).
Proof. intros _ Hs Hp. unfold failed_by. rewrite Hp. destruct prog; [eauto|left; eauto]. Qed.

(** The fields of the invariant that a step keeps. *)
Ltac kept Hi :=
  split; simpl; intros;
  try solve
    [ eauto 3 using pi_errs, pi_failed, pi_nil, pi_crashed, pi_returned, pi_docker, pi_killed, pi_world, nil_crashed_by
    | congruence | split; congruence
    | match goal with H : pr_errs _ = Some _ |- _ => apply (pi_errs _ Hi) in H; congruence end
    | match goal with H : pr_pc _ = Fatal _, Hf : finished _ = false |- _ => rewrite H in Hf; discriminate Hf end
    | match goal with H : pr_server _ = Failed _ |- _ =>
        destruct (pi_failed _ Hi _ H) as [?|[? ?]]; [left; congruence|];
        first [congruence|match goal with E : pr_pc _ = Fatal _, Hf : finished _ = false |- _ => rewrite E in Hf; discriminate Hf end] end
    | match goal with H : srv = None |- _ => apply (pi_nil _ Hi) in H; congruence end
    | match goal with E : pr_pc ?p = _ |- pr_world _ = w0 => apply (pi_world _ Hi); [by rewrite E|done] end ].

Lemma schedule_inv p p' : proc_inv p -> finished (pr_pc p) = false -> schedule srv p = Some p' -> proc_inv p'.
Proof.
  intros Hi Hf. unfold schedule. destruct (pr_server p) eqn:Hs; [|done..].
  destruct srv as [s|] eqn:E; intros [= <-]; kept Hi.
Qed.

Lemma main_step_inv p p' : proc_inv p -> pr_crashed p = false -> main_step prog p = Some p' -> proc_inv p'.
Proof.
  intros Hi Hc. unfold main_step. destruct (pr_pc p) eqn:Hpc; try done.
  - intros [= <-]. kept Hi.
  - destruct (pr_errs p) as [e|] eqn:He; intros [= <-]; [|destruct prog eqn:Ep; kept Hi].
    kept Hi. injection H as <-. eapply (start_failed p); [done|by apply (pi_errs _ Hi)|done].
  - assert (prog <> Docker) as Hd by (intros Hd; by destruct (pi_docker _ Hi Hd)). intros [= <-]. kept Hi.
  - assert (prog <> Docker) as Hd by (intros Hd; by destruct (pi_docker _ Hi Hd)).
    assert (pr_world p = w0) as Hw by (apply (pi_world _ Hi); [by rewrite Hpc|done]). rewrite Hw.
    destruct (setProxyURL _ _ _) as [r w1] eqn:E. assert (proxy_answer = r) as Hr by (unfold proxy_answer; by rewrite E).
    destruct r as [u|e|q]; intros [= <-]; kept Hi.
    + injection H as <-. unfold failed_by. destruct prog; [done|right; eauto].
    + unfold crashed_by. destruct prog; [done|right; eauto].
Qed.

Lemma next_inv p p' ev : proc_inv p -> next prog srv ev p = Some p' -> proc_inv p'.
Proof.
  intros Hi H. unfold next in H. destruct (over p) eqn:Ho; [done|]. apply over_false in Ho as [Hc Hf].
  destruct ev.
  - by eapply schedule_inv.
  - destruct (pr_server p) eqn:Hs; try done. injection H as <-. kept Hi. left. by injection H as ->.
  - injection H as <-. destruct (notified prog (pr_pc p)) eqn:Hn; kept Hi. by destruct prog.
  - by eapply main_step_inv.
  - destruct (pr_pc p) eqn:Hpc; try done. destruct (pr_signal p) eqn:Hs; [|done]. injection H as <-. kept Hi.
  - destruct prog eqn:Ep; [|done]. destruct (pr_pc p) eqn:Hpc; try done. destruct (pr_errs p) as [e|] eqn:He; [|done].
    injection H as <-. kept Hi. injection H as <-. unfold failed_by. rewrite Ep. exists e.
    split; [by apply (pi_errs _ Hi)|by right].
Qed.

Lemma reachable_proc_inv p : rtc (pstep prog srv) (spawned w0) p -> proc_inv p.
Proof.
  intros H. revert H. apply (rtc_ind_r (R := pstep prog srv) proc_inv); [apply spawned_inv|].
  intros p1 p2 _ [ev He] Hi. by eapply next_inv.
Qed.
End invariant.

Lemma run_events_reach {W} {NS : NodeSetup W} prog srv evs (p p' : proc W) :
  run_events prog srv evs p = Some p' -> rtc (pstep prog srv) p p'.
Proof.
  revert p. induction evs as [|ev evs IH]; intros p; simpl; [by intros [= ->]|].
  destruct (next prog srv ev p) as [q|] eqn:E; [|done]. intros H. eapply rtc_l; [by exists ev|by apply IH].
Qed.

(** ** Progress *)
Section progress.
Context {W : Type} {NS : NodeSetup W}.

(** A failure of the server that the check still sees. *)
Lemma failed_early prog srv w0 (p : proc W) e :
  proc_inv prog srv w0 p -> pr_server p = Failed e -> over p = false -> pr_pc p = Starting \/ pr_pc p = Checking ->
  exists evs p', (length evs <= 2)%nat /\ run_events prog srv evs p = Some p' /\ pr_pc p' = Fatal (start_message e).
Proof.
  intros Hi Hs Ho. apply over_false in Ho as [Hc Hf].
  destruct (pi_failed _ _ _ _ Hi _ Hs) as [He|[m Hm]]; [|by rewrite Hm in Hf].
  intros [Hpc|Hpc].
  - exists [MainSteps; MainSteps]. eexists. split; [done|]. simpl. unfold next, over at 1. rewrite Hc, Hpc. simpl.
    unfold main_step at 1. rewrite Hpc. unfold over; simpl. rewrite Hc. simpl. unfold main_step; simpl. rewrite He. split; done.
  - exists [MainSteps]. eexists. split; [simpl; lia|]. simpl. unfold next, over. rewrite Hc, Hpc. simpl.
    unfold main_step. rewrite Hpc, He. split; done.
Qed.

(** The Docker entry point sees every failure. *)
Lemma failed_ends srv w0 (p : proc W) e :
  proc_inv Docker srv w0 p -> pr_server p = Failed e -> over p = false ->
  exists evs p' msg, (length evs <= 2)%nat /\ run_events Docker srv evs p = Some p' /\ pr_pc p' = Fatal msg.
Proof.
  intros Hi Hs Ho. pose proof Ho as Hof. apply over_false in Ho as [Hc Hf].
  destruct (pi_failed _ _ _ _ Hi _ Hs) as [He|[m Hm]]; [|by rewrite Hm in Hf].
  destruct (pr_pc p) eqn:Hpc; try done;
    try (edestruct failed_early as (evs & p' & Hlen & Hrun & Hm); [exact Hi|exact Hs|exact Hof|by auto|by eauto 10]);
    try (by destruct (pi_docker _ _ _ _ Hi eq_refl)).
  exists [TakesError]. do 2 eexists. split; [simpl; lia|]. simpl. unfold next, over. rewrite Hc, Hpc. simpl. rewrite He. split; done.
Qed.

(** [start-tee] ends with the answer of its node, or waits. *)
Definition configured (r : result unit) (p : proc W) : Prop :=
  match r with
  | Ok _ => pr_pc p = Waiting
  | Err e => pr_pc p = Fatal ("Error: " +:+ Error e)
  | Panic _ => pr_crashed p = true
  end.

Lemma configuring_ends prog srv w0 (p : proc W) :
  proc_inv prog srv w0 p -> pr_pc p = Configuring -> over p = false ->
  exists p', next prog srv MainSteps p = Some p' /\ configured (proxy_answer w0) p'.
Proof.
  intros Hi Hpc Ho. unfold next. rewrite Ho. apply over_false in Ho as [Hc _]. unfold main_step. rewrite Hpc.
  rewrite (pi_world _ _ _ _ Hi) by (done || by rewrite Hpc). unfold proxy_answer.
  destruct (setProxyURL _ _ w0) as [[u|e|q] w1]; by eexists.
Qed.

Lemma nil_crashes prog (p : proc W) :
  pr_server p = Spawned -> over p = false -> exists p', next prog None Scheduled p = Some p' /\ pr_crashed p' = true.
Proof. intros Hs Ho. unfold next, schedule. rewrite Ho, Hs. by eexists. Qed.

Lemma waits_for_signal thisFile extensionID srv (p p' : proc W) :
  pr_pc p = Waiting -> pstep (StartTee thisFile extensionID) srv p p' -> pr_pc p' = Waiting \/ pr_pc p' = Returned.
Proof.
  intros Hpc [ev H]. unfold next, schedule, main_step in H. rewrite Hpc in H.
  repeat case_match; simplify_eq/=; auto.
Qed.
End progress.

(** ** Properties *)


(** A machine for witnesses: its environment configures an RPC URL and an
    address of two bytes. *)
Definition bad_env (k : string) : string :=
  if String.eqb k "WORKPROOF_RPC_URL" then "http://rpc" else
  if String.eqb k "WORKPROOF_ESCROW_ADDRESS" then "0x1234" else "".

Definition world_host (env : string -> string) : Host ref_world := {|
  os_Getenv k w := (env k, w);
  os_Open _ w := (None, w);
  os_IsNotExist _ w := (true, w);
  net_DialTimeout _ _ w := (false, w);
  range_map m w := (map_to_list m, w);
  HttpGet _ _ := fun w => (Ok 200, w);
  BalanceAt _ _ _ := fun w => (Ok (Some 0), w);
  ChainID _ := fun w => (Ok (Some 114), w);
  NextPublicExtensionId := fun w => (Ok (Some 1), w);
  GetTeeExtensionInstructionsSender _ := fun w => (Ok zero_address, w);
  IsAllowedTeeMachineOwner _ _ := fun w => (Ok true, w);
  Checks.IsKeyTypeSupported _ _ := fun w => (Ok true, w);
  EVMType := [];
|}.
Definition world_setup : NodeSetup ref_world := {|
  Marshal_ConfigureProxyURLRequest s := Ok (bytes_of_string s);
  http_Post _ _ _ := fun w => (Ok 200, w);
|}.

Definition world_support : SupportEnv ref_world := {|
  crypto_HexToECDSA s := match hex_decode s with Some k => Ok k | None => Err (Plain "invalid hex data for private key") end;
  godotenv_Load w := (None, w);
  os_ReadFile _ := fun w => (Ok [], w);
  Unmarshal_Addresses _ := Err (Plain "unexpected end of JSON input");
  Unmarshal_RawContracts _ := Err (Plain "unexpected end of JSON input");
  ethclient_Connect _ := fun w => (Ok tt, w);
  bind_contract _ _ := Ok tt;
|}.
Definition world_local : LocalHost ref_world := {|
  os_Setenv _ _ w := w;
  godotenv_Load_file _ w := (None, w);
  os_Stat _ w := (true, w);
  proxyConfig_Read _ := fun w => (Ok "6664", w);
  initProxy_Init _ := fun w => (Ok tt, w);
|}.

Definition w_node (env : string -> string) : result started * ref_world :=
  docker_start (GE := ref_geth) (HO := world_host env) (w_world zero_hash).
Definition w_run (srv : option HttpServer) (evs : list event) : option (proc ref_world) :=
  run_events (NS := world_setup) Docker srv evs (spawned (w_world zero_hash)).
Definition w_crashed : proc ref_world := mkProc Checking Spawned None false true (w_world zero_hash).
Definition w_started : started := mkStarted (5501, 9090, 8080) (mkExtension None None).


(** Without configuration the server listens on the default port; a signal
    ends the process, and a port in use fails its start. *)
Example w_plain_start : fst (w_node (fun _ => "")) = Ok (mkStarted (5501, 9090, 8080) (mkExtension (Some (new_server 8080)) None)).
Proof. vm_compute. reflexivity. Qed.
Example w_signalled :
  option_map pr_pc (w_run (Some (new_server 8080)) [Scheduled; MainSteps; MainSteps; SignalArrives; TakesSignal]) = Some Returned.
Proof. reflexivity. Qed.
Example w_port_in_use :
  option_map pr_pc (w_run (Some (new_server 8080))
    [Scheduled; ListenReturns (Plain "address already in use"); MainSteps; MainSteps]) =
  Some (Fatal "extension server failed to start: address already in use").
Proof. reflexivity. Qed.

(** [start-tee] whose node refuses the proxy URL, and one whose server fails
    after its check. *)
Definition refusing_setup : NodeSetup ref_world := {|
  Marshal_ConfigureProxyURLRequest s := Ok (bytes_of_string s);
  http_Post _ _ _ := fun w => (Ok 503, w);
|}.
Example w_proxy_refused :
  option_map pr_pc (run_events (NS := refusing_setup) (StartTee "f" "") (Some (new_server 7702))
    [Scheduled; MainSteps; MainSteps; MainSteps; MainSteps] (spawned (w_world zero_hash))) =
  Some (Fatal "Error: unexpected status code: 503").
Proof. reflexivity. Qed.
Example w_late_failure_unseen :
  option_map pr_pc (run_events (NS := world_setup) (StartTee "f" "") (Some (new_server 7702))
    [Scheduled; MainSteps; MainSteps; ListenReturns (Plain "reset"); MainSteps; MainSteps] (spawned (w_world zero_hash))) =
  Some Waiting.
Proof. reflexivity. Qed.
