(* ===== verification/Standalone.v ===== *)
(** * The standalone server (go/cmd/main.go)

    The entry point that runs the extension alone and shuts it down on a
    signal: its main function, the goroutine that waits for the signal and the
    requests in flight as a step relation over the server of [Extension]. *)

From S2P Require Import Prelude GoStd Config GoEth Reference Bundle NetStd Ciphertext Encoding Canonical WireTypes Verifier RefWorld Extension Server Report Checks Revert TeeCalls Registration Instructions LocalNode Process.

(** The main function: before [ListenAndServe], in it, and after it returned
    with [ErrServerClosed] ([None]) or another error. *)
Inductive server_pc := ToListen | Serving | Got (err : option error).

(** The goroutine of the signal: before it, and in [Shutdown] with its
    deadline. *)
Inductive watcher := AwaitsSignal | Draining (deadline : Z).

(** How the process ends. *)
Inductive ending := MainReturns | WatcherExits | ServerFatal (msg : string) | Panics.
Definition exit_code (e : ending) : Z :=
  match e with MainReturns | WatcherExits => 0 | ServerFatal _ => 1 | Panics => 2 end.

(** [sa_state] is the state of the handlers; a request in [sa_inflight] was
    accepted and its handler has not ended. The lists are in the order of
    events. *)
Record standalone (W : Type) := mkStandalone {
  sa_main : server_pc;
  sa_watch : watcher;
  sa_signal : bool;
  sa_shutting : bool;
  sa_clock : Z;
  sa_accepted : list HttpRequest;
  sa_inflight : list HttpRequest;
  sa_answered : list (HttpRequest * result Reply);
  sa_state : ExtState * (pins * W);
  sa_ended : option ending;
}.
Arguments mkStandalone {W} _ _ _ _ _ _ _ _ _ _.
Arguments sa_main {W} _. Arguments sa_watch {W} _. Arguments sa_signal {W} _. Arguments sa_shutting {W} _.
Arguments sa_clock {W} _. Arguments sa_accepted {W} _. Arguments sa_inflight {W} _. Arguments sa_answered {W} _.
Arguments sa_state {W} _. Arguments sa_ended {W} _.

Inductive server_event :=
| SignalSent | ClockTicks | WatcherShutsDown | ShutdownReturns
| MainListens | ListenFails (e : error) | ServeReturns | MainEnds
| Arrives (r : HttpRequest) | Finishes (k : nat).

Section Standalone.
Context {GE : GoEthereum} {JC : JsonCodec} {TN : TeeNode} {W : Type} {HO : Host W} {EC : EthClient W} {ES : Escrow W}
  {NW : Network W}.
Implicit Types (p : standalone W).

Definition standalone_start : M W Extension :=
  config ← init_config;
  e ← New config (Config.ExtensionPort config) (Config.SignPort config);
  mret (fst e).

Definition set_main m p : standalone W :=
  mkStandalone m (sa_watch p) (sa_signal p) (sa_shutting p) (sa_clock p) (sa_accepted p) (sa_inflight p) (sa_answered p)
    (sa_state p) (sa_ended p).
Definition set_ended e p : standalone W :=
  mkStandalone (sa_main p) (sa_watch p) (sa_signal p) (sa_shutting p) (sa_clock p) (sa_accepted p) (sa_inflight p)
    (sa_answered p) (sa_state p) (Some e).

(** The goroutine: [Shutdown] marks the server, closes its listener and waits
    for the requests in flight until its deadline; on a nil server it panics. *)
Definition watcher_shuts_down (srv : option HttpServer) p : option (standalone W) :=
  match sa_watch p, sa_signal p, srv with
  | AwaitsSignal, true, None => Some (set_ended Panics p)
  | AwaitsSignal, true, Some _ =>
    Some (mkStandalone (sa_main p) (Draining (sa_clock p + Config.TimeoutShutdown)) true true (sa_clock p) (sa_accepted p)
            (sa_inflight p) (sa_answered p) (sa_state p) (sa_ended p))
  | _, _, _ => None
  end.

(** [Shutdown] returns, with or without an error, and the goroutine exits. *)
Definition shutdown_returns p : option (standalone W) :=
  match sa_watch p with
  | Draining deadline =>
    if bool_decide (sa_inflight p = []) || (deadline <=? sa_clock p) then Some (set_ended WatcherExits p) else None
  | AwaitsSignal => None
  end.

(** [ListenAndServe] on a server that is nil, shutting down, or not. *)
Definition main_listens (srv : option HttpServer) p : option (standalone W) :=
  match sa_main p, srv with
  | ToListen, None => Some (set_ended Panics p)
  | ToListen, Some _ => Some (set_main (if sa_shutting p then Got None else Serving) p)
  | _, _ => None
  end.

Definition main_ends p : option (standalone W) :=
  match sa_main p with
  | Got None => Some (set_ended MainReturns p)
  | Got (Some err) => Some (set_ended (ServerFatal ("server: " +:+ Error err)) p)
  | _ => None
  end.

(** A handler runs to its end; a panic of it costs the connection, not the
    process. *)
Definition finish (e : Extension) (k : nat) p : option (standalone W) :=
  match sa_inflight p !! k with
  | Some r =>
    let '(rep, st) := serve e r (sa_state p) in
    Some (mkStandalone (sa_main p) (sa_watch p) (sa_signal p) (sa_shutting p) (sa_clock p) (sa_accepted p)
            (delete k (sa_inflight p)) (sa_answered p ++ [(r, rep)]) st (sa_ended p))
  | None => None
  end.

Definition accept r p : standalone W :=
  mkStandalone (sa_main p) (sa_watch p) (sa_signal p) (sa_shutting p) (sa_clock p) (sa_accepted p ++ [r])
    (sa_inflight p ++ [r]) (sa_answered p) (sa_state p) (sa_ended p).

Definition server_next (e : Extension) (ev : server_event) p : option (standalone W) :=
  match sa_ended p with
  | Some _ => None
  | None =>
    match ev with
    | SignalSent => Some (mkStandalone (sa_main p) (sa_watch p) true (sa_shutting p) (sa_clock p) (sa_accepted p)
                            (sa_inflight p) (sa_answered p) (sa_state p) None)
    | ClockTicks => Some (mkStandalone (sa_main p) (sa_watch p) (sa_signal p) (sa_shutting p) (sa_clock p + 1)
                            (sa_accepted p) (sa_inflight p) (sa_answered p) (sa_state p) None)
    | WatcherShutsDown => watcher_shuts_down (Server e) p
    | ShutdownReturns => shutdown_returns p
    | MainListens => main_listens (Server e) p
    | ListenFails err =>
      if sa_shutting p || bool_decide (Server e = None) then None else
      match sa_main p with ToListen | Serving => Some (set_main (Got (Some err)) p) | Got _ => None end
    | ServeReturns => match sa_main p with Serving => if sa_shutting p then Some (set_main (Got None) p) else None | _ => None end
    | MainEnds => main_ends p
    | Arrives r => match sa_main p with Serving => if sa_shutting p then None else Some (accept r p) | _ => None end
    | Finishes k => finish e k p
    end
  end.

Definition server_step (e : Extension) p p' : Prop := exists ev, server_next e ev p = Some p'.

Fixpoint server_run (e : Extension) (evs : list server_event) p : option (standalone W) :=
  match evs with
  | [] => Some p
  | ev :: evs => match server_next e ev p with Some p' => server_run e evs p' | None => None end
  end.

Definition launched (st : ExtState * (pins * W)) : standalone W :=
  mkStandalone ToListen AwaitsSignal false false 0 [] [] [] st None.

(** ** Invariants *)

Record server_inv (e : Extension) (st0 : ExtState * (pins * W)) p : Prop := {
  si_nil : Server e = None -> sa_main p = ToListen /\ sa_watch p = AwaitsSignal;
  si_watch : sa_shutting p = true <-> exists d, sa_watch p = Draining d;
  si_signal : sa_shutting p = true -> sa_signal p = true;
  si_closed : sa_main p = Got None -> sa_shutting p = true;
  si_requests : sa_accepted p ≡ₚ (fst <$> sa_answered p) ++ sa_inflight p;
  si_state : sa_state p = serve_all e (fst <$> sa_answered p) st0;
  si_deadline : 0 <= sa_clock p /\ forall d, sa_watch p = Draining d -> Config.TimeoutShutdown <= d;
  si_ended : match sa_ended p with
             | None => True
             | Some MainReturns => sa_shutting p = true
             | Some WatcherExits => exists d, sa_watch p = Draining d /\ (sa_inflight p = [] \/ d <= sa_clock p)
             | Some (ServerFatal msg) => exists err, sa_main p = Got (Some err) /\ msg = "server: " +:+ Error err
             | Some Panics => Server e = None
             end;
}.

Lemma serve_all_snoc e rs r st : serve_all e (rs ++ [r]) st = snd (serve e r (serve_all e rs st)).
Proof. revert st. induction rs as [|r' rs IH]; intros st; [done|]. apply IH. Qed.

Lemma launched_inv e st0 : server_inv e st0 (launched st0).
Proof. split; simpl; try done. split; [done|by intros [d ?]]. Qed.

Lemma finish_inv e st0 k p p' : server_inv e st0 p -> sa_ended p = None -> finish e k p = Some p' -> server_inv e st0 p'.
Proof.
  intros [H1 H2 H3 H4 H5 H6 H7 H8] Hn. unfold finish. destruct (sa_inflight p !! k) as [r|] eqn:Hk; [|done].
  destruct (serve e r (sa_state p)) as [rep st] eqn:Hs. intros [= <-]. split; simpl; try done.
  - rewrite H5, fmap_app, <- (assoc_L (++)). f_equiv. by apply delete_Permutation.
  - rewrite fmap_app. change ([(r, rep)].*1) with [r]. by rewrite serve_all_snoc, <- H6, Hs.
  - by rewrite Hn.
Qed.

(** The fields of the invariant that a step keeps. *)
Ltac server_kept Hi :=
  pose proof (si_nil _ _ _ Hi); pose proof (si_watch _ _ _ Hi); pose proof (si_signal _ _ _ Hi);
  pose proof (si_closed _ _ _ Hi); pose proof (si_deadline _ _ _ Hi);
  split; simpl; intros;
  try solve
    [ done | congruence | apply (si_state _ _ _ Hi) | apply (si_requests _ _ _ Hi)
    | eauto | intuition congruence | split; eauto | intuition lia | split; [lia|intros ? [= <-]; lia]
    | match goal with H : Server _ = None |- _ => destruct (si_nil _ _ _ Hi H); split; congruence end
    | match goal with H : sa_ended _ = None |- _ => by rewrite H end ].

Lemma server_next_inv e st0 p p' ev : server_inv e st0 p -> server_next e ev p = Some p' -> server_inv e st0 p'.
Proof.
  intros Hi. unfold server_next. destruct (sa_ended p) eqn:Hn; [done|]. destruct ev; [..|by apply finish_inv].
  - intros [= <-]. server_kept Hi.
  - intros [= <-]. server_kept Hi.
  - unfold watcher_shuts_down. destruct (sa_watch p) eqn:Hw; [|done]. destruct (sa_signal p) eqn:Hs; [|done].
    destruct (Server e) eqn:He; intros [= <-]; server_kept Hi.
  - unfold shutdown_returns. destruct (sa_watch p) as [|d] eqn:Hw; [done|]. destruct (_ || _) eqn:Ho; intros [= <-].
    server_kept Hi. exists d. split; [done|]. apply orb_true_iff in Ho as [Ho|Ho]; to_prop; auto.
  - unfold main_listens. destruct (sa_main p) eqn:Hm; try done.
    destruct (Server e) eqn:He; [destruct (sa_shutting p) eqn:Hs|]; intros [= <-]; server_kept Hi.
  - destruct (sa_shutting p) eqn:Hs; [done|]. case_bool_decide as He; [done|].
    destruct (sa_main p) eqn:Hm; intros [= <-]; server_kept Hi.
  - destruct (sa_main p) eqn:Hm; try done. destruct (sa_shutting p) eqn:Hs; intros [= <-]. server_kept Hi.
  - unfold main_ends. destruct (sa_main p) as [| |[err|]] eqn:Hm; try done; intros [= <-]; server_kept Hi.
  - destruct (sa_main p) eqn:Hm; try done. destruct (sa_shutting p) eqn:Hs; intros [= <-]. server_kept Hi.
    by rewrite (si_requests _ _ _ Hi), (assoc_L (++)).
Qed.

Lemma reachable_server_inv e st0 p : rtc (server_step e) (launched st0) p -> server_inv e st0 p.
Proof.
  intros H. revert H. apply (rtc_ind_r (R := server_step e) (server_inv e st0)); [apply launched_inv|].
  intros p1 p2 _ [ev He] Hi. by eapply server_next_inv.
Qed.

Lemma standalone_start_New (w w1 : W) e :
  standalone_start w = (Ok e, w1) ->
  exists logs, New (env_config w) (Config.ExtensionPort (env_config w)) (Config.SignPort (env_config w)) w = (Ok (e, logs), w1).
Proof.
  intros (config & w2 & [= <- <-] & ([e' logs] & w3 & H & [[= ->] ->]%mret_eq)%M_bind_Ok)%M_bind_Ok. eauto.
Qed.

(** ** The shutdown *)

(** The main function drops what is in flight. *)
Lemma main_drops e p :
  sa_ended p = None -> sa_main p = Serving -> sa_shutting p = true ->
  exists p', server_run e [ServeReturns; MainEnds] p = Some p' /\ sa_ended p' = Some MainReturns /\
    sa_inflight p' = sa_inflight p /\ sa_answered p' = sa_answered p /\ sa_clock p' = sa_clock p.
Proof.
  intros Hn Hm Hs. eexists. cbn [server_run]. unfold server_next at 1. rewrite Hn, Hm, Hs. cbn [server_run].
  unfold server_next, set_main. cbn [sa_ended]. rewrite Hn. split; [reflexivity|done].
Qed.

Lemma awaits_signal e st0 p : server_inv e st0 p -> sa_shutting p = false -> sa_watch p = AwaitsSignal.
Proof.
  intros Hi Hs. destruct (sa_watch p) as [|d] eqn:Hw; [done|].
  assert (sa_shutting p = true) by (apply (si_watch _ _ _ Hi); eauto). congruence.
Qed.

(** The goroutine starts the shutdown, from whatever the main function does. *)
Lemma watcher_step e st0 p :
  server_inv e st0 p -> sa_ended p = None -> sa_signal p = true -> Server e <> None -> sa_shutting p = false ->
  exists p', server_next e WatcherShutsDown p = Some p' /\ server_inv e st0 p' /\ sa_ended p' = None /\
    sa_shutting p' = true /\ sa_main p' = sa_main p /\ sa_inflight p' = sa_inflight p /\ sa_clock p' = sa_clock p.
Proof.
  intros Hi Hn Hs He Hsh. pose proof (awaits_signal _ _ _ Hi Hsh) as Hw.
  destruct (server_next e WatcherShutsDown p) as [p'|] eqn:H; unfold server_next, watcher_shuts_down in H;
    rewrite Hn, Hw, Hs in H; destruct (Server e) eqn:Es; try done.
  exists p'. split; [done|]. split; [eapply (server_next_inv _ _ p p' WatcherShutsDown); [done|];
    unfold server_next, watcher_shuts_down; by rewrite Hn, Hw, Hs, Es|]. injection H as <-. done.
Qed.

(** Once the server is shutting down, or the main function has its error, two
    steps of the main function end the process. *)
Lemma main_exits e p :
  sa_ended p = None -> Server e <> None -> sa_shutting p = true \/ (exists err, sa_main p = Got err) ->
  exists evs p' how, (length evs <= 2)%nat /\ server_run e evs p = Some p' /\ sa_ended p' = Some how /\
    sa_inflight p' = sa_inflight p /\ sa_clock p' = sa_clock p.
Proof.
  intros Hn He H. destruct (sa_main p) as [| |err] eqn:Hm.
  - destruct H as [Hs|[err [=]]]. exists [MainListens; MainEnds]. eexists _, MainReturns. split; [done|].
    cbn [server_run]. unfold server_next at 1, main_listens. destruct (Server e) eqn:Es; [|done].
    rewrite Hn, Hm, Hs. cbn [server_run]. unfold server_next, set_main. cbn [sa_ended]. rewrite Hn. split; [reflexivity|done].
  - destruct H as [Hs|[err [=]]]. destruct (main_drops e p Hn Hm Hs) as (p' & Hr & Hend & Hf & _ & Hc).
    exists [ServeReturns; MainEnds], p', MainReturns. done.
  - exists [MainEnds]. cbn [server_run]. unfold server_next, main_ends. rewrite Hn, Hm.
    destruct err as [err|]; do 2 eexists; (split; [simpl; lia|split; [reflexivity|done]]).
Qed.

(** A signal ends the process, in at most three steps of its own. *)
Lemma signal_ends e st0 p :
  server_inv e st0 p -> sa_ended p = None -> sa_signal p = true -> Server e <> None ->
  exists evs p' how, (length evs <= 3)%nat /\ server_run e evs p = Some p' /\ sa_ended p' = Some how /\
    sa_inflight p' = sa_inflight p /\ sa_clock p' = sa_clock p.
Proof.
  intros Hi Hn Hs He. destruct (sa_shutting p) eqn:Hsh.
  - destruct (main_exits e p Hn He) as (evs & p' & how & ? & ?); [by left|]. exists evs, p', how. split; [lia|done].
  - destruct (watcher_step _ _ _ Hi Hn Hs He Hsh) as (q & Hq & _ & Hn' & Hsh' & _ & Hf & Hc).
    destruct (main_exits e q Hn' He) as (evs & p' & how & Hl & Hr & Hend & Hf' & Hc'); [by left|].
    exists (WatcherShutsDown :: evs), p', how. simpl. rewrite Hq, Hf', Hc'. split; [lia|done].
Qed.
End Standalone.

(** ** Properties *)

(** C18. The standalone server and its shutdown, in every interleaving of the
    main function, the goroutine of the signal, the clock and the requests.
    The server is missing exactly when an address of the environment is
    invalid, and only then can the process panic; it fails only on an error of
    [ListenAndServe], and exits with 0 only after a signal. Every request that
    was accepted is answered or in flight, and the counters are those of the
    answered ones. The goroutine exits only when nothing is in flight or five
    seconds have passed. A signal ends the process within three steps of its
    own. But the shutdown is not graceful: as soon as it has begun, two steps of
    the main function end the process with 0, with every request in flight
    unanswered and no time to finish. *)
Theorem standalone_shutdown {GE : GoEthereum} {JC : JsonCodec} {TN : TeeNode} {W : Type} {HO : Host W} {EC : EthClient W}
    {ES : Escrow W} {NW : Network W} (w w1 : W) e p :
  standalone_start w = (Ok e, w1) ->
  ToHash Config.OPTypeGreeting <> ToHash Config.OPTypeWorkProof ->
  rtc (server_step e) (launched (initial_state, (∅, w1))) p ->
  let config := env_config w in
  (Server e = None <-> verifier_configured config /\ ~ (valid_address (Config.WorkProofEscrowAddress config) /\
                         valid_address (Config.WorkProofRandomNumberV2Addr config))) /\
  (sa_ended p = Some Panics -> Server e = None) /\
  (forall msg, sa_ended p = Some (ServerFatal msg) ->
     exists err, sa_main p = Got (Some err) /\ msg = "server: " +:+ Error err) /\
  (forall how, sa_ended p = Some how -> exit_code how = 0 -> sa_signal p = true) /\
  sa_accepted p ≡ₚ (fst <$> sa_answered p) ++ sa_inflight p /\
  (Server e <> None ->
     counters (fst (sa_state p)) = foldl apply_event (counters initial_state) (omap request_event (fst <$> sa_answered p))) /\
  (sa_ended p = Some WatcherExits -> sa_inflight p = [] \/ Config.TimeoutShutdown <= sa_clock p) /\
  (sa_ended p = None -> sa_signal p = true -> Server e <> None -> exists evs p' how,
     (length evs <= 3)%nat /\ server_run e evs p = Some p' /\ sa_ended p' = Some how /\
     sa_inflight p' = sa_inflight p /\ sa_clock p' = sa_clock p) /\
  (sa_ended p = None -> sa_main p = Serving -> sa_shutting p = true -> exists p',
     server_run e [ServeReturns; MainEnds] p = Some p' /\ sa_ended p' = Some MainReturns /\
     sa_inflight p' = sa_inflight p /\ sa_answered p' = sa_answered p /\ sa_clock p' = sa_clock p).
Proof.
  intros (logs & Hnew%New_cases)%standalone_start_New Hd Hr config. pose proof (reachable_server_inv _ _ _ Hr) as Hi.
  pose proof (si_ended _ _ _ Hi) as He. split_and!.
  - subst config. naive_solver.
  - intros H. by rewrite H in He.
  - intros msg H. by rewrite H in He.
  - intros how H Hc. apply (si_signal _ _ _ Hi). rewrite H in He. destruct how; try done.
    apply (si_watch _ _ _ Hi). destruct He as [d [Hw _]]. eauto.
  - apply (si_requests _ _ _ Hi).
  - intros Hs. rewrite (si_state _ _ _ Hi), (serve_all_counters Hd e (Config.ExtensionPort config)); [apply replay_events|].
    subst config. naive_solver.
  - intros H. rewrite H in He. destruct He as (d & Hw & [Hf|Hle]); [by left|right].
    etransitivity; [by apply (si_deadline _ _ _ Hi)|done].
  - intros Hn Hs Hsrv. by eapply signal_ends.
  - by apply main_drops.
Qed.

(** A run for witnesses: of two greetings one is answered; then the signal. *)
Definition w_standalone : Extension := mkExtension (Some (new_server 8080)) None.
Definition w_standalone_events : list server_event :=
  [MainListens; Arrives w_hello; Arrives w_hello; Finishes 0; SignalSent; WatcherShutsDown].
Definition w_launched : standalone ref_world := launched (initial_state, (∅, w_world zero_hash)).
Definition w_shutting : standalone ref_world :=
  default w_launched (server_run (GE := ref_geth) w_standalone w_standalone_events w_launched).

Lemma server_run_reach {GE : GoEthereum} {JC : JsonCodec} {TN : TeeNode} {W : Type} {EC : EthClient W} {ES : Escrow W}
    {NW : Network W} e evs (p p' : standalone W) : server_run e evs p = Some p' -> rtc (server_step e) p p'.
Proof.
  revert p. induction evs as [|ev evs IH]; intros p; simpl; [by intros [= ->]|].
  destruct (server_next e ev p) as [q|] eqn:E; [|done]. intros H. eapply rtc_l; [by exists ev|by apply IH].
Qed.

Theorem standalone_shutdown_witness :
  let config := env_config (HO := world_host (fun _ => "")) (w_world zero_hash) in
  (Server w_standalone = None <-> verifier_configured config /\
     ~ (valid_address (GE := ref_geth) (Config.WorkProofEscrowAddress config) /\
        valid_address (GE := ref_geth) (Config.WorkProofRandomNumberV2Addr config))) /\
  (sa_ended w_shutting = Some Panics -> Server w_standalone = None) /\
  (forall msg, sa_ended w_shutting = Some (ServerFatal msg) ->
     exists err, sa_main w_shutting = Got (Some err) /\ msg = "server: " +:+ Error err) /\
  (forall how, sa_ended w_shutting = Some how -> exit_code how = 0 -> sa_signal w_shutting = true) /\
  sa_accepted w_shutting ≡ₚ (fst <$> sa_answered w_shutting) ++ sa_inflight w_shutting /\
  (Server w_standalone <> None ->
     counters (fst (sa_state w_shutting)) =
     foldl apply_event (counters initial_state) (omap (request_event (GE := ref_geth)) (fst <$> sa_answered w_shutting))) /\
  (sa_ended w_shutting = Some WatcherExits -> sa_inflight w_shutting = [] \/ Config.TimeoutShutdown <= sa_clock w_shutting) /\
  (sa_ended w_shutting = None -> sa_signal w_shutting = true -> Server w_standalone <> None -> exists evs p' how,
     (length evs <= 3)%nat /\ server_run (GE := ref_geth) w_standalone evs w_shutting = Some p' /\ sa_ended p' = Some how /\
     sa_inflight p' = sa_inflight w_shutting /\ sa_clock p' = sa_clock w_shutting) /\
  (sa_ended w_shutting = None -> sa_main w_shutting = Serving -> sa_shutting w_shutting = true -> exists p',
     server_run (GE := ref_geth) w_standalone [ServeReturns; MainEnds] w_shutting = Some p' /\
     sa_ended p' = Some MainReturns /\ sa_inflight p' = sa_inflight w_shutting /\
     sa_answered p' = sa_answered w_shutting /\ sa_clock p' = sa_clock w_shutting).
Proof.
  apply (standalone_shutdown (GE := ref_geth) (HO := world_host (fun _ => "")) (w_world zero_hash) (w_world zero_hash)
           w_standalone w_shutting); [vm_compute; reflexivity|apply w_types_distinct|].
  apply (server_run_reach (GE := ref_geth) w_standalone w_standalone_events). vm_compute. reflexivity.
Defined.

(** The second greeting is dropped at once; had the main function waited, the
    goroutine would have exited after its answer. *)
Example second_greeting_dropped :
  option_map (fun p => (sa_ended p, length (sa_inflight p), sa_clock p))
    (server_run (GE := ref_geth) w_standalone [ServeReturns; MainEnds] w_shutting) = Some (Some MainReturns, 1%nat, 0).
Proof. vm_compute. reflexivity. Qed.
Example second_greeting_answered :
  option_map (fun p => (sa_ended p, length (sa_answered p)))
    (server_run (GE := ref_geth) w_standalone [ServeReturns; Finishes 0; ShutdownReturns] w_shutting) =
  Some (Some WatcherExits, 2%nat).
Proof. vm_compute. reflexivity. Qed.
