(* ===== verification/FccVerdict.v ===== *)
(** * The signature chain of a verdict (contracts/lib/FccVerdict.sol)

    What the escrow contract signs off: the hash of an action result, the
    payload of its signature and the recovery of the signer. *)

From S2P Require Import Prelude GoStd GoEth Bundle.

(** The precompiled contract: the digest, the recovery byte and both words of
    the signature; the zero address when nothing is recovered. *)
Class EVM := { ecrecover : bytes -> Z -> bytes -> bytes -> bytes }.

(** [bytes32("...")]: a text at the left of a word. *)
Definition bytes32 (s : string) : bytes := copy_to 32 (bytes_of_string s).

(** [abi.encode] of a uint256: one word. *)
Definition word (x : Z) : bytes := be_bytes 32 x.

Definition TEE_ACTION_RESULT_PREFIX : bytes := bytes32 "TEE_ACTION_RESULT".
Definition SECP256K1_HALF_N : Z := 0x7FFFFFFFFFFFFFFFFFFFFFFFFFFFFFFF5D576E7357A4501DDFE92F46681B20A0.

Section FccVerdict.
Context {GE : GoEthereum} {EV : EVM}.

Definition actionResultHash (data id : bytes) (submissionTag : string) (status : Z) : bytes :=
  keccak256 (keccak256 data ++ id ++ keccak256 (bytes_of_string submissionTag) ++ be_bytes 1 status).

Definition payloadHash (chainId : Z) (dataHash : bytes) : bytes :=
  keccak256 (TEE_ACTION_RESULT_PREFIX ++ word chainId ++ dataHash).

Definition ethSignedHash (hash : bytes) : bytes :=
  keccak256 (Byte.x19 :: bytes_of_string ("Ethereum Signed Message:" +:+ String "010" "32") ++ hash).

Definition recoverCanonical (digest signature : bytes) : bytes :=
  if negb (llen signature =? 65) then zero_address else
  let r := take 32 signature in
  let s := take 32 (drop 32 signature) in
  let v := be_value (drop 64 signature) in
  let v := if v <? 27 then v + 27 else v in
  if negb (v =? 27) && negb (v =? 28) then zero_address else
  if SECP256K1_HALF_N <? be_value s then zero_address else
  ecrecover digest v r s.

Definition recoverVerdictSigner (data id : bytes) (submissionTag : string) (status chainId : Z) (signature : bytes) : bytes :=
  let arHash := actionResultHash data id submissionTag status in
  let digest := ethSignedHash (payloadHash chainId arHash) in
  recoverCanonical digest signature.

(** A canonical signature is recovered from both forms of its last byte. *)
Lemma recoverCanonical_signed digest r s v :
  length r = 32%nat -> length s = 32%nat -> be_value s <= SECP256K1_HALF_N -> (v = 0 \/ v = 1) ->
  recoverCanonical digest (r ++ s ++ be_bytes 1 v) = ecrecover digest (v + 27) r s /\
  recoverCanonical digest (r ++ s ++ be_bytes 1 (v + 27)) = ecrecover digest (v + 27) r s.
Proof.
  intros Hr Hs Hlow Hv.
  assert (forall b, length b = 1%nat -> llen (r ++ s ++ b) = 65) as Hlen by (intros; unfold llen; rewrite !length_app; lia).
  assert (forall b, take 32 (r ++ s ++ b) = r) as Htr by (intros; by rewrite take_app_length').
  assert (forall b, take 32 (drop 32 (r ++ s ++ b)) = s) as Hts.
  { intros b. rewrite drop_app_length' by done. by rewrite take_app_length'. }
  assert (forall b, drop 64 (r ++ s ++ b) = b) as Hd.
  { intros b. rewrite (assoc_L (++)), drop_app_length'; [done|]. rewrite length_app. lia. }
  assert (forall x, 0 <= x < 256 -> be_value (be_bytes 1 x) = x) as Hx.
  { intros x ?. rewrite be_value_bytes. apply Z.mod_small. simpl. lia. }
  unfold recoverCanonical. rewrite !Hlen by apply length_be_bytes. rewrite !Htr, !Hts, !Hd, !Hx by lia. cbn [negb Z.eqb Pos.eqb].
  destruct (Z.ltb_spec SECP256K1_HALF_N (be_value s)); [lia|]. by destruct Hv as [-> | ->].
Qed.
End FccVerdict.
