(* ===== verification/Signing.v ===== *)
(** * Signed action results (go/internal/workproof/action_result_digest.go,
    go/cmd/fcc-spike/main.go)

    The digest that a node signs for a result, and the command that writes the
    test vectors of the signature. *)

From S2P Require Import Prelude GoStd GoEth Bundle Encoding Report Extension Revert TeeCalls Instructions FccVerdict Reference.

(** ** The libraries: tee-node, go-flare-common and go-ethereum's crypto *)

(** [Payload_Hash] is [signing.NewPayload] followed by [Hash]; [Submit] and
    [TEEActionResult] are constants of these libraries. *)
Class SigningLib := {
  Submit : string;
  TEEActionResult : string;
  ActionResult_Hash : Extension.ActionResult -> bytes;
  Payload_Hash : string -> Z -> bytes -> result bytes;
  crypto_Sign : bytes -> bytes -> result bytes;
  PublicKey : bytes -> bytes;
  FromECDSA : bytes -> bytes;
}.

(** [os.WriteFile] with mode 0644. *)
Class OutputFile (W : Type) := { WriteFile_0644 : string -> bytes -> M W unit }.

(** ** [json.MarshalIndent] with two spaces, on a tree *)

Inductive json :=
| JString (s : string)
| JNumber (n : Z)
| JObject (members : list (string * json)).

(** The members of a map are sorted by key; those of a struct keep the order
    of its fields. *)
Fixpoint MarshalIndent (prefix : string) (j : json) : string :=
  match j with
  | JString s => Json.json_string s
  | JNumber n => Json.json_int n
  | JObject [] => "{}"
  | JObject members =>
    let inner := prefix +:+ "  " in
    "{" +:+ nl +:+
    Join (map (fun '(k, v) => inner +:+ Json.json_string k +:+ ": " +:+ MarshalIndent inner v) members) ("," +:+ nl) +:+
    nl +:+ prefix +:+ "}"
  end.

(** ** The vectors *)

Record vector_ActionResult := mkVectorResult { va_ID : string; va_SubmissionTag : string; va_Status : Z; va_DataHex : string }.

Record vector := mkVectorDoc {
  PrivateKeyTestOnly : string;
  ExpectedTeeAddress : string;
  vd_ChainID : Z;
  vd_ActionResult : vector_ActionResult;
  ActionResultHash : string;
  PayloadHash : string;
  EthSignedHash : string;
  vd_Signature : string;
  SignatureR : string;
  SignatureS : string;
  SignatureV : Z;
}.

Definition vector_json (v : vector) : json :=
  JObject [("privateKeyTestOnly", JString (PrivateKeyTestOnly v)); ("expectedTeeAddress", JString (ExpectedTeeAddress v));
           ("chainId", JNumber (vd_ChainID v));
           ("actionResult", JObject [("id", JString (va_ID (vd_ActionResult v)));
              ("submissionTag", JString (va_SubmissionTag (vd_ActionResult v)));
              ("status", JNumber (va_Status (vd_ActionResult v))); ("dataHex", JString (va_DataHex (vd_ActionResult v)))]);
           ("actionResultHash", JString (ActionResultHash v)); ("payloadHash", JString (PayloadHash v));
           ("ethSignedHash", JString (EthSignedHash v)); ("signature", JString (vd_Signature v));
           ("signatureR", JString (SignatureR v)); ("signatureS", JString (SignatureS v));
           ("signatureV", JNumber (SignatureV v))].

Section Signing.
Context {GE : GoEthereum} {TL : TeeLib} {SL : SigningLib}.

Definition ActionResultSigningDigest (r : Extension.ActionResult) (chainID : Z) : result bytes :=
  let inner := BytesToHash (ActionResult_Hash r) in
  Payload_Hash TEEActionResult chainID inner.

(** The result of which a vector is made: its other fields are zero. *)
Definition spike_result (id : bytes) (tag : string) (status : Z) (data : bytes) : Extension.ActionResult :=
  Extension.mkActionResult id tag "" zero_hash zero_hash data status "".

Definition hex0x (l : bytes) : string := "0x" +:+ hex_encode l.

Definition buildVector (privKey : bytes) (chainID : Z) (id : bytes) (tag : string) (status : Z) (data : bytes)
  : result vector :=
  let ar := spike_result id tag status data in
  let arHash := BytesToHash (ActionResult_Hash ar) in
  payloadHash ← wrap_err "payload hash: " (Payload_Hash TEEActionResult chainID arHash);
  let ethSignedHash := accounts_TextHash payloadHash in
  sig ← wrap_err "sign: " (crypto_Sign ethSignedHash privKey);
  let addr := PubkeyToAddress (PublicKey privKey) in
  match sig !! 64%nat with
  | None => Panic "index out of range"
  | Some v =>
    Ok (mkVectorDoc (hex_encode (FromECDSA privKey)) (Address_Hex addr) chainID
          (mkVectorResult (hex0x id) tag status (hex0x data)) (hex0x arHash)
          (let p := hex_encode payloadHash in if nonempty p then "0x" +:+ p else p)
          (hex0x ethSignedHash) (hex0x sig) (hex0x (take 32 sig)) (hex0x (take 32 (drop 32 sig)))
          (uint 8 (byte_val v + 27)))
  end.

Definition spike_key : string := "ac0974bec39a17e36ba4a6b4d238ff944bacb478cbed5efcae784d7bf4f2ff80".
Definition spike_data : bytes :=
  bytes_of_string (Json.json_object [("outcome", Json.json_string "PASS"); ("attempt", Json.json_int 1)]).

(** The document, a map: its keys in their order. *)
Definition spike_doc (primary crossChain : vector) : json :=
  JObject [
    ("actionResultHashMethod", JString "keccak256(keccak256(data) || id || keccak256(submissionTag) || status)");
    ("coston2", vector_json primary);
    ("crossChainReplayCheck", vector_json crossChain);
    ("note", JString ("router.SignResult is an internal tee-node package and cannot be imported cross-module; " +:+
      "this reproduces its exact 3-line body using only the same real exported primitives (ActionResult.Hash, " +:+
      "signing.Payload.Hash, accounts.TextHash, crypto.Sign), not a reimplementation of any cryptography."));
    ("payloadHashMethod", JString "keccak256(abi.encode(bytes32('TEE_ACTION_RESULT'), uint256(chainId), actionResultHash))");
    ("protocol", JString "TEE_ACTION_RESULT");
    ("signingMethod", JString ("secp256k1(crypto.Sign(accounts.TextHash(payloadHash), key)) " +:+
      "-- EIP-191 personal-sign wrap over payloadHash"));
    ("source", JString ("tee-node v0.0.24 pkg/types/actions.go Hash(), internal/router/utils.go SignResult, " +:+
      "pkg/utils/crypto.go Sign; go-flare-common v1.2.2-...-09a10067e6a4 pkg/signing/hash.go Payload.Hash()"))].

Context {W : Type} {SE : SupportEnv W} {OF : OutputFile W}.

(** The command: the value is the line it prints, when it prints one. *)
Definition fcc_spike (out : string) : M W (option string) :=
  privKey ← lift (crypto_HexToECDSA (W := W) spike_key);
  let id := common_HexToHash "0x1111" in
  primary ← lift (buildVector privKey 114 id Submit 1 spike_data);
  crossChain ← lift (buildVector privKey 16 id Submit 1 spike_data);
  let buf := MarshalIndent "" (spike_doc primary crossChain) in
  if String.eqb out "" then mret (Some buf)
  else WriteFile_0644 out (bytes_of_string (buf +:+ nl)) ;; mret None.
End Signing.

(** ** What the libraries promise *)

(** The hashes follow the published formulas; a signature is canonical: two words, the second of them low, and a recovery
    byte of 0 or 1, from which the signer's key is recovered, as the
    precompiled contract does. *)
Class SigningLaws {GE : GoEthereum} {EV : EVM} {TL : TeeLib} {SL : SigningLib} := {
  hash_length s : length (common_HexToHash s) = 32%nat;
  action_hash r : length (Extension.ar_ID r) = 32%nat -> BytesToHash (ActionResult_Hash r) =
    actionResultHash (Extension.ar_Data r) (Extension.ar_ID r) (Extension.ar_SubmissionTag r) (Extension.ar_Status r);
  payload_hash c h x : Payload_Hash TEEActionResult c h = Ok x -> x = payloadHash c h;
  text_hash h : length h = 32%nat -> accounts_TextHash h = ethSignedHash h;
  sign_shape h k sig : crypto_Sign h k = Ok sig -> exists r s v, sig = r ++ s ++ [v] /\ length r = 32%nat /\
    length s = 32%nat /\ byte_val v <= 1 /\ be_value s <= SECP256K1_HALF_N;
  sign_recovers h k sig : crypto_Sign h k = Ok sig -> crypto_SigToPub h sig = Ok (PublicKey k);
  ecrecover_pub h r s v pub : length r = 32%nat -> length s = 32%nat -> crypto_SigToPub h (r ++ s ++ [v]) = Ok pub ->
    ecrecover h (byte_val v + 27) r s = PubkeyToAddress pub;
}.

(** The payload hash of a result separates the chains. *)
Class ChainSeparation {GE : GoEthereum} := {
  payload_chain c c' h : is_uint 64 c -> is_uint 64 c' -> payloadHash c h = payloadHash c' h -> c = c';
}.

(** The reader of a vector: it takes the digest and the three parts of the
    signature from their texts, with the recovery byte offset by 27, and
    recovers the key that signed. *)
Definition read_hex0x (s : string) : option bytes := hex_decode (TrimPrefix s "0x").

Definition recover_vector {TL : TeeLib} (v : vector) : result bytes :=
  match read_hex0x (PayloadHash v), read_hex0x (SignatureR v), read_hex0x (SignatureS v) with
  | Some digest, Some r, Some s => crypto_SigToPub (accounts_TextHash digest) (r ++ s ++ [byte_of_Z (SignatureV v - 27)])
  | _, _, _ => Err (Plain "not a hex text")
  end.

(** The reader in the contract: it takes the result and the signature from
    their texts and the chain it runs on. *)
Definition contract_signer {GE : GoEthereum} {EV : EVM} (chainId : Z) (v : vector) : option bytes :=
  data ← read_hex0x (va_DataHex (vd_ActionResult v));
  id ← read_hex0x (va_ID (vd_ActionResult v));
  signature ← read_hex0x (vd_Signature v);
  Some (recoverVerdictSigner data id (va_SubmissionTag (vd_ActionResult v)) (va_Status (vd_ActionResult v)) chainId signature).

Lemma read_hex0x_hex l : read_hex0x (hex0x l) = Some l.
Proof. unfold read_hex0x, hex0x. by rewrite TrimPrefix_app, hex_decode_encode. Qed.

Section vectors.
Context {GE : GoEthereum} {EV : EVM} {TL : TeeLib} {SL : SigningLib} {LAWS : SigningLaws}.

(** A vector that verifies: its digest is the signing digest of the result,
    reading it recovers the key whose address it names, and so does the
    contract on the chain of the vector. *)
Record verifies (key : bytes) (chainID : Z) (r : Extension.ActionResult) (v : vector) : Prop := {
  vv_chain : vd_ChainID v = chainID;
  vv_digest : exists digest, ActionResultSigningDigest r chainID = Ok digest /\ PayloadHash v = hex0x digest /\
    EthSignedHash v = hex0x (accounts_TextHash digest);
  vv_recovery : SignatureV v = 27 \/ SignatureV v = 28;
  vv_signer : recover_vector v = Ok (PublicKey key);
  vv_address : ExpectedTeeAddress v = Address_Hex (PubkeyToAddress (PublicKey key));
  vv_hash : ActionResultHash v = hex0x (BytesToHash (ActionResult_Hash r));
  vv_contract : contract_signer chainID v = Some (PubkeyToAddress (PublicKey key));
}.

(** The contract recovers the signer of a result that is signed as the node
    signs it. *)
Lemma recoverVerdictSigner_signed key chainID r digest sig :
  length (Extension.ar_ID r) = 32%nat -> ActionResultSigningDigest r chainID = Ok digest ->
  crypto_Sign (accounts_TextHash digest) key = Ok sig ->
  recoverVerdictSigner (Extension.ar_Data r) (Extension.ar_ID r) (Extension.ar_SubmissionTag r) (Extension.ar_Status r) chainID sig = PubkeyToAddress (PublicKey key).
Proof.
  intros Hid Hd Hs. unfold ActionResultSigningDigest in Hd. apply payload_hash in Hd. rewrite action_hash in Hd by done.
  destruct (sign_shape _ _ _ Hs) as (r1 & s1 & v & -> & Hr & Hs1 & Hv & Hlow). apply sign_recovers in Hs.
  pose proof (byte_val_range v) as Hb. unfold recoverVerdictSigner. rewrite <- Hd.
  rewrite <- text_hash by (subst digest; apply length_keccak256).
  replace [v] with (be_bytes 1 (byte_val v)).
  - destruct (recoverCanonical_signed (accounts_TextHash digest) r1 s1 (byte_val v)) as [-> _]; try done; [lia|].
    by apply ecrecover_pub.
  - simpl. by rewrite byte_of_Z_val.
Qed.

Lemma buildVector_verifies key chainID id tag status data v :
  length id = 32%nat ->
  buildVector key chainID id tag status data = Ok v -> verifies key chainID (spike_result id tag status data) v.
Proof.
  intros Hid. unfold buildVector. intros (digest & Hd%wrap_err_Ok & (sig & Hs%wrap_err_Ok & H)%bind_Ok)%bind_Ok.
  pose proof (recoverVerdictSigner_signed key chainID (spike_result id tag status data) digest sig Hid Hd Hs) as Hc.
  destruct (sign_shape _ _ _ Hs) as (rr & ss & b & -> & Hlr & Hls & Hb & _). pose proof (byte_val_range b) as Hr.
  rewrite lookup_app_r, lookup_app_r in H by lia. rewrite Hlr, Hls in H. simpl in H. injection H as <-.
  assert (uint 8 (byte_val b + 27) = byte_val b + 27) as Hv by (apply uint_id; unfold is_uint; lia).
  assert ((let p := hex_encode digest in if nonempty p then "0x" +:+ p else p) = hex0x digest) as Hp.
  { apply payload_hash in Hd as ->. pose proof (length_keccak256 (TEE_ACTION_RESULT_PREFIX ++ word chainID ++
      BytesToHash (ActionResult_Hash (spike_result id tag status data)))) as Hl. unfold payloadHash.
    by destruct (keccak256 _). }
  cbn zeta in Hp. split; simpl; try done.
  - exists digest. split_and!; done.
  - rewrite Hv. lia.
  - unfold recover_vector. simpl. rewrite Hp, !read_hex0x_hex, Hv. replace (byte_val b + 27 - 27) with (byte_val b) by lia.
    rewrite byte_of_Z_val. rewrite <- (sign_recovers _ _ _ Hs). do 2 f_equal.
    + by rewrite take_app_length'.
    + rewrite drop_app_length' by done. by rewrite take_app_length'.
  - unfold contract_signer. simpl. rewrite !read_hex0x_hex. simpl. by rewrite <- Hc.
Qed.

Lemma digest_chain {CS : ChainSeparation} r c c' x x' :
  is_uint 64 c -> is_uint 64 c' -> c <> c' -> ActionResultSigningDigest r c = Ok x -> ActionResultSigningDigest r c' = Ok x' -> x <> x'.
Proof. intros Hc Hc' Hne ->%payload_hash ->%payload_hash H. by eapply Hne, payload_chain. Qed.
End vectors.

(** ** Concrete libraries, for witnesses: a signature is the hash and the key *)

#[export] Instance ref_evm : EVM := {| ecrecover _ _ _ s := copy_to 20 (drop 12 s) |}.

Definition ref_public (k : bytes) : bytes := Byte.x00 :: copy_to 31 k.

Section libraries.
Context {GE : GoEthereum} (Hword : forall l, BytesToHash l = be_bytes 32 (be_value l)).

Definition spike_teelib : TeeLib := {|
  Decode_TeeInfo _ := Err (Plain "EOF");
  Decode_ActionResponse _ := Err (Plain "EOF");
  ParsePubKey p := Ok (fst p);
  PubkeyToAddress k := copy_to 20 (drop 12 k);
  TeeInfo_Hash _ := Ok zero_hash;
  ProxyTeeInfo_Hash _ h := Ok h;
  accounts_TextHash h := ethSignedHash h;
  common_HexToHash s := match hex_decode (TrimPrefix s "0x") with Some l => be_bytes 32 (be_value l) | None => zero_hash end;
  crypto_SigToPub _ sig := Ok (take 32 (drop 32 sig));
  attestation_claims _ := Err (Plain "no token");
|}.

#[export] Instance ref_signing : SigningLib := {|
  Submit := "submit";
  TEEActionResult := "TEE_ACTION_RESULT";
  ActionResult_Hash r := actionResultHash (Extension.ar_Data r) (Extension.ar_ID r) (Extension.ar_SubmissionTag r)
    (Extension.ar_Status r);
  Payload_Hash _ c h := Ok (payloadHash c h);
  crypto_Sign h k := Ok (copy_to 32 h ++ ref_public k ++ [Byte.x01]);
  PublicKey := ref_public;
  FromECDSA k := k;
|}.

Lemma Ok_eq {A} (a b : A) : Ok a = Ok b -> a = b.
Proof. congruence. Qed.

Lemma ref_public_low k : be_value (ref_public k) <= SECP256K1_HALF_N.
Proof.
  change (be_value (ref_public k)) with (be_value (copy_to 31 k)). pose proof (be_value_bound (copy_to 31 k)) as H.
  rewrite length_copy_to in H. change (256 ^ Z.of_nat 31) with (2 ^ 248) in H. unfold SECP256K1_HALF_N. lia.
Qed.

Lemma ref_signing_laws : SigningLaws (TL := spike_teelib).
Proof using Hword.
  split; cbn [common_HexToHash ActionResult_Hash Payload_Hash accounts_TextHash crypto_Sign crypto_SigToPub
              PublicKey ecrecover PubkeyToAddress ref_signing spike_teelib ref_evm].
  - intros s. destruct (hex_decode _); [apply length_be_bytes|done].
  - intros r _. rewrite Hword. apply be_word, length_keccak256.
  - intros c h x <-%Ok_eq. done.
  - done.
  - intros h k sig <-%Ok_eq. exists (copy_to 32 h), (ref_public k), Byte.x01. split_and!; [done|apply length_copy_to| |done|].
    + unfold ref_public. cbn [length]. by rewrite length_copy_to.
    + apply ref_public_low.
  - intros h k sig <-%Ok_eq. f_equal. rewrite drop_app_length' by (by rewrite length_copy_to).
    rewrite take_app_length'; [done|]. unfold ref_public. cbn [length]. by rewrite length_copy_to.
  - intros h r s v pub Hr Hs <-%Ok_eq. rewrite drop_app_length' by done. by rewrite take_app_length'.
Qed.
End libraries.

(** The hash of this instance drops the first word of its input and keeps the
    second, so that it separates the chains. *)
Definition spike_geth : GoEthereum := {|
  crypto_Keccak256 data := drop 32 data;
  hexutil_Decode := ref_Decode;
  hexutil_DecodeBig := ref_DecodeBig;
  HexToAddress := ref_HexToAddress;
  IsHexAddress := ref_IsHexAddress;
  Address_Hex a := "0x" +:+ hex_encode a;
  BytesToHash l := be_bytes 32 (be_value l);
  RightPadBytes l n := l ++ zero_bytes (Z.to_nat n - length l);
  abi_Pack := ref_Pack;
  abi_Unpack := ref_Unpack;
  structs_Encode _ := ref_Encode;
  structs_DecodeTo := ref_DecodeTo;
|}.

#[local] Existing Instance spike_geth.

Lemma spike_payload c h : payloadHash (GE := spike_geth) c h = word c.
Proof.
  unfold payloadHash, keccak256. cbn [crypto_Keccak256 spike_geth].
  rewrite drop_app_length' by done. unfold copy_to. rewrite take_app_length' by (unfold word; by rewrite length_be_bytes).
  rewrite length_app. unfold word at 2. rewrite length_be_bytes. by rewrite app_nil_r.
Qed.

#[export] Instance spike_laws : SigningLaws (GE := spike_geth) (TL := spike_teelib (GE := spike_geth)).
Proof. by apply ref_signing_laws. Qed.

#[export] Instance spike_separation : ChainSeparation (GE := spike_geth).
Proof.
  split. intros c c' h Hc Hc'. rewrite !spike_payload. intros H. apply (f_equal be_value) in H. unfold word in H.
  rewrite !be_value_bytes in H. unfold is_uint in *. by rewrite !Z.mod_small in H by lia.
Qed.

#[export] Instance ref_output : OutputFile Z := {| WriteFile_0644 _ _ := fun w => (Ok tt, w + 1) |}.

(** ** Properties *)

(** C32. The command writes vectors that verify: when it ends well, the document
    holds the vectors of one result for the chains 114 and 16; the digest of
    each is the one that [ActionResultSigningDigest] gives for its chain; the
    three parts of the signature, read back with the recovery byte offset by
    27, recover the key whose address the vector names; the escrow contract
    recovers that address from the result and the signature on the chain of the
    vector; both name the same hash of the result, and their digests differ.
    The document is printed, or written to the file with a final newline. *)
Theorem fcc_vectors_verify {GE : GoEthereum} {EV : EVM} {TL : TeeLib} {SL : SigningLib} {LAWS : SigningLaws} {CS : ChainSeparation} {W}
    {SE : SupportEnv W} {OF : OutputFile W} out (w w' : W) line :
  fcc_spike out w = (Ok line, w') ->
  exists key primary crossChain,
    crypto_HexToECDSA (W := W) spike_key = Ok key /\
    let r := spike_result (common_HexToHash "0x1111") Submit 1 spike_data in
    let doc := MarshalIndent "" (spike_doc primary crossChain) in
    verifies key 114 r primary /\ verifies key 16 r crossChain /\
    ActionResultHash primary = ActionResultHash crossChain /\ PayloadHash primary <> PayloadHash crossChain /\
    (if String.eqb out "" then line = Some doc /\ w' = w
     else line = None /\ WriteFile_0644 out (bytes_of_string (doc +:+ nl)) w = (Ok tt, w')).
Proof.
  unfold fcc_spike. intros (key & w1 & [Hk <-]%lift_eq & H)%M_bind_Ok. cbn zeta in H.
  apply M_bind_Ok in H as (p & w2 & [Hp%(buildVector_verifies _ _ _ _ _ _ _ (hash_length _)) <-]%lift_eq & H).
  apply M_bind_Ok in H as (x & w3 & [Hx%(buildVector_verifies _ _ _ _ _ _ _ (hash_length _)) <-]%lift_eq & H).
  exists key, p, x. split; [done|]. cbn zeta. split; [done|]. split; [done|].
  split; [by rewrite (vv_hash _ _ _ _ Hp), (vv_hash _ _ _ _ Hx)|]. split.
  - destruct (vv_digest _ _ _ _ Hp) as (d & Hd & -> & _), (vv_digest _ _ _ _ Hx) as (d' & Hd' & -> & _).
    unfold hex0x. intros E%(inj (String.append "0x"))%(inj hex_encode).
    revert E. eapply digest_chain; [..|exact Hd|exact Hd']; unfold is_uint; lia.
  - destruct (String.eqb out ""); [by apply mret_eq in H as [[= ->] ->]|].
    apply M_bind_Ok in H as ([] & w4 & Hw & [[= ->] ->]%mret_eq). done.
Qed.

Definition spike_support : SupportEnv Z := {|
  crypto_HexToECDSA s := match hex_decode s with Some k => Ok k | None => Err (Plain "invalid hex data for private key") end;
  godotenv_Load w := (None, w);
  os_ReadFile _ := fun w => (Ok [], w);
  Unmarshal_Addresses _ := Err (Plain "unexpected end of JSON input");
  Unmarshal_RawContracts _ := Err (Plain "unexpected end of JSON input");
  ethclient_Connect _ := fun w => (Ok tt, w);
  bind_contract _ _ := Ok tt;
|}.

Definition w_spike (out : string) : result (option string) * Z :=
  fcc_spike (GE := spike_geth) (TL := spike_teelib (GE := spike_geth)) (SE := spike_support) out 0.

Theorem fcc_vectors_verify_witness :
  exists key primary crossChain,
    crypto_HexToECDSA (SupportEnv := spike_support) spike_key = Ok key /\
    let r := spike_result (common_HexToHash (TeeLib := spike_teelib (GE := spike_geth)) "0x1111") Submit 1 spike_data in
    let doc := MarshalIndent "" (spike_doc primary crossChain) in
    verifies (GE := spike_geth) (TL := spike_teelib (GE := spike_geth)) key 114 r primary /\
    verifies (GE := spike_geth) (TL := spike_teelib (GE := spike_geth)) key 16 r crossChain /\
    ActionResultHash primary = ActionResultHash crossChain /\ PayloadHash primary <> PayloadHash crossChain /\
    ((None : option string) = None /\ WriteFile_0644 "vectors.json" (bytes_of_string (doc +:+ nl)) 0 = (Ok tt, 1)).
Proof.
  apply (fcc_vectors_verify (GE := spike_geth) (TL := spike_teelib (GE := spike_geth)) (SE := spike_support) "vectors.json" 0 1 None).
  vm_compute. reflexivity.
Defined.

(** The tail of a printed document. *)
Example w_indented :
  MarshalIndent "" (JObject [("a", JNumber 1); ("b", JObject [("c", JString "x")])])
  = "{" +:+ nl +:+ "  " +:+ Json.json_string "a" +:+ ": 1," +:+ nl +:+ "  " +:+ Json.json_string "b" +:+ ": {" +:+ nl +:+
    "    " +:+ Json.json_string "c" +:+ ": " +:+ Json.json_string "x" +:+ nl +:+ "  }" +:+ nl +:+ "}".
Proof. vm_compute. reflexivity. Qed.
