(* ===== verification/Contract.v ===== *)
(** * The escrow contract (contracts/WorkProofEscrow.sol)

    The storage of the contract and each of its functions, as a transaction
    runs them: a revert is an error, and undoes the transaction. The job is the
    one that the generated binding returns, whose numbers are never nil here.
    Events are left out. *)

From S2P Require Import Prelude GoStd GoEth Bundle WireTypes Verifier Escrow FccVerdict.

(** ** Other contracts and the transaction *)

(** [TeeInstructionParams]. *)
Record TeeInstructionParams := mkParams {
  tp_opType : bytes;
  tp_opCommand : bytes;
  tp_message : bytes;
  tp_cosigners : list bytes;
  tp_cosignersThreshold : Z;
  tp_claimBackAddress : bytes;
}.

(** Flare's contracts and the token, on the state of the rest of the chain:
    none of them calls back into the escrow. [safeTransfer] sends from it. *)
Class Flare (W : Type) := {
  safeTransfer : bytes -> Z -> M W unit;
  safeTransferFrom : bytes -> bytes -> Z -> M W unit;
  getTeeMachineStatus : bytes -> M W Z;
  getRandomTeeIds : Z -> Z -> M W (list bytes);
  sendInstructions : Z -> list bytes -> TeeInstructionParams -> M W bytes;
  nextPublicExtensionId : M W Z;
  getTeeExtensionInstructionsSender : Z -> M W bytes;
  getVotingRoundId : Z -> M W Z;
  getRandomNumberHistorical : Z -> M W (Z * bool);
  getAssetManagerFXRP_fAsset : M W bytes;
  getRelay : M W bytes;
  getRandomNumberV2 : M W bytes;
}.

(** A transaction and its block; [tx_code] is the size of an account's code. *)
Record Tx := mkTx {
  tx_block : BlockEnv;
  tx_number : Z;
  tx_sender : bytes;
  tx_value : Z;
  tx_code : bytes -> Z;
}.
Definition now (tx : Tx) : Z := blk_timestamp (tx_block tx).
Definition this (tx : Tx) : bytes := blk_this (tx_block tx).

(** ** Constants and storage *)

Definition State_Created : Z := 0.
Definition State_Accepted : Z := 1.
Definition State_RandomnessPending : Z := 2.
Definition State_ReadyToVerify : Z := 3.
Definition State_Verifying : Z := 4.
Definition State_AwaitingResubmission : Z := 5.
Definition State_Retryable : Z := 6.
Definition State_Paid : Z := 7.
Definition State_Cancelled : Z := 8.
Definition State_Refunded : Z := 9.
Definition State_RefundPending : Z := 10.

Definition TEE_STATUS_PRODUCTION : Z := 2.
Definition OP_TYPE : bytes := bytes32 "WORKPROOF".
Definition OP_COMMAND : bytes := bytes32 "VERIFY".
Definition MAX_PROTOCOL_FEE_BPS : Z := 1000.
Definition MIN_VERIFICATION_TIMEOUT : Z := 30.
Definition MAX_VERIFICATION_TIMEOUT : Z := 7 * 86400.
Definition FIRST_PUBLIC_EXTENSION_ID : Z := 0x10000.

(** The storage, with the immutable treasury. *)
Record EscrowState := mkEscrow {
  es_treasury : bytes;
  es_owner : bytes;
  es_pendingOwner : bytes;
  es_protocolFeeBps : Z;
  es_paused : bool;
  es_extensionId : Z;
  es_nextJobId : Z;
  es_jobs : gmap Z Job;
}.

(** What a mapping holds where nothing was written. *)
Definition zero_terms : JobTerms :=
  mkTerms zero_address zero_address zero_address (Some 0) (Some 0) 0 0 0 0 0 zero_hash zero_hash zero_hash zero_hash.
Definition zero_attempt : AttemptState :=
  mkAttempt 0 zero_address (Some 0) zero_hash (Some 0) (Some 0) zero_hash false zero_hash 0 0.
Definition zero_job : Job := mkJob zero_terms zero_attempt State_Created false.

Definition job_at (s : EscrowState) (id : Z) : Job := default zero_job (es_jobs s !! id).
Definition num (x : bigint) : Z := default 0 x.

Definition set_job (id : Z) (j : Job) (s : EscrowState) : EscrowState :=
  mkEscrow (es_treasury s) (es_owner s) (es_pendingOwner s) (es_protocolFeeBps s) (es_paused s) (es_extensionId s)
    (es_nextJobId s) (<[id := j]> (es_jobs s)).
Definition set_nextJobId (n : Z) (s : EscrowState) : EscrowState :=
  mkEscrow (es_treasury s) (es_owner s) (es_pendingOwner s) (es_protocolFeeBps s) (es_paused s) (es_extensionId s) n (es_jobs s).
Definition set_admin (owner pending : bytes) (bps : Z) (paused : bool) (ext : Z) (s : EscrowState) : EscrowState :=
  mkEscrow (es_treasury s) owner pending bps paused ext (es_nextJobId s) (es_jobs s).

Definition with_state (st : Z) (j : Job) : Job := mkJob (Terms j) (Current j) st (Settled j).
Definition settled_as (st : Z) (j : Job) : Job := mkJob (Terms j) (Current j) st true.
Definition with_attempt (a : AttemptState) (st : Z) (j : Job) : Job := mkJob (Terms j) a st (Settled j).

(** Checked arithmetic: an overflow reverts. *)
Definition checked_uint (w x : Z) : result Z := if x <? 2 ^ w then Ok x else Err (Plain "Panic(0x11)").

(** ** The ABI coding of the two static tuples *)

Definition address_word (a : bytes) : bytes := zero_bytes 12 ++ a.

(** [abi.encode(instruction)]. *)
Definition abi_encode_instruction (i : WorkProofInstruction) : bytes :=
  word (num (i_ChainId i)) ++ address_word (i_EscrowAddress i) ++ word (num (i_JobId i)) ++ word (i_Attempt i) ++
  i_SpecHash i ++ i_PrivateBundleHash i ++ i_CiphertextHash i ++ address_word (i_ArtifactAddress i) ++
  word (num (i_ArtifactBlock i)) ++ i_ArtifactCodeHash i ++ word (num (i_RandomRound i)) ++ i_RandomValueHash i ++
  i_EngineVersionHash i ++ word (i_ExpiresAt i).

(** The n-th word, a number of some width and an address: a value that does
    not fit its type reverts. *)
Definition word_at (data : bytes) (n : nat) : bytes := take 32 (drop (32 * n) data).
Definition uint_at (w : Z) (data : bytes) (n : nat) : option Z :=
  let x := be_value (word_at data n) in if x <? 2 ^ w then Some x else None.
Definition address_at (data : bytes) (n : nat) : option bytes :=
  let x := word_at data n in if bool_decide (take 12 x = zero_bytes 12) then Some (drop 12 x) else None.

(** [abi.decode(data, (VerdictV1))]. *)
Definition abi_decode_verdict (data : bytes) : option VerdictV1 :=
  if llen data <? 32 * 20 then None else
  version ← uint_at 8 data 0; escrow ← address_at data 1; chain ← uint_at 256 data 2; job ← uint_at 256 data 3;
  attempt ← uint_at 64 data 4; artifact ← address_at data 8; block ← uint_at 256 data 9;
  round ← uint_at 256 data 11; outcome ← uint_at 8 data 14; passed ← uint_at 32 data 15; executed ← uint_at 32 data 16;
  issued ← uint_at 64 data 18; expires ← uint_at 64 data 19;
  if 2 <? outcome then None else
  Some (mkVerdict
    (mkIdentity version escrow (Some chain) (Some job) attempt (word_at data 5) (word_at data 6) (word_at data 7) artifact
       (Some block))
    (mkVerdictOutcome (word_at data 10) (Some round) (word_at data 12) (word_at data 13) outcome passed executed
       (word_at data 17) issued expires)).

(** ** The functions *)
Section Contract.
Context {GE : GoEthereum} {EV : EVM} {W : Type} {FL : Flare W}.
Abbreviation C := (M (EscrowState * W)).

Definition revert {A} (e : string) : C A := lift (Err (Plain e)).
Definition revert_if (c : bool) (e : string) : C unit := if c then revert e else mret tt.
Definition storage : C EscrowState := fun x => (Ok (fst x), x).
Definition update (f : EscrowState -> EscrowState) : C unit := fun '(s, w) => (Ok tt, (f s, w)).

(** A transaction: a revert leaves no trace. *)
Definition execute {A} (m : C A) : C A := fun x => match m x with (Ok a, x') => (Ok a, x') | (r, _) => (r, x) end.

(** The constructor. *)
Definition deploy (tx : Tx) (extensionRegistry machineRegistry treasury : bytes) (bps : Z) : M W EscrowState :=
  lift (fail_if (beq extensionRegistry zero_address || beq machineRegistry zero_address || beq treasury zero_address)
          (Plain "ZeroAddress")) ;;
  lift (fail_if ((tx_code tx extensionRegistry =? 0) || (tx_code tx machineRegistry =? 0)) (Plain "NoCode")) ;;
  lift (fail_if (MAX_PROTOCOL_FEE_BPS <? bps) (Plain "FeeTooHigh")) ;;
  token ← getAssetManagerFXRP_fAsset;
  lift (fail_if (beq token zero_address) (Plain "ZeroAddress")) ;;
  relay ← getRelay;
  lift (fail_if (beq relay zero_address) (Plain "ZeroAddress")) ;;
  random ← getRandomNumberV2;
  lift (fail_if (beq random zero_address) (Plain "ZeroAddress")) ;;
  lift (fail_if (beq treasury (this tx) || beq treasury token) (Plain "ZeroAddress")) ;;
  mret (mkEscrow treasury (tx_sender tx) zero_address bps false 0 0 ∅).

(** The loop of [setExtensionId], from [i]; the fuel is the number of ids. *)
Fixpoint find_extension (self : bytes) (fuel : nat) (i : Z) : M W (option Z) :=
  match fuel with
  | O => mret None
  | S fuel =>
    a ← getTeeExtensionInstructionsSender i;
    if beq a self then mret (Some i) else find_extension self fuel (i + 1)
  end.

Definition setExtensionId (tx : Tx) : C unit :=
  s ← storage;
  revert_if (negb (es_extensionId s =? 0)) "Extension ID already set." ;;
  c ← zoom_snd nextPublicExtensionId;
  found ← zoom_snd (find_extension (this tx) (Z.to_nat (c - FIRST_PUBLIC_EXTENSION_ID)) FIRST_PUBLIC_EXTENSION_ID);
  match found with
  | Some i => update (fun s => set_admin (es_owner s) (es_pendingOwner s) (es_protocolFeeBps s) (es_paused s) i s)
  | None => revert "Extension ID not found."
  end.

Definition getExtensionId : C Z :=
  s ← storage;
  revert_if (es_extensionId s =? 0) "Extension ID is not set." ;;
  mret (es_extensionId s).

Definition confirmProductionTee (teeId : bytes) : C unit :=
  revert_if (beq teeId zero_address) "TeeNotProduction" ;;
  status ← zoom_snd (getTeeMachineStatus teeId);
  revert_if (negb (status =? TEE_STATUS_PRODUCTION)) "TeeNotProduction".

Definition getJob (id : Z) : C Job := s ← storage; mret (job_at s id).

(** ** Owner controls *)

Definition onlyOwner (tx : Tx) : C unit := s ← storage; revert_if (negb (beq (tx_sender tx) (es_owner s))) "NotOwner".

Definition pauseNewWork (tx : Tx) : C unit :=
  onlyOwner tx ;;
  update (fun s => set_admin (es_owner s) (es_pendingOwner s) (es_protocolFeeBps s) true (es_extensionId s) s).

Definition unpauseNewWork (tx : Tx) : C unit :=
  onlyOwner tx ;;
  update (fun s => set_admin (es_owner s) (es_pendingOwner s) (es_protocolFeeBps s) false (es_extensionId s) s).

Definition setProtocolFee (tx : Tx) (newBps : Z) : C unit :=
  onlyOwner tx ;;
  revert_if (MAX_PROTOCOL_FEE_BPS <? newBps) "FeeTooHigh" ;;
  update (fun s => set_admin (es_owner s) (es_pendingOwner s) newBps (es_paused s) (es_extensionId s) s).

Definition transferOwnership (tx : Tx) (newOwner : bytes) : C unit :=
  onlyOwner tx ;;
  revert_if (beq newOwner zero_address) "ZeroAddress" ;;
  update (fun s => set_admin (es_owner s) newOwner (es_protocolFeeBps s) (es_paused s) (es_extensionId s) s).

Definition acceptOwnership (tx : Tx) : C unit :=
  s ← storage;
  revert_if (negb (beq (tx_sender tx) (es_pendingOwner s))) "NotOwner" ;;
  update (fun s => set_admin (tx_sender tx) zero_address (es_protocolFeeBps s) (es_paused s) (es_extensionId s) s).

(** ** The life of a job *)

Definition whenNotPaused : C unit := s ← storage; revert_if (es_paused s) "IsPaused".

Definition job_fee (principal bps : Z) : Z := uint 128 (principal * bps / 10000).

Definition createJob (tx : Tx) (contractor expectedTee : bytes) (principal acceptBy submitBy graceEnds verificationTimeout : Z)
    (specHash privateBundleHash engineVersionHash ciphertextHash : bytes) : C Z :=
  whenNotPaused ;;
  revert_if (beq contractor zero_address || beq expectedTee zero_address || (acceptBy <=? now tx) || (submitBy <=? acceptBy)
             || (graceEnds <=? submitBy) || (verificationTimeout <? MIN_VERIFICATION_TIMEOUT)
             || (MAX_VERIFICATION_TIMEOUT <? verificationTimeout) || (principal =? 0)) "InvalidVerdict" ;;
  getExtensionId ;;
  confirmProductionTee expectedTee ;;
  s ← storage;
  let fee := job_fee principal (es_protocolFeeBps s) in
  zoom_snd (safeTransferFrom (tx_sender tx) (this tx) (principal + fee)) ;;
  let id := es_nextJobId s in
  next ← lift (checked_uint 256 (id + 1));
  let terms := mkTerms (tx_sender tx) contractor expectedTee (Some principal) (Some fee) (uint64 (now tx)) acceptBy submitBy
                 graceEnds verificationTimeout specHash privateBundleHash engineVersionHash ciphertextHash in
  update (fun s => let j := job_at s id in
                   set_job id (mkJob terms (Current j) State_Created (Settled j)) (set_nextJobId next s)) ;;
  mret id.

Definition acceptJob (tx : Tx) (id : Z) : C unit :=
  s ← storage;
  let j := job_at s id in
  revert_if (negb (State j =? State_Created) || negb (beq (tx_sender tx) (t_Contractor (Terms j)))) "InvalidState" ;;
  revert_if (t_AcceptBy (Terms j) <? now tx) "Deadline" ;;
  update (set_job id (with_state State_Accepted j)).

Definition job_total (j : Job) : Z := num (t_Principal (Terms j)) + num (t_Fee (Terms j)).

Definition cancelUnaccepted (tx : Tx) (id : Z) : C unit :=
  s ← storage;
  let j := job_at s id in
  revert_if (negb (State j =? State_Created) || negb (beq (tx_sender tx) (t_Client (Terms j)))) "InvalidState" ;;
  update (set_job id (settled_as State_Cancelled j)) ;;
  zoom_snd (safeTransfer (t_Client (Terms j)) (job_total j)).

Definition submit_ready (st : Z) : bool := (st =? State_Accepted) || (st =? State_AwaitingResubmission) || (st =? State_Retryable).

Definition submitAttempt (tx : Tx) (id : Z) (artifactAddress : bytes) : C unit :=
  whenNotPaused ;;
  s ← storage;
  let j := job_at s id in
  revert_if (negb (beq (tx_sender tx) (t_Contractor (Terms j))) || negb (submit_ready (State j))) "InvalidState" ;;
  revert_if (t_SubmitBy (Terms j) <? now tx) "Deadline" ;;
  revert_if (beq artifactAddress zero_address || (tx_code tx artifactAddress =? 0)) "InvalidVerdict" ;;
  attempt ← lift (checked_uint 64 (a_Attempt (Current j) + 1));
  round ← zoom_snd (getVotingRoundId (now tx));
  targetRound ← lift (checked_uint 256 (round + 1));
  update (set_job id (with_attempt
    (mkAttempt attempt artifactAddress (Some (tx_number tx)) (blk_codehash (tx_block tx) artifactAddress) (Some targetRound)
       (Some 0) zero_hash false zero_hash 0 0) State_RandomnessPending j)).

(** A failure of the historical call is the revert of its catch. *)
Definition lockRandomness (id : Z) : C unit :=
  s ← storage;
  let j := job_at s id in
  let a := Current j in
  revert_if (negb (State j =? State_RandomnessPending)) "InvalidState" ;;
  r <?- zoom_snd (getRandomNumberHistorical (num (a_TargetRound a))) onerr _e => revert "RandomNotReady";
  let '(randomNumber, isSecure) := r in
  if negb isSecure then
    next ← lift (checked_uint 256 (num (a_TargetRound a) + 1));
    update (set_job id (with_attempt
      (mkAttempt (a_Attempt a) (a_ArtifactAddress a) (a_ArtifactBlock a) (a_ArtifactCodeHash a) (Some next) (a_RandomRound a)
         (a_RandomValueHash a) (a_RandomLocked a) (a_InstructionId a) (a_DispatchedAt a) (a_TimeoutAt a)) (State j) j))
  else
    update (set_job id (with_attempt
      (mkAttempt (a_Attempt a) (a_ArtifactAddress a) (a_ArtifactBlock a) (a_ArtifactCodeHash a) (a_TargetRound a)
         (a_TargetRound a) (keccak256 (word randomNumber)) true (a_InstructionId a) (a_DispatchedAt a) (a_TimeoutAt a))
      State_ReadyToVerify j)).

(** The instruction of a job, and the end of its verification. *)
Definition job_instruction (tx : Tx) (id : Z) (j : Job) : WorkProofInstruction :=
  mkInstruction (Some (blk_chainid (tx_block tx))) (this tx) (Some id) (a_Attempt (Current j)) (t_SpecHash (Terms j))
    (t_PrivateBundleHash (Terms j)) (t_CiphertextHash (Terms j)) (a_ArtifactAddress (Current j)) (a_ArtifactBlock (Current j))
    (a_ArtifactCodeHash (Current j)) (a_RandomRound (Current j)) (a_RandomValueHash (Current j)) (t_EngineVersionHash (Terms j))
    (t_GraceEnds (Terms j)).

Definition timeout_at (tx : Tx) (j : Job) : Z :=
  let rawTimeoutAt := now tx + t_VerificationTimeout (Terms j) in
  if rawTimeoutAt <? t_GraceEnds (Terms j) then uint64 rawTimeoutAt else t_GraceEnds (Terms j).

Definition dispatched (tx : Tx) (instructionId : bytes) (j : Job) : Job :=
  let a := Current j in
  with_attempt (mkAttempt (a_Attempt a) (a_ArtifactAddress a) (a_ArtifactBlock a) (a_ArtifactCodeHash a) (a_TargetRound a)
    (a_RandomRound a) (a_RandomValueHash a) (a_RandomLocked a) instructionId (uint64 (now tx)) (timeout_at tx j)) State_Verifying j.

Definition dispatchVerification (tx : Tx) (id : Z) : C unit :=
  s ← storage;
  let j := job_at s id in
  revert_if (negb (State j =? State_ReadyToVerify) || negb (a_RandomLocked (Current j))) "InvalidState" ;;
  confirmProductionTee (t_ExpectedTee (Terms j)) ;;
  instructionId ← zoom_snd (sendInstructions (tx_value tx) [t_ExpectedTee (Terms j)]
    (mkParams OP_TYPE OP_COMMAND (abi_encode_instruction (job_instruction tx id j)) [] 0 (tx_sender tx)));
  revert_if (timeout_at tx j <=? now tx) "Deadline" ;;
  update (set_job id (dispatched tx instructionId j)).

Definition expireVerification (tx : Tx) (id : Z) : C unit :=
  s ← storage;
  let j := job_at s id in
  let a := Current j in
  revert_if (negb (State j =? State_Verifying) || (now tx <=? a_TimeoutAt a)) "InvalidState" ;;
  update (set_job id (with_attempt (mkAttempt (a_Attempt a) (a_ArtifactAddress a) (a_ArtifactBlock a) (a_ArtifactCodeHash a)
    (a_TargetRound a) (a_RandomRound a) (a_RandomValueHash a) (a_RandomLocked a) zero_hash 0 0) State_Retryable j)).

Definition decodeAndAuthenticate (tx : Tx) (data : bytes) (submissionTag : string) (status : Z) (signature expectedTee : bytes)
  : C VerdictV1 :=
  match abi_decode_verdict data with
  | None => revert ""
  | Some v =>
    let signer := recoverVerdictSigner data (id_InstructionId (v_Id v)) submissionTag status (blk_chainid (tx_block tx)) signature in
    revert_if (beq signer zero_address || negb (beq signer expectedTee)) "InvalidVerdict" ;;
    mret v
  end.

Definition after_rejection (tx : Tx) (j : Job) (st : Z) : Job :=
  with_state (if t_SubmitBy (Terms j) <? now tx then State_RefundPending else st) j.

Definition settleAttempt (tx : Tx) (id : Z) (data opType opCommand : bytes) (submissionTag : string) (status : Z)
    (signature : bytes) : C unit :=
  s ← storage;
  let j := job_at s id in
  revert_if (negb (State j =? State_Verifying)) "InvalidState" ;;
  revert_if (a_TimeoutAt (Current j) <? now tx) "InvalidState" ;;
  revert_if (t_GraceEnds (Terms j) <? now tx) "InvalidState" ;;
  revert_if (negb (status =? 1)) "InvalidVerdict" ;;
  revert_if (negb (beq opType OP_TYPE) || negb (beq opCommand OP_COMMAND)) "InvalidVerdict" ;;
  revert_if (negb (beq (keccak256 (bytes_of_string submissionTag)) (keccak256 (bytes_of_string "threshold")))) "InvalidVerdict" ;;
  revert_if (beq (a_InstructionId (Current j)) zero_hash) "InvalidState" ;;
  v ← decodeAndAuthenticate tx data submissionTag status signature (t_ExpectedTee (Terms j));
  revert_if (negb (checkBinding j v id (tx_block tx))) "InvalidVerdict" ;;
  let outcome := o_Outcome (v_Result v) in
  if outcome =? OutcomeFail then update (set_job id (after_rejection tx j State_AwaitingResubmission))
  else if outcome =? OutcomeInconclusive then update (set_job id (after_rejection tx j State_Retryable))
  else
    update (set_job id (settled_as State_Paid j)) ;;
    zoom_snd (safeTransfer (t_Contractor (Terms j)) (num (t_Principal (Terms j)))) ;;
    zoom_snd (safeTransfer (es_treasury s) (num (t_Fee (Terms j)))).

Definition refundExpired (tx : Tx) (id : Z) : C unit :=
  s ← storage;
  let j := job_at s id in
  revert_if (Settled j || (now tx <=? t_GraceEnds (Terms j))) "InvalidState" ;;
  update (set_job id (settled_as State_Refunded j)) ;;
  zoom_snd (safeTransfer (t_Client (Terms j)) (job_total j)).

(** ** Transactions *)

Inductive escrow_call :=
| SetExtensionId | PauseNewWork | UnpauseNewWork | SetProtocolFee (newBps : Z) | TransferOwnership (newOwner : bytes)
| AcceptOwnership
| CreateJob (contractor expectedTee : bytes) (principal acceptBy submitBy graceEnds verificationTimeout : Z)
    (specHash privateBundleHash engineVersionHash ciphertextHash : bytes)
| AcceptJob (id : Z) | CancelUnaccepted (id : Z) | SubmitAttempt (id : Z) (artifactAddress : bytes)
| LockRandomness (id : Z) | DispatchVerification (id : Z) | ExpireVerification (id : Z)
| SettleAttempt (id : Z) (data opType opCommand : bytes) (submissionTag : string) (status : Z) (signature : bytes)
| RefundExpired (id : Z).

(** A call; only the dispatch takes value. *)
Definition run_call (tx : Tx) (c : escrow_call) : C unit :=
  let nonpayable (m : C unit) : C unit := revert_if (negb (tx_value tx =? 0)) "" ;; m in
  match c with
  | SetExtensionId => nonpayable (setExtensionId tx)
  | PauseNewWork => nonpayable (pauseNewWork tx)
  | UnpauseNewWork => nonpayable (unpauseNewWork tx)
  | SetProtocolFee bps => nonpayable (setProtocolFee tx bps)
  | TransferOwnership o => nonpayable (transferOwnership tx o)
  | AcceptOwnership => nonpayable (acceptOwnership tx)
  | CreateJob contractor tee p ab sb ge vt sh bh eh ch =>
      nonpayable (_id ← createJob tx contractor tee p ab sb ge vt sh bh eh ch; mret tt)
  | AcceptJob id => nonpayable (acceptJob tx id)
  | CancelUnaccepted id => nonpayable (cancelUnaccepted tx id)
  | SubmitAttempt id a => nonpayable (submitAttempt tx id a)
  | LockRandomness id => nonpayable (lockRandomness id)
  | DispatchVerification id => dispatchVerification tx id
  | ExpireVerification id => nonpayable (expireVerification tx id)
  | SettleAttempt id d ot oc tag st sig => nonpayable (settleAttempt tx id d ot oc tag st sig)
  | RefundExpired id => nonpayable (refundExpired tx id)
  end.
End Contract.
