(* ===== verification/ContractSpecs.v ===== *)
(** * Correctness of the escrow contract

    The accounting of the contract over every sequence of transactions, and
    what a job may still do. *)

From S2P Require Import Prelude GoStd GoEth Bundle WireTypes Verifier Escrow FccVerdict Signing Reference RefWorld Contract.

(** ** The token

    [token_log] is the list of its Transfer events, oldest first: sender,
    recipient and amount. The token takes no fee, refuses the zero address and
    pays whoever holds enough; nothing else moves the escrow's tokens. *)

Abbreviation transfer := (bytes * bytes * Z)%type.

Definition amount_in (a : bytes) (l : list transfer) : Z :=
  foldr (fun t n => let '(from, to, x) := t in (if bool_decide (to = a) then x else 0) + n) 0 l.
Definition amount_out (a : bytes) (l : list transfer) : Z :=
  foldr (fun t n => let '(from, to, x) := t in (if bool_decide (from = a) then x else 0) + n) 0 l.

Definition incoming (self : bytes) (l : list transfer) : Prop := Forall (fun t => t.1.1 <> self /\ 0 <= t.2) l.

Class TokenLaws {W} {FL : Flare W} := {
  escrow_address : bytes;
  token_log : W -> list transfer;
  held (w : W) : Z := amount_in escrow_address (token_log w) - amount_out escrow_address (token_log w);
  (** Another contract may bring tokens in, but takes none. *)
  quiet {A} (m : M W A) : Prop :=
    forall w r w', m w = (r, w') -> exists l, token_log w' = token_log w ++ l /\ incoming escrow_address l;
  transfer_logs to x w u w' : safeTransfer to x w = (Ok u, w') -> token_log w' = token_log w ++ [(escrow_address, to, x)];
  transfer_nonzero x w u w' : safeTransfer zero_address x w <> (Ok u, w');
  transfer_pays to x w : to <> zero_address -> 0 <= x <= held w -> exists w', safeTransfer to x w = (Ok tt, w');
  transferFrom_logs from x w u w' :
    safeTransferFrom from escrow_address x w = (Ok u, w') -> token_log w' = token_log w ++ [(from, escrow_address, x)];
  quiet_status a : quiet (getTeeMachineStatus a);
  quiet_send v ids p : quiet (sendInstructions v ids p);
  quiet_next : quiet nextPublicExtensionId;
  quiet_sender i : quiet (getTeeExtensionInstructionsSender i);
  quiet_round t : quiet (getVotingRoundId t);
  quiet_random r : quiet (getRandomNumberHistorical r);
}.

(** ** Sums over jobs *)

Definition owed_job (j : Job) : Z := if Settled j then 0 else job_total j.
Definition owed_jobs (m : gmap Z Job) : Z := map_fold (fun _ j n => owed_job j + n) 0 m.
Definition owed (s : EscrowState) : Z := owed_jobs (es_jobs s).

Lemma amount_in_app a l l' : amount_in a (l ++ l') = amount_in a l + amount_in a l'.
Proof. induction l as [|[[f t] x] l IH]; simpl; [done|]. rewrite IH. lia. Qed.
Lemma amount_out_app a l l' : amount_out a (l ++ l') = amount_out a l + amount_out a l'.
Proof. induction l as [|[[f t] x] l IH]; simpl; [done|]. rewrite IH. lia. Qed.

Lemma incoming_grows self l : incoming self l -> amount_out self l = 0 /\ 0 <= amount_in self l.
Proof.
  induction 1 as [|[[f t] x] l [Hf Hx] _ [IH1 IH2]]; simpl in *; [done|].
  rewrite bool_decide_false by done. case_bool_decide; lia.
Qed.

Lemma owed_jobs_fresh id j m : m !! id = None -> owed_jobs (<[id := j]> m) = owed_job j + owed_jobs m.
Proof.
  intros H. unfold owed_jobs. apply (map_fold_insert_L (fun _ j n => owed_job j + n)); [|done].
  intros. lia.
Qed.

Lemma owed_jobs_insert id j m : owed_jobs (<[id := j]> m) = owed_job j + owed_jobs (delete id m).
Proof. rewrite <- (insert_delete_eq m). apply owed_jobs_fresh, lookup_delete_eq. Qed.

Lemma owed_jobs_lookup id j m : m !! id = Some j -> owed_jobs m = owed_job j + owed_jobs (delete id m).
Proof. intros H. rewrite <- owed_jobs_insert. by rewrite insert_id. Qed.

Lemma owed_jobs_update id j j' m :
  m !! id = Some j -> owed_jobs (<[id := j']> m) = owed_jobs m - owed_job j + owed_job j'.
Proof. intros H. rewrite owed_jobs_insert, (owed_jobs_lookup id j m H). lia. Qed.

Lemma owed_jobs_nonneg m : (forall id j, m !! id = Some j -> 0 <= owed_job j) -> 0 <= owed_jobs m.
Proof.
  induction m as [|id j m Hid IH] using map_ind; intros H; [done|]. rewrite owed_jobs_fresh by done.
  assert (0 <= owed_job j) by (apply (H id), lookup_insert_eq). enough (0 <= owed_jobs m) by lia.
  apply IH. intros i j' Hi. apply (H i). rewrite lookup_insert_ne; [done|congruence].
Qed.

(** ** The life of a job

    One successful transaction, as it changes one job and sends tokens from
    the escrow: the abstract machine that the functions implement. *)

Definition same_attempt (a a' : AttemptState) : Prop :=
  a_Attempt a' = a_Attempt a /\ a_ArtifactAddress a' = a_ArtifactAddress a /\ a_ArtifactBlock a' = a_ArtifactBlock a /\
  a_ArtifactCodeHash a' = a_ArtifactCodeHash a.

Section machine.
Context {GE : GoEthereum} {EV : EVM}.

(** The verdict that a settlement accepts: the data decodes to it, the node
    of the job signed it on this chain, and it is bound to the job's attempt. *)
Record authentic (tx : Tx) (id : Z) (j : Job) (data : bytes) (tag : string) (status : Z) (signature : bytes) (v : VerdictV1) : Prop := {
  au_data : abi_decode_verdict data = Some v;
  au_status : status = 1;
  au_tag : keccak256 (bytes_of_string tag) = keccak256 (bytes_of_string "threshold");
  au_signer : recoverVerdictSigner data (id_InstructionId (v_Id v)) tag 1 (blk_chainid (tx_block tx)) signature = t_ExpectedTee (Terms j);
  au_nonzero : t_ExpectedTee (Terms j) <> zero_address /\ a_InstructionId (Current j) <> zero_hash;
  au_binding : checkBinding j v id (tx_block tx) = true;
}.

Inductive job_step (tx : Tx) (self treasury : bytes) (id : Z) (j : Job) : escrow_call -> Job -> list transfer -> Prop :=
| js_accept :
    State j = State_Created -> tx_sender tx = t_Contractor (Terms j) -> now tx <= t_AcceptBy (Terms j) ->
    job_step tx self treasury id j (AcceptJob id) (with_state State_Accepted j) []
| js_cancel :
    State j = State_Created -> tx_sender tx = t_Client (Terms j) ->
    job_step tx self treasury id j (CancelUnaccepted id) (settled_as State_Cancelled j)
      [(self, t_Client (Terms j), job_total j)]
| js_submit artifact a :
    submit_ready (State j) = true -> tx_sender tx = t_Contractor (Terms j) -> now tx <= t_SubmitBy (Terms j) ->
    a_Attempt a = a_Attempt (Current j) + 1 -> a_Attempt a < 2 ^ 64 -> a_RandomLocked a = false ->
    a_ArtifactCodeHash a = blk_codehash (tx_block tx) artifact -> a_ArtifactAddress a = artifact ->
    a_ArtifactBlock a = Some (tx_number tx) ->
    job_step tx self treasury id j (SubmitAttempt id artifact) (with_attempt a State_RandomnessPending j) []
| js_skip a :
    State j = State_RandomnessPending -> same_attempt (Current j) a -> a_RandomLocked a = a_RandomLocked (Current j) ->
    job_step tx self treasury id j (LockRandomness id) (with_attempt a State_RandomnessPending j) []
| js_lock a :
    State j = State_RandomnessPending -> same_attempt (Current j) a -> a_RandomLocked a = true ->
    job_step tx self treasury id j (LockRandomness id) (with_attempt a State_ReadyToVerify j) []
| js_dispatch instructionId :
    State j = State_ReadyToVerify -> a_RandomLocked (Current j) = true -> now tx < timeout_at tx j ->
    job_step tx self treasury id j (DispatchVerification id) (dispatched tx instructionId j) []
| js_expire a :
    State j = State_Verifying -> a_TimeoutAt (Current j) < now tx -> same_attempt (Current j) a ->
    a_InstructionId a = zero_hash ->
    job_step tx self treasury id j (ExpireVerification id) (with_attempt a State_Retryable j) []
| js_reject data ot oc tag st sig v :
    State j = State_Verifying -> now tx <= a_TimeoutAt (Current j) -> now tx <= t_GraceEnds (Terms j) ->
    authentic tx id j data tag st sig v -> o_Outcome (v_Result v) = OutcomeFail \/ o_Outcome (v_Result v) = OutcomeInconclusive ->
    job_step tx self treasury id j (SettleAttempt id data ot oc tag st sig)
      (after_rejection tx j (if o_Outcome (v_Result v) =? OutcomeFail then State_AwaitingResubmission else State_Retryable)) []
| js_pay data ot oc tag st sig v :
    State j = State_Verifying -> now tx <= a_TimeoutAt (Current j) -> now tx <= t_GraceEnds (Terms j) ->
    authentic tx id j data tag st sig v -> o_Outcome (v_Result v) = OutcomePass ->
    job_step tx self treasury id j (SettleAttempt id data ot oc tag st sig) (settled_as State_Paid j)
      [(self, t_Contractor (Terms j), num (t_Principal (Terms j))); (self, treasury, num (t_Fee (Terms j)))]
| js_refund :
    Settled j = false -> t_GraceEnds (Terms j) < now tx -> t_Client (Terms j) <> zero_address ->
    job_step tx self treasury id j (RefundExpired id) (settled_as State_Refunded j) [(self, t_Client (Terms j), job_total j)].
End machine.

Lemma beq_true a b : beq a b = true <-> a = b.
Proof. apply bool_decide_eq_true. Qed.
Lemma beq_false a b : beq a b = false <-> a <> b.
Proof. apply bool_decide_eq_false. Qed.

(** ** What a successful call does *)
Section calls.
Context {GE : GoEthereum} {EV : EVM} {W : Type} {FL : Flare W} {TK : TokenLaws}.
Implicit Types (s : EscrowState) (w : W) (x : EscrowState * W).

Lemma revert_if_Ok c e x u x' : revert_if (W := W) c e x = (Ok u, x') <-> c = false /\ x' = x.
Proof. unfold revert_if, revert, lift, mret, M_ret. destruct c, u; naive_solver. Qed.

Lemma storage_Ok x s x' : storage (W := W) x = (Ok s, x') <-> s = fst x /\ x' = x.
Proof. unfold storage. naive_solver. Qed.

Lemma update_Ok f x u x' : update (W := W) f x = (Ok u, x') <-> x' = (f (fst x), snd x).
Proof. destruct x, u. unfold update. naive_solver. Qed.

Lemma zoom_Ok {A} (m : M W A) s w (a : A) x' : zoom_snd m (s, w) = (Ok a, x') <-> exists w', m w = (Ok a, w') /\ x' = (s, w').
Proof. apply zoom_snd_eq. Qed.

Lemma checked_Ok n z y : checked_uint n z = Ok y <-> y = z /\ z < 2 ^ n.
Proof. unfold checked_uint. destruct (Z.ltb_spec z (2 ^ n)); (split; [intros [=]; subst; done || lia|intros [-> ?]; done || lia]). Qed.

(** What a call did to the escrow's tokens: [l] came in, [ts] went out. *)
Definition moved w w' (ts : list transfer) : Prop :=
  exists l, token_log w' = token_log w ++ l ++ ts /\ incoming escrow_address l.

Lemma moved_refl w : moved w w [].
Proof. exists []. split; [by rewrite app_nil_r|constructor]. Qed.
Lemma moved_quiet {A} (m : M W A) w r w' : quiet m -> m w = (r, w') -> moved w w' [].
Proof. intros Hq (l & Hl & Hi)%Hq. exists l. split; [by rewrite app_nil_r|done]. Qed.
Lemma moved_trans w w1 w2 ts : moved w w1 [] -> moved w1 w2 ts -> moved w w2 ts.
Proof.
  intros (l1 & E1 & H1) (l2 & E2 & H2). exists (l1 ++ l2). rewrite E2, E1, app_nil_r, <- !(assoc_L (++)).
  split; [done|by apply Forall_app].
Qed.
Lemma moved_transfer to n w u w' : safeTransfer to n w = (Ok u, w') -> moved w w' [(escrow_address, to, n)].
Proof. intros E%transfer_logs. exists []. split; [done|constructor]. Qed.
Lemma moved_snoc w w1 w2 ts to n u : moved w w1 ts -> safeTransfer to n w1 = (Ok u, w2) -> moved w w2 (ts ++ [(escrow_address, to, n)]).
Proof. intros (l & Hl & Hi) E%transfer_logs. exists l. split; [by rewrite E, Hl, <- !(assoc_L (++))|done]. Qed.
End calls.
Create HintDb sol.
#[export] Hint Rewrite @M_bind_Ok @lift_eq @mret_eq @revert_if_Ok @storage_Ok @update_Ok @zoom_Ok : sol.
#[export] Hint Resolve moved_refl moved_quiet moved_transfer quiet_status quiet_send quiet_next quiet_sender quiet_round quiet_random : sol.

(** Follow a run that did not revert. *)
Ltac sol_inv :=
  cbn beta zeta in *;
  repeat (progress (autorewrite with sol in * |-)
          || match goal with
             | H : exists _, _ |- _ => destruct H
             | H : _ /\ _ |- _ => destruct H
             | u : unit |- _ => destruct u
             end; cbn beta zeta in *; cbn [fst snd] in *; simplify_eq).

(** ** The functions implement the machine *)

(** A transaction comes from an account of its own, not from the escrow. *)
Record wf_tx {W} {FL : Flare W} {TK : TokenLaws} (tx : Tx) : Prop := {
  wt_this : this tx = escrow_address;
  wt_sender : tx_sender tx <> escrow_address;
  wt_nonzero : tx_sender tx <> zero_address;
  wt_now : is_uint 64 (now tx);
}.

Section functions.
Context {GE : GoEthereum} {EV : EVM} {W : Type} {FL : Flare W} {TK : TokenLaws}.
Implicit Types (s : EscrowState) (w : W) (x : EscrowState * W).

(** A successful call on a job is a step of the machine. *)
Definition steps tx id c s w s' w' : Prop :=
  exists j' ts, s' = set_job id j' s /\ job_step tx escrow_address (es_treasury s) id (job_at s id) c j' ts /\ moved w w' ts.

Lemma acceptJob_step tx id s w u s' w' :
  acceptJob tx id (s, w) = (Ok u, (s', w')) -> steps tx id (AcceptJob id) s w s' w'.
Proof.
  unfold acceptJob. intros H. sol_inv. to_prop. rewrite beq_true in *.
  do 2 eexists. split; [done|]. split; [by apply js_accept|]. auto with sol.
Qed.

Lemma cancelUnaccepted_step tx id s w u s' w' :
  cancelUnaccepted tx id (s, w) = (Ok u, (s', w')) -> steps tx id (CancelUnaccepted id) s w s' w'.
Proof.
  unfold cancelUnaccepted. intros H. sol_inv. to_prop. rewrite beq_true in *.
  do 2 eexists. split; [done|]. split; [by apply js_cancel|]. eauto with sol.
Qed.

Lemma submitAttempt_step tx id artifact s w u s' w' :
  submitAttempt tx id artifact (s, w) = (Ok u, (s', w')) -> steps tx id (SubmitAttempt id artifact) s w s' w'.
Proof.
  unfold submitAttempt, whenNotPaused. intros H. sol_inv. rewrite checked_Ok in *. sol_inv. to_prop. rewrite beq_true in *.
  do 2 eexists. split; [done|]. split; [by apply js_submit|]. eauto with sol.
Qed.

Lemma lockRandomness_step tx id s w u s' w' :
  lockRandomness id (s, w) = (Ok u, (s', w')) -> steps tx id (LockRandomness id) s w s' w'.
Proof.
  unfold lockRandomness. intros H. sol_inv. to_prop.
  match goal with E : on_error _ _ _ _ = _ |- _ =>
    apply on_error_eq in E as [([rn secure] & x & Hr & E)|[(e & x & _ & E)|(p & _ & E)]]; [|by unfold revert in E; sol_inv|done];
    rename E into Hs end.
  destruct secure; cbn [negb] in Hs; sol_inv; rewrite ?checked_Ok in *; sol_inv.
  - do 2 eexists. split; [done|]. split; [by apply js_lock|]. eauto with sol.
  - do 2 eexists. split; [done|]. match goal with E : State _ = _ |- _ => rewrite E end. split; [by apply js_skip|]. eauto with sol.
Qed.

Lemma confirmProductionTee_Ok a s w u x :
  confirmProductionTee a (s, w) = (Ok u, x) -> exists w', x = (s, w') /\ moved w w' [] /\ a <> zero_address.
Proof. unfold confirmProductionTee. intros H. sol_inv. rewrite beq_false in *. eauto with sol. Qed.

Lemma dispatchVerification_step tx id s w u s' w' :
  dispatchVerification tx id (s, w) = (Ok u, (s', w')) -> steps tx id (DispatchVerification id) s w s' w'.
Proof.
  unfold dispatchVerification. intros H. sol_inv.
  match goal with H : confirmProductionTee _ _ = _ |- _ => apply confirmProductionTee_Ok in H as (w1 & -> & Hm & _) end. sol_inv.
  to_prop. do 2 eexists. split; [done|]. split; [by apply js_dispatch|]. eauto using moved_trans with sol.
Qed.

Lemma expireVerification_step tx id s w u s' w' :
  expireVerification tx id (s, w) = (Ok u, (s', w')) -> steps tx id (ExpireVerification id) s w s' w'.
Proof.
  unfold expireVerification. intros H. sol_inv. to_prop.
  do 2 eexists. split; [done|]. split; [by apply js_expire|]. eauto with sol.
Qed.

Lemma refundExpired_step tx id s w u s' w' :
  refundExpired tx id (s, w) = (Ok u, (s', w')) -> steps tx id (RefundExpired id) s w s' w'.
Proof.
  unfold refundExpired. intros H. sol_inv. to_prop.
  assert (t_Client (Terms (job_at s id)) <> zero_address) by (intros E; rewrite E in *; by eapply transfer_nonzero).
  do 2 eexists. split; [done|]. split; [by apply js_refund|]. eauto with sol.
Qed.

Lemma decoded_outcome data v : abi_decode_verdict data = Some v -> 0 <= o_Outcome (v_Result v) <= 2.
Proof.
  unfold abi_decode_verdict, mbind, option_bind. intros H. repeat case_match; simplify_eq/=. to_prop.
  match goal with H : uint_at _ _ 14 = Some _ |- _ => unfold uint_at in H; case_match; simplify_eq end.
  pose proof (be_value_nonneg (word_at data 14)). lia.
Qed.

Lemma settleAttempt_step tx id data ot oc tag st sig s w u s' w' :
  settleAttempt tx id data ot oc tag st sig (s, w) = (Ok u, (s', w')) ->
  steps tx id (SettleAttempt id data ot oc tag st sig) s w s' w'.
Proof.
  unfold settleAttempt, decodeAndAuthenticate. intros H. sol_inv.
  destruct (abi_decode_verdict data) as [v|] eqn:Hd; [|by unfold revert in *; sol_inv]. sol_inv. to_prop. rewrite beq_true in *.
  subst st. pose proof (decoded_outcome _ _ Hd) as Hout.
  assert (authentic tx id (job_at s id) data tag 1 sig v) as Ha by (rewrite beq_false in *; split; auto; split; congruence).
  destruct (Z.eqb_spec (o_Outcome (v_Result v)) OutcomeFail) as [Hf|Hf]; [|
  destruct (Z.eqb_spec (o_Outcome (v_Result v)) OutcomeInconclusive) as [Hi|Hi]]; sol_inv.
  - do 2 eexists. split; [done|]. split; [|by auto with sol].
    replace State_AwaitingResubmission with (if o_Outcome (v_Result v) =? OutcomeFail then State_AwaitingResubmission else State_Retryable)
      by by rewrite Hf. apply js_reject; auto.
  - do 2 eexists. split; [done|]. split; [|by auto with sol].
    replace State_Retryable with (if o_Outcome (v_Result v) =? OutcomeFail then State_AwaitingResubmission else State_Retryable)
      by by rewrite Hi. apply js_reject; auto.
  - do 2 eexists. split; [done|]. split; [|by eapply (moved_snoc _ _ _ [_]); eauto with sol].
    apply js_pay with v; try done. unfold OutcomeFail, OutcomeInconclusive, OutcomePass in *. lia.
Qed.

(** The types of the arguments. *)
Definition call_typed (c : escrow_call) : Prop :=
  match c with
  | SetProtocolFee bps => is_uint 16 bps
  | CreateJob _ _ principal acceptBy submitBy graceEnds verificationTimeout _ _ _ _ =>
      is_uint 128 principal /\ is_uint 64 acceptBy /\ is_uint 64 submitBy /\ is_uint 64 graceEnds /\ is_uint 64 verificationTimeout
  | _ => True
  end.

(** A new job: the client has sent its principal and fee. *)
Record creates (tx : Tx) contractor tee principal acceptBy submitBy graceEnds timeout s w s' w' (terms : JobTerms) : Prop := {
  cr_client : t_Client terms = tx_sender tx /\ t_Contractor terms = contractor /\ t_ExpectedTee terms = tee;
  cr_amounts : t_Principal terms = Some principal /\ t_Fee terms = Some (job_fee principal (es_protocolFeeBps s));
  cr_times : t_AcceptBy terms = acceptBy /\ t_SubmitBy terms = submitBy /\ t_GraceEnds terms = graceEnds /\
    t_VerificationTimeout terms = timeout;
  cr_checked : (contractor <> zero_address /\ tee <> zero_address) /\ now tx < acceptBy < submitBy /\ submitBy < graceEnds /\ principal <> 0 /\
    MIN_VERIFICATION_TIMEOUT <= timeout <= MAX_VERIFICATION_TIMEOUT;
  cr_state : s' = set_job (es_nextJobId s)
    (mkJob terms (Current (job_at s (es_nextJobId s))) State_Created (Settled (job_at s (es_nextJobId s))))
    (set_nextJobId (es_nextJobId s + 1) s);
  cr_paid : exists l, token_log w' = token_log w ++ l ++
    [(tx_sender tx, escrow_address, principal + job_fee principal (es_protocolFeeBps s))] /\ incoming escrow_address l;
}.

Lemma createJob_Ok tx contractor tee p ab sb ge vt sh bh eh ch s w id s' w' :
  wf_tx tx -> createJob tx contractor tee p ab sb ge vt sh bh eh ch (s, w) = (Ok id, (s', w')) ->
  id = es_nextJobId s /\ exists terms, creates tx contractor tee p ab sb ge vt s w s' w' terms.
Proof.
  intros Ht. unfold createJob, whenNotPaused, getExtensionId. intros H. sol_inv.
  match goal with H : confirmProductionTee _ _ = _ |- _ => apply confirmProductionTee_Ok in H as (w1 & -> & Hm & _) end. sol_inv.
  rewrite checked_Ok in *. sol_inv. to_prop. rewrite beq_false in *. split; [done|].
  eexists (mkTerms (tx_sender tx) contractor tee (Some p) (Some (job_fee p (es_protocolFeeBps s))) (uint64 (now tx)) ab sb ge vt
    sh bh eh ch). split; [by split_and!..|done|].
  destruct Hm as (l & Hl & Hi). rewrite (wt_this _ Ht) in *.
  match goal with H : safeTransferFrom _ _ _ _ = _ |- _ => apply transferFrom_logs in H as E end.
  exists l. split; [|done]. by rewrite E, Hl, app_nil_r, <- (assoc_L (++)).
Qed.

(** An owner's call, or the search of the extension id. *)
Record administers s w s' w' : Prop := {
  ad_jobs : es_jobs s' = es_jobs s;
  ad_next : es_nextJobId s' = es_nextJobId s;
  ad_treasury : es_treasury s' = es_treasury s;
  ad_bps : es_protocolFeeBps s' = es_protocolFeeBps s \/ 0 <= es_protocolFeeBps s' <= MAX_PROTOCOL_FEE_BPS;
  ad_moved : moved w w' [];
}.

Inductive effect (tx : Tx) s w s' w' : escrow_call -> Prop :=
| ef_admin c : administers s w s' w' -> effect tx s w s' w' c
| ef_create contractor tee p ab sb ge vt sh bh eh ch terms :
    creates tx contractor tee p ab sb ge vt s w s' w' terms ->
    effect tx s w s' w' (CreateJob contractor tee p ab sb ge vt sh bh eh ch)
| ef_job id c : steps tx id c s w s' w' -> effect tx s w s' w' c.

Lemma find_extension_moved self fuel i w r w' : find_extension self fuel i w = (Ok r, w') -> moved w w' [].
Proof.
  revert i w. induction fuel as [|fuel IH]; intros i w; simpl.
  - intros [_ ->]%mret_eq. apply moved_refl.
  - intros (a & w1 & Ha & H)%M_bind_Ok. apply moved_trans with w1; [eauto with sol|].
    destruct (beq a self); [apply mret_eq in H as [_ ->]; apply moved_refl|by eapply IH].
Qed.

Lemma setExtensionId_effect tx s w u s' w' : setExtensionId tx (s, w) = (Ok u, (s', w')) -> administers s w s' w'.
Proof.
  unfold setExtensionId. intros H. sol_inv.
  match goal with H : find_extension _ _ _ _ = (Ok ?f, _) |- _ => apply find_extension_moved in H as Hm; destruct f end;
    [|by unfold revert in *; sol_inv]. sol_inv. split; simpl; auto. eauto using moved_trans with sol.
Qed.

Lemma run_call_effect tx c s w u s' w' :
  wf_tx tx -> call_typed c -> run_call tx c (s, w) = (Ok u, (s', w')) -> effect tx s w s' w' c.
Proof.
  intros Ht Hty H. destruct c; cbn [run_call call_typed] in H, Hty; sol_inv;
    try (apply ef_job with id; by eauto using acceptJob_step, cancelUnaccepted_step, submitAttempt_step, lockRandomness_step,
      dispatchVerification_step, expireVerification_step, settleAttempt_step, refundExpired_step).
  1: by eapply ef_admin, setExtensionId_effect.
  6: { match goal with H : createJob _ _ _ _ _ _ _ _ _ _ _ _ _ = _ |- _ => apply createJob_Ok in H as (_ & terms & Hc); [|done] end.
    by eapply ef_create. }
  all: unfold pauseNewWork, unpauseNewWork, setProtocolFee, transferOwnership, acceptOwnership, onlyOwner in *; sol_inv;
    apply ef_admin; split; simpl; auto with sol.
  right. to_prop. unfold is_uint in *. lia.
Qed.
End functions.

(** ** Invariants *)

Definition terminal (st : Z) : bool := (st =? State_Paid) || (st =? State_Cancelled) || (st =? State_Refunded).

Record job_wf (self : bytes) (j : Job) : Prop := {
  jw_principal : exists p, t_Principal (Terms j) = Some p /\ 0 < p < 2 ^ 128;
  jw_fee : exists f, t_Fee (Terms j) = Some f /\ 0 <= f /\ 10 * f <= num (t_Principal (Terms j));
  jw_client : t_Client (Terms j) <> zero_address /\ t_Client (Terms j) <> self;
  jw_contractor : t_Contractor (Terms j) <> zero_address /\ t_ExpectedTee (Terms j) <> zero_address;
  jw_times : 0 <= t_AcceptBy (Terms j) < t_SubmitBy (Terms j) /\ t_SubmitBy (Terms j) < t_GraceEnds (Terms j) < 2 ^ 64;
  jw_timeout : 0 <= t_VerificationTimeout (Terms j);
  jw_state : State_Created <= State j <= State_RefundPending;
  jw_settled : Settled j = terminal (State j);
  jw_verifying : State j = State_Verifying -> a_RandomLocked (Current j) = true /\
    a_DispatchedAt (Current j) < a_TimeoutAt (Current j) <= t_GraceEnds (Terms j);
}.

Record contract_inv {W} {FL : Flare W} {TK : TokenLaws} (s : EscrowState) (w : W) : Prop := {
  ci_bps : 0 <= es_protocolFeeBps s <= MAX_PROTOCOL_FEE_BPS;
  ci_treasury : es_treasury s <> zero_address;
  ci_next : 0 <= es_nextJobId s;
  ci_ids id j : es_jobs s !! id = Some j -> 0 <= id < es_nextJobId s;
  ci_jobs id j : es_jobs s !! id = Some j -> job_wf escrow_address j;
  ci_owed : owed s <= held w;
}.

Section invariants.
Context {GE : GoEthereum} {EV : EVM}.

Lemma timeout_at_bound tx j :
  is_uint 64 (now tx) -> 0 <= t_VerificationTimeout (Terms j) -> t_GraceEnds (Terms j) < 2 ^ 64 -> timeout_at tx j <= t_GraceEnds (Terms j).
Proof.
  unfold timeout_at, is_uint. intros Hn Ht Hg. cbn zeta. destruct (Z.ltb_spec (now tx + t_VerificationTimeout (Terms j)) (t_GraceEnds (Terms j))); [|lia].
  rewrite uint_id by (unfold is_uint; lia). lia.
Qed.

Lemma submit_ready_cases st : submit_ready st = true -> st = State_Accepted \/ st = State_AwaitingResubmission \/ st = State_Retryable.
Proof. unfold submit_ready. intros H. to_prop. destruct H as [H|H]; to_prop; [|tauto]. destruct H; to_prop; tauto. Qed.

Lemma job_step_wf tx self treasury id j c j' ts :
  is_uint 64 (now tx) -> job_wf self j -> job_step tx self treasury id j c j' ts -> job_wf self j'.
Proof.
  intros Hn [H1 H2 H3 H4 H5 H6 H7 H8 H9] H. destruct H; (split; simpl; [done|done|done|done|done|done| | |]);
    try done; try (by intros); try (by unfold terminal; rewrite H8, H).
  - by rewrite H8; apply submit_ready_cases in H as [-> | [-> | ->]].
  - intros _. split; [done|]. pose proof (timeout_at_bound tx j Hn H6 ltac:(lia)). rewrite uint_id by done. lia.
  - repeat case_match; done.
  - rewrite H8, H. repeat case_match; done.
  - repeat case_match; done.
Qed.

Lemma job_step_terms tx self treasury id j c j' ts : job_step tx self treasury id j c j' ts -> Terms j' = Terms j.
Proof. by destruct 1. Qed.

(** A step pays and settles, or does neither. *)
Lemma job_step_settles tx self treasury id j c j' ts :
  job_step tx self treasury id j c j' ts -> (ts = [] /\ Settled j' = Settled j) \/ (Settled j' = true /\ ts <> []).
Proof. destruct 1; auto. Qed.

Lemma job_step_open tx self treasury id j c j' ts :
  job_wf self j -> job_step tx self treasury id j c j' ts -> Settled j = false.
Proof.
  intros Hw H. pose proof (jw_settled _ _ Hw) as ->.
  destruct H; try (match goal with E : State j = _ |- _ => by rewrite E end).
  - apply submit_ready_cases in H as [-> | [-> | ->]]; done.
  - by rewrite <- (jw_settled _ _ Hw).
Qed.

(** What a step pays is what the job stops owing. *)
Lemma job_step_pays tx self treasury id j c j' ts :
  job_wf self j -> job_step tx self treasury id j c j' ts ->
  amount_out self ts = owed_job j - owed_job j' /\ 0 <= amount_in self ts.
Proof.
  intros Hw H. pose proof (job_step_open _ _ _ _ _ _ _ _ Hw H) as Ho. pose proof (job_step_terms _ _ _ _ _ _ _ _ H) as Ht.
  destruct (jw_principal _ _ Hw) as (p & Hp & Hpos), (jw_fee _ _ Hw) as (f & Hf & Hf0 & _).
  destruct (job_step_settles _ _ _ _ _ _ _ _ H) as [[-> Hs]|[Hs Hts]]; unfold owed_job, job_total; rewrite Ht, Hs, Ho, Hp, Hf; simpl.
  - lia.
  - destruct H; try done; unfold job_total; rewrite ?Hp, ?Hf; simpl; rewrite ?bool_decide_true by done;
      (split; [lia|]); repeat case_bool_decide; lia.
Qed.
End invariants.

(** ** Runs of the contract: calls, reverted or not, and what happens outside *)
Section runs.
Context {GE : GoEthereum} {EV : EVM} {W : Type} {FL : Flare W} {TK : TokenLaws}.
Implicit Types (s : EscrowState) (w : W) (x : EscrowState * W).

Inductive chain_step : EscrowState * W -> EscrowState * W -> Prop :=
| cs_call tx c x r x' : wf_tx tx -> call_typed c -> execute (run_call tx c) x = (r, x') -> chain_step x x'
| cs_outside s w w' : moved w w' [] -> chain_step (s, w) (s, w').

Lemma execute_cases {A} (m : M (EscrowState * W) A) x r x' :
  execute m x = (r, x') -> (exists a, r = Ok a /\ m x = (Ok a, x')) \/ x' = x.
Proof. unfold execute. destruct (m x) as [[] ?]; naive_solver. Qed.

Lemma moved_held w w' ts : moved w w' ts ->
  held w + amount_in escrow_address ts - amount_out escrow_address ts <= held w'.
Proof.
  intros (l & Hl & [Ho Hi]%incoming_grows). unfold held. rewrite Hl, !amount_in_app, !amount_out_app. lia.
Qed.

Lemma job_at_lookup s id j : es_jobs s !! id = Some j -> job_at s id = j.
Proof. intros H. unfold job_at. by rewrite H. Qed.

(** Only a job that was created can take a step. *)
Lemma job_step_exists s id c j' ts tx self treasury :
  tx_sender tx <> zero_address -> job_step tx self treasury id (job_at s id) c j' ts -> es_jobs s !! id = Some (job_at s id).
Proof.
  intros Hz H. destruct (es_jobs s !! id) as [j|] eqn:E; [by rewrite (job_at_lookup _ _ _ E)|].
  unfold job_at in H. rewrite E in H. simpl in H. by inversion H.
Qed.

Lemma steps_inv tx id c s w s' w' :
  wf_tx tx -> contract_inv s w -> steps tx id c s w s' w' -> contract_inv s' w'.
Proof.
  intros Ht [H1 Htr H2 H3 H4 H5] (j' & ts & -> & Hj & Hm). apply job_step_exists in Hj as Hid; [|apply Ht].
  pose proof (H4 _ _ Hid) as Hw. destruct (job_step_pays _ _ _ _ _ _ _ _ Hw Hj) as [Ho Hi]. apply moved_held in Hm.
  split; simpl; [done|done|done| | |].
  - intros i j [[<- <-]|[_ H]]%lookup_insert_Some; eauto.
  - intros i j [[<- <-]|[_ H]]%lookup_insert_Some; [|eauto]. eapply job_step_wf; [apply Ht|done..].
  - unfold owed in *. simpl. rewrite (owed_jobs_update _ _ _ _ Hid). lia.
Qed.

Lemma job_fee_bound p bps :
  0 < p < 2 ^ 128 -> 0 <= bps <= MAX_PROTOCOL_FEE_BPS -> 0 <= job_fee p bps /\ 10 * job_fee p bps <= p.
Proof.
  unfold MAX_PROTOCOL_FEE_BPS. intros Hp Hb. assert (0 <= p * bps / 10000) by (apply Z.div_pos; nia).
  assert (p * bps / 10000 <= p / 10).
  { replace (p / 10) with (p * 1000 / 10000); [apply Z.div_le_mono; nia|].
    change 10000 with (10 * 1000). by rewrite Z.div_mul_cancel_r. }
  pose proof (Z.mul_div_le p 10 ltac:(lia)). unfold job_fee. rewrite uint_id by (unfold is_uint; lia). lia.
Qed.

Lemma creates_inv tx contractor tee p ab sb ge vt sh bh eh ch terms s w s' w' :
  wf_tx tx -> call_typed (CreateJob contractor tee p ab sb ge vt sh bh eh ch) -> contract_inv s w ->
  creates tx contractor tee p ab sb ge vt s w s' w' terms -> contract_inv s' w'.
Proof.
  intros Ht (Hp & Hab & Hsb & Hge & Hvt) [H1 Htr H2 H3 H4 H5]
    [(Hc & Hco & Hte) (Hpr & Hf) (Ha & Hs & Hg & Hv) (Hcz & Htm & Hgt & Hp0 & Hto) -> (l & Hl & Hi)].
  assert (es_jobs s !! es_nextJobId s = None) as Hfresh.
  { destruct (es_jobs s !! es_nextJobId s) eqn:E; [|done]. apply H3 in E. lia. }
  unfold job_at. rewrite Hfresh. simpl. unfold is_uint in *. pose proof (wt_now _ Ht) as Hnow. unfold is_uint in Hnow.
  destruct (job_fee_bound p (es_protocolFeeBps s)) as [Hf0 Hf10]; [lia|done|].
  split; simpl; [done|done|lia| | |].
  - intros i j [[<- <-]|[_ H]]%lookup_insert_Some; [lia|]. apply H3 in H. lia.
  - intros i j [[<- <-]|[_ H]]%lookup_insert_Some; [|eauto].
    split; simpl; rewrite ?Hc, ?Hco, ?Hte, ?Hpr, ?Hf, ?Ha, ?Hs, ?Hg, ?Hv; simpl; try done; try lia; eauto with lia.
    split; [apply Ht|apply Ht].
  - unfold owed in *. simpl. rewrite owed_jobs_fresh by done. unfold owed_job, job_total. simpl. rewrite Hpr, Hf. simpl.
    apply incoming_grows in Hi as [Ho Hin]. unfold held in *. rewrite Hl, !amount_in_app, !amount_out_app. simpl.
    rewrite bool_decide_true, bool_decide_false by first [done|apply Ht]. lia.
Qed.

Lemma chain_step_inv x x' : contract_inv (fst x) (snd x) -> chain_step x x' -> contract_inv (fst x') (snd x').
Proof.
  intros Hi H. destruct H as [tx c [s w] r [s' w'] Ht Hty [(u & -> & H)| ->]%execute_cases|s w w' Hm]; simpl in *; [|done|].
  - apply run_call_effect in H; [|done..]. destruct H as [c [Hj Hn Ht' Hb Hm]| |id c Hs].
    + destruct Hi as [H1 Htr H2 H3 H4 H5]. apply moved_held in Hm. simpl in Hm.
      split; rewrite ?Hn, ?Hj, ?Ht'; try done; [destruct Hb; [congruence|done]|].
      unfold owed in *. rewrite Hj. lia.
    + by eapply creates_inv.
    + by eapply steps_inv.
  - destruct Hi. apply moved_held in Hm. simpl in Hm. split; try done. lia.
Qed.

Lemma deploy_inv tx er mr treasury bps s w w' :
  is_uint 16 bps -> deploy tx er mr treasury bps w = (Ok s, w') -> 0 <= held w' -> contract_inv s w'.
Proof.
  unfold deploy. intros Hb H Hh. go_inv. to_prop. rewrite beq_false in *. unfold is_uint in Hb.
  split; simpl; try done; lia.
Qed.

Lemma runs_inv x x' : contract_inv (fst x) (snd x) -> rtc chain_step x x' -> contract_inv (fst x') (snd x').
Proof. intros Hi H. induction H; [done|]. eauto using chain_step_inv. Qed.

Lemma owed_job_nonneg self j : job_wf self j -> 0 <= job_total j /\ 0 <= owed_job j.
Proof.
  intros Hw. destruct (jw_principal _ _ Hw) as (p & Hp & ?), (jw_fee _ _ Hw) as (f & Hf & ? & _).
  unfold owed_job, job_total. rewrite Hp, Hf. simpl. destruct (Settled j); lia.
Qed.

(** The tokens of an open job are there. *)
Lemma held_covers s w id j :
  contract_inv s w -> es_jobs s !! id = Some j -> Settled j = false -> 0 <= job_total j <= held w.
Proof.
  intros Hi Hid Hs. destruct (owed_job_nonneg _ _ (ci_jobs _ _ Hi _ _ Hid)) as [Ht _]. split; [done|].
  etransitivity; [|apply (ci_owed _ _ Hi)]. unfold owed. rewrite (owed_jobs_lookup _ _ _ Hid). unfold owed_job at 1. rewrite Hs.
  enough (0 <= owed_jobs (delete id (es_jobs s))) by lia. apply owed_jobs_nonneg. intros i j' [_ Hj]%lookup_delete_Some.
  by eapply owed_job_nonneg, (ci_jobs _ _ Hi).
Qed.

(** The refund is open to everyone once the grace period is over. *)
Lemma refund_succeeds tx id s w j :
  contract_inv s w -> tx_value tx = 0 -> es_jobs s !! id = Some j -> Settled j = false -> t_GraceEnds (Terms j) < now tx ->
  exists w', execute (run_call tx (RefundExpired id)) (s, w) = (Ok tt, (set_job id (settled_as State_Refunded j) s, w')) /\
    token_log w' = token_log w ++ [(escrow_address, t_Client (Terms j), job_total j)].
Proof.
  intros Hi Hv Hid Hs Hg.
  destruct (transfer_pays (t_Client (Terms j)) (job_total j) w) as [w' Hw'];
    [apply (ci_jobs _ _ Hi _ _ Hid)|by eapply held_covers|].
  exists w'. split; [|by apply transfer_logs in Hw'].
  unfold execute. replace (run_call tx (RefundExpired id) (s, w)) with (Ok tt, (set_job id (settled_as State_Refunded j) s, w')); [done|].
  symmetry. cbn [run_call]. apply M_bind_Ok. exists tt, (s, w). rewrite revert_if_Ok, Hv. split; [done|].
  unfold refundExpired. apply M_bind_Ok. exists s, (s, w). split; [done|]. cbn zeta. rewrite (job_at_lookup _ _ _ Hid).
  apply M_bind_Ok. exists tt, (s, w). rewrite revert_if_Ok, Hs. split; [split; [by apply Z.leb_gt|done]|].
  apply M_bind_Ok. eexists tt, _. split; [done|]. unfold zoom_snd. by rewrite Hw'.
Qed.

(** A settled job is frozen. *)
Lemma settled_frozen tx c s w u s' w' id j :
  contract_inv s w -> wf_tx tx -> call_typed c -> run_call tx c (s, w) = (Ok u, (s', w')) ->
  es_jobs s !! id = Some j -> Settled j = true -> es_jobs s' !! id = Some j.
Proof.
  intros Hi Ht Hty H Hid Hs. apply run_call_effect in H; [|done..]. destruct H as [c [Hj _ _ _ _]| |id' c (j' & ts & -> & Hstep & _)].
  - by rewrite Hj.
  - destruct H as [_ _ _ _ -> _]. simpl. rewrite lookup_insert_ne; [done|]. intros <-. apply (ci_ids _ _ Hi) in Hid. lia.
  - simpl. rewrite lookup_insert_ne; [done|]. intros <-. rewrite (job_at_lookup _ _ _ Hid) in Hstep.
    by rewrite (job_step_open _ _ _ _ _ _ _ _ (ci_jobs _ _ Hi _ _ Hid) Hstep) in Hs.
Qed.
(** Why the contract sends tokens. *)
Inductive earned (tx : Tx) s : escrow_call -> list transfer -> Prop :=
| earned_work id j data ot oc tag status signature v :
    es_jobs s !! id = Some j -> State j = State_Verifying -> now tx <= a_TimeoutAt (Current j) ->
    a_TimeoutAt (Current j) <= t_GraceEnds (Terms j) -> authentic tx id j data tag status signature v ->
    o_Outcome (v_Result v) = OutcomePass -> id_Attempt (v_Id v) = a_Attempt (Current j) ->
    id_InstructionId (v_Id v) = a_InstructionId (Current j) ->
    0 < o_ExecutedCount (v_Result v) -> o_PassedCount (v_Result v) = o_ExecutedCount (v_Result v) ->
    earned tx s (SettleAttempt id data ot oc tag status signature)
      [(escrow_address, t_Contractor (Terms j), num (t_Principal (Terms j))); (escrow_address, es_treasury s, num (t_Fee (Terms j)))]
| earned_cancel id j :
    es_jobs s !! id = Some j -> State j = State_Created -> tx_sender tx = t_Client (Terms j) ->
    earned tx s (CancelUnaccepted id) [(escrow_address, t_Client (Terms j), job_total j)]
| earned_refund id j :
    es_jobs s !! id = Some j -> Settled j = false -> t_GraceEnds (Terms j) < now tx ->
    earned tx s (RefundExpired id) [(escrow_address, t_Client (Terms j), job_total j)].

Lemma decoded_counts data v : abi_decode_verdict data = Some v -> 0 <= o_ExecutedCount (v_Result v).
Proof.
  unfold abi_decode_verdict, mbind, option_bind. intros H. repeat case_match; simplify_eq/=.
  match goal with H : uint_at _ _ 16 = Some _ |- _ => unfold uint_at in H; case_match; simplify_eq end. apply be_value_nonneg.
Qed.

Lemma bound_pass tx id j v :
  checkBinding j v id (tx_block tx) = true -> o_Outcome (v_Result v) = OutcomePass ->
  id_Attempt (v_Id v) = a_Attempt (Current j) /\ id_InstructionId (v_Id v) = a_InstructionId (Current j) /\
  o_ExecutedCount (v_Result v) <> 0 /\ o_PassedCount (v_Result v) = o_ExecutedCount (v_Result v).
Proof.
  unfold checkBinding, checkIdentity, checkOutcomeBinding, counts_accepted, beq. intros Hb Ho. rewrite Ho in Hb.
  change (OutcomePass =? OutcomePass) with true in Hb. simpl in Hb. to_prop. split_and!; try done; lia.
Qed.

(** A step that sends tokens has earned them. *)
Lemma job_step_earned tx s w id c j' ts :
  contract_inv s w -> wf_tx tx -> job_step tx escrow_address (es_treasury s) id (job_at s id) c j' ts -> ts = [] \/ earned tx s c ts.
Proof.
  intros Hi Ht H. apply job_step_exists in H as Hid; [|apply Ht]. pose proof (ci_jobs _ _ Hi _ _ Hid) as Hw.
  destruct H; auto; right; [by constructor| |by constructor].
  destruct (bound_pass _ _ _ _ (au_binding _ _ _ _ _ _ _ _ H2) H3) as (? & ? & ? & ?).
  pose proof (decoded_counts _ _ (au_data _ _ _ _ _ _ _ _ H2)). destruct (jw_verifying _ _ Hw H) as [_ [_ ?]].
  econstructor; try done. lia.
Qed.

(** What a successful call does to the tokens of the escrow. *)
Lemma call_tokens tx c s w u s' w' :
  contract_inv s w -> wf_tx tx -> call_typed c -> run_call tx c (s, w) = (Ok u, (s', w')) ->
  exists l ts, token_log w' = token_log w ++ l ++ ts /\ incoming escrow_address l /\ (ts = [] \/ earned tx s c ts).
Proof.
  intros Hi Ht Hty H. apply run_call_effect in H; [|done..].
  destruct H as [c [_ _ _ _ (l & Hl & Hin)]|contractor tee p ab sb ge vt sh bh eh ch terms Hc|id c (j' & ts & _ & Hj & (l & Hl & Hin))].
  - exists l, []. auto.
  - destruct Hc as [_ _ _ (_ & _ & _ & Hp & _) _ (l & Hl & Hin)]. destruct Hty as [Hpr _].
    destruct (job_fee_bound p (es_protocolFeeBps s)) as [Hf _]; [unfold is_uint in Hpr; lia|apply (ci_bps _ _ Hi)|].
    eexists (l ++ [_]), []. rewrite app_nil_r. split; [exact Hl|]. split; [|by left]. apply Forall_app. split; [done|].
    constructor; [|constructor]. split; [apply Ht|]. simpl. unfold is_uint in Hpr. lia.
  - exists l, ts. split_and!; [done|done|]. by eapply job_step_earned.
Qed.
End runs.

Section transactions.
Context {GE : GoEthereum} {EV : EVM} {W : Type} {FL : Flare W} {TK : TokenLaws}.

(** A sequence of transactions. *)
Fixpoint run_txs (l : list (Tx * escrow_call)) (x : EscrowState * W) : EscrowState * W :=
  match l with [] => x | (tx, c) :: l => run_txs l (snd (execute (run_call tx c) x)) end.

Lemma run_txs_reach l x : Forall (fun t => wf_tx t.1 /\ call_typed t.2) l -> rtc chain_step x (run_txs l x).
Proof.
  intros H. revert x. induction H as [|[tx c] l [Ht Hc] _ IH]; intros x; simpl; [done|].
  eapply rtc_l; [|apply IH]. destruct (execute (run_call tx c) x) as [r x'] eqn:E. by eapply cs_call.
Qed.
End transactions.

(** ** Properties *)

(** C3. The escrow is solvent and its refunds cannot be blocked: in every state
    that any sequence of transactions, reverted or not, and of outside events
    reaches from the deployment, the escrow holds at least what its open jobs
    are owed; every job is well formed, settled exactly in its terminal states
    and verified only before its grace period ends; a job that is not settled
    can be refunded by anyone once its grace period is over, whatever its
    state and whether new work is paused, with its principal and fee to its
    client; and no call changes a settled job or pays it again. *)
Theorem escrow_solvent {GE : GoEthereum} {EV : EVM} {W} {FL : Flare W} {TK : TokenLaws} tx er mr treasury bps (w w0 w1 : W) s0 s :
  is_uint 16 bps -> deploy tx er mr treasury bps w = (Ok s0, w0) -> 0 <= held w0 -> rtc chain_step (s0, w0) (s, w1) ->
  owed s <= held w1 /\
  (forall id j, es_jobs s !! id = Some j -> job_wf escrow_address j) /\
  (forall tx id j, tx_value tx = 0 -> es_jobs s !! id = Some j -> Settled j = false -> t_GraceEnds (Terms j) < now tx ->
     exists w2, execute (run_call tx (RefundExpired id)) (s, w1) = (Ok tt, (set_job id (settled_as State_Refunded j) s, w2)) /\
       token_log w2 = token_log w1 ++ [(escrow_address, t_Client (Terms j), job_total j)]) /\
  (forall tx c u s' w2 id j, wf_tx tx -> call_typed c -> run_call tx c (s, w1) = (Ok u, (s', w2)) ->
     es_jobs s !! id = Some j -> Settled j = true -> es_jobs s' !! id = Some j).
Proof.
  intros Hb Hd Hh Hr. pose proof (deploy_inv _ _ _ _ _ _ _ _ Hb Hd Hh) as Hi. pose proof (runs_inv (s0, w0) (s, w1) Hi Hr) as Hinv. simpl in Hinv.
  split; [apply Hinv|]. split; [apply Hinv|]. split.
  - intros. by apply refund_succeeds.
  - intros. by eapply settled_frozen.
Qed.

(** C4. The contract pays only what was earned. In every state reached from the
    deployment, a call that succeeds sends tokens from the escrow in one of
    three ways. A settlement pays the principal to the contractor and the fee to
    the treasury: the job is being verified and in time, the data decodes to a
    passed verdict with all of at least one vector passed, which the node of the
    job signed for this chain, this job, its current attempt and its current
    instruction. A cancellation returns the job to its client, who asks for it
    before anyone accepted. A refund returns an unsettled job to its client
    after its grace period. Every other successful call sends nothing. *)
Theorem payments_are_earned {GE : GoEthereum} {EV : EVM} {W} {FL : Flare W} {TK : TokenLaws} tx0 er mr treasury bps (w w0 w1 w2 : W) s0 s s' tx c :
  is_uint 16 bps -> deploy tx0 er mr treasury bps w = (Ok s0, w0) -> 0 <= held w0 -> rtc chain_step (s0, w0) (s, w1) ->
  wf_tx tx -> call_typed c -> run_call tx c (s, w1) = (Ok tt, (s', w2)) ->
  exists l ts, token_log w2 = token_log w1 ++ l ++ ts /\ incoming escrow_address l /\ (ts = [] \/ earned tx s c ts).
Proof.
  intros Hb Hd Hh Hr Ht Hty H. pose proof (deploy_inv _ _ _ _ _ _ _ _ Hb Hd Hh) as Hi.
  by apply (call_tokens tx c s w1 tt s' w2 (runs_inv (s0, w0) (s, w1) Hi Hr)).
Qed.

(** ** A concrete chain, for witnesses: the log of its token *)

Definition ref_escrow : bytes := be_bytes 20 0xe5c0.
Definition ref_held (l : list transfer) : Z := amount_in ref_escrow l - amount_out ref_escrow l.

#[export] Instance ref_flare : Flare (list transfer) := {|
  safeTransfer to x := fun l =>
    if beq to zero_address || (x <? 0) || (ref_held l <? x) then (Err (Plain "ERC20"), l) else (Ok tt, l ++ [(ref_escrow, to, x)]);
  safeTransferFrom from to x := fun l => (Ok tt, l ++ [(from, to, x)]);
  getTeeMachineStatus _ := fun l => (Ok TEE_STATUS_PRODUCTION, l);
  getRandomTeeIds _ n := fun l => (Ok (repeat (be_bytes 20 0x7ee) (Z.to_nat n)), l);
  sendInstructions _ _ _ := fun l => (Ok (be_bytes 32 0x1d), l);
  nextPublicExtensionId := fun l => (Ok (FIRST_PUBLIC_EXTENSION_ID + 2), l);
  getTeeExtensionInstructionsSender i := fun l => (Ok (if i =? FIRST_PUBLIC_EXTENSION_ID + 1 then ref_escrow else zero_address), l);
  getVotingRoundId t := fun l => (Ok (10 + t / 90), l);
  getRandomNumberHistorical r := fun l => (if r <? 12 then Ok (76, false) else Ok (77, true), l);
  getAssetManagerFXRP_fAsset := fun l => (Ok (be_bytes 20 0xfa), l);
  getRelay := fun l => (Ok (be_bytes 20 0xfb), l);
  getRandomNumberV2 := fun l => (Ok (be_bytes 20 0xfc), l);
|}.

#[export, refine] Instance ref_token : TokenLaws (W := list transfer) := {| escrow_address := ref_escrow; token_log w := w |}.
Proof.
  5-10: intros; match goal with H : _ = (_, _) |- _ => injection H as _ <- end; exists []; split; [by rewrite app_nil_r|constructor].
  - cbn [safeTransfer ref_flare]. intros to x w u w'. case_match; [done|]. by intros [= _ <-].
  - intros x w u w'. cbn [safeTransfer ref_flare]. by rewrite (proj2 (beq_true zero_address zero_address)).
  - intros to x w Hto Hx. cbn [safeTransfer ref_flare]. apply beq_false in Hto as ->. unfold ref_held.
    destruct (Z.ltb_spec x 0); [lia|].
    destruct (Z.ltb_spec (amount_in ref_escrow w - amount_out ref_escrow w) x); [lia|]. eauto.
  - intros from x w u w'. cbn [safeTransferFrom ref_flare]. by intros [= _ <-].
Defined.

(** A job on it, from its creation to its settlement's eve: the node's key is
    [c_key], and the agreement is the one of RefWorld.v. *)
Definition c_client : bytes := be_bytes 20 1.
Definition c_contractor : bytes := be_bytes 20 2.
Definition c_treasury : bytes := be_bytes 20 0x77.
Definition c_key : bytes := be_bytes 31 0x7ee.
Definition c_tee : bytes := be_bytes 20 0x7ee.

Definition c_tx (sender : bytes) (time : Z) : Tx :=
  mkTx (mkBlock time 114 ref_escrow (fun _ => w_code_hash)) 50 sender 0 (fun _ => 2).

Definition c_deployed : EscrowState :=
  mkEscrow c_treasury c_treasury zero_address 100 false 0 0 ∅.

Definition c_create : escrow_call :=
  CreateJob c_contractor c_tee 100 100 800 2000 600 w_spec w_bundle_hash w_engine w_ciphertext_hash.
Definition c_calls : list (Tx * escrow_call) :=
  [(c_tx c_treasury 10, SetExtensionId); (c_tx c_client 20, c_create); (c_tx c_contractor 30, AcceptJob 0);
   (c_tx c_client 40, CancelUnaccepted 0); (c_tx c_contractor 180, SubmitAttempt 0 w_artifact); (c_tx c_client 300, LockRandomness 0)].

Definition c_run (l : list (Tx * escrow_call)) : EscrowState * list transfer := run_txs (GE := ref_geth) l (c_deployed, []).

Lemma c_deploy : deploy (c_tx c_treasury 5) (be_bytes 20 8) (be_bytes 20 9) c_treasury 100 [] = (Ok c_deployed, []).
Proof. vm_compute. reflexivity. Qed.

Lemma c_reach l : Forall (fun t => wf_tx t.1 /\ call_typed t.2) l -> rtc (chain_step (GE := ref_geth)) (c_deployed, []) (c_run l).
Proof. apply run_txs_reach. Qed.

Lemma c_wf sender time : sender <> ref_escrow -> sender <> zero_address -> is_uint 64 time -> wf_tx (c_tx sender time).
Proof. by split. Qed.

Lemma c_calls_wf : Forall (fun t => wf_tx t.1 /\ call_typed t.2) c_calls.
Proof. repeat constructor; simpl; unfold is_uint; done || lia. Qed.

Example c_owed : owed (fst (c_run c_calls)) = 101 /\ snd (c_run c_calls) = [(c_client, ref_escrow, 101)].
Proof. vm_compute. auto. Qed.

Theorem escrow_solvent_witness :
  let s := fst (c_run c_calls) in let w1 := snd (c_run c_calls) in
  owed s <= held w1 /\
  (forall id j, es_jobs s !! id = Some j -> job_wf escrow_address j) /\
  (forall tx id j, tx_value tx = 0 -> es_jobs s !! id = Some j -> Settled j = false -> t_GraceEnds (Terms j) < now tx ->
     exists w2, execute (run_call (GE := ref_geth) tx (RefundExpired id)) (s, w1) = (Ok tt, (set_job id (settled_as State_Refunded j) s, w2)) /\
       token_log w2 = token_log w1 ++ [(escrow_address, t_Client (Terms j), job_total j)]) /\
  (forall tx c u s' w2 id j, wf_tx tx -> call_typed c -> run_call (GE := ref_geth) tx c (s, w1) = (Ok u, (s', w2)) ->
     es_jobs s !! id = Some j -> Settled j = true -> es_jobs s' !! id = Some j).
Proof.
  apply (escrow_solvent (GE := ref_geth) (c_tx c_treasury 5) (be_bytes 20 8) (be_bytes 20 9) c_treasury 100 [] [] (snd (c_run c_calls))
           c_deployed).
  - unfold is_uint. lia.
  - apply c_deploy.
  - vm_compute. discriminate.
  - rewrite <- surjective_pairing. apply c_reach, c_calls_wf.
Defined.

(** Its refund: too early, then once, whoever asks for it. *)
Example c_refunded :
  snd (c_run (c_calls ++ [(c_tx c_client 2000, RefundExpired 0); (c_tx c_contractor 2001, RefundExpired 0);
    (c_tx c_contractor 2002, RefundExpired 0)]))
  = [(c_client, ref_escrow, 101); (ref_escrow, c_client, 101)].
Proof. vm_compute. reflexivity. Qed.

Definition c_paused : list (Tx * escrow_call) := c_calls ++ [(c_tx c_treasury 400, PauseNewWork)].
Definition c_refund_state : EscrowState * list transfer := Eval vm_compute in c_run c_paused.

Theorem payments_are_earned_witness :
  exists l ts, token_log [(c_client, ref_escrow, 101); (ref_escrow, c_client, 101)] = token_log (snd c_refund_state) ++ l ++ ts /\
    incoming escrow_address l /\ (ts = [] \/ earned (GE := ref_geth) (c_tx c_contractor 2001) (fst c_refund_state) (RefundExpired 0) ts).
Proof.
  apply (payments_are_earned (GE := ref_geth) (c_tx c_treasury 5) (be_bytes 20 8) (be_bytes 20 9) c_treasury 100 [] []
           (snd c_refund_state) [(c_client, ref_escrow, 101); (ref_escrow, c_client, 101)] c_deployed (fst c_refund_state)
           (fst (snd (run_call (GE := ref_geth) (c_tx c_contractor 2001) (RefundExpired 0) c_refund_state)))
           (c_tx c_contractor 2001) (RefundExpired 0)).
  - unfold is_uint. lia.
  - apply c_deploy.
  - vm_compute. discriminate.
  - change (rtc (chain_step (GE := ref_geth)) (c_deployed, []) (c_run c_paused)). apply c_reach. apply Forall_app.
    split; [apply c_calls_wf|]. by repeat constructor.
  - by apply c_wf; unfold is_uint.
  - done.
  - vm_compute. reflexivity.
Defined.

(** The freeze of settled jobs rests on the token: one that let the escrow pay
    nothing to the zero address would let anyone refund a job that does not
    exist yet, and the job that is created under its id could never be
    refunded. *)
Definition lenient_flare : Flare (list transfer) := {|
  safeTransfer to x := fun l => if (x <? 0) || (ref_held l <? x) then (Err (Plain "ERC20"), l) else (Ok tt, l ++ [(ref_escrow, to, x)]);
  safeTransferFrom := safeTransferFrom;
  getTeeMachineStatus := getTeeMachineStatus;
  getRandomTeeIds := getRandomTeeIds;
  sendInstructions := sendInstructions;
  nextPublicExtensionId := nextPublicExtensionId;
  getTeeExtensionInstructionsSender := getTeeExtensionInstructionsSender;
  getVotingRoundId := getVotingRoundId;
  getRandomNumberHistorical := getRandomNumberHistorical;
  getAssetManagerFXRP_fAsset := getAssetManagerFXRP_fAsset;
  getRelay := getRelay;
  getRandomNumberV2 := getRandomNumberV2;
|}.

Example lenient_token_blocks_refund :
  let calls := [(c_tx c_treasury 10, SetExtensionId); (c_tx c_contractor 15, RefundExpired 0); (c_tx c_client 20, c_create)] in
  let strict := run_txs (GE := ref_geth) (FL := ref_flare) calls (c_deployed, []) in
  let lenient := run_txs (GE := ref_geth) (FL := lenient_flare) calls (c_deployed, []) in
  Settled (job_at (fst strict) 0) = false /\ Settled (job_at (fst lenient) 0) = true /\
  fst (execute (run_call (GE := ref_geth) (FL := ref_flare) (c_tx c_client 2001) (RefundExpired 0)) strict) = Ok tt /\
  is_Err (fst (execute (run_call (GE := ref_geth) (FL := lenient_flare) (c_tx c_client 2001) (RefundExpired 0)) lenient)) = true.
Proof. vm_compute. auto. Qed.
