(* ===== verification/InstructionSender.v ===== *)
(** * The sender of the sample's instructions (contracts/InstructionSender.sol)

    The contract that asks the extension for a greeting or a farewell: its
    storage is the extension id, and its messages are the ones the extension's
    handlers decode. *)

From S2P Require Import Prelude GoStd Config GoEth Bundle NetStd Ciphertext Encoding Canonical WireTypes Verifier Reference RefWorld Escrow Verdict Extension Server FccVerdict Contract ContractSpecs.

Definition OP_TYPE_GREETING : bytes := bytes32 "GREETING".
Definition OP_COMMAND_SAY_HELLO : bytes := bytes32 "SAY_HELLO".
Definition OP_COMMAND_SAY_GOODBYE : bytes := bytes32 "SAY_GOODBYE".

(** [abi.encode] of a string: its length and its bytes, padded to words. *)
Definition pad_words (l : bytes) : bytes := l ++ zero_bytes (Z.to_nat ((- llen l) mod 32)).
Definition encoded_string (l : bytes) : bytes := word (llen l) ++ pad_words l.

(** [abi.encode(SayGoodbyeMessage(...))]: the offset of the tuple, then those of
    its strings in it. *)
Definition abi_encode_goodbye (name reason : bytes) : bytes :=
  word 0x20 ++ word 0x40 ++ word (0x40 + llen (encoded_string name)) ++ encoded_string name ++ encoded_string reason.

Section sender.
Context {W : Type} {FL : Flare W}.

(** The storage is the extension id. *)
Definition sender_deploy (tx : Tx) (extensionRegistry machineRegistry : bytes) : result Z :=
  fail_if (beq extensionRegistry zero_address) (Plain "TeeExtensionRegistry cannot be zero address") ;;
  fail_if (beq machineRegistry zero_address) (Plain "TeeMachineRegistry cannot be zero address") ;;
  fail_if (tx_code tx extensionRegistry =? 0) (Plain "TeeExtensionRegistry has no code") ;;
  fail_if (tx_code tx machineRegistry =? 0) (Plain "TeeMachineRegistry has no code") ;;
  Ok 0.

Definition sender_setExtensionId (tx : Tx) : M (Z * W) unit := fun '(id, w) =>
  if negb (id =? 0) then (Err (Plain "Extension ID already set."), (id, w)) else
  match (c ← nextPublicExtensionId; find_extension (this tx) (Z.to_nat (c - FIRST_PUBLIC_EXTENSION_ID)) FIRST_PUBLIC_EXTENSION_ID) w with
  | (Ok (Some i), w') => (Ok tt, (i, w'))
  | (Ok None, w') => (Err (Plain "Extension ID not found."), (id, w'))
  | (Err e, w') => (Err e, (id, w'))
  | (Panic p, w') => (Panic p, (id, w'))
  end.

Definition sender_getExtensionId : M (Z * W) Z := fun '(id, w) =>
  if id =? 0 then (Err (Plain "Extension ID is not set."), (id, w)) else (Ok id, (id, w)).

(** Both senders. *)
Definition send_greeting (tx : Tx) (opCommand message : bytes) : M (Z * W) unit :=
  id ← sender_getExtensionId;
  teeIds ← zoom_snd (getRandomTeeIds id 1);
  _instruction ← zoom_snd (sendInstructions (tx_value tx) teeIds
    (mkParams OP_TYPE_GREETING opCommand message [] 0 (tx_sender tx)));
  mret tt.

Definition sendSayHello (tx : Tx) (message : bytes) : M (Z * W) unit := send_greeting tx OP_COMMAND_SAY_HELLO message.
Definition sendSayGoodbye (tx : Tx) (name reason : string) : M (Z * W) unit :=
  send_greeting tx OP_COMMAND_SAY_GOODBYE (abi_encode_goodbye (bytes_of_string name) (bytes_of_string reason)).

(** ** What the sender asks for, the extension routes *)

Lemma pad_words_length l : Z.of_nat (length (pad_words l)) mod 32 = 0.
Proof.
  unfold pad_words, zero_bytes. rewrite length_app, length_replicate. unfold llen.
  pose proof (Z.mod_pos_bound (- Z.of_nat (length l)) 32 ltac:(lia)). rewrite Nat2Z.inj_add, Z2Nat.id by lia.
  rewrite Zplus_mod_idemp_r. by rewrite Z.add_opp_diag_r.
Qed.

(** The encoding is in words. *)
Lemma goodbye_in_words name reason : Z.of_nat (length (abi_encode_goodbye name reason)) mod 32 = 0.
Proof.
  unfold abi_encode_goodbye, encoded_string. rewrite !length_app. unfold word. rewrite !length_be_bytes.
  pose proof (pad_words_length name) as H1. pose proof (pad_words_length reason) as H2.
  replace (Z.of_nat _) with (Z.of_nat (length (pad_words name)) + Z.of_nat (length (pad_words reason)) + 5 * 32) by lia.
  rewrite Z_mod_plus_full. by rewrite Zplus_mod, H1, H2.
Qed.

(** A sender whose id is set never loses it, and one without sends nothing. *)
Lemma sender_id_kept tx m id w r id' w' : id <> 0 ->
  (sender_setExtensionId tx (id, w) = (r, (id', w')) -> id' = id /\ w' = w /\ is_Err r = true) /\
  (sendSayHello tx m (id, w) = (r, (id', w')) -> id' = id).
Proof.
  intros Hid. apply Z.eqb_neq in Hid. split.
  - unfold sender_setExtensionId. rewrite Hid. by intros [= <- <- <-].
  - unfold sendSayHello, send_greeting, sender_getExtensionId, zoom_snd, mbind, M_bind. rewrite Hid.
    intros H. repeat (case_match; simplify_eq/=; try done). by apply mret_eq in H as [_ [= -> _]].
Qed.
End sender.

Section routing.
Context {TN : TeeNode} (names : forall s, (String.length s <= 32)%nat -> ToHash s = bytes32 s).

Lemma sender_routed command message :
  command = OP_COMMAND_SAY_HELLO \/ command = OP_COMMAND_SAY_GOODBYE ->
  routed (mkDataFixed OP_TYPE_GREETING command message) = true.
Proof using names.
  intros H. apply routed_spec. left. cbn [OPType OPCommand]. rewrite !names by (simpl; lia). split; [done|].
  destruct H as [-> | ->]; auto.
Qed.
End routing.

(** A sender that found its extension greets through it. *)
Example sender_run :
  let tx := c_tx c_client 10 in
  match (sender_setExtensionId tx ;; sendSayGoodbye tx "Alice" "done") (0, [] : list transfer) with
  | (Ok tt, (id, _)) => id = FIRST_PUBLIC_EXTENSION_ID + 1
  | _ => False
  end /\ length (abi_encode_goodbye (bytes_of_string "Alice") (bytes_of_string "done")) = 224%nat.
Proof. vm_compute. auto. Qed.
