(* ===== verification/ContractSimulation.v ===== *)
(** * The escrow contract refines its simulation

    go/internal/workproof/simulation.go is a small model of the escrow. Every
    job of the contract is one of the model: a transaction on the job is a call
    of the model, or leaves the model's job as it is. *)

From S2P Require Import Prelude GoStd GoEth Bundle WireTypes Verifier Escrow FccVerdict Signing Simulation Reference RefWorld Contract ContractSpecs.

(** ** The correspondence *)

Definition addr (a : bytes) : string := hex0x a.

#[export] Instance addr_inj : Inj (=) (=) addr.
Proof. intros a b. unfold addr, hex0x. intros H%(inj (String.append "0x")). by apply (inj hex_encode). Qed.

(** The outcomes of the model are one more than those of the contract. *)
Definition sim_verdict (tee : bytes) (v : VerdictV1) : Simulation.Verdict :=
  Simulation.mkVerdict (addr (id_EscrowAddress (v_Id v))) (pretty (num (id_JobId (v_Id v)))) (addr (id_InstructionId (v_Id v)))
    (id_Attempt (v_Id v)) (o_Outcome (v_Result v) + 1) (o_PassedCount (v_Result v)) (o_ExecutedCount (v_Result v))
    (o_IssuedAt (v_Result v)) (o_ExpiresAt (v_Result v)) (addr tee).

(** The model does not see the phases of an attempt. *)
Definition sim_state (st : Z) (st' : Simulation.State) : Prop :=
  if st =? State_Created then st' = Simulation.Created
  else if st =? State_Accepted then st' = Simulation.Accepted
  else if st =? State_Paid then st' = Simulation.Paid
  else if st =? State_Cancelled then st' = Simulation.Cancelled
  else if st =? State_Refunded then st' = Simulation.Refunded
  else if st =? State_AwaitingResubmission then st' = Simulation.AwaitingResubmission
  else st' = Simulation.Accepted \/ st' = Simulation.AwaitingResubmission \/ st' = Simulation.Retryable.

Record sim_job (j : Job) (j' : Simulation.Job) : Prop := {
  sj_parties : Simulation.j_Client j' = addr (t_Client (Terms j)) /\ Simulation.j_Contractor j' = addr (t_Contractor (Terms j)) /\
    Simulation.j_ExpectedTEE j' = addr (t_ExpectedTee (Terms j));
  sj_amounts : Simulation.j_Principal j' = num (t_Principal (Terms j)) /\ Simulation.j_Fee j' = num (t_Fee (Terms j));
  sj_times : Simulation.j_SubmitBy j' = t_SubmitBy (Terms j) /\ Simulation.j_GraceEnds j' = t_GraceEnds (Terms j);
  sj_attempt : Simulation.j_Attempt j' = a_Attempt (Current j) /\ 0 <= a_Attempt (Current j);
  sj_state : sim_state (State j) (Simulation.j_State j');
  sj_settled : Simulation.j_Settled j' = Settled j;
}.

(** The ledger moves by what the contract sends. *)
Inductive pays (self treasury : bytes) (j : Job) : list transfer -> Simulation.Ledger -> Simulation.Ledger -> Prop :=
| pays_nothing l : pays self treasury j [] l l
| pays_client x l :
    pays self treasury j [(self, t_Client (Terms j), x)] l
      (Simulation.mkLedger (Simulation.l_Client l + x) (Simulation.l_Contractor l) (Simulation.l_Treasury l))
| pays_work x y l :
    pays self treasury j [(self, t_Contractor (Terms j), x); (self, treasury, y)] l
      (Simulation.mkLedger (Simulation.l_Client l) (Simulation.l_Contractor l + x) (Simulation.l_Treasury l + y)).

Fixpoint accepts (l : list Simulation.call) (st st' : Simulation.Job * Simulation.Ledger) : Prop :=
  match l with
  | [] => st' = st
  | c :: l => exists st1, Simulation.exec c st = (Ok tt, st1) /\ accepts l st1 st'
  end.

Lemma accepts_reachable l st0 st st' : Simulation.reachable st0 st -> accepts l st st' -> Simulation.reachable st0 st'.
Proof.
  revert st. induction l as [|c l IH]; simpl; intros st Hr; [by intros ->|]. intros (st1 & He & Ha).
  eapply IH; [|done]. eapply Simulation.reachable_step; [done|]. by econstructor.
Qed.

Section refinement.
Context {GE : GoEthereum} {EV : EVM}.

(** The calls of the model for a transaction. *)
Inductive answers (tx : Tx) (id : Z) (j : Job) : escrow_call -> list Simulation.call -> Prop :=
| an_accept : answers tx id j (AcceptJob id) [Simulation.CallAccept]
| an_cancel : answers tx id j (CancelUnaccepted id) [Simulation.CallCancel (now tx)]
| an_submit a : answers tx id j (SubmitAttempt id a) [Simulation.CallSubmit (now tx)]
| an_lock : answers tx id j (LockRandomness id) []
| an_dispatch : answers tx id j (DispatchVerification id) []
| an_expire : answers tx id j (ExpireVerification id) []
| an_settle data ot oc tag st sig v : authentic tx id j data tag st sig v ->
    answers tx id j (SettleAttempt id data ot oc tag st sig)
      [Simulation.CallSettle (now tx) (sim_verdict (t_ExpectedTee (Terms j)) v)]
| an_refund : answers tx id j (RefundExpired id) [Simulation.CallRefund (now tx)].

Definition late_cancel (tx : Tx) (id : Z) (j : Job) (c : escrow_call) : Prop :=
  c = CancelUnaccepted id /\ State j = State_Created /\ t_SubmitBy (Terms j) < now tx.

#[export] Instance late_cancel_dec tx id j c : Decision (late_cancel tx id j c).
Proof.
  unfold late_cancel. destruct c; try (right; by intros [? _]).
  match goal with |- Decision (CancelUnaccepted ?i = _ /\ _) =>
    destruct (decide (i = id /\ State j = State_Created /\ t_SubmitBy (Terms j) < now tx)) as [(-> & H)|H] end;
    [by left|right; intros ([= ->] & H'); by apply H].
Defined.

Lemma authentic_bound tx id j data tag st sig v : authentic tx id j data tag st sig v ->
  id_Attempt (v_Id v) = a_Attempt (Current j) /\ o_ExpiresAt (v_Result v) = t_GraceEnds (Terms j).
Proof. intros [_ _ _ _ _ Hb]. unfold checkBinding, checkIdentity, checkOutcomeBinding in Hb. to_prop. done. Qed.

(** The states in which the model accepts a submission. *)
Lemma sim_state_ready st st' : sim_state st st' -> submit_ready st = true ->
  st' = Simulation.Accepted \/ st' = Simulation.AwaitingResubmission \/ st' = Simulation.Retryable.
Proof. intros H [-> | [-> | ->]]%submit_ready_cases; simpl in H; auto. Qed.

Lemma sim_job_with_state j js st st' : sim_job j js -> sim_state st st' -> sim_job (with_state st j) (Simulation.set_State st' js).
Proof. by intros [] ?; split. Qed.
Lemma sim_job_settled j js st st' : sim_job j js -> sim_state st st' -> sim_job (settled_as st j) (Simulation.set_Settled st' js).
Proof. by intros [] ?; split. Qed.
Lemma sim_job_attempt j js a st : sim_job j js -> a_Attempt a = a_Attempt (Current j) -> sim_state st (Simulation.j_State js) ->
  sim_job (with_attempt a st j) js.
Proof. intros [? ? ? [H1 H2]] Ha ?. split; try done. simpl. by rewrite Ha. Qed.

(** A step that the model does not see: the attempt stays, and so does its state. *)
Lemma silent_step tx self treasury id j c a st js (l : Simulation.Ledger) :
  answers tx id j c [] -> sim_job j js -> a_Attempt a = a_Attempt (Current j) -> sim_state st (Simulation.j_State js) ->
  exists calls js' l', answers tx id j c calls /\ accepts calls (js, l) (js', l') /\ sim_job (with_attempt a st j) js' /\
    pays self treasury j [] l l'.
Proof. intros Ha Hs Hat Hst. exists [], js, l. split_and!; [done|done|by apply sim_job_attempt|constructor]. Qed.

(** A step that the model makes with one call. *)
Lemma loud_step tx self treasury id j j' c call ts js (l : Simulation.Ledger) js' l' :
  answers tx id j c [call] -> Simulation.exec call (js, l) = (Ok tt, (js', l')) -> sim_job j' js' -> pays self treasury j ts l l' ->
  exists calls js' l', answers tx id j c calls /\ accepts calls (js, l) (js', l') /\ sim_job j' js' /\ pays self treasury j ts l l'.
Proof. intros Ha He Hs Hp. exists [call], js', l'. split_and!; try done. eexists. by split. Qed.

(** The simulation diagram: a step of the contract is matched by the model. *)
Lemma job_step_simulated tx self treasury id j c j' ts js l :
  is_uint 64 (now tx) -> job_wf self j -> sim_job j js -> job_step tx self treasury id j c j' ts ->
  late_cancel tx id j c \/
  exists calls js' l', answers tx id j c calls /\ accepts calls (js, l) (js', l') /\ sim_job j' js' /\ pays self treasury j ts l l'.
Proof.
  intros Hnow Hw Hsim Hstep. pose proof (job_step_open _ _ _ _ _ _ _ _ Hw Hstep) as Hopen.
  destruct (Hsim) as [(Hp1 & Hp2 & Hp3) [Ham1 Ham2] [Hsb Hge] [Hat Hat0] Hst Hset]. rewrite Hopen in Hset.
  destruct Hstep as [H1 H2 H3|H1 H2|artifact a H1 H2 H3 H4 H5 H6 H7 H8 H9|a H1 [H2 _] H3|a H1 [H2 _] H3|iid H1 H2 H3|
    a H1 H2 [H3 _] H4|data ot oc tag st sig v H1 H2 H3 Ha H4|data ot oc tag st sig v H1 H2 H3 Ha H4|H1 H2 H3].
  - right. rewrite H1 in Hst. hnf in Hst. eapply loud_step; [constructor| |by apply sim_job_with_state|constructor].
    cbn [Simulation.exec]. unfold Simulation.Accept. by rewrite Hst.
  - destruct (Z.ltb_spec (t_SubmitBy (Terms j)) (now tx)) as [Hl|Hl]; [by left|]. right. rewrite H1 in Hst. hnf in Hst.
    eapply loud_step; [constructor| |by apply sim_job_settled|constructor].
    cbn [Simulation.exec]. unfold Simulation.Cancel. rewrite Hst, Hsb, (proj2 (Z.ltb_ge _ _)) by done.
    unfold job_total. by rewrite <- Ham1, <- Ham2.
  - right. pose proof (sim_state_ready _ _ Hst H1) as Hr.
    eapply loud_step with (js' := Simulation.set_Attempt (a_Attempt a) js); [constructor| | |constructor].
    + cbn [Simulation.exec]. unfold Simulation.Submit. rewrite Hsb, (proj2 (Z.ltb_ge _ _)) by done.
      rewrite Hat, <- H4, uint_id by (unfold is_uint; lia). by destruct Hr as [-> | [-> | ->]].
    + split; try done; [simpl; lia|simpl; congruence].
  - right. rewrite H1 in Hst. apply silent_step; [constructor|done..].
  - right. rewrite H1 in Hst. apply silent_step; [constructor|done..].
  - right. rewrite H1 in Hst. apply silent_step; [constructor|done..].
  - right. rewrite H1 in Hst. apply silent_step; [constructor|done..].
  - right. eapply loud_step with (js' := Simulation.set_State (if o_Outcome (v_Result v) =? OutcomeFail
      then Simulation.AwaitingResubmission else Simulation.Retryable) js);
      [by apply an_settle| |apply sim_job_with_state; [done|]|constructor].
    + cbn [Simulation.exec]. unfold Simulation.Settle. rewrite Hset. cbn [sim_verdict Simulation.v_Outcome].
      destruct H4 as [-> | ->]; reflexivity.
    + destruct H4 as [-> | ->], (t_SubmitBy (Terms j) <? now tx); hnf; cbn; auto.
  - right. apply authentic_bound in Ha as Hb. destruct Hb as [Hb1 Hb2].
    eapply loud_step; [by apply an_settle| |by apply sim_job_settled|].
    + cbn [Simulation.exec]. unfold Simulation.Settle. rewrite Hset. cbn [sim_verdict Simulation.v_Outcome Simulation.v_TEEID
        Simulation.v_Attempt Simulation.v_ExpiresAt]. rewrite H4, Hp3, String.eqb_refl, Hb1, Hat, !Z.eqb_refl, Hb2.
      destruct (Z.ltb_spec (t_GraceEnds (Terms j)) (now tx)); [lia|done].
    + rewrite Ham1, Ham2. constructor.
  - right. eapply loud_step; [constructor| |by apply sim_job_settled|constructor].
    cbn [Simulation.exec]. unfold Simulation.Refund. rewrite Hset, Hge, (proj2 (Z.leb_gt _ _)) by done.
    unfold job_total. by rewrite <- Ham1, <- Ham2.
Qed.
End refinement.

(** ** Runs *)
Section runs.
Context {GE : GoEthereum} {EV : EVM} {W : Type} {FL : Flare W} {TK : TokenLaws}.
Implicit Types (s : EscrowState) (w : W).

(** What happens to the chain, one by one: a transaction, or something outside
    the escrow. *)
Definition event : Type := option (Tx * escrow_call).

Inductive chain_event : event -> EscrowState * W -> EscrowState * W -> Prop :=
| ce_call tx c x r x' : wf_tx tx -> call_typed c -> execute (run_call tx c) x = (r, x') -> chain_event (Some (tx, c)) x x'
| ce_outside s w w' : moved w w' [] -> chain_event None (s, w) (s, w').

Inductive chain_run : list event -> EscrowState * W -> EscrowState * W -> Prop :=
| cr_nil x : chain_run [] x x
| cr_cons e tr x y z : chain_event e x y -> chain_run tr y z -> chain_run (e :: tr) x z.

Lemma chain_event_step e x y : chain_event e x y -> chain_step x y.
Proof. intros []; [by eapply cs_call|by apply cs_outside]. Qed.

Lemma chain_run_rtc x y : rtc chain_step x y <-> exists tr, chain_run tr x y.
Proof.
  split.
  - intros H. induction H as [x|x y z Hs _ [tr IH]]; [by exists []; constructor|].
    assert (exists e, chain_event e x y) as [e He] by (destruct Hs; eexists; by econstructor).
    exists (e :: tr). by econstructor.
  - intros [tr H]. induction H; [done|]. eapply rtc_l; [by eapply chain_event_step|done].
Qed.

Lemma run_txs_run l x : Forall (fun t => wf_tx t.1 /\ call_typed t.2) l -> chain_run (Some <$> l) x (run_txs l x).
Proof.
  intros H. revert x. induction H as [|[tx c] l [Ht Hc] _ IH]; intros x; simpl; [constructor|].
  econstructor; [|apply IH]. destruct (execute (run_call tx c) x) as [r x'] eqn:E. by eapply ce_call.
Qed.

(** A transaction that moved the job, from and to which state, and what it
    sent. *)
Record own_step := own { os_tx : Tx; os_call : escrow_call; os_from : Job; os_to : Job; os_sent : list transfer }.

(** A run of the contract as one job sees it: the events that moved it, in
    their order, and the others. *)
Inductive job_run (id : Z) : list event -> EscrowState * W -> list own_step -> EscrowState * W -> Prop :=
| jr_done x : job_run id [] x [] x
| jr_other e tr x y os z :
    chain_event e x y -> es_jobs (fst y) !! id = es_jobs (fst x) !! id -> job_run id tr y os z -> job_run id (e :: tr) x os z
| jr_own tx c tr s w j j' ts s' w' os z :
    chain_event (Some (tx, c)) (s, w) (s', w') -> is_uint 64 (now tx) -> es_jobs s !! id = Some j ->
    job_step tx escrow_address (es_treasury s) id j c j' ts ->
    es_jobs s' !! id = Some j' -> moved w w' ts -> job_run id tr (s', w') os z ->
    job_run id (Some (tx, c) :: tr) (s, w) (own tx c j j' ts :: os) z.

Lemma chain_step_treasury x y : chain_step x y -> es_treasury (fst y) = es_treasury (fst x).
Proof.
  intros H. destruct H as [tx c [s w] r [s' w'] Ht Hty [(u & -> & H)| ->]%execute_cases|]; [|done..].
  apply run_call_effect in H; [|done..]. destruct H as [c []| |id c (j' & ts & -> & _)]; [done| |done].
  by destruct H as [_ _ _ _ -> _].
Qed.

Lemma job_run_exists id tr x y :
  contract_inv (fst x) (snd x) -> is_Some (es_jobs (fst x) !! id) -> chain_run tr x y -> exists os, job_run id tr x os y.
Proof.
  intros Hi Hid H. induction H as [x|e tr x y z He H IH]; [eexists; constructor|].
  pose proof (chain_event_step _ _ _ He) as Hs.
  assert (es_jobs (fst y) !! id = es_jobs (fst x) !! id -> exists os, job_run id (e :: tr) x os z) as Hsame.
  { intros E. destruct IH as [os Hr]; [by eapply chain_step_inv|by rewrite E|]. exists os. by eapply jr_other. }
  pose proof (chain_step_inv _ _ Hi Hs) as Hi'. pose proof He as He'.
  destruct He as [tx c [s w] r [s' w'] Ht Hty [(u & -> & Hc)| ->]%execute_cases|]; simpl in *; [|by apply Hsame..].
  apply run_call_effect in Hc; [|done..]. destruct Hc as [c []| |id' c (j' & ts & -> & Hj & Hm)]; [apply Hsame; congruence| |].
  - apply Hsame. destruct H0 as [_ _ _ _ -> _]. simpl. apply lookup_insert_ne. intros <-. destruct Hid as [j Hid].
    apply (ci_ids _ _ Hi) in Hid. lia.
  - destruct (decide (id' = id)) as [->|Hne]; [|by apply Hsame; simpl; rewrite lookup_insert_ne].
    destruct Hid as [j Hid]. rewrite (job_at_lookup _ _ _ Hid) in Hj.
    destruct IH as [os Hr]; [done|simpl; rewrite lookup_insert_eq; by eexists|].
    eexists. eapply jr_own; [exact He'|apply Ht|done|done| |done|done]. apply lookup_insert_eq.
Qed.

(** A settled job stays as it is. *)
Lemma job_run_settled id tr x os y j :
  contract_inv (fst x) (snd x) -> job_run id tr x os y -> es_jobs (fst x) !! id = Some j -> Settled j = true ->
  os = [] /\ es_jobs (fst y) !! id = Some j.
Proof.
  intros Hi H. induction H as [|e tr x y os z He E H IH|tx c tr s w j1 j' ts s' w' os z Hs Hn Hid Hj Hid' Hm H IH];
    intros Hl Hset; [done| |].
  - apply IH; [eapply chain_step_inv; [done|by eapply chain_event_step]|congruence|done].
  - simpl in Hl. simplify_eq. pose proof (ci_jobs _ _ Hi _ _ Hid) as Hw. by rewrite (job_step_open _ _ _ _ _ _ _ _ Hw Hj) in Hset.
Qed.

(** The model follows the transactions of a job: with the calls for each, all
    accepted, to the state of the job after it and a ledger moved by what it
    sent. *)
Inductive follows (treasury : bytes) (id : Z) :
    list own_step -> Simulation.Job * Simulation.Ledger -> Simulation.Job * Simulation.Ledger -> Prop :=
| fo_nil st : follows treasury id [] st st
| fo_cons o os calls st st1 st2 :
    answers (os_tx o) id (os_from o) (os_call o) calls -> accepts calls st st1 -> sim_job (os_to o) (fst st1) ->
    pays escrow_address treasury (os_from o) (os_sent o) (snd st) (snd st1) -> follows treasury id os st1 st2 ->
    follows treasury id (o :: os) st st2.

(** A late cancellation, as the model sees it. *)
Record refused (id : Z) (o : own_step) (st : Simulation.Job * Simulation.Ledger) : Prop := {
  rf_late : late_cancel (os_tx o) id (os_from o) (os_call o);
  rf_to : os_to o = settled_as State_Cancelled (os_from o);
  rf_sent : os_sent o = [(escrow_address, t_Client (Terms (os_from o)), job_total (os_from o))];
  rf_sim : sim_job (os_from o) (fst st);
  rf_cancel : Simulation.exec (Simulation.CallCancel (now (os_tx o))) st = (Err (Plain "cannot cancel after acceptance/deadline"), st);
}.

Definition on_time (id : Z) (o : own_step) : Prop := ~ late_cancel (os_tx o) id (os_from o) (os_call o).

(** How a run ends in the model: with the contract's job, or at the late
    cancellation that ended it. *)
Inductive simulated (treasury : bytes) (id : Z) (st0 : Simulation.Job * Simulation.Ledger) : list own_step -> Job -> Prop :=
| sm_follows os st j :
    Forall (on_time id) os -> follows treasury id os st0 st -> sim_job j (fst st) -> simulated treasury id st0 os j
| sm_refused os o st :
    Forall (on_time id) os -> follows treasury id os st0 st -> refused id o st -> simulated treasury id st0 (os ++ [o]) (os_to o).

Lemma simulated_cons treasury id st0 st1 o os j calls :
  on_time id o -> answers (os_tx o) id (os_from o) (os_call o) calls -> accepts calls st0 st1 -> sim_job (os_to o) (fst st1) ->
  pays escrow_address treasury (os_from o) (os_sent o) (snd st0) (snd st1) -> simulated treasury id st1 os j ->
  simulated treasury id st0 (o :: os) j.
Proof.
  intros Ho Ha Hc Hs Hp [os' st j' Hos Hf Hj|os' o' st Hos Hf Hr].
  - eapply sm_follows; [by constructor|by econstructor|done].
  - change (o :: os' ++ [o']) with ((o :: os') ++ [o']). eapply sm_refused; [by constructor|by econstructor|done].
Qed.

Lemma late_step_refused tx id self treasury j c j' ts st :
  self = escrow_address -> sim_job j (fst st) -> job_step tx self treasury id j c j' ts -> late_cancel tx id j c ->
  refused id (own tx c j j' ts) st.
Proof.
  intros -> Hsim Hj (-> & Hst & Hlate). inversion Hj; subst. split; try done.
  destruct st as [js l]. destruct Hsim as [_ _ [Hsb _] _ Hss _]. rewrite Hst in Hss. hnf in Hss. simpl in Hsb, Hss.
  cbn [Simulation.exec fst os_tx]. unfold Simulation.Cancel. by rewrite Hsb, (proj2 (Z.ltb_lt _ _)), orb_true_r.
Qed.

Lemma run_simulated id tr x os y j st :
  contract_inv (fst x) (snd x) -> job_run id tr x os y -> es_jobs (fst x) !! id = Some j -> sim_job j (fst st) ->
  exists j', es_jobs (fst y) !! id = Some j' /\ simulated (es_treasury (fst x)) id st os j'.
Proof.
  intros Hi H. revert j st.
  induction H as [x|e tr x y os z He E H IH|tx c tr s w j1 j' ts s' w' os z He Hn Hid Hj Hid' Hm H IH]; intros j st Hl Hsim.
  - exists j. split; [done|]. eapply sm_follows; [constructor|constructor|done].
  - apply chain_event_step in He as Hs. rewrite <- (chain_step_treasury _ _ Hs).
    apply (IH ltac:(by eapply chain_step_inv) j st); [congruence|done].
  - simpl in Hl. simplify_eq. pose proof (ci_jobs _ _ Hi _ _ Hid) as Hw. apply chain_event_step in He as Hs.
    pose proof (chain_step_inv _ _ Hi Hs) as Hi'. pose proof (chain_step_treasury _ _ Hs) as Htr. simpl in Hi', Htr |- *.
    destruct (decide (late_cancel tx id j1 c)) as [Hlate|Hok].
    + pose proof (late_step_refused _ _ _ _ _ _ _ _ st eq_refl Hsim Hj Hlate) as Hr. pose proof (rf_to _ _ _ Hr) as Ej. simpl in Ej.
      destruct (job_run_settled _ _ (s', w') _ _ _ Hi' H Hid' ltac:(by rewrite Ej)) as [-> Hz]. exists j'. split; [done|].
      apply (sm_refused _ _ _ [] _ st (Forall_nil_2 _) (fo_nil _ _ _) Hr).
    + destruct st as [js l].
      destruct (job_step_simulated _ _ _ _ _ _ _ _ _ l Hn Hw Hsim Hj) as [|(calls & js' & l' & Hans & Ha & Hsim' & Hp)]; [done|].
      destruct (IH Hi' j' (js', l') Hid' Hsim') as (j2 & Hj2 & Hres). exists j2. split; [done|]. simpl in Hres. rewrite Htr in Hres.
      by eapply simulated_cons.
Qed.

Lemma created_sim tx contractor tee p ab sb ge vt sh bh eh ch s w id s' w' :
  contract_inv s w -> wf_tx tx -> createJob tx contractor tee p ab sb ge vt sh bh eh ch (s, w) = (Ok id, (s', w')) ->
  exists j, es_jobs s' !! id = Some j /\ State j = State_Created /\
    exists st0, Simulation.NewJob (addr (tx_sender tx)) (addr contractor) (addr tee) (Some p)
      (Some (job_fee p (es_protocolFeeBps s))) sb ge = Ok st0 /\ sim_job j (fst st0).
Proof.
  intros Hi Ht (-> & terms & [(H1 & H2 & H3) (H4 & H5) (_ & H6 & H7 & _) _ -> _])%createJob_Ok; [|done].
  assert (es_jobs s !! es_nextJobId s = None) as Hfresh.
  { destruct (es_jobs s !! es_nextJobId s) eqn:E; [|done]. apply (ci_ids _ _ Hi) in E. lia. }
  eexists. split; [apply lookup_insert_eq|]. split; [done|]. eexists. split; [done|]. unfold job_at. rewrite Hfresh.
  split; simpl; rewrite ?H1, ?H2, ?H3, ?H4, ?H5, ?H6, ?H7; done.
Qed.
End runs.

(** ** Properties *)


Definition c_before : EscrowState * list transfer := Eval vm_compute in c_run (take 1 c_calls).
Definition c_created : EscrowState * list transfer := Eval vm_compute in c_run (take 2 c_calls).
Definition c_later : list (Tx * escrow_call) := drop 2 c_calls ++ [(c_tx c_client 2001, RefundExpired 0)].
Definition c_end : EscrowState * list transfer := Eval vm_compute in run_txs (GE := ref_geth) c_later c_created.


(** The late cancellation: the contract refunds the client, the simulation
    refuses. *)
Example c_late_cancel :
  snd (c_run (take 2 c_calls ++ [(c_tx c_client 801, CancelUnaccepted 0)])) = [(c_client, ref_escrow, 101); (ref_escrow, c_client, 101)] /\
  is_Err (fst (Simulation.Cancel 801 (Simulation.mkJob "a" "b" "t" 100 1 Simulation.Created 0 800 2000 false,
                                      Simulation.mkLedger 0 0 0))) = true.
Proof. vm_compute. auto. Qed.
