(* ===== verification/Settlement.v ===== *)
(** * From the verdict to the payment

    The extension and the escrow contract together: the instruction that the
    contract dispatches is the one the extension decodes, the bytes of its
    verdict are those the contract decodes, and a verdict that the node signs
    settles the job. *)

From S2P Require Import Prelude GoStd Config GoEth Bundle NetStd Ciphertext Encoding Canonical Decrypt WireTypes Verifier Escrow Verdict Typing TeeCalls Reference RefWorld Extension Server FccVerdict Signing Contract ContractSpecs.

(** ** The ABI coding of static values: one word for each, a tuple has those
    of its components in order *)

Fixpoint abi_words (v : abi_value) : list bytes :=
  match v with
  | AbiBigInt x => [word (num x)]
  | AbiUint64 x => [word x]
  | AbiAddress a => [address_word a]
  | AbiBytes32 h => [h]
  | AbiTuple l => flat_map abi_words l
  | _ => []
  end.

(** A tuple of which no component is one. *)
Definition flat (c : abi_component) : Prop := match c with Component _ _ => True | TupleComponent _ _ => False end.

Class StaticLaws {GE : GoEthereum} := {
  encode_static c v : has_type c v -> structs_Encode c v = Ok (concat (abi_words v));
  decode_static name cs vs : Forall flat cs -> Forall2 has_type cs vs ->
    structs_DecodeTo (TupleComponent name cs) (concat (abi_words (AbiTuple vs))) = Ok (AbiTuple vs);
}.

(** ** Words *)

Definition all_words (l : list bytes) : Prop := Forall (fun x => length x = 32%nat) l.

Lemma word_length x : length (word x) = 32%nat.
Proof. apply length_be_bytes. Qed.
Lemma address_word_length a : length a = 20%nat -> length (address_word a) = 32%nat.
Proof. intros H. unfold address_word, zero_bytes. rewrite length_app, length_replicate. lia. Qed.

Lemma word_at_concat l n x : all_words l -> l !! n = Some x -> word_at (concat l) n = x.
Proof.
  intros Hl. revert n. unfold word_at. induction Hl as [|y l Hy Hl IH]; intros n; [done|]. destruct n as [|n]; cbn [lookup list_lookup concat].
  - intros [= ->]. rewrite Nat.mul_0_r, drop_0. by rewrite take_app_length'.
  - intros H. rewrite Nat.mul_succ_r, Nat.add_comm, <- drop_drop, (drop_app_length' y) by done. by apply IH.
Qed.

Lemma concat_words_length l : all_words l -> length (concat l) = (32 * length l)%nat.
Proof. induction 1 as [|x l Hx _ IH]; [done|]. cbn [concat length]. rewrite length_app, Hx, IH. lia. Qed.

Lemma uint_at_word w l n x :
  w <= 256 -> all_words l -> l !! n = Some (word x) -> is_uint w x -> uint_at w (concat l) n = Some x.
Proof.
  intros Hw Hl Hn [H0 Hx]. unfold uint_at. rewrite (word_at_concat _ _ _ Hl Hn). unfold word. rewrite be_value_bytes.
  assert (2 ^ w <= 2 ^ 256) by (apply Z.pow_le_mono_r; lia). change (256 ^ Z.of_nat 32) with (2 ^ 256).
  rewrite Z.mod_small by lia. by destruct (Z.ltb_spec x (2 ^ w)); [|lia].
Qed.

Lemma address_at_word l n a :
  all_words l -> l !! n = Some (address_word a) -> address_at (concat l) n = Some a.
Proof.
  intros Hl Hn. unfold address_at. rewrite (word_at_concat _ _ _ Hl Hn). unfold address_word. cbn zeta.
  rewrite take_app_length' by done. rewrite drop_app_length' by done. by rewrite bool_decide_true.
Qed.

Ltac typed_inv H :=
  repeat (apply Forall2_cons_1 in H as [?H H]);
  repeat match goal with T : has_type (Component _ _) _ |- _ => inversion T; clear T; subst end.

(** The contract decodes the words of a typed verdict to the verdict. *)
Lemma abi_decode_words v :
  has_type verdictTy (verdict_value v) -> o_Outcome (v_Result v) <= 2 ->
  abi_decode_verdict (concat (abi_words (verdict_value v))) = Some v.
Proof.
  intros (vs & [= <-] & H)%has_type_tuple_inv Ho. destruct v as [[] []].
  apply Forall2_cons_1 in H as [(? & [= <-] & Hi)%has_type_tuple_inv [(? & [= <-] & Hr)%has_type_tuple_inv _]%Forall2_cons_1].
  typed_inv Hi. typed_inv Hr. simpl in Ho.
  set (l := abi_words _). assert (all_words l) as Hl.
  { subst l. cbn [abi_words flat_map app verdict_value identity_value outcome_value v_Id v_Result num default].
    repeat constructor; auto using word_length, address_word_length. }
  unfold abi_decode_verdict. unfold llen. rewrite (concat_words_length _ Hl). change (length l) with 20%nat. cbn [Z.of_nat Z.ltb].
  change (Z.of_nat (32 * 20) <? 32 * 20) with false. cbn match.
  repeat first
    [ progress (erewrite (uint_at_word _ l); [|lia|done|reflexivity|eassumption])
    | progress (erewrite (address_at_word l); [|done|reflexivity])
    | progress (erewrite (word_at_concat l); [|done|reflexivity]) ]; cbn.
  by apply Z.ltb_ge in Ho as ->.
Qed.

(** The instruction of the contract is the one the extension decodes. *)
Definition instruction_value (i : WorkProofInstruction) : abi_value := AbiTuple
  [AbiBigInt (i_ChainId i); AbiAddress (i_EscrowAddress i); AbiBigInt (i_JobId i); AbiUint64 (i_Attempt i);
   AbiBytes32 (i_SpecHash i); AbiBytes32 (i_PrivateBundleHash i); AbiBytes32 (i_CiphertextHash i);
   AbiAddress (i_ArtifactAddress i); AbiBigInt (i_ArtifactBlock i); AbiBytes32 (i_ArtifactCodeHash i);
   AbiBigInt (i_RandomRound i); AbiBytes32 (i_RandomValueHash i); AbiBytes32 (i_EngineVersionHash i);
   AbiUint64 (i_ExpiresAt i)].

Lemma instruction_words i : concat (abi_words (instruction_value i)) = abi_encode_instruction i.
Proof. unfold abi_encode_instruction. cbn [instruction_value abi_words flat_map app concat]. by rewrite app_nil_r. Qed.

Section settlement.
Context {GE : GoEthereum} {EV : EVM} {SX : StaticLaws}.

Lemma decode_dispatched i : instruction_typed i -> decode_instruction (abi_encode_instruction i) = Ok i.
Proof.
  intros []. unfold decode_instruction, instructionTy. rewrite <- instruction_words. unfold instruction_value.
  rewrite decode_static.
  - by destruct i.
  - by repeat constructor.
  - repeat first [apply List.Forall2_nil | apply List.Forall2_cons]; auto.
Qed.

Lemma encode_verdict_words v : has_type verdictTy (verdict_value v) -> encode_verdict v = Ok (concat (abi_words (verdict_value v))).
Proof. apply encode_static. Qed.

(** The contract decodes what the extension encoded. *)
Lemma verdict_roundtrip v data :
  has_type verdictTy (verdict_value v) -> o_Outcome (v_Result v) <= 2 -> encode_verdict v = Ok data ->
  abi_decode_verdict data = Some v.
Proof. intros Ht Ho. rewrite encode_verdict_words by done. intros [= <-]. by apply abi_decode_words. Qed.

(** ** A settlement whose verdict the contract accepts *)
Context {W : Type} {FL : Flare W} {TK : TokenLaws}.

(** What a settlement does to the job, and what it pays. *)
Definition settled_job (tx : Tx) (j : Job) (outcome : Z) : Job :=
  if outcome =? OutcomeFail then after_rejection tx j State_AwaitingResubmission
  else if outcome =? OutcomeInconclusive then after_rejection tx j State_Retryable
  else settled_as State_Paid j.
Definition settled_payments (s : EscrowState) (j : Job) (outcome : Z) : list transfer :=
  if outcome =? OutcomePass then
    [(escrow_address, t_Contractor (Terms j), num (t_Principal (Terms j)));
     (escrow_address, es_treasury s, num (t_Fee (Terms j)))]
  else [].

(** The settlement window of a job. *)
Record settleable (tx : Tx) (s : EscrowState) (id : Z) (j : Job) : Prop := {
  sb_job : es_jobs s !! id = Some j;
  sb_state : State j = State_Verifying;
  sb_open : now tx <= a_TimeoutAt (Current j);
  sb_value : tx_value tx = 0;
  sb_instruction : a_InstructionId (Current j) <> zero_hash;
}.

Lemma M_bind_run {A B} (m : M (EscrowState * W) A) (f : A -> M (EscrowState * W) B) x a x' :
  m x = (Ok a, x') -> (m ≫= f) x = f a x'.
Proof. unfold mbind, M_bind. by intros ->. Qed.
Lemma M_bind_guard {A} c e (f : unit -> M (EscrowState * W) A) x : c = false -> (revert_if c e ≫= f) x = f tt x.
Proof. by intros ->. Qed.
Lemma zoom_run {A} (m : M W A) (s : EscrowState) w a w' : m w = (Ok a, w') -> zoom_snd m (s, w) = (Ok a, (s, w')).
Proof. intros H. apply zoom_Ok. eauto. Qed.

(** Both payments of a pass. *)
Lemma payments_succeed s w id j :
  contract_inv s w -> es_jobs s !! id = Some j -> Settled j = false ->
  exists w1 w2, safeTransfer (t_Contractor (Terms j)) (num (t_Principal (Terms j))) w = (Ok tt, w1) /\
    safeTransfer (es_treasury s) (num (t_Fee (Terms j))) w1 = (Ok tt, w2) /\
    token_log w2 = token_log w ++ settled_payments s j OutcomePass.
Proof.
  intros Hi Hj Hs. pose proof (held_covers _ _ _ _ Hi Hj Hs) as Hcov. pose proof (ci_jobs _ _ Hi _ _ Hj) as Hw.
  destruct (jw_principal _ _ Hw) as (p & Hp & ?), (jw_fee _ _ Hw) as (f & Hf & ? & _). unfold job_total in Hcov.
  unfold settled_payments. rewrite Hp, Hf in *. simpl in *.
  destruct (transfer_pays (t_Contractor (Terms j)) p w) as [w1 H1]; [apply Hw|lia|]. pose proof (transfer_logs _ _ _ _ _ H1) as E1.
  destruct (transfer_pays (es_treasury s) f w1) as [w2 H2]; [apply Hi| |].
  { unfold held in *. rewrite E1, amount_in_app, amount_out_app. simpl. repeat case_bool_decide; try done; lia. }
  exists w1, w2. split_and!; [done|done|]. by rewrite (transfer_logs _ _ _ _ _ H2), E1, <- (assoc_L (++)).
Qed.

Lemma settle_accepted tx s w id j v data sig :
  contract_inv s w -> settleable tx s id j -> abi_decode_verdict data = Some v ->
  checkBinding j v id (tx_block tx) = true ->
  recoverVerdictSigner data (id_InstructionId (v_Id v)) "threshold" 1 (blk_chainid (tx_block tx)) sig = t_ExpectedTee (Terms j) ->
  exists w', run_call tx (SettleAttempt id data OP_TYPE OP_COMMAND "threshold" 1 sig) (s, w)
      = (Ok tt, (set_job id (settled_job tx j (o_Outcome (v_Result v))) s, w')) /\
    token_log w' = token_log w ++ settled_payments s j (o_Outcome (v_Result v)).
Proof.
  intros Hi [Hj Hst Hop Hval Hid] Hd Hb Hr. pose proof (ci_jobs _ _ Hi _ _ Hj) as Hw.
  destruct (jw_verifying _ _ Hw Hst) as [_ [_ Hg]]. pose proof (decoded_outcome _ _ Hd) as Ho.
  assert (Settled j = false) as Hs by (rewrite (jw_settled _ _ Hw), Hst; done).
  destruct (payments_succeed _ _ _ _ Hi Hj Hs) as (w1 & w2 & H1 & H2 & Hlog).
  pose proof (proj2 (jw_contractor _ _ Hw)) as Htee.
  cbn [run_call]. rewrite M_bind_guard by by rewrite Hval. unfold settleAttempt.
  rewrite (M_bind_run _ _ _ s (s, w)) by done. cbn zeta. rewrite (job_at_lookup _ _ _ Hj).
  rewrite M_bind_guard by by rewrite Hst. rewrite M_bind_guard by by apply Z.ltb_ge. rewrite M_bind_guard by (apply Z.ltb_ge; lia).
  rewrite M_bind_guard by done. rewrite M_bind_guard by by rewrite !(proj2 (beq_true _ _)).
  rewrite M_bind_guard by by rewrite (proj2 (beq_true _ _)). rewrite M_bind_guard by by apply beq_false.
  rewrite (M_bind_run _ _ _ v (s, w)).
  2:{ unfold decodeAndAuthenticate. rewrite Hd, Hr. apply M_bind_guard. rewrite (proj2 (beq_false _ _) Htee). by rewrite (proj2 (beq_true _ _)). }
  rewrite M_bind_guard by by rewrite Hb. unfold settled_job, settled_payments.
  destruct (Z.eqb_spec (o_Outcome (v_Result v)) OutcomeFail) as [->|Hf]; [|
  destruct (Z.eqb_spec (o_Outcome (v_Result v)) OutcomeInconclusive) as [->|Hin]].
  - exists w. split; [done|]. by rewrite app_nil_r.
  - exists w. split; [done|]. by rewrite app_nil_r.
  - assert (o_Outcome (v_Result v) = OutcomePass) as -> by (unfold OutcomePass, OutcomeFail, OutcomeInconclusive in *; lia).
    exists w2. split; [|done]. erewrite M_bind_run by done. cbn [fst snd]. erewrite M_bind_run by by apply zoom_run.
    by apply zoom_run.
Qed.

(** ** The dispatch, the extension and the settlement *)
Context {JC : JsonCodec} {TN : TeeNode} {WN : Type} {EC : EthClient WN} {ES : Escrow WN} {NW : Network WN}.

Lemma dispatch_job tx id s w s' w' :
  contract_inv s w -> wf_tx tx -> run_call tx (DispatchVerification id) (s, w) = (Ok tt, (s', w')) ->
  contract_inv s' w' /\ exists instructionId, job_at s' id = dispatched tx instructionId (job_at s id).
Proof.
  intros Hi Ht (j' & ts & -> & Hj & Hm)%dispatchVerification_step. split.
  - eapply steps_inv; [done..|]. by exists j', ts.
  - unfold job_at at 1. simpl. rewrite lookup_insert_eq. simpl. inversion Hj. eauto.
Qed.

(** A verdict on the instruction of a dispatched job meets the contract's check. *)
Lemma verdict_accepted v c iid tx1 tx2 id s0 s1 p (wn : WN) verdict st' :
  Verify v c iid (job_instruction tx1 id (job_at s0 id)) (p, wn) = (Ok verdict, st') ->
  (exists wn', GetJob (Some id) wn = (Ok (job_at s1 id), wn')) ->
  blk_chainid (tx_block tx2) = blk_chainid (tx_block tx1) -> this tx2 = this tx1 ->
  blk_codehash (tx_block tx2) (a_ArtifactAddress (Current (job_at s1 id))) = a_ArtifactCodeHash (Current (job_at s1 id)) ->
  o_ReportHash (v_Result verdict) <> zero_hash ->
  a_DispatchedAt (Current (job_at s1 id)) <= o_IssuedAt (v_Result verdict) <= now tx2 ->
  iid = a_InstructionId (Current (job_at s1 id)) /\ id_InstructionId (v_Id verdict) = iid /\
  checkBinding (job_at s1 id) verdict id (tx_block tx2) = true.
Proof.
  intros (job & rn & t & s & Hctx & Hcause)%Verify_ok [wn' Hjob] Hchain Hthis Hcode Hrep [Hd1 Hd2].
  destruct (vc_job _ _ _ _ _ _ _ _ Hctx) as [w' Hj]. simpl in Hj. assert (job = job_at s1 id) as -> by congruence.
  split; [by apply (vc_id _ _ _ _ _ _ _ _ Hctx)|]. split; [by destruct Hcause|].
  destruct (vc_chain _ _ _ _ _ _ _ _ Hctx) as [[= Hc] _]. pose proof (vc_escrow _ _ _ _ _ _ _ _ Hctx) as He. simpl in He.
  erewrite verdict_binding; [|done..| |]; [|congruence|unfold this in *; congruence].
  rewrite Hcode, (proj2 (beq_true _ _)), (proj2 (beq_false _ _)) by done. simpl.
  unfold now in Hd2. by rewrite (proj2 (Z.leb_le _ _)), (proj2 (Z.leb_le _ _)).
Qed.

Lemma verdict_outcome v c iid instr p (wn : WN) verdict st' :
  Verify v c iid instr (p, wn) = (Ok verdict, st') -> o_Outcome (v_Result verdict) <= 2.
Proof.
  intros (job & rn & t & s & _ & Hcause)%Verify_ok. destruct Hcause; simpl; [|done].
  unfold outcome_code. repeat case_match; done.
Qed.
End settlement.

(** The names of operations are words. *)
Class NameLaws {TN : TeeNode} := {
  ToHash_word s : (String.length s <= 32)%nat -> ToHash s = bytes32 s;
}.

(** ** Properties *)

(** C2. A dispatched job settles. The contract dispatches a job; the extension
    is asked to verify the message that the contract sent, and reads the job as
    the contract has it. It answers with status 0 only when its verifier, if
    there is one, reached no verdict; otherwise the data of its answer encodes
    the verdict, and whoever hands it to the contract with the signature
    of the job's node, in time and with the job as it was dispatched, settles
    the attempt. A pass pays the contractor its principal and the treasury its
    fee, a fail or an inconclusive verdict asks for another attempt, or for the
    refund when the deadline of submissions is over. *)
Theorem dispatched_verdict_settles {GE : GoEthereum} {EV : EVM} {SX : StaticLaws} {TL : TeeLib} {SL : SigningLib}
    {LAWS : SigningLaws} {W} {FL : Flare W} {TK : TokenLaws} {JC : JsonCodec} {TN : TeeNode} {NL : NameLaws} {WN}
    {EC : EthClient WN} {ES : Escrow WN} {NW : Network WN}
    tx1 id s0 (w0 : W) s1 w1 e port r a df st p (wn : WN) rep st' :
  contract_inv s0 w0 -> wf_tx tx1 -> run_call tx1 (DispatchVerification id) (s0, w0) = (Ok tt, (s1, w1)) ->
  instruction_typed (job_instruction tx1 id (job_at s0 id)) ->
  Server e = Some (new_server port) -> serve e r (st, (p, wn)) = (Ok rep, st') ->
  rq_Path r = "/action" -> rq_Method r = "POST" -> request_action r = Some (a, df) ->
  OPType df = OP_TYPE -> OPCommand df = OP_COMMAND -> act_SubmissionTag a = "threshold" ->
  length (act_ID a) = 32%nat -> act_ID a <> zero_hash ->
  OriginalMessage df = abi_encode_instruction (job_instruction tx1 id (job_at s0 id)) ->
  (exists wn', GetJob (Some id) wn = (Ok (job_at s1 id), wn')) ->
  exists ar, rep_Body rep = string_of_bytes (Marshal_ActionResult ar) /\
    ((ar_Status ar = 0 /\ ar_Data ar = [] /\
      forall v verdict x, workProofVerifier e = Some v ->
        Verify v [] (act_ID a) (job_instruction tx1 id (job_at s0 id)) (p, wn) <> (Ok verdict, x)) \/
     exists verdict, ar_Status ar = 1 /\ encode_verdict verdict = Ok (ar_Data ar) /\
       forall key digest sig tx2 s2 w2,
         PubkeyToAddress (PublicKey key) = t_ExpectedTee (Terms (job_at s0 id)) ->
         ActionResultSigningDigest ar (blk_chainid (tx_block tx1)) = Ok digest ->
         crypto_Sign (accounts_TextHash digest) key = Ok sig ->
         rtc chain_step (s1, w1) (s2, w2) -> es_jobs s2 !! id = Some (job_at s1 id) ->
         wf_tx tx2 -> tx_value tx2 = 0 -> now tx2 <= a_TimeoutAt (Current (job_at s1 id)) ->
         blk_chainid (tx_block tx2) = blk_chainid (tx_block tx1) ->
         blk_codehash (tx_block tx2) (a_ArtifactAddress (Current (job_at s1 id))) = a_ArtifactCodeHash (Current (job_at s1 id)) ->
         o_ReportHash (v_Result verdict) <> zero_hash ->
         a_DispatchedAt (Current (job_at s1 id)) <= o_IssuedAt (v_Result verdict) <= now tx2 ->
         exists w3, run_call tx2 (SettleAttempt id (ar_Data ar) (ar_OPType ar) (ar_OPCommand ar) (ar_SubmissionTag ar)
                                    (ar_Status ar) sig) (s2, w2)
             = (Ok tt, (set_job id (settled_job tx2 (job_at s1 id) (o_Outcome (v_Result verdict))) s2, w3)) /\
           token_log w3 = token_log w2 ++ settled_payments s2 (job_at s1 id) (o_Outcome (v_Result verdict))).
Proof.
  intros Hi0 Ht1 Hdis Hity Hsrv Hserve Hpath Hmeth Hreq Hty Hcmd Htag Hlen Hnz Hmsg Hjob.
  destruct (dispatch_job _ _ _ _ _ _ Hi0 Ht1 Hdis) as [Hi1 [iid Hj1]].
  assert (ToHash Config.OPTypeGreeting <> ToHash Config.OPTypeWorkProof) as Hd.
  { rewrite !ToHash_word by (simpl; lia). intros E. by vm_compute in E. }
  assert (ToHash Config.OPTypeWorkProof = OP_TYPE) as Hn1 by (apply ToHash_word; simpl; lia).
  assert (ToHash Config.OPCommandVerify = OP_COMMAND) as Hn2 by (apply ToHash_word; simpl; lia).
  destruct st' as [st1 x1].
  destruct (serve_routed Hd _ _ _ _ _ _ _ _ _ _ Hsrv Hserve Hpath Hmeth Hreq) as (ar & Hb & Hw & Hv);
    [apply routed_spec; right; by rewrite Hty, Hcmd|].
  exists ar. split; [done|]. destruct (Hv ltac:(by rewrite Hty)) as [(H0 & H1 & Hno)|(v & instr & verdict & x2 & _ & Hdec & Hver & Hst & Henc)];
    rewrite Hmsg in *.
  { left. split; [done|]. split; [done|]. intros v verdict x Hv' Hver. eapply (Hno v _ verdict x _ Hv'); [by apply decode_dispatched|done|].
    by eapply encode_verdict_words, verdict_typed. }
  right. exists verdict. split; [done|]. split; [done|]. rewrite decode_dispatched in Hdec by done. injection Hdec as <-.
  intros key digest sig tx2 s2 w2 Hkey Hdig Hsig Hrun Hj2 Ht2 Hval Hnow Hchain Hcode Hrh Hissued.
  assert (this tx2 = this tx1) as Hthis by by rewrite (wt_this _ Ht1), (wt_this _ Ht2).
  destruct (verdict_accepted _ _ _ _ _ _ _ _ _ _ _ _ Hver Hjob Hchain Hthis Hcode Hrh Hissued) as (Haid & Hvid & Hbind).
  pose proof (rw_id _ _ _ Hw) as Hrid. pose proof (runs_inv (s1, w1) (s2, w2) Hi1 Hrun) as Hi2.
  rewrite (rw_type _ _ _ Hw), (rw_command _ _ _ Hw), (rw_tag _ _ _ Hw), Hst, Hty, Hcmd, Htag. eapply settle_accepted; try done.
  - split; try done; [by rewrite Hj1|by rewrite <- Haid].
  - eapply verdict_roundtrip; [|by eapply verdict_outcome|done]. by eapply verdict_typed.
  - rewrite Hvid, <- Hrid, Hchain, <- Htag, <- (rw_tag _ _ _ Hw), <- Hst.
    erewrite recoverVerdictSigner_signed; [|by rewrite Hrid|done|done]. by rewrite Hkey, Hj1.
Qed.

(** ** A concrete run, for witnesses *)

Lemma ref_Encode_words : forall c v, has_type c v -> ref_Encode v = Ok (concat (abi_words v)).
Proof.
  fix IH 3. intros c v H. destruct H as [| | | | | |name cs vs H]; cbn [ref_Encode ref_word abi_words concat num default];
    rewrite ?app_nil_r; try done.
  induction H as [|c v cs vs Hc _ IHs]; [done|]. cbn [fold_right flat_map]. cbn [ref_Encode] in IHs.
  by rewrite (IH _ _ Hc), IHs, concat_app.
Qed.

Lemma ref_component_word c name ty v : c = Component name ty -> has_type c v -> 
  exists w, abi_words v = [w] /\ length w = 32%nat /\ ref_component ty w = v.
Proof.
  intros -> H. inversion H; subst; eexists; (split; [done|]); (split; [by auto using word_length, address_word_length|]);
    try done; match goal with |- ref_component _ (word (num (Some ?x))) = _ => rename x into n | |- ref_component _ (word ?x) = _ => rename x into n end;
    assert (be_value (word n) = n) as E by (unfold word; rewrite be_value_bytes; unfold is_uint in *; apply Z.mod_small; simpl; lia);
    [transitivity (AbiBigInt (Some (be_value (word n))))|transitivity (AbiUint64 (be_value (word n)))..]; try done; by rewrite E.
Qed.

Lemma ref_components_words cs vs :
  Forall flat cs -> Forall2 has_type cs vs -> ref_components cs (concat (abi_words (AbiTuple vs))) = Ok vs.
Proof.
  intros Hf H. induction H as [|c v cs vs Hc H IH]; [done|]. apply Forall_cons in Hf as [Hfc Hf]. destruct c as [name ty|]; [|done].
  destruct (ref_component_word _ _ _ _ eq_refl Hc) as (w & Hw & Hl & Hv). cbn [abi_words flat_map]. rewrite Hw.
  cbn [app concat ref_components].
  rewrite length_app, Hl. cbn [Nat.ltb Nat.leb Nat.add]. rewrite drop_app_length', take_app_length' by done.
  cbn [abi_words] in IH. rewrite IH by done. cbn. by rewrite Hv.
Qed.

#[export] Instance ref_static : StaticLaws.
Proof.
  split.
  - apply ref_Encode_words.
  - intros name cs vs Hf H. cbn [structs_DecodeTo ref_geth]. unfold ref_DecodeTo.
    replace (match cs with Component _ "string" :: _ => _ | _ => _ end) with
      (r ← ref_components cs (concat (abi_words (AbiTuple vs))); Ok (AbiTuple r)).
    + by rewrite ref_components_words.
    + destruct H as [|c v cs vs Hc H]; [done|]. destruct Hc; done.
Qed.

#[export] Instance ref_names : NameLaws.
Proof. by split. Qed.

#[local] Existing Instance ref_geth.
#[local] Instance s_teelib : TeeLib := spike_teelib.
#[local] Instance s_signing : SigningLaws (TL := s_teelib).
Proof. by apply ref_signing_laws. Qed.

Definition s_ready : EscrowState * list transfer := Eval vm_compute in c_run c_calls.
Definition s_dispatch : Tx := c_tx c_client 900.
Definition s_verifying : EscrowState * list transfer := Eval vm_compute in run_txs [(s_dispatch, DispatchVerification 0)] s_ready.
Definition s_job : Job := Eval vm_compute in job_at (fst s_verifying) 0.
Definition s_instruction : WorkProofInstruction := Eval vm_compute in job_instruction s_dispatch 0 (job_at (fst s_ready) 0).
Definition s_message : bytes := Eval vm_compute in abi_encode_instruction s_instruction.
Definition s_action : Action := mkAction w_instruction_id "threshold" (ToHash Config.OPTypeWorkProof ++ ToHash Config.OPCommandVerify ++ s_message).
Definition s_data : DataFixed := mkDataFixed OP_TYPE OP_COMMAND s_message.
Definition s_request : HttpRequest := w_request Config.OPTypeWorkProof Config.OPCommandVerify s_message.

(** The node's world: its chain has the artifact, its slot holds [word]. *)
Definition s_world (word : bytes) : ref_world := mkWorld (rw_chain (w_world word)) (rw_net (w_world word)) s_job 1000.
Definition s_state (word : bytes) : ExtState * (pins * ref_world) := (initial_state, (∅, s_world word)).

(** The whole run: the answer, its signature and the settlement a second
    later. *)
Definition s_settle (word : bytes) : option (EscrowState * list transfer) :=
  match processVerify w_extension s_action s_data (s_state word) with
  | (Ok ar, _) =>
    match (digest ← ActionResultSigningDigest ar 114; crypto_Sign (accounts_TextHash digest) c_key) with
    | Ok sig => Some (run_txs [(c_tx c_client 1001, SettleAttempt 0 (ar_Data ar) (ar_OPType ar) (ar_OPCommand ar) (ar_SubmissionTag ar) (ar_Status ar) sig)]
                       s_verifying)
    | _ => None
    end
  | _ => None
  end.

Example s_paid :
  (fun x => (State (job_at (fst x) 0), Settled (job_at (fst x) 0), snd x)) <$> s_settle zero_hash =
  Some (State_Paid, true, [(c_client, ref_escrow, 101); (ref_escrow, c_contractor, 100); (ref_escrow, c_treasury, 1)]).
Proof. vm_compute. reflexivity. Qed.

Example s_failed :
  (fun x => (State (job_at (fst x) 0), Settled (job_at (fst x) 0), snd x)) <$> s_settle w_spec =
  Some (State_RefundPending, false, [(c_client, ref_escrow, 101)]).
Proof. vm_compute. reflexivity. Qed.

Lemma s_ready_inv : contract_inv (fst s_ready) (snd s_ready).
Proof.
  apply (runs_inv (c_deployed, []) s_ready).
  - eapply (deploy_inv (c_tx c_treasury 5)); [|apply c_deploy|vm_compute; discriminate]. unfold is_uint. lia.
  - change s_ready with (c_run c_calls). apply c_reach, c_calls_wf.
Qed.

Definition s_reply : Reply :=
  Eval vm_compute in match serve w_extension s_request (s_state zero_hash) with (Ok r, _) => r | _ => mkReply 0 "" end.

Theorem dispatched_verdict_settles_witness :
  exists ar, rep_Body s_reply = string_of_bytes (Marshal_ActionResult ar) /\
    ((ar_Status ar = 0 /\ ar_Data ar = [] /\
      forall v verdict x, workProofVerifier w_extension = Some v ->
        Verify v [] w_instruction_id (job_instruction s_dispatch 0 (job_at (fst s_ready) 0)) (∅, s_world zero_hash) <> (Ok verdict, x)) \/
     exists verdict, ar_Status ar = 1 /\ encode_verdict verdict = Ok (ar_Data ar) /\
       forall key digest sig tx2 s2 w2,
         PubkeyToAddress (PublicKey key) = t_ExpectedTee (Terms (job_at (fst s_ready) 0)) ->
         ActionResultSigningDigest ar 114 = Ok digest ->
         crypto_Sign (accounts_TextHash digest) key = Ok sig ->
         rtc chain_step s_verifying (s2, w2) -> es_jobs s2 !! 0 = Some (job_at (fst s_verifying) 0) ->
         wf_tx tx2 -> tx_value tx2 = 0 -> now tx2 <= a_TimeoutAt (Current (job_at (fst s_verifying) 0)) ->
         blk_chainid (tx_block tx2) = 114 ->
         blk_codehash (tx_block tx2) (a_ArtifactAddress (Current (job_at (fst s_verifying) 0)))
           = a_ArtifactCodeHash (Current (job_at (fst s_verifying) 0)) ->
         o_ReportHash (v_Result verdict) <> zero_hash ->
         a_DispatchedAt (Current (job_at (fst s_verifying) 0)) <= o_IssuedAt (v_Result verdict) <= now tx2 ->
         exists w3, run_call tx2 (SettleAttempt 0 (ar_Data ar) (ar_OPType ar) (ar_OPCommand ar) (ar_SubmissionTag ar)
                                    (ar_Status ar) sig) (s2, w2)
             = (Ok tt, (set_job 0 (settled_job tx2 (job_at (fst s_verifying) 0) (o_Outcome (v_Result verdict))) s2, w3)) /\
           token_log w3 = token_log w2 ++ settled_payments s2 (job_at (fst s_verifying) 0) (o_Outcome (v_Result verdict))).
Proof.
  apply (dispatched_verdict_settles s_dispatch 0 (fst s_ready) (snd s_ready) (fst s_verifying) (snd s_verifying) w_extension 8080
           s_request s_action s_data initial_state ∅ (s_world zero_hash) s_reply (snd (serve w_extension s_request (s_state zero_hash)))).
  - apply s_ready_inv.
  - apply c_wf; unfold is_uint; done.
  - vm_compute. reflexivity.
  - split; try reflexivity; try (apply ty_uint256; unfold is_uint; vm_compute; auto); vm_compute; auto; try done.
  - reflexivity.
  - vm_compute. reflexivity.
  - reflexivity.
  - reflexivity.
  - vm_compute. reflexivity.
  - vm_compute. reflexivity.
  - vm_compute. reflexivity.
  - reflexivity.
  - reflexivity.
  - vm_compute. discriminate.
  - vm_compute. reflexivity.
  - eexists. vm_compute. reflexivity.
Defined.
