(* ===== verification/ChainAudit.v ===== *)
(** * The inspection commands (tools/cmd/audit-deploy, tools/cmd/query-tee)

    Both print what a chain answers. The lines they print are the first
    component of the state. *)

From S2P Require Import Prelude GoStd GoEth Bundle Report Checks Revert TeeCalls Registration Instructions.

(** The calls that only these commands make. [facet_errors] are the ABIs of
    the three facets, [None] when one cannot be loaded, with their errors in
    the order in which the range visits the map; [Inputs_Unpack] is the text
    that [%v] gives for the arguments of an error. *)
Class AuditClient (W : Type) := {
  BlockNumber : M W Z;
  NewExtensionManager : bytes -> result unit;
  GetSystemSupportedPlatforms : M W (list bytes);
  GetExtensionOwner : Z -> M W bytes;
  GetSupportedCodeHashes : Z -> M W (list bytes);
  GetSupportedKeyTypes : Z -> M W (list bytes);
  ExtensionManager_GetAbi : result unit;
  addTeeVersion_Pack : Z -> bytes -> bytes -> list bytes -> result bytes;
  facet_errors : list (string * option (list AbiError));
  Inputs_Unpack : AbiError -> bytes -> error + string;
}.

(** [getTeeMachine]. *)
Record TeeMachine := mkTeeMachine { tm_TeeId : bytes; tm_TeeProxyId : bytes; tm_Url : string }.

Class MachineQueries (W : Type) := {
  NewMachineManager : bytes -> result unit;
  GetActiveTeeMachines : Z -> M W (list bytes * list string);
  query_TeeMachine : bytes -> M W TeeMachine;
  GetTeeMachineStatus : bytes -> M W Z;
  GetTeeMachineOwner : bytes -> M W bytes;
  GetExtensionId : bytes -> M W bigint;
  GetLastStatusChangeTs : bytes -> M W bigint;
  GetInitialSigningPolicyId : bytes -> M W Z;
}.

(** [%-25s]. *)
Fixpoint pad_right (n : nat) (s : string) : string :=
  match n with
  | O => s
  | S n => match s with EmptyString => String " " (pad_right n EmptyString) | String a s => String a (pad_right n s) end
  end.

(** The name in a padded word: zero bytes and blanks at its ends are cut. *)
Fixpoint drop_zeros (l : bytes) : bytes :=
  match l with Byte.x00 :: l => drop_zeros l | _ => l end.
Definition bytes32ToString (b : bytes) : string := TrimSpace (string_of_bytes (rev (drop_zeros (rev b)))).

Section Audit.
Context {GE : GoEthereum} {TL : TeeLib} {RC : RevertCodec} {W : Type} {EC : EthClient W} {HO : Host W} {SE : SupportEnv W}
  {AC : AuditClient W} {MQ : MachineQueries W}.
Abbreviation P := (M (list string * W)).

Definition say (line : string) : P unit := fun '(out, w) => (Ok tt, (out ++ [line], w)).
(** A call whose error is only printed. *)
Definition ask {A} (m : M W A) : P (result A) := zoom_snd (attempt m).

Fixpoint each {A} (f : A -> P unit) (l : list A) : P unit :=
  match l with [] => mret tt | a :: l => f a ;; each f l end.

(** ** The decoding of a revert *)

Definition string_selector : bytes := hex_const "08c379a0".

(** The loops over the facets and their errors. *)
Fixpoint find_error (selector : bytes) (errs : list AbiError) : option AbiError :=
  match errs with
  | [] => None
  | e :: errs => if bool_decide (take 4 (ae_ID e) = selector) then Some e else find_error selector errs
  end.
Fixpoint find_facet_error (selector : bytes) (l : list (string * option (list AbiError))) : option (string * AbiError) :=
  match l with
  | [] => None
  | (_, None) :: l => find_facet_error selector l
  | (name, Some errs) :: l =>
    match find_error selector errs with Some e => Some (name, e) | None => find_facet_error selector l end
  end.

Definition custom_error_line (name : string) (e : AbiError) (revertData : bytes) : string :=
  match Inputs_Unpack (W := W) e (drop 4 revertData) with
  | inr args => "  revert -> " +:+ name +:+ "." +:+ ae_Name e +:+ args
  | inl err => "  revert -> " +:+ name +:+ "." +:+ ae_Name e +:+ " (unpack failed: " +:+ Error err +:+ ") data=0x" +:+
               hex_encode revertData
  end.

(** The line that explains the error of the replayed call. *)
Definition explain_revert (callErr : error) : string :=
  let revertData := ExtractRevertData (Some callErr) in
  if llen revertData <? 4 then "  no/short revert data: " +:+ Error callErr else
  let selector := take 4 revertData in
  match (if bool_decide (selector = string_selector) then abi_UnpackRevert revertData else None) with
  | Some reason => "  revert reason (string): " +:+ quote reason
  | None =>
    match find_facet_error selector (facet_errors (W := W)) with
    | Some (name, e) => custom_error_line name e revertData
    | None => "  revert with unknown selector 0x" +:+ hex_encode selector +:+ " (full: 0x" +:+ hex_encode revertData +:+ ")"
    end
  end.

Definition replayAddTeeVersion (to from : bytes) (extID : Z) (version : string) (codeHash platform : bytes) : P unit :=
  match ExtensionManager_GetAbi (W := W) with
  | Err err => say ("  load ABI: " +:+ Error err)
  | Panic p => lift (Panic p)
  | Ok _ =>
    match StringToBytes32 version with
    | Err err => say ("  version: " +:+ Error err)
    | Panic p => lift (Panic p)
    | Ok versionBytes =>
      match addTeeVersion_Pack (W := W) extID versionBytes codeHash [platform] with
      | Err err => say ("  pack: " +:+ Error err)
      | Panic p => lift (Panic p)
      | Ok calldata =>
        r ← ask (CallContract [] (mkCallMsg from (Some to) 0 None None calldata) None);
        match r with
        | Err callErr => say (explain_revert callErr)
        | _ => say "  eth_call succeeded — tx-time-only revert (gas/state race?)"
        end
      end
    end
  end.

(** ** audit-deploy *)

Definition code_status (a : bytes) (code : result bytes) : string :=
  match code with
  | Err err => "ERROR " +:+ Error err
  | Ok code =>
    if bool_decide (a = zero_address) then "ZERO ADDRESS"
    else if llen code =? 0 then "NO CODE"
    else "ok (" +:+ pretty (llen code) +:+ " bytes)"
  | Panic _ => ""
  end.

Definition audit_address (e : string * bytes) : P unit :=
  let '(name, a) := e in
  code ← ask (CodeAt [] a None);
  say ("  " +:+ pad_right 25 name +:+ " " +:+ Address_Hex a +:+ "   " +:+ code_status a code).

Definition hash_line (h : bytes) : P unit := say ("    0x" +:+ hex_encode h).
Definition named_hash_line (h : bytes) : P unit := say ("    0x" +:+ hex_encode h +:+ "   " +:+ quote (bytes32ToString h)).

Definition audit_extension (extID : Z) : P unit :=
  say (nl +:+ "=== Extension id=" +:+ pretty extID +:+ " ===") ;;
  owner ← ask (GetExtensionOwner extID);
  match owner with
  | Ok owner => say ("  owner: " +:+ Address_Hex owner)
  | Err err => say ("  getExtensionOwner ERROR: " +:+ Error err)
  | Panic p => lift (Panic p)
  end ;;
  ch ← ask (GetSupportedCodeHashes extID);
  match ch with
  | Ok ch => say ("  supportedCodeHashes (" +:+ pretty (llen ch) +:+ "):") ;; each hash_line ch
  | Err err => say ("  getSupportedCodeHashes ERROR: " +:+ Error err)
  | Panic p => lift (Panic p)
  end ;;
  kt ← ask (GetSupportedKeyTypes extID);
  match kt with
  | Ok kt => say ("  supportedKeyTypes (" +:+ pretty (llen kt) +:+ "):") ;; each named_hash_line kt
  | _ => mret tt
  end.

Definition audit_manager (manager : bytes) : P unit :=
  plats ← ask GetSystemSupportedPlatforms;
  say (nl +:+ "=== ExtensionManager facet @ FlareTeeManager " +:+ Address_Hex manager +:+ " ===") ;;
  match plats with
  | Ok plats => say ("  systemSupportedPlatforms (" +:+ pretty (llen plats) +:+ "):") ;; each named_hash_line plats
  | Err err => say ("  getSystemSupportedPlatforms ERROR: " +:+ Error err)
  | Panic p => lift (Panic p)
  end ;;
  cnt ← ask NextPublicExtensionId;
  match cnt with
  | Ok cnt => say ("  nextPublicExtensionId: " +:+ big_text cnt)
  | _ => mret tt
  end.

(** The command over its flags; a message of [os.Exit(1)] is its error. *)
Definition audit_deploy (af rpcURL : string) (extID : Z) (codeHash platform from version : string) : P unit :=
  addr ← on_err "parse addresses: " (zoom_snd (ParseAddresses af));
  on_err "dial: " (zoom_snd (ethclient_Connect rpcURL)) ;;
  chainID ← on_err "chainId: " (zoom_snd (ChainID []));
  bn ← ask BlockNumber;
  say ("Chain ID: " +:+ big_text chainID +:+ "   block: " +:+ pretty (match bn with Ok n => n | _ => 0 end)) ;;
  each audit_address [("FlareTeeManager", ad_FlareTeeManager addr); ("FlareSystemsManager", ad_FlareSystemManager addr);
                      ("Fdc2Hub", ad_Fdc2Hub addr)] ;;
  if bool_decide (ad_FlareTeeManager addr = zero_address) then mret tt else
  match NewExtensionManager (W := W) (ad_FlareTeeManager addr) with
  | Err err => mret tt
  | Panic p => lift (Panic p)
  | Ok _ =>
    audit_manager (ad_FlareTeeManager addr) ;;
    (if 0 <=? extID then audit_extension extID else mret tt) ;;
    if nonempty codeHash && nonempty platform && (0 <=? extID) then
      say (nl +:+ "=== addTeeVersion eth_call replay (decoding revert) ===") ;;
      replayAddTeeVersion (ad_FlareTeeManager addr) (HexToAddress from) extID version (common_HexToHash codeHash)
        (common_HexToHash platform)
    else mret tt
  end.

(** ** query-tee *)

(** The loop over the machines: an address without its URL is out of range. *)
Fixpoint list_machines (i : Z) (ids : list bytes) (urls : list string) : P unit :=
  match ids, urls with
  | [], _ => mret tt
  | id :: ids, url :: urls =>
    say ("  " +:+ pretty i +:+ ": " +:+ Address_Hex id +:+ " url=" +:+ quote url) ;; list_machines (i + 1) ids urls
  | _ :: _, [] => lift (Panic "index out of range")
  end.

(** One printed query: its name, and the text of its answer. *)
Definition query {A} (name : string) (m : M W A) (text : A -> string) : P unit :=
  r ← ask m;
  match r with
  | Ok a => say ("  " +:+ name +:+ ": " +:+ text a)
  | Err err => say ("  " +:+ name +:+ " ERROR: " +:+ Error err)
  | Panic p => lift (Panic p)
  end.

Definition query_machine (raw : string) : P unit :=
  let id := HexToAddress raw in
  say (nl +:+ "=== TEE " +:+ Address_Hex id +:+ " ===") ;;
  m ← ask (query_TeeMachine id);
  match m with
  | Ok m =>
    say ("  getTeeMachine: teeId=" +:+ Address_Hex (tm_TeeId m) +:+ " teeProxyId=" +:+ Address_Hex (tm_TeeProxyId m) +:+
         " url=" +:+ quote (tm_Url m)) ;;
    (if bool_decide (tm_TeeId m = zero_address) then say "  -> EMPTY/UNREGISTERED" else mret tt)
  | Err err => say ("  getTeeMachine ERROR: " +:+ Error err)
  | Panic p => lift (Panic p)
  end ;;
  query "getTeeMachineStatus" (GetTeeMachineStatus id) pretty ;;
  query "getTeeMachineOwner" (GetTeeMachineOwner id) Address_Hex ;;
  query "getExtensionId" (GetExtensionId id) big_text ;;
  query "getLastStatusChangeTs" (GetLastStatusChangeTs id) big_text ;;
  query "getInitialSigningPolicyId" (GetInitialSigningPolicyId id) pretty.

Definition query_tee (rpc reg : string) (listExt : Z) (args : list string) : P unit :=
  on_err "dial: " (zoom_snd (ethclient_Connect rpc)) ;;
  on_err "bind: " (lift (NewMachineManager (W := W) (HexToAddress reg))) ;;
  (if 0 <=? listExt then
     say (nl +:+ "=== Active TEEs for extensionId=" +:+ pretty listExt +:+ " ===") ;;
     out ← ask (GetActiveTeeMachines listExt);
     match out with
     | Err err => say ("getActiveTeeMachines ERROR: " +:+ Error err)
     | Panic p => lift (Panic p)
     | Ok (ids, urls) =>
       list_machines 0 ids urls ;;
       if llen ids =? 0 then say "  (none)" else mret tt
     end
   else mret tt) ;;
  each query_machine args.
End Audit.
