(* ===== verification/ChainAuditSpecs.v ===== *)
(** * Correctness of the inspection commands

    The replay of a version names the error that the other decoders of the
    tools name, and a name padded to a word is read back. *)

From S2P Require Import Prelude GoStd GoEth Bundle Report Checks Revert TeeCalls Registration Instructions ChainAudit Reference RegistrationSpecs.

(** [common.FromHex] reads a hex text back. *)
Class FromHexLaw {RC : RevertCodec} := { from_hex l : common_FromHex ("0x" +:+ hex_encode l) = l }.

Section replay.
Context {RC : RevertCodec} {FL : FromHexLaw} {W : Type} {AC : AuditClient W}.

Lemma find_error_unique errs e sel :
  NoDup (selector <$> errs) -> e ∈ errs -> selector e = sel -> find_error sel errs = Some e.
Proof.
  intros Hnd He Hs. induction errs as [|e' errs IH]; [by apply elem_of_nil in He|]. simpl.
  rewrite fmap_cons, NoDup_cons in Hnd. destruct Hnd as [Hn Hnd]. fold (selector e').
  apply elem_of_cons in He as [->|He].
  - by rewrite bool_decide_true.
  - rewrite bool_decide_false; [by apply IH|]. intros E. apply Hn. rewrite E, <- Hs. apply list_elem_of_fmap. eauto.
Qed.

Lemma find_error_none errs sel : (forall e, e ∈ errs -> selector e <> sel) -> find_error sel errs = None.
Proof.
  induction errs as [|e errs IH]; intros H; [done|]. simpl. rewrite bool_decide_false by (apply H; set_solver).
  apply IH. intros e' He'. apply H. set_solver.
Qed.

Lemma find_facet_error_app before src errs after sel e :
  (forall name l e', (name, Some l) ∈ before -> e' ∈ l -> selector e' <> sel) -> find_error sel errs = Some e ->
  find_facet_error sel (before ++ (src, Some errs) :: after) = Some (src, e).
Proof.
  intros H He. induction before as [|[name [l|]] before IH]; simpl.
  - by rewrite He.
  - rewrite find_error_none by (intros e'; apply (H name l); set_solver). apply IH. intros n l' e' Hn. apply (H n l'). set_solver.
  - apply IH. intros n l' e' Hn. apply (H n l'). set_solver.
Qed.

Lemma explain_revert_custom callErr data src e before errs after :
  errors_As_data callErr = Some (DataString ("0x" +:+ hex_encode data)) -> 4 <= llen data -> abi_UnpackRevert data = None ->
  facet_errors (W := W) = before ++ (src, Some errs) :: after ->
  (forall name l e', (name, Some l) ∈ before -> e' ∈ l -> selector e' <> take 4 data) ->
  find_error (take 4 data) errs = Some e ->
  explain_revert (W := W) callErr = custom_error_line (W := W) src e data.
Proof.
  intros Hd Hl Hu Hf Hb He. unfold explain_revert, ExtractRevertData. rewrite Hd, from_hex.
  destruct (Z.ltb_spec (llen data) 4); [lia|]. cbn zeta. rewrite Hu.
  rewrite Hf, (find_facet_error_app _ _ _ _ _ e) by done. by case_bool_decide.
Qed.
End replay.

(** ** Properties *)

(** C31. A custom error survives the three decoders of the tools. When a call
    fails with the data of an error that is no [Error(string)], the decoder of
    reverts reads it as its hex; the name found for that hex is that of the
    error with the selector, in whatever order the errors of the ABI are
    visited; and the replay of audit-deploy explains the same call with the
    same error, under the first facet that declares its selector. *)
Theorem revert_decoders_agree {RC : RevertCodec} {FL : FromHexLaw} {W} {AC : AuditClient W}
    callErr data errs errs1 errs2 e before src after :
  errors_As_data callErr = Some (DataString ("0x" +:+ hex_encode data)) ->
  4 <= llen data -> abi_UnpackRevert data = None ->
  NoDup (selector <$> errs) -> errs1 ≡ₚ errs -> errs2 ≡ₚ errs -> e ∈ errs -> selector e = take 4 data ->
  facet_errors (W := W) = before ++ (src, Some errs2) :: after ->
  (forall name l e', (name, Some l) ∈ before -> e' ∈ l -> selector e' <> take 4 data) ->
  DecodeRevertReason (Some callErr) = "0x" +:+ hex_encode data /\
  MatchCustomError errs1 (DecodeRevertReason (Some callErr)) = named_error e data /\
  (exists rest, named_error e data = ae_Name e +:+ rest) /\
  (exists rest, explain_revert (W := W) callErr = "  revert -> " +:+ src +:+ "." +:+ ae_Name e +:+ rest).
Proof.
  intros Hd Hl Hu Hnd H1 H2 He Hs Hf Hb.
  assert (Hr : DecodeRevertReason (Some callErr) = decodeRevertHex (hex_encode data)).
  { unfold DecodeRevertReason. rewrite Hd. unfold decodeRevertHex. by rewrite TrimPrefix_app, TrimPrefix_hex. }
  rewrite Hr. destruct (revert_custom_error_named errs errs1 e data) as [Hh Hm]; try done.
  split; [done|]. split; [done|]. split.
  - unfold named_error. repeat case_match; [by eexists|exists EmptyString; by rewrite append_nil_r..].
  - rewrite (explain_revert_custom _ data src e before errs2 after); try done.
    + unfold custom_error_line. destruct (Inputs_Unpack e (drop 4 data)); by eexists.
    + apply find_error_unique; [by rewrite H2|by rewrite H2|done].
Qed.

(** ** A concrete chain, for witnesses: the replayed call fails with data *)

Definition w_revert_data : bytes := hex_const "deadbeef07".
Definition w_call_error : error := External "execution reverted" true (Some (DataString ("0x" +:+ hex_encode w_revert_data))).
Definition w_bad : AbiError := w_abi_error "Bad" "deadbeef".
Definition w_other : AbiError := w_abi_error "Other" "01020304".

#[export] Instance ref_from_hex : FromHexLaw (RC := ref_revert).
Proof. split. intros l. cbn [common_FromHex ref_revert]. by rewrite TrimPrefix_app, hex_decode_encode. Qed.

#[export] Instance ref_audit : AuditClient Z := {|
  BlockNumber := fun w => (Err (Plain "timeout"), w);
  NewExtensionManager _ := Ok tt;
  GetSystemSupportedPlatforms := fun w => (Ok [copy_to 32 (bytes_of_string "TEST_PLATFORM")], w);
  GetExtensionOwner _ := fun w => (Ok zero_address, w);
  GetSupportedCodeHashes _ := fun w => (Ok [], w);
  GetSupportedKeyTypes _ := fun w => (Err (Plain "execution reverted"), w);
  ExtensionManager_GetAbi := Ok tt;
  addTeeVersion_Pack _ _ _ _ := Ok [];
  facet_errors := [("ExtensionManager", Some [w_other]); ("MachineManager", None); ("Verification", Some [w_other; w_bad])];
  Inputs_Unpack _ _ := inr "[7]";
|}.

Theorem revert_decoders_agree_witness :
  DecodeRevertReason (Some w_call_error) = "0x" +:+ hex_encode w_revert_data /\
  MatchCustomError [w_bad; w_other] (DecodeRevertReason (Some w_call_error)) = named_error w_bad w_revert_data /\
  (exists rest, named_error w_bad w_revert_data = ae_Name w_bad +:+ rest) /\
  (exists rest, explain_revert (W := Z) w_call_error = "  revert -> " +:+ "Verification" +:+ "." +:+ ae_Name w_bad +:+ rest).
Proof.
  apply (revert_decoders_agree (W := Z) w_call_error w_revert_data [w_other; w_bad] [w_bad; w_other] [w_other; w_bad] w_bad
           [("ExtensionManager", Some [w_other]); ("MachineManager", None)] "Verification" []).
  - reflexivity.
  - vm_compute. discriminate.
  - reflexivity.
  - apply (bool_decide_unpack _). vm_compute. exact I.
  - apply Permutation_swap.
  - reflexivity.
  - right. left.
  - vm_compute. reflexivity.
  - reflexivity.
  - intros name l e' Hn He. apply elem_of_cons in Hn as [[= -> ->]|Hn%list_elem_of_singleton]; [|discriminate Hn].
    apply list_elem_of_singleton in He as ->. vm_compute. discriminate.
Defined.

(** What the two commands print of this chain. *)
Example w_audit_line :
  explain_revert (W := Z) w_call_error = "  revert -> Verification.Bad[7]".
Proof. vm_compute. reflexivity. Qed.
Example w_platform : bytes32ToString (copy_to 32 (bytes_of_string "TEST_PLATFORM")) = "TEST_PLATFORM".
Proof. vm_compute. reflexivity. Qed.
