(* ===== verification/Phase5.v ===== *)
(** * The phase-5 runner (go/cmd/workproof-phase5/main.go)

    The command that drives one job through the escrow: flags, the bundle it
    commits to, its deadlines, the transactions and the two waits. An exit of
    the process is an [Err] with the text printed before it. *)

From Stdlib Require Import SpecFloat.
From S2P Require Import Prelude GoStd Config GoEth Bundle NetStd Canonical Verifier Revert TeeCalls.

Definition jobView : Type := Job.

Definition defaultPrincipalWei : Z := 1000.
Definition feeWei : Z := 1000000000.

(** Durations and times in nanoseconds. *)
Definition Second : Z := 1000000000.
Definition Minute : Z := 60 * Second.
Definition Hour : Z := 60 * Minute.

(** [bind.TransactOpts], as [authFor] fills it. *)
Record Auth := mkAuth { auth_From : bytes; auth_Nonce : Z; auth_Value : bigint }.

(** The clock: [time_Now] is the time since the epoch. *)
Class Clock (W : Type) := {
  time_Now : W -> Z * W;
  time_Sleep_ns : Z -> W -> W;
}.

(** Keys and the chain: a private key is the bytes [HexToECDSA] makes of its
    text, a public key its two coordinates. [bc_Transact] and [bc_Call] are the
    two calls of a [bind.BoundContract] at an address. *)
Class Runner (W : Type) := {
  HexToECDSA : string -> result bytes;
  key_Address : bytes -> bytes;
  IsOnCurve : Z -> Z -> bool;
  pub_Address : Z * Z -> bytes;
  NewKeyedTransactorWithChainID : bytes -> bigint -> result bytes;
  ethclient_DialURL : string -> M W unit;
  client_ChainID : M W bigint;
  PendingNonceAt : bytes -> M W Z;
  bc_Transact : bytes -> Auth -> string -> list abi_value -> M W Transaction;
  bc_Call : bytes -> string -> list abi_value -> M W (list abi_value);
  teeutils_Encrypt : bytes -> Z * Z -> M W bytes;
  os_Stat_IsDir : string -> W -> bool * W;
  os_WriteFile : string -> bytes -> M W unit;
}.

(** ** The configuration *)

Record configValues := mkConfig {
  rpcURL : string;
  proxyURL : string;
  escrow : bytes;
  privKey : string;
  contractor : bytes;
  artifact : bytes;
  teePublicX : string;
  teePublicY : string;
  principal : Z;
  engineHash : bytes;
  settleTag : string;
  storeCipher : string;
  failVector : bool;
  refundOnly : bool;
  pollTimeout : Z;
  acceptDelay : Z;
  submitDelay : Z;
  graceDelay : Z;
  verifyTimeout : Z;
  resumeJobID : option Z;
}.

(** The command line: of a flag that [flag.Var] sets every occurrence, of the
    others the value that remains, when the flag is given. Which of two refused
    values is reported is not kept. *)
Record Flags := mkFlags {
  f_rpc : option string;
  f_proxy : option string;
  f_escrow : list string;
  f_privKey : option string;
  f_contractor : list string;
  f_artifact : list string;
  f_teeX : option string;
  f_teeY : option string;
  f_tag : option string;
  f_engineHash : list string;
  f_storeCipher : option string;
  f_fail : option bool;
  f_refundOnly : option bool;
  f_pollTimeout : option Z;
  f_acceptDelay : option Z;
  f_submitDelay : option Z;
  f_graceDelay : option Z;
  f_verifyTimeout : option Z;
  f_resumeJob : option Z;
  f_principal : option Z;
}.

Definition fatalf {A} (msg : string) : result A := Err (Plain msg).
Definition required (name value : string) : result unit := fail_if (String.eqb value "") (Plain ("missing " +:+ name)).

(** [check(err, label)]. *)
Definition check {A} (r : result A) (label : string) : result A :=
  match r with Err e => fatalf (label +:+ ": " +:+ Error e) | _ => r end.

Fixpoint firstEnv (Getenv : string -> string) (names : list string) : string :=
  match names with
  | [] => ""
  | name :: names => let v := Getenv name in if negb (String.eqb v "") then v else firstEnv Getenv names
  end.

(** [strings.TrimRight(s, c)] for one character. *)
Fixpoint TrimRight (s : string) (c : ascii) : string :=
  match s with
  | EmptyString => EmptyString
  | String a s => match TrimRight s c with
                  | EmptyString => if Ascii.eqb a c then EmptyString else String a EmptyString
                  | t => String a t
                  end
  end.

(** [big.Int.SetString(s, 16)]: an optional sign and hexadecimal digits. *)
Fixpoint hex_number (s : string) (acc : Z) : option Z :=
  match s with
  | EmptyString => Some acc
  | String a s => d ← hex_val a; hex_number s (acc * 16 + d)
  end.
Definition SetString_16 (s : string) : option Z :=
  match s with
  | EmptyString => None
  | String "-" s => if nonempty s then Z.opp <$> hex_number s 0 else None
  | String "+" s => if nonempty s then hex_number s 0 else None
  | s => hex_number s 0
  end.

(** [time.Duration.Seconds]: the whole seconds plus the rest over 1e9, in
    float64; and its conversion to uint64, which truncates (that of a negative
    number is left to the processor, here it wraps). *)
Definition float_of_int (n : Z) : spec_float := binary_normalize 53 1024 n 0 false.
Definition Seconds (d : Z) : spec_float :=
  SFadd 53 1024 (float_of_int (Z.quot d Second))
    (SFdiv 53 1024 (float_of_int (Z.rem d Second)) (float_of_int Second)).
Definition uint64_of_float (f : spec_float) : Z :=
  match f with
  | S754_finite false m e => uint64 (Z.shiftl (Zpos m) e)
  | S754_finite true m e => uint64 (- Z.shiftl (Zpos m) e)
  | _ => 0
  end.
Definition whole_seconds (d : Z) : Z := uint64_of_float (Seconds d).

Definition deadlines (now : Z) (cfg : configValues) : Z * Z * Z :=
  (uint64 (now + whole_seconds (acceptDelay cfg)),
   uint64 (now + whole_seconds (submitDelay cfg)),
   uint64 (now + whole_seconds (graceDelay cfg))).

Section flags.
Context {GE : GoEthereum} {W : Type} {RN : Runner W}.

Definition parsePrivateKey (raw : string) : result bytes := HexToECDSA (W := W) (TrimPrefix raw "0x").

Definition addressValue_Set (raw : string) : result bytes :=
  fail_if (negb (IsHexAddress raw)) (Plain ("invalid address " +:+ quote raw)) ;; Ok (HexToAddress raw).

Definition hashValue_Set (raw : string) : result bytes :=
  match hexutil_Decode raw with
  | Panic p => Panic p
  | Ok decoded => if llen decoded =? 32 then Ok (BytesToHash decoded) else Err (Plain ("invalid bytes32 " +:+ quote raw))
  | Err _ => Err (Plain ("invalid bytes32 " +:+ quote raw))
  end.

(** The occurrences of a flag, set one after the other; a value that is
    refused ends the process. *)
Fixpoint set_flag (name : string) (Set_ : string -> result bytes) (target : bytes) (raws : list string)
  : result bytes :=
  match raws with
  | [] => Ok target
  | raw :: raws =>
    match Set_ raw with
    | Err e => fatalf ("invalid value " +:+ quote raw +:+ " for flag -" +:+ name +:+ ": " +:+ Error e)
    | Panic p => Panic p
    | Ok v => set_flag name Set_ v raws
    end
  end.

Definition or_default {A} (o : option A) (d : A) : A := match o with Some a => a | None => d end.

Definition parseFlags (Getenv : string -> string) (f : Flags) : result configValues :=
  let rpcURL := or_default (f_rpc f) (firstEnv Getenv ["CHAIN_URL"; "WORKPROOF_RPC_URL"]) in
  let proxyURL := or_default (f_proxy f) (firstEnv Getenv ["EXT_PROXY_URL"; "http://localhost:6674"]) in
  let privKey := or_default (f_privKey f) (Getenv "DEPLOYMENT_PRIVATE_KEY") in
  escrow ← set_flag "escrow" addressValue_Set zero_address (f_escrow f);
  contractor ← set_flag "contractor" addressValue_Set zero_address (f_contractor f);
  artifact ← set_flag "artifact" addressValue_Set zero_address (f_artifact f);
  engineHash ← set_flag "engine-hash" hashValue_Set zero_hash (f_engineHash f);
  let resumeJob := or_default (f_resumeJob f) (-1) in
  let escrow := if bool_decide (escrow = zero_address)
                then HexToAddress (firstEnv Getenv ["WORKPROOF_ESCROW_ADDRESS"]) else escrow in
  contractor ← (if bool_decide (contractor = zero_address) && negb (String.eqb privKey "")
                then key ← check (parsePrivateKey privKey) "derive default contractor";
                     Ok (key_Address (W := W) key)
                else Ok contractor);
  let artifact := if bool_decide (artifact = zero_address) then escrow else artifact in
  let cfg := mkConfig rpcURL proxyURL escrow privKey contractor artifact
    (or_default (f_teeX f) "") (or_default (f_teeY f) "") (or_default (f_principal f) defaultPrincipalWei) engineHash
    (or_default (f_tag f) "threshold") (or_default (f_storeCipher f) "") (or_default (f_fail f) false)
    (or_default (f_refundOnly f) false) (or_default (f_pollTimeout f) (10 * Minute))
    (or_default (f_acceptDelay f) (10 * Minute)) (or_default (f_submitDelay f) Hour)
    (or_default (f_graceDelay f) (2 * Hour)) (or_default (f_verifyTimeout f) (20 * Minute))
    (if 0 <=? resumeJob then Some resumeJob else None) in
  fail_if ((acceptDelay cfg <=? 0) || (submitDelay cfg <=? acceptDelay cfg) || (graceDelay cfg <=? submitDelay cfg)
           || (verifyTimeout cfg <=? 0))
    (Plain "invalid deadlines: require 0 < accept-delay < submit-delay < grace-delay and verification-timeout > 0") ;;
  required "rpc" rpcURL ;;
  required "proxy" proxyURL ;;
  required "private-key" privKey ;;
  required "tee-x" (teePublicX cfg) ;;
  required "tee-y" (teePublicY cfg) ;;
  fail_if (bool_decide (escrow = zero_address)) (Plain "missing escrow address") ;;
  fail_if (bool_decide (contractor = zero_address)) (Plain "missing contractor address") ;;
  fail_if (bool_decide (artifact = zero_address)) (Plain "missing artifact address") ;;
  Ok cfg.

Definition parseTEEPublicKey (xHex yHex : string) : result ((Z * Z) * bytes) :=
  match SetString_16 (TrimPrefix xHex "0x") with
  | None => Err (Plain "invalid tee public x")
  | Some x =>
    match SetString_16 (TrimPrefix yHex "0x") with
    | None => Err (Plain "invalid tee public y")
    | Some y =>
      fail_if (negb (IsOnCurve (W := W) x y)) (Plain "tee public key is not on secp256k1") ;;
      Ok ((x, y), pub_Address (W := W) (x, y))
    end
  end.
End flags.

(** ** The bundle *)
Section bundle.
Context {GE : GoEthereum} {JC : JsonCodec}.

Definition specHash : bytes := keccak256 (bytes_of_string "workproof-phase5-code-size-v1").

Definition phase5_bundle (specHash : bytes) (failVector : bool) : WorkProofBundle :=
  let maxBytes := if failVector then 1 else 100000 in
  mkBundle 1 "phase5-code-size" "v1.0.0" 114 ("0x" +:+ hex_encode specHash) 1 1 100000 1000 1024
    [mkVector "artifact-has-expected-code-size" VectorCodeSizeRange "" "" "" "" "" "" "" None 1 maxBytes "" ""].

Definition buildBundle (specHash : bytes) (failVector : bool) : result (bytes * bytes) :=
  let b := phase5_bundle specHash failVector in
  Validate b ;;
  canonical ← jcs_Transform (bytes_of_string (marshal_bundle b));
  Ok (canonical, keccak256 canonical).
End bundle.

(** ** The chain *)
Section Phase5.
Context {GE : GoEthereum} {JC : JsonCodec} {TL : TeeLib} {W : Type} {CK : Clock W} {TC : TxClient W}
  {TH : TeeHttp W} {RN : Runner W}.

Definition checked {A} (m : M W A) (label : string) : M W A :=
  on_error m (fun e => lift (fatalf (label +:+ ": " +:+ Error e))) mret.

Definition Now : M W Z := total time_Now.
Definition SleepFor (d : Z) : M W unit := total (fun w => (tt, time_Sleep_ns d w)).

Definition authFor (key : bytes) (chainID value : bigint) : M W Auth :=
  from ← checked (lift (NewKeyedTransactorWithChainID (W := W) key chainID)) "transactor";
  nonce ← checked (PendingNonceAt from) "nonce";
  mret (mkAuth from nonce value).

Definition ReceiptStatusSuccessful : Z := 1.

Definition transact (contract : bytes) (auth : Auth) (method : string) (args : list abi_value) : M W Transaction :=
  tx ← checked (bc_Transact contract auth method args) method;
  receipt ← checked (WaitMined [] tx) ("wait " +:+ method);
  if rc_Status receipt =? ReceiptStatusSuccessful then mret tx
  else lift (fatalf (method +:+ " reverted: 0x" +:+ hex_encode (tx_Hash tx))).

(** [out[0]] with a type assertion. *)
Definition first_as {A} (cast : abi_value -> option A) (out : list abi_value) : result A :=
  match out with
  | [] => Panic "index out of range"
  | v :: _ => match cast v with Some a => Ok a | None => Panic "interface conversion" end
  end.

Definition callAddress (contract : bytes) (method : string) (args : list abi_value) : M W bytes :=
  out ← checked (bc_Call contract method args) method;
  lift (first_as (fun v => match v with AbiAddress a => Some a | _ => None end) out).
Definition callBig (contract : bytes) (method : string) (args : list abi_value) : M W bigint :=
  out ← checked (bc_Call contract method args) method;
  lift (first_as (fun v => match v with AbiBigInt n => Some n | _ => None end) out).
Definition callUint16 (contract : bytes) (method : string) (args : list abi_value) : M W Z :=
  out ← checked (bc_Call contract method args) method;
  lift (first_as (fun v => match v with AbiUint64 n => Some n | _ => None end) out).

(** The tuple that [getJob] returns; [abi.ConvertType] panics for another. *)
Definition job_of (v : abi_value) : option jobView :=
  match v with
  | AbiTuple
      [AbiTuple [AbiAddress client; AbiAddress contractor; AbiAddress tee; AbiBigInt principal; AbiBigInt fee;
                 AbiUint64 created; AbiUint64 acceptBy; AbiUint64 submitBy; AbiUint64 graceEnds; AbiUint64 timeout;
                 AbiBytes32 spec; AbiBytes32 bundle; AbiBytes32 engine; AbiBytes32 cipher];
       AbiTuple [AbiUint64 attempt; AbiAddress artifact; AbiBigInt block; AbiBytes32 code; AbiBigInt target;
                 AbiBigInt round; AbiBytes32 random; AbiBool locked; AbiBytes32 instruction; AbiUint64 dispatched;
                 AbiUint64 timeoutAt];
       AbiUint64 state; AbiBool settled] =>
    Some (mkJob (mkTerms client contractor tee principal fee created acceptBy submitBy graceEnds timeout spec bundle
                   engine cipher)
            (mkAttempt attempt artifact block code target round random locked instruction dispatched timeoutAt)
            state settled)
  | _ => None
  end.

Definition getJob (escrow : bytes) (id : bigint) : M W jobView :=
  out ← checked (bc_Call escrow "getJob" [AbiBigInt id]) "getJob";
  match out with
  | [v] => lift (match job_of v with Some job => Ok job | None => Panic "reflect: call of ConvertType" end)
  | _ => lift (fatalf ("getJob returned " +:+ pretty (llen out) +:+ " values"))
  end.

(** ** The waits

    The loops run until their deadline: [fuel] bounds the attempts of the
    model, and running out of it is the panic [out_of_fuel]. *)

(** [time.Until(time.Unix(int64(graceEnds)+15, 0))], and the sleep. *)
Definition waitForGrace (graceEnds : Z) : M W unit :=
  now ← Now;
  let sleep := int64 (int64 graceEnds + 15) * Second - now in
  let sleep := Z.max (- 2 ^ 63) (Z.min sleep (2 ^ 63 - 1)) in
  if 0 <? sleep then SleepFor sleep else mret tt.

(** The loop of both waits: an attempt, the look at the clock, the pause. *)
Fixpoint wait_loop {A} (fuel : nat) (attempt_ : M W (option A)) (deadline interval : Z) (late : error) : M W A :=
  match fuel with
  | O => lift (Panic out_of_fuel)
  | S fuel =>
    r ← attempt_;
    match r with
    | Some a => mret a
    | None =>
      now ← Now;
      if deadline <? now then lift (Err late) else
      SleepFor interval ;;
      wait_loop fuel attempt_ deadline interval late
    end
  end.

Definition lock_attempt (escrow key : bytes) (chainID id : bigint) : M W (option unit) :=
  auth ← authFor key chainID None;
  tx ← attempt (bc_Transact escrow auth "lockRandomness" [AbiBigInt id]);
  match tx with
  | Ok tx =>
    receipt ← checked (WaitMined [] tx) "wait lockRandomness";
    mret (if rc_Status receipt =? ReceiptStatusSuccessful then Some tt else None)
  | _ => mret None
  end.

Definition waitForRandomness (fuel : nat) (escrow key : bytes) (chainID id : bigint) : M W unit :=
  now ← Now;
  wait_loop fuel (lock_attempt escrow key chainID id) (now + 12 * Minute) (20 * Second)
    (Plain "randomness was not ready before timeout").

(** An answer with status 200 is final, whether or not it can be read. *)
Definition result_attempt (url : string) : M W (option ActionResponse) :=
  resp ← attempt (http_Get url);
  match resp with
  | Ok (status, body) =>
    if status =? StatusOK then ar ← lift (Decode_ActionResponse body); mret (Some ar) else mret None
  | _ => mret None
  end.

Definition result_url (proxyURL : string) (instructionID : bytes) (tag : string) : string :=
  TrimRight proxyURL "/" +:+ "/action/result/0x" +:+ hex_encode instructionID +:+ "?submissionTag=" +:+ tag.

Definition pollActionResult (fuel : nat) (proxyURL : string) (instructionID : bytes) (tag : string) (timeout : Z)
  : M W ActionResponse :=
  now ← Now;
  wait_loop fuel (result_attempt (result_url proxyURL instructionID tag)) (now + timeout) (5 * Second)
    (Plain ("timed out waiting for 0x" +:+ hex_encode instructionID +:+ " tag " +:+ tag)).

(** ** The run

    What the command prints on success is left out. [fuel] is for both
    waits. *)

(** The tail that the two modes share: from the dispatch on. *)
Definition dispatch_and_settle (fuel : nat) (cfg : configValues) (key : bytes) (chainID id : bigint) : M W unit :=
  auth ← authFor key chainID (Some feeWei);
  _tx ← transact (escrow cfg) auth "dispatchVerification" [AbiBigInt id];
  job ← getJob (escrow cfg) id;
  let instructionID := a_InstructionId (Current job) in
  result ← checked (pollActionResult fuel (proxyURL cfg) instructionID (settleTag cfg) (pollTimeout cfg))
             "poll action result";
  if negb (ar_Status result =? 1)
  then lift (fatalf ("TEE returned status=" +:+ pretty (ar_Status result) +:+
                     "; not settling an unsuccessful action result")) else
  auth ← authFor key chainID None;
  _tx ← transact (escrow cfg) auth "settleAttempt"
    [AbiBigInt id; AbiBytes (ar_Data result); AbiBytes32 (ar_OPType result); AbiBytes32 (ar_OPCommand result);
     AbiString (ar_SubmissionTag result); AbiUint64 (ar_Status result); AbiBytes (ar_Signature result)];
  _job ← getJob (escrow cfg) id;
  mret tt.

Definition ReadyToVerify : Z := 3.

Definition resumeFromReady (fuel : nat) (cfg : configValues) (key : bytes) (chainID : bigint) (id : Z) : M W unit :=
  job ← getJob (escrow cfg) (Some id);
  if negb (State job =? ReadyToVerify)
  then lift (fatalf ("resume-job " +:+ pretty id +:+ " is in state " +:+ pretty (State job) +:+
                     ", expected ReadyToVerify state 3")) else
  dispatch_and_settle fuel cfg key chainID (Some id).

Definition path_separator : ascii := "/".

(** Where the ciphertext goes: into a directory under its hash. *)
Definition write_ciphertext (storeCipher : string) (ciphertext ciphertextHash : bytes) : M W unit :=
  if String.eqb storeCipher "" then mret tt else
  isDir ← total (os_Stat_IsDir storeCipher);
  let cipherPath := if isDir : bool
    then TrimRight storeCipher path_separator +:+ String path_separator EmptyString +:+ hex_encode ciphertextHash
    else storeCipher in
  checked (os_WriteFile cipherPath ciphertext) "write ciphertext".

(** The refund of a job that nobody accepts. *)
Definition refund (cfg : configValues) (key from token : bytes) (chainID id : bigint) (graceEnds : Z) : M W unit :=
  waitForGrace graceEnds ;;
  clientBefore ← callBig token "balanceOf" [AbiAddress from];
  auth ← authFor key chainID None;
  _tx ← transact (escrow cfg) auth "refundExpired" [AbiBigInt id];
  clientAfter ← callBig token "balanceOf" [AbiAddress from];
  _job ← getJob (escrow cfg) id;
  match clientAfter, clientBefore with
  | Some _, Some _ => mret tt
  | _, _ => lift (Panic "nil pointer dereference")
  end.

(** The mode that creates a job: from the fee on. *)
Definition new_job (fuel : nat) (cfg : configValues) (key from : bytes) (chainID : bigint) (token : bytes) (feeBps : Z)
  : M W unit :=
  let fee := (principal cfg * feeBps) / 10000 in
  let total_ := principal cfg + fee in
  balance ← callBig token "balanceOf" [AbiAddress from];
  c ← lift (big_Cmp balance (Some total_));
  if (match c with Lt => true | _ => false end)
  then lift (fatalf ("runner account token balance " +:+ big_text balance +:+ " is below required " +:+ pretty total_)) else
  bundle ← lift (check (buildBundle specHash (failVector cfg)) "build bundle");
  let '(bundle, privateBundleHash) := bundle in
  tee ← lift (check (parseTEEPublicKey (W := W) (teePublicX cfg) (teePublicY cfg)) "parse tee public key");
  let '(teePublicKey, expectedTee) := tee in
  ciphertext ← checked (teeutils_Encrypt bundle teePublicKey) "encrypt bundle";
  let ciphertextHash := keccak256 ciphertext in
  write_ciphertext (storeCipher cfg) ciphertext ciphertextHash ;;
  let engineHash := if bool_decide (engineHash cfg = zero_hash) then realEngineVersionHash else engineHash cfg in
  auth ← authFor key chainID None;
  _tx ← transact token auth "approve" [AbiAddress (escrow cfg); AbiBigInt (Some total_)];
  nextJobID ← callBig (escrow cfg) "nextJobId" [];
  t ← Now;
  let now := uint64 (t / Second) in
  auth ← authFor key chainID None;
  let '(acceptBy, submitBy, graceEnds) := deadlines now cfg in
  _tx ← transact (escrow cfg) auth "createJob"
    [AbiAddress (contractor cfg); AbiAddress expectedTee; AbiBigInt (Some (principal cfg)); AbiUint64 acceptBy;
     AbiUint64 submitBy; AbiUint64 graceEnds; AbiUint64 (whole_seconds (verifyTimeout cfg)); AbiBytes32 specHash;
     AbiBytes32 privateBundleHash; AbiBytes32 engineHash; AbiBytes32 ciphertextHash];
  if refundOnly cfg then refund cfg key from token chainID nextJobID graceEnds else
  auth ← authFor key chainID None;
  _tx ← transact (escrow cfg) auth "acceptJob" [AbiBigInt nextJobID];
  auth ← authFor key chainID None;
  _tx ← transact (escrow cfg) auth "submitAttempt" [AbiBigInt nextJobID; AbiAddress (artifact cfg)];
  waitForRandomness fuel (escrow cfg) key chainID nextJobID ;;
  _job ← getJob (escrow cfg) nextJobID;
  dispatch_and_settle fuel cfg key chainID nextJobID.

Definition main (fuel : nat) (Getenv : string -> string) (flags : Flags) : M W unit :=
  cfg ← lift (parseFlags (W := W) Getenv flags);
  _c ← checked (ethclient_DialURL (rpcURL cfg)) "dial chain";
  chainID ← checked client_ChainID "chain id";
  key ← lift (check (parsePrivateKey (W := W) (privKey cfg)) "private key");
  let from := key_Address (W := W) key in
  match resumeJobID cfg with
  | Some id => resumeFromReady fuel cfg key chainID id
  | None =>
    token ← callAddress (escrow cfg) "token" [];
    feeBps ← callUint16 (escrow cfg) "protocolFeeBps" [];
    new_job fuel cfg key from chainID token feeBps
  end.
End Phase5.
