(* ===== verification/Phase5Specs.v ===== *)
(** * Correctness of the phase-5 runner

    The two waits end, the transactions follow the protocol of the escrow, and
    the bundle that the runner commits to is one the verifier accepts. *)

From Stdlib Require Import SpecFloat.
From S2P Require Import Prelude GoStd Config GoEth Reference Bundle Vectors Selection Execution NetStd Ciphertext Canonical WireTypes Verifier RefWorld Verdict Revert TeeCalls Phase5.

(** ** Whole seconds: the float64 arithmetic is exact on them *)

Lemma digits2_shift n p : Zpos (digits2_pos (Pos.iter xO p n)) = Zpos (digits2_pos p) + Zpos n.
Proof.
  induction n using Pos.peano_ind; [simpl; lia|]. rewrite Pos.iter_succ. cbn [digits2_pos]. lia.
Qed.

Lemma shift_val n p : Zpos (Pos.iter xO p n) = Zpos p * 2 ^ Zpos n.
Proof.
  induction n using Pos.peano_ind; [simpl; lia|]. rewrite Pos.iter_succ, Pos2Z.inj_succ, Z.pow_succ_r by lia. lia.
Qed.

Lemma digits2_bound p : Zpos p < 2 ^ 53 -> Zpos (digits2_pos p) <= 53.
Proof.
  intros Hp. assert (digits2_pos p = Pos.size p) as -> by (clear; induction p; simpl; congruence).
  pose proof (Pos.size_le p) as Hs. apply Pos2Z.pos_le_pos in Hs. rewrite Pos2Z.inj_pow, (Pos2Z.inj_xO p) in Hs.
  assert (2 ^ Zpos (Pos.size p) < 2 ^ 54) as Hlt by (change (2 ^ 54) with (2 * 2 ^ 53); lia).
  apply Z.pow_lt_mono_r_iff in Hlt; lia.
Qed.

(** A mantissa of 53 digits is not rounded. *)
Lemma round_aux_exact m e :
  Zpos (digits2_pos m) = 53 -> -1074 <= e <= 971 -> binary_round_aux 53 1024 false (Zpos m) e loc_Exact = S754_finite false m e.
Proof.
  intros Hd He. unfold binary_round_aux.
  assert (shr_fexp 53 1024 (Zpos m) e loc_Exact = ({| shr_m := Zpos m; shr_r := false; shr_s := false |}, e)) as Hs.
  { unfold shr_fexp, fexp, emin. cbn [Zdigits2 shr_record_of_loc]. rewrite Hd.
    replace (Z.max (53 + e - 53) (3 - 1024 - 53) - e) with 0 by lia. done. }
  rewrite Hs. cbn [shr_m loc_of_shr_record round_nearest_even]. rewrite Hs. cbn [shr_m].
  by destruct (Z.leb_spec e (1024 - 53)); [|lia].
Qed.

Lemma float_of_int_pos p :
  Zpos p < 2 ^ 53 -> exists m e, float_of_int (Zpos p) = S754_finite false m e /\ e <= 0 /\ Zpos m = Zpos p * 2 ^ (- e).
Proof.
  intros Hp. pose proof (digits2_bound p Hp) as Hd. unfold float_of_int, binary_normalize, binary_round, shl_align, fexp, emin.
  replace (Z.max (Zpos (digits2_pos p) + 0 - 53) (3 - 1024 - 53) - 0) with (Zpos (digits2_pos p) - 53) by lia.
  replace (Z.max (Zpos (digits2_pos p) + 0 - 53) (3 - 1024 - 53)) with (Zpos (digits2_pos p) - 53) by lia.
  destruct (Zpos (digits2_pos p) - 53) as [|n|n] eqn:E.
  - exists p, 0. rewrite round_aux_exact by lia. split_and!; [done|done|lia].
  - lia.
  - exists (Pos.iter xO p n), (Zneg n). rewrite round_aux_exact by (rewrite ?digits2_shift; lia).
    split_and!; [done|lia|]. by rewrite shift_val.
Qed.

Lemma whole_seconds_exact k : 0 < k < 2 ^ 53 -> whole_seconds (k * Second) = k.
Proof.
  intros Hk. unfold whole_seconds, Seconds. rewrite Z.quot_mul, Z.rem_mul by done.
  destruct k as [|p|p]; [lia| |lia]. destruct (float_of_int_pos p) as (m & e & -> & He & Hm); [lia|].
  change (SFdiv 53 1024 (float_of_int 0) (float_of_int Second)) with (S754_zero false). cbn [SFadd uint64_of_float].
  rewrite Z.shiftl_div_pow2, Hm, Z.div_mul by lia. apply uint_id. unfold is_uint. lia.
Qed.

(** ** An accepted configuration *)
Section config.
Context {GE : GoEthereum} {W : Type} {RN : Runner W}.

Record config_of (Getenv : string -> string) (flags : Flags) (cfg : configValues) : Prop := {
  co_rpc : rpcURL cfg <> "";
  co_proxy : proxyURL cfg <> "";
  co_key : privKey cfg <> "";
  co_teeX : teePublicX cfg <> "";
  co_teeY : teePublicY cfg <> "";
  co_escrow : escrow cfg <> zero_address;
  co_contractor : contractor cfg <> zero_address;
  co_artifact : artifact cfg <> zero_address;
  co_delays : 0 < acceptDelay cfg < submitDelay cfg /\ submitDelay cfg < graceDelay cfg /\ 0 < verifyTimeout cfg;
  co_proxy_source : proxyURL cfg = or_default (f_proxy flags) (firstEnv Getenv ["EXT_PROXY_URL"; "http://localhost:6674"]);
  co_timeout : pollTimeout cfg = or_default (f_pollTimeout flags) (10 * Minute);
}.

Lemma parseFlags_Ok Getenv flags cfg : parseFlags (W := W) Getenv flags = Ok cfg -> config_of Getenv flags cfg.
Proof.
  unfold parseFlags, required. intros H. go_inv. to_prop. constructor; simpl in *; try done; lia.
Qed.
End config.

(** ** Time *)

(** What the waits rely on: [clock] is the time of a state; reading it gives a
    time between the states before and after, a sleep takes at least as long
    as asked, no call goes back in time, and none panics. *)
Section time.
Context {TL : TeeLib} {W : Type} {CK : Clock W} {TC : TxClient W} {TH : TeeHttp W} {RN : Runner W}.

Context (clock : W -> Z).

Record ticks {A} (m : M W A) : Prop := {
  tick_no_panic : no_panic m;
  tick_mono w : clock w <= clock (snd (m w));
}.

Class WaitLaws := {
  wl_now w : clock w <= fst (time_Now w) <= clock (snd (time_Now w));
  wl_sleep d w : 0 <= d -> clock w + d <= clock (time_Sleep_ns d w);
  wl_get url : ticks (http_Get url);
  wl_nonce a : ticks (PendingNonceAt a);
  wl_transact c auth method args : ticks (bc_Transact c auth method args);
  wl_mined tx : ticks (WaitMined [] tx);
  wl_transactor key chainID p : NewKeyedTransactorWithChainID (W := W) key chainID <> Panic p;
  wl_decode body p : Decode_ActionResponse body <> Panic p;
}.

Lemma ticks_bind {A B} (m : M W A) (k : A -> M W B) : ticks m -> (forall a, ticks (k a)) -> ticks (m ≫= k).
Proof.
  intros [Hp Hm] Hk. split; [apply no_panic_bind; [done|apply Hk]|]. intros w. specialize (Hm w).
  unfold mbind, M_bind. destruct (m w) as [[a| |] w1]; [|done..]. simpl in *. pose proof (tick_mono _ (Hk a) w1). lia.
Qed.

Lemma ticks_ret {A} (a : A) : ticks (mret a : M W A).
Proof. split; [apply no_panic_ret|]. intros w. unfold mret, M_ret. simpl. lia. Qed.

Lemma ticks_lift {A} (x : result A) : (forall p, x <> Panic p) -> ticks (lift x : M W A).
Proof. intros Hx. split; [by apply no_panic_lift|]. intros w. unfold lift. simpl. lia. Qed.

Lemma ticks_checked {A} (m : M W A) label : ticks m -> ticks (checked m label).
Proof.
  intros [Hp Hm]. split; [apply no_panic_on_error; [done| |apply no_panic_ret]; intros; by apply no_panic_lift|].
  intros w. specialize (Hm w). unfold checked, on_error. by destruct (m w) as [[] ?].
Qed.

Lemma ticks_attempt {A} (m : M W A) : ticks m -> ticks (attempt m).
Proof.
  intros [Hp Hm]. split.
  - intros w p w'. unfold attempt. specialize (Hp w). destruct (m w) as [[| |q] ?]; [done..|]. by edestruct Hp.
  - intros w. specialize (Hm w). unfold attempt. by destruct (m w) as [[] ?].
Qed.

Lemma wait_loop_S {A} fuel (try_ : M W (option A)) deadline interval late w :
  wait_loop (S fuel) try_ deadline interval late w =
  match try_ w with
  | (Ok (Some a), w1) => (Ok a, w1)
  | (Ok None, w1) =>
    let '(now, w2) := time_Now w1 in
    if deadline <? now then (Err late, w2)
    else wait_loop fuel try_ deadline interval late (time_Sleep_ns interval w2)
  | (Err e, w1) => (Err e, w1)
  | (Panic p, w1) => (Panic p, w1)
  end.
Proof.
  cbn [wait_loop]. unfold mbind, M_bind, Now, SleepFor, total. destruct (try_ w) as [[[a|]|e|p] w1]; try done.
  destruct (time_Now w1) as [now w2]. by destruct (deadline <? now).
Qed.

Context {WL : WaitLaws}.

(** The loop ends within its fuel, and more fuel changes nothing. *)
Lemma wait_loop_ends {A} fuel (try_ : M W (option A)) deadline interval late w :
  ticks try_ -> 0 <= interval -> (0 < fuel)%nat -> deadline - clock w < interval * (Z.of_nat fuel - 1) ->
  exists r w', (forall fuel', (fuel <= fuel')%nat -> wait_loop fuel' try_ deadline interval late w = (r, w')) /\
    forall p, r <> Panic p.
Proof.
  intros [Htp Htm] Hi. revert w. induction fuel as [|fuel IH]; intros w Hf Hd; [lia|].
  enough (exists r w', (forall f, (fuel <= f)%nat -> wait_loop (S f) try_ deadline interval late w = (r, w')) /\
            forall p, r <> Panic p) as (r & w' & Hr & Hp).
  { exists r, w'. split; [|done]. intros [|f'] Hf'; [lia|]. apply Hr. lia. }
  setoid_rewrite wait_loop_S. specialize (Htm w). specialize (Htp w).
  destruct (try_ w) as [[[a|]|e|p] w1]; [by eexists _, _| |by eexists _, _|by edestruct Htp].
  pose proof (wl_now w1) as Hn. destruct (time_Now w1) as [now w2]. simpl in *.
  destruct (Z.ltb_spec deadline now); [by eexists _, _|].
  pose proof (wl_sleep interval w2 Hi). destruct fuel as [|fuel]; [lia|]. apply IH; lia.
Qed.

Lemma authFor_ticks key chainID value : ticks (authFor key chainID value).
Proof.
  unfold authFor. apply ticks_bind; [apply ticks_checked, ticks_lift, wl_transactor|]. intros from.
  apply ticks_bind; [apply ticks_checked, wl_nonce|]. intros. apply ticks_ret.
Qed.

Lemma lock_attempt_ticks escrow key chainID id : ticks (lock_attempt escrow key chainID id).
Proof.
  apply ticks_bind; [apply authFor_ticks|]. intros auth. apply ticks_bind; [apply ticks_attempt, wl_transact|].
  intros [tx| |]; [|apply ticks_ret..]. apply ticks_bind; [apply ticks_checked, wl_mined|]. intros. apply ticks_ret.
Qed.

Lemma result_attempt_ticks url : ticks (result_attempt url).
Proof.
  apply ticks_bind; [apply ticks_attempt, wl_get|]. intros [[st body]| |]; [|apply ticks_ret..].
  destruct (st =? StatusOK); [|apply ticks_ret].
  apply ticks_bind; [apply ticks_lift, wl_decode|]. intros. apply ticks_ret.
Qed.

(** A wait of [timeout] from now, with a positive interval, needs
    [timeout / interval + 2] attempts at most. *)
Lemma wait_ends {A} fuel (try_ : M W (option A)) timeout interval late w :
  ticks try_ -> 0 < interval -> Z.max 0 timeout / interval + 2 <= Z.of_nat fuel ->
  exists r w', (forall fuel', (fuel <= fuel')%nat ->
    (now ← Now; wait_loop fuel' try_ (now + timeout) interval late) w = (r, w')) /\ forall p, r <> Panic p.
Proof.
  intros Ht Hi Hf. pose proof (wl_now w) as Hn. destruct (time_Now w) as [t w1] eqn:E. simpl in *.
  pose proof (Z.mul_succ_div_gt (Z.max 0 timeout) interval Hi).
  pose proof (Z.div_pos (Z.max 0 timeout) interval ltac:(lia) Hi).
  destruct (wait_loop_ends fuel try_ (t + timeout) interval late w1) as (r & w' & Hr & Hp); [done|lia..|nia|].
  exists r, w'. split; [|done]. intros f' Hf'. rewrite <- (Hr f' Hf'). unfold Now, total, mbind, M_bind. by rewrite E.
Qed.

Definition random_fuel : Z := 12 * Minute / (20 * Second) + 2.
Definition poll_fuel (timeout : Z) : Z := Z.max 0 timeout / (5 * Second) + 2.

Lemma waitForRandomness_ends fuel escrow key chainID id w :
  random_fuel <= Z.of_nat fuel ->
  exists r w', (forall fuel', (fuel <= fuel')%nat -> waitForRandomness fuel' escrow key chainID id w = (r, w')) /\
    forall p, r <> Panic p.
Proof. intros Hf. apply wait_ends; [apply lock_attempt_ticks|done|exact Hf]. Qed.

Lemma pollActionResult_ends fuel url iid tag timeout w :
  poll_fuel timeout <= Z.of_nat fuel ->
  exists r w', (forall fuel', (fuel <= fuel')%nat -> pollActionResult fuel' url iid tag timeout w = (r, w')) /\
    forall p, r <> Panic p.
Proof. intros Hf. apply wait_ends; [apply result_attempt_ticks|done|exact Hf]. Qed.

Context {GE : GoEthereum} {JC : JsonCodec}.

Lemma checked_cong {A} (m m' : M W A) label w : m w = m' w -> checked m label w = checked m' label w.
Proof. unfold checked, on_error. by intros ->. Qed.

Ltac same_bind := apply M_bind_cong; [reflexivity|intros ? ? _].

Lemma dispatch_and_settle_fuel fuel fuel' cfg key chainID id w :
  poll_fuel (pollTimeout cfg) <= Z.of_nat fuel -> (fuel <= fuel')%nat ->
  dispatch_and_settle fuel' cfg key chainID id w = dispatch_and_settle fuel cfg key chainID id w.
Proof.
  intros Hf Hle. unfold dispatch_and_settle. do 3 same_bind. apply M_bind_cong; [|done]. apply checked_cong.
  match goal with |- pollActionResult _ ?u ?i ?t ?o ?w = _ =>
    destruct (pollActionResult_ends fuel u i t o w Hf) as (r & w9 & Hr & _) end.
  by rewrite !Hr by lia.
Qed.

Lemma new_job_fuel fuel fuel' cfg key from chainID token feeBps w :
  random_fuel <= Z.of_nat fuel -> poll_fuel (pollTimeout cfg) <= Z.of_nat fuel -> (fuel <= fuel')%nat ->
  new_job fuel' cfg key from chainID token feeBps w = new_job fuel cfg key from chainID token feeBps w.
Proof.
  intros Hr Hp Hle. unfold new_job. do 2 same_bind. case_match; [done|].
  apply M_bind_cong; [done|]. intros [bundle hash] ? _. apply M_bind_cong; [done|]. intros [pub tee] ? _. do 7 same_bind.
  destruct (deadlines _ cfg) as [[acceptBy submitBy] graceEnds]. same_bind.
  destruct (refundOnly cfg); [done|]. do 4 same_bind.
  apply M_bind_cong.
  - match goal with |- waitForRandomness _ ?e ?k ?c ?i ?w = _ =>
      destruct (waitForRandomness_ends fuel e k c i w Hr) as (r & w9 & Hr' & _) end.
    by rewrite !Hr' by lia.
  - intros ? ? _. same_bind. by apply dispatch_and_settle_fuel.
Qed.

Lemma main_fuel fuel fuel' Getenv flags w :
  random_fuel <= Z.of_nat fuel -> poll_fuel (or_default (f_pollTimeout flags) (10 * Minute)) <= Z.of_nat fuel ->
  (fuel <= fuel')%nat ->
  main (W := W) fuel' Getenv flags w = main fuel Getenv flags w.
Proof.
  intros Hr Hp Hle. unfold main. apply M_bind_cong; [done|]. intros cfg w1 [Hcfg _]%lift_eq.
  assert (poll_fuel (pollTimeout cfg) <= Z.of_nat fuel) as Hp'.
  { by rewrite (co_timeout _ _ _ (parseFlags_Ok _ _ _ Hcfg)). }
  do 3 same_bind. destruct (resumeJobID cfg) as [id|].
  { unfold resumeFromReady. same_bind. case_match; [done|]. by apply dispatch_and_settle_fuel. }
  do 2 same_bind. by apply new_job_fuel.
Qed.
End time.

(** ** The protocol

    The run seen from the chain: a log of the transactions that are sent and
    of the receipts that report success. *)

Record request := mkReq {
  rq_To : bytes;
  rq_Value : bigint;
  rq_Method : string;
  rq_Args : list abi_value;
}.

Inductive event := Sent (r : request) | Mined.

(** How far the job is. *)
Inductive phase :=
| Start
| Approved
| Created (id : bigint)
| Accepted (id : bigint)
| Submitted (id : bigint)
| Locked (id : bigint)
| Dispatched (id : bigint)
| JobSettled
| JobRefunded.

(** [Pending p]: the transaction that leads to [p] was sent, and no successful
    receipt was seen. *)
Inductive stage := Ready (p : phase) | Pending (p : phase).

Section protocol.
Context (escrow token : bytes).

Definition lock_request (id : bigint) : request := mkReq escrow None "lockRandomness" [AbiBigInt id].

(** What may be sent in which phase. A settlement carries the status 1. *)
Inductive allowed : phase -> request -> phase -> Prop :=
| al_approve amount : allowed Start (mkReq token None "approve" [AbiAddress escrow; AbiBigInt amount]) Approved
| al_create id args : allowed Approved (mkReq escrow None "createJob" args) (Created id)
| al_accept id : allowed (Created id) (mkReq escrow None "acceptJob" [AbiBigInt id]) (Accepted id)
| al_submit id artifact :
    allowed (Accepted id) (mkReq escrow None "submitAttempt" [AbiBigInt id; AbiAddress artifact]) (Submitted id)
| al_lock id : allowed (Submitted id) (lock_request id) (Locked id)
| al_dispatch id :
    allowed (Locked id) (mkReq escrow (Some feeWei) "dispatchVerification" [AbiBigInt id]) (Dispatched id)
| al_settle id data op cmd tag sig :
    allowed (Dispatched id) (mkReq escrow None "settleAttempt"
      [AbiBigInt id; AbiBytes data; AbiBytes32 op; AbiBytes32 cmd; AbiString tag; AbiUint64 1; AbiBytes sig]) JobSettled
| al_refund id : allowed (Created id) (mkReq escrow None "refundExpired" [AbiBigInt id]) JobRefunded.

(** Only the lock is tried again. *)
Inductive step : stage -> event -> stage -> Prop :=
| st_sent p r p' : allowed p r p' -> step (Ready p) (Sent r) (Pending p')
| st_mined p : step (Pending p) Mined (Ready p)
| st_retry id : step (Pending (Locked id)) (Sent (lock_request id)) (Pending (Locked id)).

Inductive path : stage -> list event -> stage -> Prop :=
| path_nil s : path s [] s
| path_cons s e s1 l s2 : step s e s1 -> path s1 l s2 -> path s (e :: l) s2.

Lemma path_app s l1 s1 l2 s2 : path s l1 s1 -> path s1 l2 s2 -> path s (l1 ++ l2) s2.
Proof. induction 1; simpl; eauto using path. Qed.
End protocol.

(** The world with the log. *)
Section logged.
Context {TL : TeeLib} {W : Type} {CK : Clock W} {TC : TxClient W} {TH : TeeHttp W} {RN : Runner W}.

Abbreviation L := (list event * W)%type.

#[export] Instance Clock_logged : Clock L := {
  time_Now '(l, w) := let '(t, w') := time_Now w in (t, (l, w'));
  time_Sleep_ns d '(l, w) := (l, time_Sleep_ns d w);
}.

Definition log_mined (m : M W Receipt) : M L Receipt := fun '(l, w) =>
  match m w with
  | (Ok r, w') => (Ok r, (if rc_Status r =? ReceiptStatusSuccessful then l ++ [Mined] else l, w'))
  | (r, w') => (r, (l, w'))
  end.

#[export] Instance TxClient_logged : TxClient L := {
  WaitMined c tx := log_mined (WaitMined c tx);
  TransactionByHash h := zoom_snd (TransactionByHash h);
  types_Sender := types_Sender (W := W);
}.

#[export] Instance TeeHttp_logged : TeeHttp L := {
  http_Get url := zoom_snd (http_Get url);
  time_Sleep ms '(l, w) := (l, time_Sleep ms w);
}.

#[export] Instance Runner_logged : Runner L := {
  HexToECDSA := HexToECDSA (W := W);
  key_Address := key_Address (W := W);
  IsOnCurve := IsOnCurve (W := W);
  pub_Address := pub_Address (W := W);
  NewKeyedTransactorWithChainID := NewKeyedTransactorWithChainID (W := W);
  ethclient_DialURL u := zoom_snd (ethclient_DialURL u);
  client_ChainID := zoom_snd client_ChainID;
  PendingNonceAt a := zoom_snd (PendingNonceAt a);
  bc_Transact c auth method args '(l, w) :=
    let '(r, w') := bc_Transact c auth method args w in (r, (l ++ [Sent (mkReq c (auth_Value auth) method args)], w'));
  bc_Call c method args := zoom_snd (bc_Call c method args);
  teeutils_Encrypt b k := zoom_snd (teeutils_Encrypt b k);
  os_Stat_IsDir p '(l, w) := let '(b, w') := os_Stat_IsDir p w in (b, (l, w'));
  os_WriteFile p b := zoom_snd (os_WriteFile p b);
}.
End logged.

(** ** Runs that follow the protocol *)
Section follows.
Context {GE : GoEthereum} {JC : JsonCodec} {TL : TeeLib} {W : Type} {CK : Clock W} {TC : TxClient W}
  {TH : TeeHttp W} {RN : Runner W} (escrow token : bytes).

Abbreviation L := (list event * W)%type.

(** From stage [s] the computation logs a path of the protocol, and a value
    it returns comes with the stage [Q] says. *)
Definition follows {A} (s : stage) (m : M L A) (Q : A -> stage -> Prop) : Prop :=
  forall l w r l' w', m (l, w) = (r, (l', w')) ->
    exists l1 s', l' = l ++ l1 /\ path escrow token s l1 s' /\ (forall a, r = Ok a -> Q a s').

(** It logs nothing. *)
Definition quiet {A} (m : M L A) : Prop := forall l w, (snd (m (l, w))).1 = l.

Lemma follows_bind {A B} s (m : M L A) (k : A -> M L B) Q R :
  follows s m Q -> (forall a s', Q a s' -> follows s' (k a) R) -> follows s (m ≫= k) R.
Proof.
  intros Hm Hk l w r l' w'. unfold mbind, M_bind. destruct (m (l, w)) as [[a|e|p] [l2 w2]] eqn:E.
  - destruct (Hm _ _ _ _ _ E) as (l1 & s1 & -> & Hp & HQ). intros H.
    destruct (Hk a s1 (HQ _ eq_refl) _ _ _ _ _ H) as (l3 & s2 & -> & Hp2 & HR).
    exists (l1 ++ l3), s2. split_and!; [by rewrite (assoc_L _)|by eapply path_app|done].
  - intros [= <- <- <-]. destruct (Hm _ _ _ _ _ E) as (l1 & s1 & -> & Hp & _). exists l1, s1. by split_and!.
  - intros [= <- <- <-]. destruct (Hm _ _ _ _ _ E) as (l1 & s1 & -> & Hp & _). exists l1, s1. by split_and!.
Qed.

Lemma follows_weaken {A} s (m : M L A) (Q R : A -> stage -> Prop) :
  follows s m Q -> (forall a s', Q a s' -> R a s') -> follows s m R.
Proof.
  intros Hm HQR l w r l' w' H. destruct (Hm _ _ _ _ _ H) as (l1 & s' & -> & Hp & HQ). exists l1, s'. eauto.
Qed.

Lemma follows_quiet {A} s (m : M L A) (P : A -> Prop) :
  quiet m -> (forall x a x', m x = (Ok a, x') -> P a) -> follows s m (fun a s' => s' = s /\ P a).
Proof.
  intros Hq HP l w r l' w' H. specialize (Hq l w). rewrite H in Hq. simpl in Hq. subst.
  exists [], s. rewrite app_nil_r. split_and!; [done|constructor|]. intros a ->. eauto.
Qed.

Lemma quiet_bind {A B} (m : M L A) (k : A -> M L B) : quiet m -> (forall a, quiet (k a)) -> quiet (m ≫= k).
Proof.
  intros Hm Hk l w. unfold mbind, M_bind. specialize (Hm l w). destruct (m (l, w)) as [[a| |] [l1 w1]]; simpl in *; subst; [apply Hk|done..].
Qed.
Lemma quiet_lift {A} (x : result A) : quiet (lift x).
Proof. done. Qed.
Lemma quiet_ret {A} (a : A) : quiet (mret a).
Proof. done. Qed.
Lemma quiet_zoom {A} (m : M W A) : quiet (zoom_snd m).
Proof. intros l w. unfold zoom_snd. by destruct (m w). Qed.
Lemma quiet_on_error {A B} (m : M L A) h (k : A -> M L B) :
  quiet m -> (forall e, quiet (h e)) -> (forall a, quiet (k a)) -> quiet (on_error m h k).
Proof.
  intros Hm Hh Hk l w. unfold on_error. specialize (Hm l w).
  destruct (m (l, w)) as [[a| |] [l1 w1]]; simpl in *; subst; [apply Hk|apply Hh|done].
Qed.
Lemma quiet_checked {A} (m : M L A) label : quiet m -> quiet (checked m label).
Proof. intros. by apply quiet_on_error. Qed.
Lemma quiet_attempt {A} (m : M L A) : quiet m -> quiet (attempt m).
Proof. intros Hm l w. unfold attempt. specialize (Hm l w). by destruct (m (l, w)) as [[] [? ?]]. Qed.
Lemma quiet_Now : quiet (Now (W := L)).
Proof. intros l w. unfold Now, total. simpl. by destruct (time_Now w). Qed.
Lemma quiet_SleepFor d : quiet (SleepFor (W := L) d).
Proof. done. Qed.
Lemma quiet_nonce a : quiet (PendingNonceAt (W := L) a).
Proof. apply (quiet_zoom (PendingNonceAt a)). Qed.
Lemma quiet_call c method args : quiet (bc_Call (W := L) c method args).
Proof. apply (quiet_zoom (bc_Call c method args)). Qed.
Lemma quiet_get url : quiet (http_Get (W := L) url).
Proof. apply (quiet_zoom (http_Get url)). Qed.
Lemma quiet_dial url : quiet (ethclient_DialURL (W := L) url).
Proof. apply (quiet_zoom (ethclient_DialURL url)). Qed.
Lemma quiet_chain : quiet (client_ChainID (W := L)).
Proof. apply (quiet_zoom client_ChainID). Qed.
Lemma quiet_encrypt b k : quiet (teeutils_Encrypt (W := L) b k).
Proof. apply (quiet_zoom (teeutils_Encrypt b k)). Qed.
Lemma quiet_write p b : quiet (os_WriteFile (W := L) p b).
Proof. apply (quiet_zoom (os_WriteFile p b)). Qed.
Lemma quiet_stat p : quiet (total (os_Stat_IsDir (W := L) p)).
Proof. intros l w. unfold total. simpl. by destruct (os_Stat_IsDir p w). Qed.

Create HintDb quiet.
#[local] Hint Resolve quiet_nonce quiet_call quiet_get quiet_dial quiet_chain quiet_encrypt quiet_write quiet_stat : quiet.
#[local] Hint Resolve quiet_bind quiet_lift quiet_ret quiet_zoom quiet_checked quiet_attempt quiet_Now quiet_SleepFor : quiet.

Lemma follows_lift {A} s (x : result A) : follows s (lift x) (fun a s' => s' = s /\ x = Ok a).
Proof. apply follows_quiet; [apply quiet_lift|]. by intros ? ? ? [-> _]%lift_eq. Qed.

(** A quiet part of a run whose value does not matter. *)
Lemma follows_then {A B} s (m : M L A) (k : A -> M L B) R :
  quiet m -> (forall a, follows s (k a) R) -> follows s (m ≫= k) R.
Proof.
  intros Hm Hk. eapply follows_bind; [by apply (follows_quiet s m (fun _ => True))|]. intros a s' [-> _]. apply Hk.
Qed.

Lemma follows_ret {A} s (a : A) (Q : A -> stage -> Prop) : Q a s -> follows s (mret a) Q.
Proof. intros HQ l w r l' w' [= <- <- <-]. exists [], s. rewrite app_nil_r. split_and!; [done|constructor|by intros ? [= <-]]. Qed.

Lemma follows_fail {A} s e (Q : A -> stage -> Prop) : follows s (lift (Err e)) Q.
Proof. intros l w r l' w' [= <- <- <-]. exists [], s. rewrite app_nil_r. split_and!; [done|constructor|done]. Qed.

Lemma follows_authFor s key chainID value :
  follows s (authFor key chainID value) (fun a s' => s' = s /\ auth_Value a = value).
Proof.
  apply follows_quiet; [unfold authFor; auto 6 with quiet|].
  intros x a x' (from & x1 & _ & (n & x2 & _ & [[= ->] _]%mret_eq)%M_bind_Ok)%M_bind_Ok. done.
Qed.

Lemma path_one s e s' : step escrow token s e s' -> path escrow token s [e] s'.
Proof. intros H. eapply path_cons; [exact H|constructor]. Qed.

(** A transaction and the wait for its receipt, with the rest of the run. *)
Lemma follows_sent s p' c auth method args :
  step escrow token s (Sent (mkReq c (auth_Value auth) method args)) (Pending p') ->
  follows s (bc_Transact c auth method args) (fun _ s' => s' = Pending p').
Proof.
  intros Hs l w r l' w'. simpl. destruct (bc_Transact c auth method args w) as [r1 w1]. intros [= <- <- <-].
  exists [Sent (mkReq c (auth_Value auth) method args)], (Pending p'). split_and!; [done|by apply path_one|done].
Qed.

Lemma follows_checked {A} s (m : M L A) label Q : follows s m Q -> follows s (checked m label) Q.
Proof.
  intros Hm l w r l' w' H. apply on_error_eq in H as [(a & [l2 w2] & H & [-> [= -> ->]]%mret_eq)|[(e & [l2 w2] & H & [<- [= -> ->]]%lift_eq)|(q & H & ->)]];
    destruct (Hm _ _ _ _ _ H) as (l1 & s' & -> & Hp & HQ); exists l1, s'; split_and!; try done.
Qed.

Lemma follows_attempt_sent s p' c auth method args :
  step escrow token s (Sent (mkReq c (auth_Value auth) method args)) (Pending p') ->
  follows s (attempt (bc_Transact c auth method args)) (fun _ s' => s' = Pending p').
Proof.
  intros Hs l w r l' w'. unfold attempt. simpl. destruct (bc_Transact c auth method args w) as [r1 w1].
  intros H. assert (l' = l ++ [Sent (mkReq c (auth_Value auth) method args)]) as -> by (destruct r1; by injection H).
  eexists _, (Pending p'). split_and!; [done|by apply path_one|done].
Qed.

Lemma follows_mined p tx label :
  follows (Pending p) (checked (WaitMined [] tx) label)
    (fun r s' => if rc_Status r =? ReceiptStatusSuccessful then s' = Ready p else s' = Pending p).
Proof.
  apply follows_checked. intros l w r l' w'. simpl. destruct (WaitMined [] tx w) as [[r1|e|q] w1].
  - intros [= <- <- <-]. destruct (rc_Status r1 =? ReceiptStatusSuccessful) eqn:E.
    + exists [Mined], (Ready p). split_and!; [done|apply path_one, st_mined|]. intros a [= <-]. by rewrite E.
    + exists [], (Pending p). rewrite app_nil_r. split_and!; [done|constructor|]. intros a [= <-]. by rewrite E.
  - intros [= <- <- <-]. exists [], (Pending p). rewrite app_nil_r. split_and!; [done|constructor|done].
  - intros [= <- <- <-]. exists [], (Pending p). rewrite app_nil_r. split_and!; [done|constructor|done].
Qed.

Lemma follows_transact p p' c auth method args :
  allowed escrow token p (mkReq c (auth_Value auth) method args) p' ->
  follows (Ready p) (transact c auth method args) (fun _ s' => s' = Ready p').
Proof.
  intros Ha. unfold transact. eapply follows_bind; [by eapply follows_checked, follows_sent, st_sent|].
  intros tx s ->. eapply follows_bind; [apply follows_mined|]. intros r s Hs.
  cbn beta in Hs. destruct (rc_Status r =? ReceiptStatusSuccessful); [|apply follows_fail]. by apply follows_ret.
Qed.

(** The common shape: the authorisation, the transaction. *)
Lemma follows_tx {B} p p' c key chainID value method args (k : Transaction -> M L B) R :
  allowed escrow token p (mkReq c value method args) p' ->
  (forall tx, follows (Ready p') (k tx) R) ->
  follows (Ready p) (auth ← authFor key chainID value; tx ← transact c auth method args; k tx) R.
Proof.
  intros Ha Hk. eapply follows_bind; [apply follows_authFor|]. intros auth s [-> Hv].
  eapply follows_bind; [apply follows_transact; by rewrite Hv|]. intros tx s ->. apply Hk.
Qed.

(** ** The waits *)

Lemma follows_wait_loop {A} fuel (try_ : M L (option A)) deadline interval late (I : stage -> Prop) Q s :
  (forall s, I s -> follows s try_ (fun r s' => match r with Some a => Q a s' | None => I s' end)) ->
  I s -> follows s (wait_loop fuel try_ deadline interval late) Q.
Proof.
  intros Ht. revert s. induction fuel as [|fuel IH]; intros s Hs; cbn [wait_loop].
  { intros l w r l' w' [= <- <- <-]. exists [], s. rewrite app_nil_r. split_and!; [done|constructor|done]. }
  eapply follows_bind; [by apply Ht|]. intros [a|] s' Hs'; [by apply follows_ret|].
  apply follows_then; [apply quiet_Now|]. intros now. destruct (deadline <? now); [apply follows_fail|].
  apply follows_then; [apply quiet_SleepFor|]. intros _. by apply IH.
Qed.

Lemma follows_lock fuel key chainID id :
  follows (Ready (Submitted id)) (waitForRandomness fuel escrow key chainID id) (fun _ s' => s' = Ready (Locked id)).
Proof.
  apply follows_then; [apply quiet_Now|]. intros now.
  apply (follows_wait_loop _ _ _ _ _ (fun s => s = Ready (Submitted id) \/ s = Pending (Locked id))); [|by left].
  intros s Hs. eapply follows_bind; [apply follows_authFor|]. intros auth s1 [-> Hv].
  eapply follows_bind; [apply (follows_attempt_sent _ (Locked id)); rewrite Hv|].
  { destruct Hs as [->| ->]; [apply st_sent, al_lock|apply st_retry]. }
  intros tx s2 ->. destruct tx as [tx| |]; [|apply follows_ret; by right..].
  eapply follows_bind; [apply follows_mined|]. intros r s3 Hs3. cbn beta in Hs3. apply follows_ret.
  destruct (rc_Status r =? ReceiptStatusSuccessful); [done|by right].
Qed.

Lemma follows_quiet_True {A} s (m : M L A) : quiet m -> follows s m (fun _ s' => s' = s).
Proof. intros Hm. eapply follows_weaken; [by apply (follows_quiet s m (fun _ => True))|]. by intros a s' [-> _]. Qed.

Lemma follows_poll s fuel url iid tag timeout :
  follows s (pollActionResult (W := L) fuel url iid tag timeout) (fun _ s' => s' = s).
Proof.
  apply follows_then; [apply quiet_Now|]. intros now. apply (follows_wait_loop _ _ _ _ _ (fun s' => s' = s)); [|done].
  intros s' ->. eapply follows_weaken; [apply follows_quiet_True|by intros [a|] s' ->].
  apply quiet_bind; [auto with quiet|]. intros [[st body]| |]; [|auto with quiet..].
  destruct (st =? StatusOK); auto with quiet.
Qed.

Lemma quiet_getJob c id : quiet (getJob (W := L) c id).
Proof. apply quiet_bind; [auto with quiet|]. intros [|v [|v' l]]; auto with quiet. Qed.
Lemma quiet_callBig c method args : quiet (callBig (W := L) c method args).
Proof. apply quiet_bind; auto with quiet. Qed.
#[local] Hint Resolve quiet_getJob quiet_callBig : quiet.

(** ** The modes *)

Context (cfg : configValues).
Hypothesis (Hescrow : Phase5.escrow cfg = escrow).

Lemma follows_settle fuel key chainID id :
  follows (Ready (Locked id)) (dispatch_and_settle fuel cfg key chainID id) (fun _ s' => s' = Ready JobSettled).
Proof.
  unfold dispatch_and_settle. rewrite Hescrow. apply (follows_tx _ (Dispatched id)); [apply al_dispatch|]. intros _.
  apply follows_then; [auto with quiet|]. intros job. eapply follows_bind; [apply follows_checked, follows_poll|].
  intros result s ->. destruct (Z.eqb_spec (ar_Status result) 1) as [->|]; cbn [negb]; [|apply follows_fail].
  apply (follows_tx _ JobSettled); [apply al_settle|]. intros _. apply follows_then; [auto with quiet|]. intros _.
  by apply follows_ret.
Qed.

Lemma follows_resume fuel key chainID id :
  follows (Ready (Locked (Some id))) (resumeFromReady fuel cfg key chainID id) (fun _ s' => s' = Ready JobSettled).
Proof.
  unfold resumeFromReady. apply follows_then; [auto with quiet|]. intros job.
  destruct (negb _); [apply follows_fail|apply follows_settle].
Qed.

Lemma follows_refund key from token' chainID id graceEnds :
  follows (Ready (Created id)) (refund cfg key from token' chainID id graceEnds) (fun _ s' => s' = Ready JobRefunded).
Proof.
  unfold refund. rewrite Hescrow. apply follows_then.
  { apply quiet_bind; [auto with quiet|]. intros now. cbn zeta. destruct (0 <? _); auto with quiet. }
  intros _. apply follows_then; [auto with quiet|]. intros before. apply (follows_tx _ JobRefunded); [apply al_refund|].
  intros _. apply follows_then; [auto with quiet|]. intros after. apply follows_then; [auto with quiet|]. intros _.
  intros l w r l' w' H. exists [], (Ready JobRefunded). rewrite app_nil_r.
  destruct after, before; injection H as <- <- <-; split_and!; try done; constructor.
Qed.

Lemma quiet_write_ciphertext store ct h : quiet (write_ciphertext (W := L) store ct h).
Proof.
  unfold write_ciphertext. case_match; [auto with quiet|]. apply quiet_bind; auto with quiet.
Qed.

Lemma follows_new_job fuel key from chainID feeBps :
  follows (Ready Start) (new_job fuel cfg key from chainID token feeBps)
    (fun _ s' => s' = Ready (if refundOnly cfg then JobRefunded else JobSettled)).
Proof.
  unfold new_job. cbn zeta. rewrite Hescrow.
  apply follows_then; [auto with quiet|]. intros balance. apply follows_then; [auto with quiet|]. intros c.
  destruct (match c with Lt => true | _ => false end); [apply follows_fail|].
  apply follows_then; [auto with quiet|]. intros [bundle hash]. apply follows_then; [auto with quiet|]. intros [pub tee].
  apply follows_then; [auto with quiet|]. intros ct. apply follows_then; [apply quiet_write_ciphertext|]. intros _.
  apply (follows_tx _ Approved); [apply al_approve|]. intros _. apply follows_then; [auto with quiet|]. intros id.
  apply follows_then; [auto with quiet|]. intros now.
  eapply follows_bind; [apply follows_authFor|]. intros auth s [-> Hv].
  destruct (deadlines _ cfg) as [[acceptBy submitBy] graceEnds].
  eapply follows_bind; [apply (follows_transact _ (Created id)); rewrite Hv; apply al_create|]. intros _ s ->.
  destruct (refundOnly cfg); [apply follows_refund|].
  apply (follows_tx _ (Accepted id)); [apply al_accept|]. intros _.
  apply (follows_tx _ (Submitted id)); [apply al_submit|]. intros _.
  eapply follows_bind; [apply follows_lock|]. intros _ s ->.
  apply follows_then; [auto with quiet|]. intros _. apply follows_settle.
Qed.
End follows.

(** A part of a run that logs nothing. *)
Lemma quiet_run {W A B} (m : M (list event * W) A) (k : A -> M (list event * W) B) l w r l' w' :
  quiet m -> (m ≫= k) (l, w) = (r, (l', w')) ->
  (exists a w1, m (l, w) = (Ok a, (l, w1)) /\ k a (l, w1) = (r, (l', w'))) \/ (l' = l /\ forall a, r <> Ok a).
Proof.
  intros Hq. specialize (Hq l w). unfold mbind, M_bind. destruct (m (l, w)) as [[a|e|p] [l1 w1]]; simpl in Hq; subst;
    [eauto|intros [= <- <- <-]; by right..].
Qed.

(** ** A concrete world: its state is the time, and only sleeping takes any.
    The random number is there after 40 seconds, the result after 60. *)

Definition p5_job (id : bigint) : abi_value := AbiTuple
  [AbiTuple [AbiAddress zero_address; AbiAddress zero_address; AbiAddress zero_address; AbiBigInt (Some 1000);
             AbiBigInt (Some 10); AbiUint64 0; AbiUint64 1; AbiUint64 2; AbiUint64 3; AbiUint64 1200;
             AbiBytes32 zero_hash; AbiBytes32 zero_hash; AbiBytes32 zero_hash; AbiBytes32 zero_hash];
   AbiTuple [AbiUint64 1; AbiAddress zero_address; AbiBigInt (Some 1); AbiBytes32 zero_hash; AbiBigInt (Some 1);
             AbiBigInt (Some 1); AbiBytes32 zero_hash; AbiBool true; AbiBytes32 (be_bytes 32 9); AbiUint64 0;
             AbiUint64 0];
   AbiUint64 3; AbiBool false].

Definition p5_teelib (status : Z) : TeeLib := {|
  Decode_TeeInfo _ := Err (Plain "no info");
  Decode_ActionResponse b := Ok (mkActionResponse b status zero_hash zero_hash "threshold" "ok" [Byte.x01]);
  ParsePubKey _ := Err (Plain "no key");
  PubkeyToAddress _ := zero_address;
  TeeInfo_Hash _ := Err (Plain "no hash");
  ProxyTeeInfo_Hash _ _ := Err (Plain "no hash");
  accounts_TextHash l := l;
  common_HexToHash _ := zero_hash;
  crypto_SigToPub _ _ := Err (Plain "no key");
  attestation_claims _ := Err (Plain "no claims");
|}.
#[export] Instance p5_clock : Clock Z := {| time_Now w := (w, w); time_Sleep_ns d w := w + d |}.
#[export] Instance p5_http : TeeHttp Z := {|
  http_Get _ := fun w => (if w <? 60 * Second then Ok (404, []) else Ok (200, [Byte.x07]), w);
  time_Sleep d w := w + d * 1000000;
|}.
Definition p5_tx : Transaction := mkTx zero_hash None 0 None None [].
#[export] Instance p5_txclient : TxClient Z := {|
  WaitMined _ _ := fun w => (Ok (mkReceipt 1 [] []), w);
  TransactionByHash _ := fun w => (Err (Plain "not found"), w);
  types_Sender _ := Err (Plain "no sender");
|}.
#[export] Instance p5_runner : Runner Z := {|
  HexToECDSA s := Ok (bytes_of_string s);
  key_Address _ := be_bytes 20 3;
  IsOnCurve _ _ := true;
  pub_Address _ := be_bytes 20 4;
  NewKeyedTransactorWithChainID _ _ := Ok (be_bytes 20 3);
  ethclient_DialURL _ := fun w => (Ok tt, w);
  client_ChainID := fun w => (Ok (Some 114), w);
  PendingNonceAt _ := fun w => (Ok 0, w);
  bc_Transact _ _ method _ := fun w =>
    (if String.eqb method "lockRandomness" && (w <? 40 * Second) then Err (Plain "not ready") else Ok p5_tx, w);
  bc_Call _ method _ := fun w =>
    (if String.eqb method "token" then Ok [AbiAddress (be_bytes 20 5)]
     else if String.eqb method "protocolFeeBps" then Ok [AbiUint64 100]
     else if String.eqb method "getJob" then Ok [p5_job (Some 7)]
     else if String.eqb method "nextJobId" then Ok [AbiBigInt (Some 7)] else Ok [AbiBigInt (Some 5000)], w);
  teeutils_Encrypt b _ := fun w => (Ok b, w);
  os_Stat_IsDir _ w := (false, w);
  os_WriteFile _ _ := fun w => (Ok tt, w);
|}.

#[export] Instance p5_wait_laws : WaitLaws (TL := p5_teelib 1) (fun w : Z => w).
Proof.
  split; simpl; try done; try lia; intros; split; intros; try (intros ? ? ?); simpl; try lia; repeat case_match; naive_solver.
Qed.

Definition p5_env (k : string) : string :=
  if String.eqb k "CHAIN_URL" then "http://chain" else if String.eqb k "EXT_PROXY_URL" then "http://proxy/" else "".
Definition p5_flags : Flags :=
  mkFlags None None ["0x00000000000000000000000000000000000000e5"] (Some "0x01") [] [] (Some "0x1") (Some "0x2") None []
    None None None None None None None None None None.

Definition p5_run (status : Z) (fuel : nat) : result unit * (list event * Z) :=
  main (GE := ref_geth) (JC := ref_codec (phase5_bundle zero_hash false)) (TL := p5_teelib status) fuel p5_env p5_flags ([], 0).
Definition p5_log (status : Z) : list event := fst (snd (p5_run status 200)).

Example p5_methods :
  (fst (p5_run 1 200), omap (fun e => match e with Sent r => Some (rq_Method r) | Mined => None end) (p5_log 1))
  = (Ok tt, ["approve"; "createJob"; "acceptJob"; "submitAttempt"; "lockRandomness"; "lockRandomness"; "lockRandomness";
             "dispatchVerification"; "settleAttempt"]).
Proof. vm_compute. reflexivity. Qed.

(** ** The bundle and its verification *)
Section bundle_spec.
Context {GE : GoEthereum} {HL : HexutilLaws} {JC : JsonCodec}.

Lemma phase5_bundle_wf spec failV : length spec = 32%nat -> bundle_wf (phase5_bundle spec failV).
Proof.
  intros Hs. constructor; cbn [phase5_bundle FormatVersion TemplateID TemplateVersion TargetChainID PublicSpecHash
    VectorCount SelectionCount GasLimitPerCall TimeoutMsPerCall MaxResponseBytes Vectors]; try done.
  - exists (hex_encode spec). split; [done|]. rewrite length_hex_encode, Hs. split; [done|].
    by apply hex_encode_all_hex.
  - constructor; [|constructor]. destruct failV; constructor; done.
  - simpl. apply NoDup_singleton.
Qed.

Lemma select_one seed : SelectVectors seed 1 1 = Ok [0].
Proof.
  destruct (SelectVectors_ok seed 1 1) as (l & -> & Hl & _ & Hr); [done..|].
  destruct l as [|i [|j l]]; [done| |unfold llen in Hl; simpl in Hl; lia].
  apply Forall_cons in Hr as [Hr _]. by replace i with 0 by lia.
Qed.

Definition phase5_vector (failV : bool) : Vector :=
  mkVector "artifact-has-expected-code-size" VectorCodeSizeRange "" "" "" "" "" "" "" None 1
    (if failV then 1 else 100000) "" "".

Definition phase5_outcome (failV : bool) (code : result bytes) : VectorOutcome :=
  match code with
  | Ok l => mkOutcome "artifact-has-expected-code-size" ((1 <=? llen l) && (llen l <=? if failV then 1 else 100000)) false ""
  | _ => skip (phase5_vector failV) "eth_getCode error"
  end.

Context {W : Type} {EC : EthClient W}.

Lemma phase5_execute failV c target block g m (w : W) code w' :
  CodeAt c target block w = (code, w') -> (forall p, code <> Panic p) ->
  ExecuteVector c target block g m (phase5_vector failV) w = (Ok (phase5_outcome failV code), w').
Proof.
  intros Hc Hp. change (ExecuteVector c target block g m (phase5_vector failV))
    with (executeCodeSizeRange c target block (phase5_vector failV)).
  unfold executeCodeSizeRange, on_error. rewrite Hc. destruct code; [done..|by edestruct Hp].
Qed.
End bundle_spec.

Lemma phase5_run_vectors {GE : GoEthereum} {W} {EC : EthClient W} c instr spec failV (s s2 : pins * W) code :
  CodeAt (WithTimeout c 1000) (i_ArtifactAddress instr) (i_ArtifactBlock instr) s = (code, s2) -> (forall p, code <> Panic p) ->
  let o := phase5_outcome failV code in
  run_vectors c instr (phase5_bundle spec failV) [0] (mkLoop [] true false) s
  = (Ok (mkLoop [o] (if Skipped o then true else if negb (Passed o) then false else true)
                    (if Skipped o then true else false)), s2).
Proof.
  intros Hc Hp o. cbn [run_vectors]. change (Vectors (phase5_bundle spec failV) !! Z.to_nat 0) with (Some (phase5_vector failV)).
  cbn beta iota zeta. apply M_bind_Ok. eexists _, s2. split; [by apply phase5_execute|]. done.
Qed.

(** ** Properties *)

(** Where a run starts and where a successful one ends. *)
Definition start_of (cfg : configValues) : phase :=
  match resumeJobID cfg with Some id => Locked (Some id) | None => Start end.
Definition end_of (cfg : configValues) : phase :=
  if negb (is_set (resumeJobID cfg)) && refundOnly cfg then JobRefunded else JobSettled.

(** C35. Every run of the runner, however it ends, sends its transactions in
    the order of the escrow's protocol, for one job, each only after the one
    before it was mined with success (the lock alone is tried again); a
    settlement is sent only with the status 1 of the TEE. A run that ends
    normally has settled the job, or refunded it in that mode. *)
Theorem phase5_follows_protocol {GE : GoEthereum} {JC : JsonCodec} {TL : TeeLib} {W} {CK : Clock W} {TC : TxClient W}
    {TH : TeeHttp W} {RN : Runner W} fuel Getenv flags (w : W) r l w' :
  main fuel Getenv flags (([], w) : list event * W) = (r, (l, w')) ->
  match parseFlags (W := W) Getenv flags with
  | Ok cfg => exists token s, path (escrow cfg) token (Ready (start_of cfg)) l s /\
      (r = Ok tt -> s = Ready (end_of cfg))
  | _ => l = [] /\ r <> Ok tt
  end.
Proof.
  unfold main. intros H. apply quiet_run in H as [(cfg & w1 & [Hcfg [= <-]]%lift_eq & H)|[-> Hr]]; [| |apply quiet_lift].
  2: { destruct (parseFlags Getenv flags); [exists [], (Ready (start_of a)); split; [apply path_nil|by intros ?%Hr]|done..]. }
  change (parseFlags (W := W) Getenv flags = Ok cfg) in Hcfg. rewrite Hcfg.
  assert (forall token : bytes, (l = [] /\ forall a, r <> Ok a) ->
    exists token s, path (escrow cfg) token (Ready (start_of cfg)) l s /\ (r = Ok tt -> s = Ready (end_of cfg))) as Hnone.
  { intros token [-> Hr]. exists token, (Ready (start_of cfg)). split; [apply path_nil|]. by intros ?%Hr. }
  apply quiet_run in H as [(u & w2 & _ & H)|Hn]; [|by apply (Hnone [])|apply quiet_checked, quiet_dial].
  apply quiet_run in H as [(chainID & w3 & _ & H)|Hn]; [|by apply (Hnone [])|apply quiet_checked, quiet_chain].
  apply quiet_run in H as [(key & w4 & _ & H)|Hn]; [|by apply (Hnone [])|apply quiet_lift].
  unfold start_of, end_of in *. destruct (resumeJobID cfg) as [id|]; simpl.
  - destruct (follows_resume (escrow cfg) [] cfg eq_refl _ _ _ _ _ _ _ _ _ H) as (l1 & s & -> & Hp & Hs). eauto.
  - apply quiet_run in H as [(token & w5 & _ & H)|Hn]; [|by apply (Hnone [])|].
    + apply quiet_run in H as [(feeBps & w6 & _ & H)|Hn]; [|by apply (Hnone [])|].
      * destruct (follows_new_job (escrow cfg) token cfg eq_refl _ _ _ _ _ _ _ _ _ _ H) as (l1 & s & -> & Hp & Hs). eauto.
      * apply quiet_bind; [apply quiet_checked, quiet_call|]. intros. apply quiet_lift.
    + apply quiet_bind; [apply quiet_checked, quiet_call|]. intros. apply quiet_lift.
Qed.

Theorem phase5_follows_protocol_witness :
  match parseFlags (GE := ref_geth) (W := Z) p5_env p5_flags with
  | Ok cfg => exists token s, path (escrow cfg) token (Ready (start_of cfg)) (p5_log 1) s /\
      (fst (p5_run 1 200) = Ok tt -> s = Ready (end_of cfg))
  | _ => p5_log 1 = [] /\ fst (p5_run 1 200) <> Ok tt
  end.
Proof.
  apply (phase5_follows_protocol (GE := ref_geth) (JC := ref_codec (phase5_bundle zero_hash false)) (TL := p5_teelib 1)
           200 p5_env p5_flags 0 (fst (p5_run 1 200)) (p5_log 1) (60 * Second)).
  vm_compute. reflexivity.
Defined.

(** C36. The waits of the runner end: with calls that return and a clock that
    does not go back, 38 attempts suffice for the random number and
    [timeout / 5s + 2] for the result. With so much fuel neither wait panics,
    and more fuel changes neither them nor the whole run. *)
Theorem phase5_waits_terminate {GE : GoEthereum} {JC : JsonCodec} {TL : TeeLib} {W} {CK : Clock W} {TC : TxClient W}
    {TH : TeeHttp W} {RN : Runner W} (clock : W -> Z) {WL : WaitLaws clock} fuel :
  38 <= Z.of_nat fuel ->
  (forall escrow key chainID id w, exists r w',
    (forall fuel', (fuel <= fuel')%nat -> waitForRandomness fuel' escrow key chainID id w = (r, w')) /\
    forall p, r <> Panic p) /\
  (forall url iid tag timeout w, Z.max 0 timeout / (5 * Second) + 2 <= Z.of_nat fuel -> exists r w',
    (forall fuel', (fuel <= fuel')%nat -> pollActionResult fuel' url iid tag timeout w = (r, w')) /\
    forall p, r <> Panic p) /\
  (forall Getenv flags w, Z.max 0 (or_default (f_pollTimeout flags) (10 * Minute)) / (5 * Second) + 2 <= Z.of_nat fuel ->
    forall fuel', (fuel <= fuel')%nat -> main (W := W) fuel' Getenv flags w = main fuel Getenv flags w).
Proof.
  intros Hf. split_and!.
  - intros. by apply (waitForRandomness_ends clock).
  - intros. by apply (pollActionResult_ends clock).
  - intros. by apply (main_fuel clock).
Qed.

Theorem phase5_waits_terminate_witness :
  (forall escrow key chainID id (w : Z), exists r w',
    (forall fuel', (200 <= fuel')%nat -> waitForRandomness fuel' escrow key chainID id w = (r, w')) /\
    forall p, r <> Panic p) /\
  (forall url iid tag timeout (w : Z), Z.max 0 timeout / (5 * Second) + 2 <= Z.of_nat 200 -> exists r w',
    (forall fuel', (200 <= fuel')%nat -> pollActionResult (TL := p5_teelib 1) fuel' url iid tag timeout w = (r, w')) /\
    forall p, r <> Panic p) /\
  (forall Getenv flags (w : Z), Z.max 0 (or_default (f_pollTimeout flags) (10 * Minute)) / (5 * Second) + 2 <= Z.of_nat 200 ->
    forall fuel', (200 <= fuel')%nat ->
    main (GE := ref_geth) (JC := ref_codec (phase5_bundle zero_hash false)) (TL := p5_teelib 1) fuel' Getenv flags w
    = main (GE := ref_geth) (JC := ref_codec (phase5_bundle zero_hash false)) (TL := p5_teelib 1) 200 Getenv flags w).
Proof.
  apply (phase5_waits_terminate (GE := ref_geth) (JC := ref_codec (phase5_bundle zero_hash false)) (TL := p5_teelib 1)
           (fun w : Z => w) 200). lia.
Defined.

(** C37. The bundle that the runner commits to is one the verifier accepts:
    it validates, its public hash is the committed one, and the hash that the
    verifier recomputes is the committed private hash. A verification that
    fetches it executes its one vector whatever the seed, and the verdict is
    decided by the size of the artifact's code: pass up to 100000 bytes (one
    byte with -fail) and at least one, fail otherwise, inconclusive when the
    code cannot be read. *)
Theorem phase5_bundle_verdict {GE : GoEthereum} {HL : HexutilLaws} {JC : JsonCodec} {W} {EC : EthClient W}
    {ES : Escrow W} {NW : Network W} spec failV canonical v c instr identity x now (s s1 s2 : pins * W) seed code :
  let b := phase5_bundle spec failV in
  length spec = 32%nat ->
  jcs_Transform (bytes_of_string (marshal_bundle b)) = Ok canonical ->
  (forall os, exists h, reportHashFor os = Ok h) ->
  fetchAndDecryptBundle v c instr s = (Ok b, s1) ->
  TestSeed x (i_EscrowAddress instr) (i_JobId instr) (i_Attempt instr) (i_SpecHash instr) (i_ArtifactCodeHash instr) = Ok seed ->
  CodeAt (WithTimeout c 1000) (i_ArtifactAddress instr) (i_ArtifactBlock instr) s1 = (code, s2) ->
  (forall p, code <> Panic p) ->
  buildBundle spec failV = Ok (canonical, keccak256 canonical) /\
  CanonicalizeAndHash b = Ok (canonical, keccak256 canonical) /\
  checkPublicSpecHash (PublicSpecHash b) spec = Ok tt /\
  exists verdict, run_bundle v c instr identity x now s = (Ok verdict, s2) /\
    v_Id verdict = identity /\ o_ExecutedCount (v_Result verdict) = 1 /\
    o_Outcome (v_Result verdict) =
      match code with
      | Ok l => if (1 <=? llen l) && (llen l <=? if failV then 1 else 100000) then OutcomePass else OutcomeFail
      | _ => OutcomeInconclusive
      end.
Proof.
  intros b Hspec Hjcs Hrep Hfetch Hseed Hcode Hnp. split_and!.
  - unfold buildBundle. fold b. rewrite (proj2 (Validate_iff_wf b)) by by apply phase5_bundle_wf. simpl. by rewrite Hjcs.
  - unfold CanonicalizeAndHash. by rewrite Hjcs.
  - unfold checkPublicSpecHash. subst b. cbn [phase5_bundle PublicSpecHash].
    rewrite (hexutil_Decode_hex _ spec) by apply hex_decode_encode. unfold llen. rewrite Hspec. simpl.
    unfold bne. by rewrite bool_decide_false by (intros []; done).
  - unfold run_bundle, on_error. rewrite Hfetch. unfold lift at 1. rewrite Hseed.
    unfold mbind at 1, M_bind at 1, lift at 1. change (llen (Vectors b)) with 1. change (SelectionCount b) with 1.
    rewrite select_one. unfold mbind at 1, M_bind at 1. subst b. rewrite (phase5_run_vectors _ _ _ _ _ _ _ Hcode Hnp).
    cbn beta iota zeta. cbn [l_outcomes]. unfold lift. destruct (Hrep [phase5_outcome failV code]) as (h & ->).
    unfold mret, M_ret. eexists. split; [done|]. split; [done|]. split; [done|].
    destruct code as [l| |p]; [|done|by edestruct Hnp]. simpl. by destruct (_ && _)%bool.
Qed.

(** The world of the verification flow, with this bundle behind the
    gateway. *)
Definition p5_bundle : WorkProofBundle := phase5_bundle w_spec false.
Definition p5_canonical : bytes := bytes_of_string (marshal_bundle p5_bundle).
Definition p5_codec : JsonCodec := ref_codec p5_bundle.
Definition p5_instr : WorkProofInstruction :=
  mkInstruction (Some 114) w_escrow (Some 9) 1 w_spec (keccak256 (GE := ref_geth) p5_canonical) w_ciphertext_hash w_artifact
    (Some 50) w_code_hash (Some 12) w_random_hash w_engine 2000.
Definition p5_seed : bytes :=
  Eval vm_compute in match TestSeed (GE := ref_geth) (Some 77) w_escrow (Some 9) 1 w_spec w_code_hash with Ok h => h | _ => [] end.

Theorem phase5_bundle_verdict_witness :
  buildBundle (GE := ref_geth) (JC := p5_codec) w_spec false = Ok (p5_canonical, keccak256 (GE := ref_geth) p5_canonical) /\
  CanonicalizeAndHash (GE := ref_geth) (JC := p5_codec) p5_bundle = Ok (p5_canonical, keccak256 (GE := ref_geth) p5_canonical) /\
  checkPublicSpecHash (GE := ref_geth) (PublicSpecHash p5_bundle) w_spec = Ok tt /\
  exists verdict, run_bundle (GE := ref_geth) (JC := p5_codec) w_verifier [] p5_instr (verdictIdentityFrom p5_instr [])
      (Some 77) 1000 (∅, w_world zero_hash) = (Ok verdict, (w_pins, w_world zero_hash)) /\
    v_Id verdict = verdictIdentityFrom p5_instr [] /\ o_ExecutedCount (v_Result verdict) = 1 /\
    o_Outcome (v_Result verdict) =
      match Ok w_code with
      | Ok l => if (1 <=? llen l) && (llen l <=? if false then 1 else 100000) then OutcomePass else OutcomeFail
      | _ => OutcomeInconclusive
      end.
Proof.
  apply (phase5_bundle_verdict (GE := ref_geth) (JC := p5_codec) w_spec false p5_canonical w_verifier [] p5_instr
           (verdictIdentityFrom p5_instr []) (Some 77) 1000 (∅, w_world zero_hash) (w_pins, w_world zero_hash)
           (w_pins, w_world zero_hash) p5_seed (Ok w_code)).
  - reflexivity.
  - vm_compute. reflexivity.
  - intros os. eexists. unfold reportHashFor, p5_codec, ref_codec. cbn [jcs_Transform mbind result_bind]. reflexivity.
  - vm_compute. reflexivity.
  - vm_compute. reflexivity.
  - vm_compute. reflexivity.
  - discriminate.
Defined.

(** C38. A configuration that [parseFlags] accepts is complete. Its proxy URL
    comes from the flag or from a variable of the environment, and never from
    the default http://localhost:6674, which the code reads as the name of a
    variable. Its delays are positive and increase from accept to grace. They
    become deadlines in that order, the first after the current time, when they
    are whole seconds and the last deadline is below 2^53; delays with a part
    of a second are cut, and the deadlines of an accepted configuration may
    then coincide with each other and with the current time. *)
Theorem phase5_config_complete {GE : GoEthereum} {W} {RN : Runner W} Getenv flags cfg :
  parseFlags (W := W) Getenv flags = Ok cfg ->
  (rpcURL cfg <> "" /\ proxyURL cfg <> "" /\ privKey cfg <> "" /\ teePublicX cfg <> "" /\ teePublicY cfg <> "" /\
   escrow cfg <> zero_address /\ contractor cfg <> zero_address /\ artifact cfg <> zero_address) /\
  (f_proxy flags = None -> exists k, k ∈ ["EXT_PROXY_URL"; "http://localhost:6674"] /\ proxyURL cfg = Getenv k) /\
  0 < acceptDelay cfg < submitDelay cfg /\ submitDelay cfg < graceDelay cfg /\ 0 < verifyTimeout cfg /\
  (forall now a s g, acceptDelay cfg = a * Second -> submitDelay cfg = s * Second -> graceDelay cfg = g * Second ->
   0 <= now -> now + g < 2 ^ 53 ->
   deadlines now cfg = (now + a, now + s, now + g) /\ now < now + a < now + s /\ now + s < now + g).
Proof.
  intros [Hrpc Hproxy Hkey Hx Hy He Hc Ha Hd Hs _]%parseFlags_Ok. split_and!; try done; try lia.
  - intros Hf. rewrite Hs, Hf in *. cbn [or_default firstEnv] in *.
    destruct (String.eqb_spec (Getenv "EXT_PROXY_URL") ""); cbn [negb] in *; [|eexists; split; [by left|done]].
    destruct (String.eqb_spec (Getenv "http://localhost:6674") ""); cbn [negb] in *; [done|].
    eexists; split; [by right; left|done].
  - intros now a s g Ea Es Eg Hnow Hlt. rewrite Ea, Es, Eg in Hd. unfold Second in Hd.
    unfold deadlines. rewrite Ea, Es, Eg, !whole_seconds_exact by lia.
    rewrite !uint_id by (unfold is_uint; lia). split; [done|lia].
Qed.

Definition p5_config : configValues :=
  Eval vm_compute in match parseFlags (GE := ref_geth) (W := Z) p5_env p5_flags with Ok cfg => cfg
    | _ => mkConfig "" "" [] "" [] [] "" "" 0 [] "" "" false false 0 0 0 0 0 None end.

Theorem phase5_config_complete_witness :
  (rpcURL p5_config <> "" /\ proxyURL p5_config <> "" /\ privKey p5_config <> "" /\ teePublicX p5_config <> "" /\
   teePublicY p5_config <> "" /\ escrow p5_config <> zero_address /\ contractor p5_config <> zero_address /\
   artifact p5_config <> zero_address) /\
  (f_proxy p5_flags = None -> exists k, k ∈ ["EXT_PROXY_URL"; "http://localhost:6674"] /\ proxyURL p5_config = p5_env k) /\
  0 < acceptDelay p5_config < submitDelay p5_config /\ submitDelay p5_config < graceDelay p5_config /\
  0 < verifyTimeout p5_config /\
  (forall now a s g, acceptDelay p5_config = a * Second -> submitDelay p5_config = s * Second ->
   graceDelay p5_config = g * Second -> 0 <= now -> now + g < 2 ^ 53 ->
   deadlines now p5_config = (now + a, now + s, now + g) /\ now < now + a < now + s /\ now + s < now + g).
Proof. apply (phase5_config_complete (GE := ref_geth) (W := Z) p5_env p5_flags p5_config). vm_compute. reflexivity. Defined.

(** Without the flag and the variable the run ends, and the delays of a job
    may be so close that its deadlines are equal. *)
Example p5_no_default :
  parseFlags (GE := ref_geth) (W := Z) (fun k => if String.eqb k "EXT_PROXY_URL" then "" else p5_env k) p5_flags
  = Err (Plain "missing proxy").
Proof. vm_compute. reflexivity. Qed.

Example p5_equal_deadlines :
  let flags := mkFlags None None ["0x00000000000000000000000000000000000000e5"] (Some "0x01") [] [] (Some "0x1") (Some "0x2")
                 None [] None None None None (Some 100000000) (Some 200000000) (Some 300000000) None None None in
  match parseFlags (GE := ref_geth) (W := Z) p5_env flags with Ok cfg => deadlines 1000 cfg = (1000, 1000, 1000) | _ => False end.
Proof. vm_compute. reflexivity. Qed.
