(* ===== verification/Gateway.v ===== *)
(** * The gateway (go/cmd/workproof-gateway/main.go)

    One server in front of the node's proxy and of the directory of the
    ciphertexts, and why the verifier finds there what the runner stored. *)

From S2P Require Import Prelude GoStd Config GoEth Bundle NetStd Ciphertext Encoding HttpMux Canonical WireTypes Verifier Extension Revert TeeCalls Registration Instructions LocalNode Phase5 Reference.

(** [httputil.NewSingleHostReverseProxy] and [http.FileServer] of a directory. *)
Class GatewayLib (W : Type) := {
  ReverseProxy : URL -> HttpRequest -> M W Reply;
  FileServer : string -> HttpRequest -> M W Reply;
}.

(** The server of the command, with its timeouts in milliseconds. *)
Record Gateway := mkGateway {
  gw_Addr : string;
  gw_Target : URL;
  gw_CipherDir : string;
  gw_ReadHeaderTimeout : Z;
  gw_ReadTimeout : Z;
  gw_WriteTimeout : Z;
  gw_IdleTimeout : Z;
}.

(** The cases of the handler's switch that go to the proxy. *)
Definition gateway_proxied (path : string) : bool :=
  String.eqb path "/info" || String.eqb path "/instruction" || HasPrefix path "/action/" || HasPrefix path "/wallet/" ||
  HasPrefix path "/state".

(** [r.URL.Path]. *)
Definition URL_Path (r : HttpRequest) : string := pathUnescape (rq_Path r).

Section Gateway.
Context {W : Type} {NW : Network W} {GL : GatewayLib W}.

Definition gateway_setup (listen proxyTarget cipherDir : string) : result Gateway :=
  target ← match url_Parse (W := W) proxyTarget with Err err => Err (Errorf "parse proxy target: " err) | r => r end;
  Ok (mkGateway listen target cipherDir (5 * Config.second) (30 * Config.second) (30 * Config.second) (60 * Config.second)).

Definition gateway_handler (g : Gateway) (r : HttpRequest) : M W Reply :=
  if gateway_proxied (URL_Path r) then ReverseProxy (gw_Target g) r else FileServer (gw_CipherDir g) r.

(** The handler has the pattern [/]: every request whose path is clean, of a
    method other than CONNECT. *)
Definition gateway_serve (g : Gateway) (r : HttpRequest) : M W Reply :=
  if String.eqb (rq_Path r) "*" then mret (star_reply r)
  else if negb (String.eqb (cleanPath (rq_Path r)) (rq_Path r)) then mret (moved r (cleanPath (rq_Path r)))
  else gateway_handler g r.
End Gateway.

(** ** Paths *)

Lemma TrimRight_Split s : exists k, Split s "/" = Split (TrimRight s "/") "/" ++ replicate k "".
Proof.
  induction s as [|a s [k IH]]; [by exists 0%nat|]. cbn [TrimRight Split]. rewrite IH.
  destruct (TrimRight s "/") as [|b t] eqn:E.
  - simpl. destruct (Ascii.eqb_spec a "/") as [->|Hne]; [exists (S k); done|]. exists k. simpl.
    by apply Ascii.eqb_neq in Hne as ->.
  - exists k. cbn [Split]. destruct (Ascii.eqb a "/"); [done|]. destruct (Ascii.eqb b "/"); simpl; [done|].
    by destruct (Split t "/").
Qed.

Lemma Split_app s t : Split (s +:+ String "/" t) "/" = Split s "/" ++ Split t "/".
Proof.
  induction s as [|a s IH]; [done|]. rewrite append_cons. cbn [Split]. rewrite IH.
  destruct (Ascii.eqb a "/"); [done|]. pose proof (Split_nonempty s "/"). by destruct (Split s "/").
Qed.

Lemma clean_parts_app rooted a b st :
  clean_parts rooted (a ++ b) st = clean_parts rooted b (rev (clean_parts rooted a st)).
Proof.
  revert st. induction a as [|p a IH]; intros st; simpl; [by rewrite rev_involutive|].
  repeat case_match; by rewrite IH.
Qed.

Lemma clean_parts_blank rooted k st : clean_parts rooted (replicate k "") st = rev st.
Proof. induction k; [done|]. simpl. done. Qed.

(** The file that the runner writes is the one that the gateway opens. *)
Lemma cipher_path dir name :
  dir <> "" ->
  filepath_Join [dir; String "/" name] = filepath_Clean (TrimRight dir "/" +:+ String "/" name).
Proof.
  intros Hd. unfold filepath_Join. apply String.eqb_neq in Hd as Hd'. rewrite Hd'. cbn [Join].
  unfold filepath_Clean. destruct (TrimRight_Split dir) as [k Hk].
  change (dir +:+ "/" +:+ String "/" name) with (dir +:+ String "/" (String "/" name)). rewrite !Split_app, Hk.
  change (Split (String "/" name) "/") with ("" :: Split name "/").
  rewrite !clean_parts_app, clean_parts_blank, !rev_involutive. cbn [clean_parts String.eqb orb].
  assert (HasPrefix (dir +:+ String "/" (String "/" name)) "/" = HasPrefix (TrimRight dir "/" +:+ String "/" name) "/") as ->; [|done].
  assert (forall a x, HasPrefix (String a x) "/" = bool_decide ("/"%char = a)) as Hp.
  { intros a x. unfold HasPrefix.
    change (String.prefix "/" (String a x)) with (if Ascii.ascii_dec "/" a then String.prefix "" x else false).
    destruct (Ascii.ascii_dec "/" a) as [Ha|Hn].
    - rewrite bool_decide_true by done. by destruct x.
    - by rewrite bool_decide_false. }
  destruct dir as [|a d]; [done|]. cbn [TrimRight]. destruct (TrimRight d "/") eqn:E.
  - destruct (Ascii.eqb_spec a "/") as [->|]; rewrite !append_cons, ?Hp; [|done]. by rewrite append_nil_l, Hp.
  - by rewrite !append_cons, !Hp.
Qed.

(** ** Routes *)

Lemma hex_no_prefix l p : all_chars is_hex p = false -> HasPrefix (String "/" (hex_encode l)) (String "/" p) = false.
Proof.
  intros Hp. apply not_true_iff_false. intros H%HasPrefix_inv. rewrite append_cons in H. injection H as H.
  pose proof (hex_encode_all_hex l) as Hh. rewrite H, Json.all_chars_app, Hp in Hh. discriminate Hh.
Qed.

(** A hash is no route of the proxy. *)
Lemma hash_not_proxied l : gateway_proxied (String "/" (hex_encode l)) = false.
Proof.
  unfold gateway_proxied. rewrite !hex_no_prefix by reflexivity.
  assert (forall p, all_chars is_hex p = false -> String.eqb (String "/" (hex_encode l)) (String "/" p) = false) as H.
  { intros p Hp. apply String.eqb_neq. intros [= H]. by rewrite <- H, hex_encode_all_hex in Hp. }
  by rewrite !H.
Qed.

Lemma HasPrefix_iff s p : HasPrefix s p = true <-> exists t, s = p +:+ t.
Proof. split; [intros H%HasPrefix_inv; eauto|intros [t ->]; apply HasPrefix_app]. Qed.

(** The path of a hash is clean and has no escapes. *)
Lemma hex_no_char c l : is_hex c = false -> all_chars (fun a => negb (Ascii.eqb a c)) (hex_encode l) = true.
Proof.
  intros Hc. pose proof (hex_encode_all_hex l) as H. induction (hex_encode l) as [|a s IH]; [done|]. simpl in *.
  apply andb_true_iff in H as [Ha Hs]. rewrite IH by done. rewrite andb_true_r. apply negb_true_iff, Ascii.eqb_neq. congruence.
Qed.

Lemma URL_Path_plain r : all_chars (fun a => negb (Ascii.eqb a "%")) (rq_Path r) = true -> URL_Path r = rq_Path r.
Proof. apply pathUnescape_id. Qed.

Lemma Split_no_sep s : all_chars (fun a => negb (Ascii.eqb a "/")) s = true -> Split s "/" = [s].
Proof.
  induction s as [|a s IH]; [done|]. simpl. intros [Ha%negb_true_iff Hs]%andb_true_iff. by rewrite Ha, IH.
Qed.

Lemma LastIndexByte_None s c : all_chars (fun a => negb (Ascii.eqb a c)) s = true -> LastIndexByte s c = None.
Proof. induction s as [|a s IH]; [done|]. simpl. intros [Ha%negb_true_iff Hs]%andb_true_iff. by rewrite Ha, IH. Qed.

Lemma hash_path_clean l : l <> [] -> cleanPath (String "/" (hex_encode l)) = String "/" (hex_encode l).
Proof.
  intros Hl. pose proof (hex_no_char "/" l eq_refl) as Hs. pose proof (hex_no_char "." l eq_refl) as Hd.
  assert (hex_encode l <> "") as Hne by (by destruct l). unfold cleanPath. cbn [String.eqb].
  change (HasPrefix (String "/" (hex_encode l)) "/") with (String.prefix "" (hex_encode l)).
  replace (String.prefix "" (hex_encode l)) with true by (by destruct (hex_encode l)).
  unfold HasSuffixSlash. cbn [LastIndexByte]. rewrite (LastIndexByte_None _ _ Hs). cbn [Ascii.eqb Bool.eqb].
  assert (filepath_Clean (String "/" (hex_encode l)) = String "/" (hex_encode l)) as ->.
  { unfold filepath_Clean. change (HasPrefix (String "/" (hex_encode l)) "/") with (String.prefix "" (hex_encode l)).
    replace (String.prefix "" (hex_encode l)) with true by (by destruct (hex_encode l)).
    change (Split (String "/" (hex_encode l)) "/") with ("" :: Split (hex_encode l) "/"). rewrite (Split_no_sep _ Hs).
    cbn [clean_parts String.eqb orb].
    assert (forall p, all_chars (fun a => negb (Ascii.eqb a ".")) (String "." p) = false) as Hdot by done.
    destruct (String.eqb_spec (hex_encode l) "") as [|_]; [done|].
    destruct (String.eqb_spec (hex_encode l) ".") as [E|_]; [by rewrite E in Hd|].
    destruct (String.eqb_spec (hex_encode l) "..") as [E|_]; [by rewrite E in Hd|]. done. }
  destruct (String.length (String "/" (hex_encode l))) as [|[|n]] eqn:E; [done| |done].
  simpl in E. by destruct (hex_encode l).
Qed.

Lemma String_length_app a b : String.length (a +:+ b) = (String.length a + String.length b)%nat.
Proof. induction a as [|x a IH]; [done|]. rewrite append_cons. simpl. by rewrite IH. Qed.

Lemma keccak256_nonempty {GE : GoEthereum} c : keccak256 c <> [].
Proof. intros H. pose proof (length_keccak256 c) as Hl. by rewrite H in Hl. Qed.

Lemma HasSuffixSlash_app p s : s <> "" -> all_chars (fun a => negb (Ascii.eqb a "/")) s = true -> HasSuffixSlash (p +:+ s) = false.
Proof.
  intros Hne Hs. unfold HasSuffixSlash.
  assert (forall i, LastIndexByte (p +:+ s) "/" = Some i -> (i < String.length p)%nat) as Hi.
  { induction p as [|a p IH]; intros i; [rewrite append_nil_l, (LastIndexByte_None _ _ Hs); done|].
    rewrite append_cons. cbn [LastIndexByte String.length]. destruct (LastIndexByte (p +:+ s) "/") as [k|] eqn:E.
    - intros [= <-]. specialize (IH k eq_refl). lia.
    - destruct (Ascii.eqb a "/"); [intros [= <-]; lia|done]. }
  destruct (LastIndexByte (p +:+ s) "/") as [i|]; [|done]. specialize (Hi i eq_refl). apply Nat.eqb_neq.
  rewrite String_length_app. destruct s; [done|]. simpl. lia.
Qed.

Lemma result_path_clean l : l <> [] -> cleanPath ("/action/result/0x" +:+ hex_encode l) = "/action/result/0x" +:+ hex_encode l.
Proof.
  intros Hl. pose proof (hex_no_char "/" l eq_refl) as Hs. assert (hex_encode l <> "") as Hne by (by destruct l).
  unfold cleanPath.
  change (HasPrefix ("/action/result/0x" +:+ hex_encode l) "/") with true. cbn [andb].
  change (String.eqb ("/action/result/0x" +:+ hex_encode l) "") with false. cbn iota.
  rewrite HasSuffixSlash_app by done. cbn [andb]. unfold filepath_Clean.
  change (HasPrefix ("/action/result/0x" +:+ hex_encode l) "/") with true. cbn iota.
  change (Split ("/action/result/0x" +:+ hex_encode l) "/") with
    ("" :: "action" :: "result" :: Split (String "0" (String "x" (hex_encode l))) "/").
  rewrite (Split_no_sep (String "0" (String "x" (hex_encode l)))) by done. reflexivity.
Qed.

(** ** The file system: what is written at a path is served under its name *)
Class FileStore {W} {RN : Runner W} {GL : GatewayLib W} := {
  file_at : string -> W -> option bytes;
  write_stores path c w w' : os_WriteFile path c w = (Ok tt, w') -> file_at (filepath_Clean path) w' = Some c;
  serve_file dir l r w c : rq_Method r = "GET" -> rq_Path r = String "/" (hex_encode l) ->
    file_at (filepath_Join [dir; rq_Path r]) w = Some c -> FileServer dir r w = (Ok (mkReply 200 (string_of_bytes c)), w);
}.

Lemma write_ciphertext_stores {GE : GoEthereum} {W} {RN : Runner W} {GL : GatewayLib W} {FS : FileStore} dir c (w w1 : W) :
  dir <> "" -> fst (os_Stat_IsDir dir w) = true -> write_ciphertext dir c (keccak256 c) w = (Ok tt, w1) ->
  file_at (filepath_Clean (TrimRight dir "/" +:+ String "/" (hex_encode (keccak256 c)))) w1 = Some c.
Proof.
  intros Hd Hs Hw. unfold write_ciphertext in Hw. apply String.eqb_neq in Hd. rewrite Hd in Hw.
  apply M_bind_Ok in Hw as (b & w2 & Hb & Hw). unfold total in Hb. destruct (os_Stat_IsDir dir w) as [b' w3].
  simpl in Hs. subst b'. injection Hb as <- <-. unfold checked in Hw.
  apply on_error_eq in Hw as [([] & w4 & Hw & [_ ->]%mret_eq)|[(e & w4 & _ & [[=] _]%lift_eq)|(p & _ & [=])]].
  by eapply write_stores.
Qed.

Lemma gateway_serve_clean {W} {GL : GatewayLib W} g r (w : W) :
  rq_Path r <> "*" -> cleanPath (rq_Path r) = rq_Path r -> gateway_serve g r w = gateway_handler g r w.
Proof. intros Hs%String.eqb_neq Hc. unfold gateway_serve. by rewrite Hs, Hc, String.eqb_refl. Qed.

Lemma gateway_proxied_iff path : gateway_proxied path = true <->
  path = "/info" \/ path = "/instruction" \/
  exists rest, path = "/action/" +:+ rest \/ path = "/wallet/" +:+ rest \/ path = "/state" +:+ rest.
Proof. unfold gateway_proxied. rewrite !orb_true_iff, !String.eqb_eq, !HasPrefix_iff. naive_solver. Qed.

(** ** Properties *)

(** C33. The gateway serves what the runner stored, and proxies exactly the
    paths of the tools. After the runner has written a ciphertext into the
    gateway's directory, a GET for the slash and the hash of the ciphertext,
    which is the path of the verifier's request, is answered with its bytes
    from the file, whatever the proxy would say. Of all requests with a clean
    path, those for the information, instruction, action, wallet and state
    paths are answered by the proxy to the target, among them those of the
    tools; all others are answered from the directory; and a path that is not
    clean only gets its redirect. *)
Theorem gateway_serves_ciphertext {GE : GoEthereum} {W} {RN : Runner W} {GL : GatewayLib W} {FS : FileStore} g :
  (forall c r (w w1 : W), gw_CipherDir g <> "" -> fst (os_Stat_IsDir (gw_CipherDir g) w) = true ->
     write_ciphertext (gw_CipherDir g) c (keccak256 c) w = (Ok tt, w1) ->
     rq_Method r = "GET" -> rq_Path r = String "/" (hex_encode (keccak256 c)) ->
     gateway_serve g r w1 = (Ok (mkReply 200 (string_of_bytes c)), w1)) /\
  (forall r (w : W), rq_Path r <> "*" -> cleanPath (rq_Path r) = rq_Path r ->
     (URL_Path r = "/info" \/ URL_Path r = "/instruction" \/
      (exists rest, URL_Path r = "/action/" +:+ rest \/ URL_Path r = "/wallet/" +:+ rest \/ URL_Path r = "/state" +:+ rest)) /\
       gateway_serve g r w = ReverseProxy (gw_Target g) r w \/
     ~ (URL_Path r = "/info" \/ URL_Path r = "/instruction" \/
        (exists rest, URL_Path r = "/action/" +:+ rest \/ URL_Path r = "/wallet/" +:+ rest \/ URL_Path r = "/state" +:+ rest)) /\
       gateway_serve g r w = FileServer (gw_CipherDir g) r w) /\
  (forall r (w : W), rq_Path r <> "*" -> cleanPath (rq_Path r) <> rq_Path r ->
     gateway_serve g r w = (Ok (moved r (cleanPath (rq_Path r))), w)) /\
  (forall r l (w : W), l <> [] -> rq_Path r = "/action/result/0x" +:+ hex_encode l ->
     gateway_serve g r w = ReverseProxy (gw_Target g) r w).
Proof.
  split_and!.
  - intros c r w w1 Hd Hs Hw Hm Hp. rewrite gateway_serve_clean; [|by rewrite Hp|rewrite Hp; apply hash_path_clean, keccak256_nonempty].
    unfold gateway_handler. rewrite URL_Path_plain by (rewrite Hp; apply (hex_no_char "%"); done).
    rewrite Hp, hash_not_proxied. eapply serve_file; [done|done|]. rewrite Hp, cipher_path by done.
    by eapply write_ciphertext_stores.
  - intros r w Hst Hc. rewrite gateway_serve_clean by done. unfold gateway_handler.
    destruct (gateway_proxied (URL_Path r)) eqn:E; [left|right]; (split; [|done]); [by apply gateway_proxied_iff|].
    by rewrite <- gateway_proxied_iff, E.
  - intros r w Hst%String.eqb_neq Hc%String.eqb_neq. unfold gateway_serve. by rewrite Hst, Hc.
  - intros r l w Hl Hp. rewrite gateway_serve_clean; [|by rewrite Hp|rewrite Hp; by apply result_path_clean].
    unfold gateway_handler. rewrite URL_Path_plain by (rewrite Hp; apply (hex_no_char "%"); done). rewrite Hp.
    rewrite (proj2 (gateway_proxied_iff _)); [done|]. right. right. exists ("result/0x" +:+ hex_encode l). by left.
Qed.

(** ** A file system, for witnesses *)

Abbreviation files := (gmap string bytes).

#[export] Instance files_runner : Runner files := {|
  HexToECDSA _ := Err (Plain "invalid hex data for private key");
  key_Address _ := zero_address;
  IsOnCurve _ _ := true;
  pub_Address _ := zero_address;
  NewKeyedTransactorWithChainID _ _ := Err (Plain "no chain");
  ethclient_DialURL _ := fun w => (Ok tt, w);
  client_ChainID := fun w => (Ok (Some 114), w);
  PendingNonceAt _ := fun w => (Ok 0, w);
  bc_Transact _ _ _ _ := fun w => (Err (Plain "no chain"), w);
  bc_Call _ _ _ := fun w => (Ok [], w);
  teeutils_Encrypt b _ := fun w => (Ok b, w);
  os_Stat_IsDir _ w := (true, w);
  os_WriteFile path c := fun w => (Ok tt, <[filepath_Clean path := c]> w);
|}.

#[export] Instance files_gateway : GatewayLib files := {|
  ReverseProxy _ _ := fun w => (Ok (mkReply 502 ""), w);
  FileServer dir r := fun w =>
    match (w : files) !! filepath_Join [dir; rq_Path r] with
    | Some c => (Ok (mkReply 200 (string_of_bytes c)), w)
    | None => (Ok (mkReply 404 ("404 page not found" +:+ String "010" EmptyString)), w)
    end;
|}.

#[export, refine] Instance files_store : FileStore (W := files) := {| file_at path w := w !! path |}.
Proof.
  - intros path c w w' [= <-]. apply lookup_insert_eq.
  - intros dir l r w c _ _ H. unfold FileServer, files_gateway. by rewrite H.
Defined.

Definition w_gateway : Gateway := mkGateway "127.0.0.1:7790" (mkURL "http" "127.0.0.1" "127.0.0.1:6674" "http://127.0.0.1:6674")
  "/tmp/workproof-ciphertexts/" 5000 30000 30000 60000.
Definition w_cipher : bytes := bytes_of_string "sealed".
Definition w_get : HttpRequest := mkRequest "GET" (String "/" (hex_encode (keccak256 (GE := ref_geth) w_cipher))) "" "" [] None.
Definition w_files : files := <[("/tmp/workproof-ciphertexts" +:+ rq_Path w_get) := w_cipher]> ∅.

Definition w_result : HttpRequest := mkRequest "GET" "/action/result/0x00ff" "" "" [] None.
Definition w_twice : HttpRequest := mkRequest "GET" "//action/result" "" "" [] None.

Theorem gateway_serves_ciphertext_witness :
  gateway_serve w_gateway w_get w_files = (Ok (mkReply 200 (string_of_bytes w_cipher)), w_files) /\
  gateway_serve w_gateway w_twice w_files = (Ok (moved w_twice "/action/result"), w_files) /\
  gateway_serve w_gateway w_result w_files = ReverseProxy (gw_Target w_gateway) w_result w_files.
Proof.
  split_and!.
  - apply (proj1 (gateway_serves_ciphertext (GE := ref_geth) w_gateway) w_cipher w_get ∅ w_files);
      [discriminate|reflexivity|vm_compute; reflexivity|reflexivity|reflexivity].
  - apply (proj1 (proj2 (proj2 (gateway_serves_ciphertext (GE := ref_geth) w_gateway))) w_twice w_files); [discriminate|].
    vm_compute. discriminate.
  - apply (proj2 (proj2 (proj2 (gateway_serves_ciphertext (GE := ref_geth) w_gateway))) w_result [Byte.x00; Byte.xff] w_files);
      [discriminate|reflexivity].
Defined.
